(* ===== verification/_CoqProject ===== *)
-Q . S2P
Prelude.v
CLib.v
Entity.v
Json.v
Evhttp.v
Upload.v
UploadFile.v
UploadBuffer.v
Serdes.v
CallResource.v
NodeFs.v
Mime.v
Server.v
Control.v
Static.v
Daemon.v
V4l2.v
V4l2Fs.v
Config.v
Main.v
