(* ===== verification/Prelude.v ===== *)
(** * aura-httpd: a verification library

    aura-httpd is an HTTP server in C that gives web clients access to the
    nodes of the aura RPC library, and that serves files and takes uploads.
    It runs in one thread on libevent's event loop.  Its configuration mounts
    filesystems at paths; a filesystem adds paths to libevent's callback table
    or routes what no path answers.  This library models the C sources under
    src/ as functions and proves what the parts do.

    ** The program and the files of the library

    - [Prelude] (this file): bytes, the outcome of a C function, tactics,
      lists.  [CLib]: the C library's string and number functions the sources
      use, with their lemmas.
    - [Entity] (src/entity.c): the in-place decoder of HTML entities, on the
      bytes of the block it works in.
    - [Json] (src/json-helpers.c, src/include/aura-httpd/json.h): json-c's
      values as an inductive type, its operations as the class [JsonC], and
      the lookups in a configuration object.
    - [Evhttp] (src/utils.c): what handlers do with a request is a list of
      [http_call]s; libevent's callback table is the class [CbTable], its
      input buffer the class [Evbuffer], with pointers into its chains.
    - [Upload] (src/fs_upload.c, src/include/aura-httpd/uploadfs.h): the
      receiver of multipart bodies, which uses a pointer into the input buffer
      after it has removed bytes from it, the parameters of header lines, the
      modules' interface [uploadfs_module], mounting.  [UploadFile]
      (src/fs_upload_mod_file.c, src/fs_upload_mod_debug.c) and [UploadBuffer]
      (src/fs_upload_mod_buffer.c) are its modules.
    - [Serdes] (src/serdes-json.c): format strings, JSON arguments into an aura
      buffer and a buffer into JSON.
    - [CallResource] (src/call_resource.c): the calls in progress with their
      temporary paths, and the event loop around them.
    - [NodeFs] (src/fs_node.c, src/include/aura-httpd/nodefs.h): the handlers
      of a node mountpoint; it uses [CallResource] and [Serdes].
    - [Mime] (src/mime.c): types by file extension.
    - [Server] (src/vfs.c, src/server.c): filesystems, mountpoints, the
      configuration, routing, start and end of the server.  [FsLocal] is what
      it needs of a filesystem.
    - [Control] (src/fs_control.c) and [Static] (src/fs_static.c): two
      filesystems.
    - [Daemon]: the filesystems control, node, static and upload put together;
      they satisfy [FsLocal].
    - [V4l2] (src/v4l2_read.c, src/include/aura-httpd/v4l2fs.h): the grabbers
      of the video filesystem, by read(2), with mapped buffers and with
      buffers of the program.  [V4l2Fs] (src/fs_v4l2.c) mounts the devices of
      a configuration; it satisfies [FsLocal].
    - [Config] (src/main.c, json_load_from_file of src/utils.c): the options
      of the command line and the configuration file.
    - [Main] (src/main.c): what a process does, as a program over the calls of
      libdaemon, and the processes of a machine as a step relation.  It uses
      [Config] for its settings and [Server] for the server it runs.

    ** How the code is modelled

    A C function is a function on explicit state.  A result of type
    [outcome A] is [Ok a] or the [fault] the function ends in: a read or write
    outside a block, NULL dereferenced, a block used or freed after it was
    freed, a pointer freed that is no block, a NULL function called, or aura's
    [BUG()], which logs and aborts.  A loop that is not structural takes fuel
    computed from its input; where there is one, a theorem says that
    [OutOfFuel] is not an outcome ([upload_terminates], [serdes_terminates];
    the decoder's theorem states its result; the rounds of [events_loop] are
    bounded in [events_reports_half]).  The fuel of [xioctl_loop] is the
    number of interruptions the kernel has in store, which
    [xioctl_gets_through] shows to be enough; the other loops of [V4l2] are
    recursions on a count.

    Memory is modelled where a property is about it: [Entity] and parts of
    [Upload] work on the bytes of blocks with their length; [UploadBuffer] and
    [CallResource] have a heap from addresses to live blocks, where an address
    that is not in the map is free and addresses are not used again; a
    reference count of json-c is modelled in [UploadBuffer] for the object
    whose count goes wrong, and [NodeFs] tells a NULL, a live and a dangling
    description of the exports apart.  Elsewhere values are pure and leaks are
    not modelled.

    Integers are [Z]; where the code's width matters, the wrap-around is
    written out ([Serdes.wrap], [CLib.strtoul], the casts in [Entity] and
    [Upload], the counter of the calls in [CallResource]).  [char] is a byte; lines of logging are left out, except that a
    message which reads freed memory is a use of it.  The target is LP64.

    Code that is not in src/ is a class of which the definitions take an
    instance: json-c ([JsonC], [JsonAlloc]), libevent ([CbTable], [Evbuffer],
    [UriDecode], [ServerEnv]), aura ([Urpc], [AuraBuffer], [AuraCalls],
    [AuraNode], [AuraVersion]), the allocator ([Malloc], [FsData],
    [Allocator]), the machine's file system and stdio ([Posix], [Stdio]), the
    system calls on video devices ([V4l2Kernel]), libdaemon ([Libdaemon]) and
    what an event loop makes of a server until it ends ([EventLoop]).  A
    class whose name ends in [Laws], and [Evbuffer], states documented
    behaviour, as a hypothesis of the theorems that need it.  libevent's manual
    says nothing of a pointer into a buffer that has been modified, which is
    what the receiver of uploads uses: the class [EvbufferChains] states what
    libevent 2 does there.  The theorems of [Upload] and its modules that follow a
    body through the parts rest on it, and no others.  The
    modules named [Ref...] and [...Run] hold concrete instances; the lemmas
    whose names end in [_witness] apply each theorem to them.

    [asprintf] and [calloc], where their failure is [BUG()] or never looked
    at, [hcreate_r], whose failure is never looked at, and json-c's constructors where the code does not test them, are
    taken not to fail; a test of the allocator's result in the code is a test
    in the model.  In [CallResource]
    one request is answered before the next on the same connection is read.
    The file system does not change while a request is served.

    ** What the theorems show

    - Entities: decoding gives what the specification says, within the block,
      for every string; what the encoder of code points writes is read back by
      a strict reader of UTF-8, except for surrogates, for which it is
      ill-formed; the binary search agrees with the table.
    - Uploads: on an encoded list of parts the receiver does to its module
      what the abstract specification [Upload.run_upload] says when the header
      lines of each part lie inside one chain of the input buffer, and uses a
      freed chain when they do not; it ends on every request; a file name has no slash; the file module writes only in
      its directory, whatever is sent, and stores each part; the paths of the
      buffer module lead to live buffers in every reachable state.
    - Calls: arguments and results keep their order and, up to the width of
      their field, their values; paths, lists and live calls agree in every
      reachable state of the event loop, up to the 2^31 calls after which the
      counter wraps around; the life of a call, its end and the
      cleanup are described step by step.
    - Nodes: the call paths follow the export table through any sequence of
      changes; a request of a call path that does not abort is answered once
      with an error or makes one call.
    - Video: interrupted system calls are repeated until one gets through; the
      frames are allocated and freed in balance, and a frame that is read fits
      in its block, whose size is made from the driver's answer; mounted devices have open descriptors, one for each device.
    - Processes, in every interleaving: a server runs only after the checks of
      its start; what the parent reports of its daemon holds, up to one error
      code; of the daemons with one identifier only one runs when they are
      started one after the other, while starts at the same time can take the
      PID file from a daemon that runs.  The command line and the configuration file are
      read as they are written.
    - Server: settings and mountpoints are those of the configuration; every
      path belongs to a mountpoint; a request is routed to the first match;
      a static mountpoint answers at most once.
    - The theorems that end in a [Fault] state errors of the code as it is:
      the requests or sequences of events that crash the server.

    ** What is not modelled

    Of src/main.c the help and version texts and the lines of the log, except
    those in which a parent reports on its daemon; permissions_downgrade and
    chroot, which do nothing and are not called.  A server whose creation
    fails has aborted in [BUG()], so that the branch of main for that case has
    no counterpart.  The video filesystem never delivers a frame to anyone:
    capturing ends where the code has comments.  Each video mountpoint has the
    kernel's state of its own, so [V4l2Fs] is not among the filesystems of
    [Daemon].
    src/fs_memcache.c and src/v4l2fs_thread.c are not built; src/www holds
    pages for browsers; src/tests and src/test-wrapper.c are test harness. *)

From stdpp Require Export base tactics list gmap strings.
From Stdlib Require Export ZArith Lia.
From Stdlib Require Import Strings.Byte.

#[global] Open Scope Z_scope.

(** ** Bytes *)

(** A C [char] buffer is a list of bytes; [str] turns a string literal of the
    source into the bytes the compiler puts in memory (UTF-8 for the
    non-ASCII literals of entity.c). *)
Abbreviation bytes := (list byte).

Definition str (s : string) : bytes := String.list_byte_of_string s.

#[export] Instance byte_eq_decision : EqDecision byte := Byte.byte_eq_dec.

#[export] Instance byte_inhabited : Inhabited byte := populate x00.

#[export] Program Instance byte_countable : Countable byte :=
  inj_countable Byte.to_N Byte.of_N _.
Next Obligation. intros b. apply Byte.of_to_N. Qed.

(** [(unsigned char)z]: reduction modulo 256. *)
Definition byte_of_Z (z : Z) : byte :=
  match Byte.of_N (Z.to_N (z mod 256)) with Some b => b | None => x00 end.

(** The value of a byte read as [unsigned char]. *)
Definition Z_of_byte (b : byte) : Z := Z.of_N (Byte.to_N b).

#[global] Arguments byte_of_Z : simpl never.
#[global] Arguments Z_of_byte : simpl never.

Lemma Z_of_byte_bound b : 0 <= Z_of_byte b < 256.
Proof.
  unfold Z_of_byte. pose proof (Byte.to_N_bounded b). lia.
Qed.

Lemma Z_of_byte_of_Z z : Z_of_byte (byte_of_Z z) = z mod 256.
Proof.
  pose proof (Z.mod_pos_bound z 256 ltac:(lia)) as Hb.
  unfold byte_of_Z. destruct (Byte.of_N _) as [b|] eqn:E.
  - apply Byte.to_of_N in E. unfold Z_of_byte. rewrite E. lia.
  - apply Byte.of_N_None_iff in E. lia.
Qed.

Lemma Z_of_byte_small z : 0 <= z < 256 → Z_of_byte (byte_of_Z z) = z.
Proof. intros. rewrite Z_of_byte_of_Z. by apply Z.mod_small. Qed.

Lemma byte_of_Z_of_byte b : byte_of_Z (Z_of_byte b) = b.
Proof.
  pose proof (Z_of_byte_bound b). unfold byte_of_Z.
  rewrite Z.mod_small by lia. unfold Z_of_byte. rewrite N2Z.id.
  by rewrite Byte.of_to_N.
Qed.

#[export] Instance Z_of_byte_inj : Inj (=) (=) Z_of_byte.
Proof.
  intros a b H. rewrite <-(byte_of_Z_of_byte a), <-(byte_of_Z_of_byte b).
  by rewrite H.
Qed.

Lemma Z_of_byte_neq (a b : byte) : a ≠ b → Z_of_byte a ≠ Z_of_byte b.
Proof. by intros ? ?%(inj Z_of_byte). Qed.

(** [lia] on goals about the values of distinct bytes. *)
Ltac byte_lia :=
  intros; repeat match goal with
  | H : @eq byte _ _ → False |- _ => apply Z_of_byte_neq in H
  | H : ¬ @eq byte _ _ |- _ => apply Z_of_byte_neq in H
  end; lia.

(** ** Bits *)

Lemma Z_lor_shiftl_add h n b :
  0 <= n → 0 <= b < 2 ^ n → Z.lor (Z.shiftl h n) b = h * 2 ^ n + b.
Proof.
  intros Hn Hb. rewrite <-Z.shiftl_mul_pow2 by done.
  assert (Z.land (Z.shiftl h n) b = 0) as H.
  { apply Z.bits_inj'. intros i Hi. rewrite Z.land_spec, Z.bits_0.
    destruct (Z.lt_ge_cases i n).
    - by rewrite Z.shiftl_spec_low.
    - rewrite <-(Z.mod_small b (2 ^ n)) by done.
      rewrite Z.mod_pow2_bits_high by lia. apply andb_false_r. }
  rewrite Z.add_nocarry_lxor, Z.lxor_lor by done. done.
Qed.

Lemma Z_land_ones_mod a n : 0 <= n → Z.land a (Z.ones n) = a mod 2 ^ n.
Proof. apply Z.land_ones. Qed.

(** A decidable fact about closed terms, by computation. *)
Ltac decide_vm := apply (bool_decide_unpack _); vm_compute; exact I.

(** ** Outcomes *)

(** What a C function of the program can do besides returning: touch memory
    it does not own, dereference NULL, use or free a block that is already
    free, free something that is not a heap block, call through a NULL
    function pointer, stop in aura's [BUG()] (which logs and aborts), or,
    for a fuelled loop of the model, run out of fuel. *)
Inductive fault :=
  | OutOfBounds
  | NullDeref
  | UseAfterFree
  | BadFree
  | NullCall
  | BugAbort
  | OutOfFuel.

#[export] Instance fault_eq_decision : EqDecision fault.
Proof. solve_decision. Defined.

Inductive outcome (A : Type) :=
  | Ok (a : A)
  | Fault (f : fault).
Arguments Ok {A} a.
Arguments Fault {A} f.

#[export] Instance outcome_eq_decision `{EqDecision A} : EqDecision (outcome A).
Proof. solve_decision. Defined.

#[export] Instance outcome_ret : MRet outcome := @Ok.

#[export] Instance outcome_bind : MBind outcome := λ A B f m,
  match m with Ok a => f a | Fault e => Fault e end.

#[export] Instance outcome_fmap : FMap outcome := λ A B f m,
  match m with Ok a => Ok (f a) | Fault e => Fault e end.

(** An option that C dereferences without a test. *)
Definition deref {A} (f : fault) (o : option A) : outcome A :=
  match o with Some a => Ok a | None => Fault f end.

Definition is_ok {A} (m : outcome A) : bool :=
  match m with Ok _ => true | Fault _ => false end.

Section outcome.
Context {A B : Type}.
Implicit Types m : outcome A.

Lemma bind_Ok (f : A → outcome B) a : (Ok a ≫= f) = f a.
Proof. done. Qed.

Lemma bind_Fault (f : A → outcome B) e : (Fault e ≫= f) = Fault e.
Proof. done. Qed.

Lemma bind_Ok_inv m (f : A → outcome B) b :
  (m ≫= f) = Ok b → ∃ a, m = Ok a ∧ f a = Ok b.
Proof. destruct m; simpl; [eauto|done]. Qed.

Lemma is_ok_inv m : is_ok m = true → ∃ a, m = Ok a.
Proof. destruct m; [eauto|done]. Qed.

Lemma deref_Some f (a : A) : deref f (Some a) = Ok a.
Proof. done. Qed.
End outcome.

Create HintDb ahttpd.
Create Rewrite HintDb ahttpd.
#[export] Hint Rewrite @bind_Ok @bind_Fault @deref_Some : ahttpd.

(** Invert every bind that returned. *)
Ltac inv_ok :=
  repeat match goal with
  | H : (?m ≫= _) = Ok _ |- _ =>
      let a := fresh "r" in let H1 := fresh H in
      apply bind_Ok_inv in H as (a & H1 & H)
  | H : Ok _ = Ok _ |- _ => injection H as H; subst
  | H : Fault _ = Ok _ |- _ => discriminate H
  | H : Some _ = Some _ |- _ => injection H as H; subst
  | H : (_, _) = (_, _) |- _ => injection H as H; subst
  end.

(** ** Lists *)

Section lists.
Context {A : Type}.
Implicit Types l k : list A.

(** Replacing a segment of a list, the effect of a block write. *)
Definition splice (p : nat) k l : list A := take p l ++ k ++ drop (p + length k) l.

Lemma length_splice p k l : (p + length k <= length l)%nat → length (splice p k l) = length l.
Proof. intros. unfold splice. rewrite !length_app, length_take, length_drop. lia. Qed.

Lemma take_splice p k l :
  (p + length k <= length l)%nat → take (p + length k) (splice p k l) = take p l ++ k.
Proof.
  intros. unfold splice. rewrite app_assoc, take_app_length'; [done|].
  rewrite length_app, length_take. lia.
Qed.

Lemma drop_splice_ge p k l n :
  (p + length k <= n)%nat → (p + length k <= length l)%nat →
  drop n (splice p k l) = drop n l.
Proof.
  intros Hn Hl. unfold splice. rewrite app_assoc, drop_app_ge.
  - rewrite drop_drop. f_equal. rewrite length_app, length_take. lia.
  - rewrite length_app, length_take. lia.
Qed.

Lemma splice_nil p l : splice p [] l = l.
Proof. unfold splice. simpl. rewrite Nat.add_0_r. apply take_drop. Qed.

Lemma splice_app p k1 k2 l :
  (p + length k1 + length k2 <= length l)%nat →
  splice (p + length k1) k2 (splice p k1 l) = splice p (k1 ++ k2) l.
Proof.
  intros H. unfold splice at 1. rewrite take_splice by lia.
  rewrite drop_splice_ge by lia. unfold splice. rewrite length_app.
  rewrite <-!app_assoc. do 3 f_equal. f_equal. lia.
Qed.

Lemma splice_app_0 k1 k2 l :
  (length k1 + length k2 <= length l)%nat →
  splice (length k1) k2 (splice 0 k1 l) = splice 0 (k1 ++ k2) l.
Proof. apply (splice_app 0). Qed.

(** The writes of a block in descending order of address. *)
Lemma splice_app_rev p k1 k2 l :
  (p + length k1 + length k2 <= length l)%nat →
  splice p k1 (splice (p + length k1) k2 l) = splice p (k1 ++ k2) l.
Proof.
  intros H. unfold splice.
  rewrite take_app_le by (rewrite length_take; lia). rewrite take_take.
  rewrite drop_app_length' by (rewrite length_take; lia).
  rewrite <-app_assoc, length_app, Nat.min_l by lia.
  by rewrite Nat.add_assoc.
Qed.

Lemma take_splice_le p k l n :
  (n <= p)%nat → (p <= length l)%nat → take n (splice p k l) = take n l.
Proof.
  intros Hn Hp. unfold splice. rewrite take_app_le by (rewrite length_take; lia).
  rewrite take_take. f_equal. lia.
Qed.
End lists.

(** ** Association lists *)

Section assoc.
Context `{EqDecision K} {V : Type}.

(** The first binding of a key. *)
Fixpoint assoc (k : K) (l : list (K * V)) : option V :=
  match l with
  | [] => None
  | (k', v) :: l => if decide (k' = k) then Some v else assoc k l
  end.

Lemma assoc_Some_elem k l v : assoc k l = Some v → (k, v) ∈ l.
Proof.
  induction l as [|[k' v'] l IH]; simpl; [done|]. case_decide; intros; simplify_eq.
  - apply elem_of_cons; auto.
  - apply elem_of_cons; auto.
Qed.

Lemma assoc_None k l : assoc k l = None ↔ k ∉ l.*1.
Proof.
  induction l as [|[k' v'] l IH]; simpl.
  - split; [intros _; apply not_elem_of_nil|done].
  - rewrite not_elem_of_cons. case_decide as Hk.
    + split; [done|]. intros [Hne _]. by destruct Hne.
    + rewrite IH. split; [intros ?; split; [congruence|done]|by intros [_ ?]].
Qed.

Lemma assoc_elem k v l : NoDup l.*1 → (k, v) ∈ l → assoc k l = Some v.
Proof.
  induction l as [|[k' v'] l IH]; simpl; intros Hnd Hin.
  - by apply not_elem_of_nil in Hin.
  - apply NoDup_cons in Hnd as [Hk Hnd]. apply elem_of_cons in Hin as [[= -> ->]|Hin].
    + by rewrite decide_True.
    + rewrite decide_False; [auto|]. intros ->. apply Hk.
      apply list_elem_of_fmap. by exists (k, v).
Qed.

Lemma assoc_app k l1 l2 :
  assoc k (l1 ++ l2) = match assoc k l1 with Some v => Some v | None => assoc k l2 end.
Proof.
  induction l1 as [|[k' v'] l1 IH]; simpl; [done|]. by case_decide.
Qed.
End assoc.

(** A relation on every pair of positions of a list, decided. *)
Fixpoint pairwise {A} (f : A → A → bool) (l : list A) : bool :=
  match l with
  | [] => true
  | x :: l => forallb (f x) l && pairwise f l
  end.

Lemma pairwise_lookup {A} (f : A → A → bool) l i j x y :
  pairwise f l = true → (i < j)%nat → l !! i = Some x → l !! j = Some y → f x y = true.
Proof.
  revert i j. induction l as [|z l IH]; intros i j H Hij Hi Hj; [done|].
  simpl in H. apply andb_prop in H as [Hz H]. destruct j as [|j]; [lia|].
  destruct i as [|i]; simpl in Hi, Hj; simplify_eq.
  - rewrite forallb_forall in Hz. apply Hz, list_elem_of_In. by eapply list_elem_of_lookup_2.
  - apply (IH i j); [done|lia|done|done].
Qed.

(** Boolean universal quantification reflected for concrete tables. *)
Lemma forallb_Forall {A} (f : A → bool) (P : A → Prop) l :
  (∀ x, f x = true → P x) → forallb f l = true → Forall P l.
Proof.
  intros Hf. induction l as [|x l IH]; simpl; [constructor|].
  intros [? ?]%andb_prop. constructor; auto.
Qed.
