(* ===== verification/CLib.v ===== *)
(** * The C standard library, as far as the program uses it

    Strings.  A C string is the bytes before its terminating NUL
    ([c_string]); the functions below take that content.  They are the
    functions of <string.h> and <stdlib.h> the sources call, with glibc's
    behaviour where the standard leaves a choice ([strtoul] does not set
    [errno] when no digit is found; [unsigned long] has 64 bits). *)

From stdpp Require Import pretty.
From S2P Require Import Prelude.
From Stdlib Require Import Strings.Byte.

Definition ULONG_MAX : Z := 2 ^ 64 - 1.

(** ** Strings in memory *)

(** The content of the NUL-terminated string at the head of a block, or
    [None] when the block ends before a NUL. *)
Fixpoint c_string (l : bytes) : option bytes :=
  match l with
  | [] => None
  | c :: r => if decide (c = x00) then Some [] else cons c <$> c_string r
  end.

(** A C string has no NUL inside. *)
Definition nul_free (s : bytes) : Prop := x00 ∉ s.

#[export] Instance nul_free_dec s : Decision (nul_free s).
Proof. unfold nul_free. apply _. Defined.

Lemma c_string_app s r : nul_free s → c_string (s ++ x00 :: r) = Some s.
Proof.
  unfold nul_free. induction s as [|c s IH]; intros Hs; simpl; [done|].
  apply not_elem_of_cons in Hs as [? ?]. rewrite decide_False by done.
  by rewrite IH.
Qed.

Lemma c_string_Some l s :
  c_string l = Some s → nul_free s ∧ ∃ r, l = s ++ x00 :: r.
Proof.
  unfold nul_free. revert s. induction l as [|c l IH]; intros s H; [done|].
  simpl in H. case_decide; simplify_eq.
  - split; [apply not_elem_of_nil|]. by exists l.
  - destruct (c_string l) as [s'|] eqn:E; [|done]. injection H as <-.
    destruct (IH s' eq_refl) as [Hf [r ->]]. split; [|by exists r].
    apply not_elem_of_cons; auto.
Qed.

Lemma nul_free_app s1 s2 : nul_free (s1 ++ s2) ↔ nul_free s1 ∧ nul_free s2.
Proof. unfold nul_free. rewrite elem_of_app. naive_solver. Qed.

Lemma nul_free_nil : nul_free [].
Proof. apply not_elem_of_nil. Qed.

Lemma nul_free_cons c s : nul_free (c :: s) ↔ c ≠ x00 ∧ nul_free s.
Proof. unfold nul_free. rewrite elem_of_cons. naive_solver. Qed.

Lemma nul_free_drop n s : nul_free s → nul_free (drop n s).
Proof. rewrite <-(take_drop n s) at 1. rewrite nul_free_app. tauto. Qed.

Lemma nul_free_take n s : nul_free s → nul_free (take n s).
Proof. rewrite <-(take_drop n s) at 1. rewrite nul_free_app. tauto. Qed.

(** ** Searching *)

(** [strchr]: the index of the first [c]. *)
Fixpoint strchr (s : bytes) (c : byte) : option nat :=
  match s with
  | [] => None
  | x :: r => if decide (x = c) then Some O else S <$> strchr r c
  end.

(** [strrchr]: the index of the last [c]. *)
Fixpoint strrchr (s : bytes) (c : byte) : option nat :=
  match s with
  | [] => None
  | x :: r =>
      match strrchr r c with
      | Some i => Some (S i)
      | None => if decide (x = c) then Some O else None
      end
  end.

(** Does [s] start with [p]? ([strncmp(s, p, strlen(p)) == 0].) *)
Fixpoint starts_with (p s : bytes) : bool :=
  match p, s with
  | [], _ => true
  | x :: p', y :: s' => bool_decide (x = y) && starts_with p' s'
  | _ :: _, [] => false
  end.

(** [strstr]: the index of the first occurrence of [needle]. *)
Fixpoint strstr (hay needle : bytes) : option nat :=
  if starts_with needle hay then Some O
  else match hay with [] => None | _ :: r => S <$> strstr r needle end.

Lemma strchr_Some s c i :
  strchr s c = Some i → (i < length s)%nat ∧ s !! i = Some c ∧ c ∉ take i s.
Proof.
  revert i. induction s as [|x s IH]; intros i H; [done|]. simpl in H.
  case_decide; simplify_eq.
  - simpl. split_and!; [lia|done|apply not_elem_of_nil].
  - destruct (strchr s c) as [j|]; [|done]. injection H as <-.
    destruct (IH j eq_refl) as (? & ? & ?). simpl.
    split_and!; [lia|done|]. apply not_elem_of_cons; split; congruence.
Qed.

Lemma strchr_None s c : strchr s c = None ↔ c ∉ s.
Proof.
  induction s as [|x s IH]; simpl; [split; [intros _; apply not_elem_of_nil|done]|].
  rewrite not_elem_of_cons. case_decide as Hx.
  - split; [done|]. naive_solver.
  - destruct (strchr s c); simpl; naive_solver.
Qed.

Lemma strchr_app_mid s c r : c ∉ s → strchr (s ++ c :: r) c = Some (length s).
Proof.
  induction s as [|x s IH]; intros H; simpl.
  - by rewrite decide_True.
  - apply not_elem_of_cons in H as [??]. rewrite decide_False by congruence.
    by rewrite IH.
Qed.

Lemma strchr_split s c i :
  strchr s c = Some i → s = take i s ++ c :: drop (S i) s.
Proof.
  intros H. apply strchr_Some in H as (_ & H & _). by rewrite take_drop_middle.
Qed.

Lemma strrchr_None s c : strrchr s c = None ↔ c ∉ s.
Proof.
  induction s as [|x s IH]; simpl; [split; [intros _; apply not_elem_of_nil|done]|].
  rewrite not_elem_of_cons, <-IH. destruct (strrchr s c); [naive_solver|].
  case_decide; naive_solver.
Qed.

Lemma strrchr_app_mid s c r : c ∉ r → strrchr (s ++ c :: r) c = Some (length s).
Proof.
  intros Hr%strrchr_None. induction s as [|x s IH]; simpl.
  - by rewrite Hr, decide_True.
  - by rewrite IH.
Qed.

Lemma starts_with_spec p s : starts_with p s = true ↔ p `prefix_of` s.
Proof.
  revert s. induction p as [|x p IH]; intros s; simpl.
  - split; [intros _; apply prefix_nil|done].
  - destruct s as [|y s].
    + split; [done|]. intros []. done.
    + rewrite andb_true_iff, bool_decide_eq_true, IH. split.
      * intros [-> ?]. by apply prefix_cons.
      * intros H. split; [by eapply prefix_cons_inv_1|by eapply prefix_cons_inv_2].
Qed.

Lemma strstr_Some hay needle i :
  strstr hay needle = Some i →
  (i <= length hay)%nat ∧ needle `prefix_of` drop i hay ∧
  ∀ j, (j < i)%nat → ¬ needle `prefix_of` drop j hay.
Proof.
  revert i. induction hay as [|x hay IH]; intros i H; simpl in H;
    destruct (starts_with needle _) eqn:E; simplify_eq.
  - split_and!; [simpl; lia|by apply starts_with_spec|lia].
  - split_and!; [simpl; lia|by apply starts_with_spec|lia].
  - destruct (strstr hay needle) as [k|]; [|done]. injection H as <-.
    destruct (IH k eq_refl) as (? & ? & Hmin). split_and!; [simpl; lia|done|].
    intros [|j] Hj; simpl.
    + rewrite <-starts_with_spec. congruence.
    + apply Hmin. lia.
Qed.

Lemma strstr_None hay needle :
  strstr hay needle = None → ∀ j, ¬ needle `prefix_of` drop j hay.
Proof.
  induction hay as [|x hay IH]; simpl;
    destruct (starts_with needle _) eqn:E; try done; intros H j.
  - rewrite drop_nil. rewrite <-starts_with_spec. congruence.
  - destruct j as [|j]; simpl.
    + rewrite <-starts_with_spec. congruence.
    + destruct (strstr hay needle); [done|]. by apply IH.
Qed.

(** [strncmp] on two strings: the sign of the first difference, as
    [unsigned char]. *)
Fixpoint strncmp (a b : bytes) (n : nat) : Z :=
  match n with
  | O => 0
  | S n' =>
      match a, b with
      | [], [] => 0
      | [], y :: _ => - Z_of_byte y
      | x :: _, [] => Z_of_byte x
      | x :: a', y :: b' =>
          if decide (x = y) then strncmp a' b' n' else Z_of_byte x - Z_of_byte y
      end
  end.

(** ** Tokens *)

Fixpoint span (p : byte → bool) (s : bytes) : bytes * bytes :=
  match s with
  | [] => ([], [])
  | c :: r => if p c then let sp := span p r in (c :: sp.1, sp.2) else ([], s)
  end.

Definition is_delim (delims : bytes) (c : byte) : bool := bool_decide (c ∈ delims).

(** [strtok_r]: the token, if there is one, and the text the save pointer
    is left at. *)
Definition strtok_r (s delims : bytes) : option bytes * bytes :=
  let s1 := (span (is_delim delims) s).2 in
  match s1 with
  | [] => (None, [])
  | _ :: _ =>
      let '(tok, rest) := span (λ c, negb (is_delim delims c)) s1 in
      (Some tok, drop 1 rest)
  end.

Lemma span_app p s : (span p s).1 ++ (span p s).2 = s.
Proof. induction s as [|c s IH]; simpl; [done|]. destruct (p c); simpl; congruence. Qed.

Lemma span_all p s1 c s2 :
  Forall (λ x, p x = true) s1 → p c = false → span p (s1 ++ c :: s2) = (s1, c :: s2).
Proof.
  induction 1 as [|x s1 Hx _ IH]; simpl; intros Hc.
  - by rewrite Hc.
  - rewrite Hx, (IH Hc). done.
Qed.

Lemma span_all_nil p s : Forall (λ x, p x = true) s → span p s = (s, []).
Proof. induction 1 as [|x s Hx _ IH]; simpl; [done|]. by rewrite Hx, IH. Qed.

Lemma span_1_app p s1 c s2 :
  Forall (λ x, p x = true) s1 → p c = false → (span p (s1 ++ c :: s2)).1 = s1.
Proof. intros. by rewrite span_all. Qed.

Lemma span_Forall p s : Forall (λ x, p x = true) (span p s).1.
Proof.
  induction s as [|c s IH]; simpl; [constructor|].
  destruct (p c) eqn:E; simpl; [by constructor|constructor].
Qed.

Lemma span_length p s : (length (span p s).1 <= length s)%nat.
Proof. rewrite <-(span_app p s) at 2. rewrite length_app. lia. Qed.

(** ** Numbers *)

Definition isspace (b : byte) : bool :=
  let z := Z_of_byte b in (z =? 32) || ((9 <=? z) && (z <=? 13)).

Definition digit_val (base : Z) (b : byte) : option Z :=
  let z := Z_of_byte b in
  let v := if (48 <=? z) && (z <=? 57) then Some (z - 48)
           else if (97 <=? z) && (z <=? 122) then Some (z - 87)
           else if (65 <=? z) && (z <=? 90) then Some (z - 55)
           else None in
  match v with Some d => if d <? base then Some d else None | None => None end.

Fixpoint digits (base : Z) (s : bytes) : list Z :=
  match s with
  | [] => []
  | b :: r => match digit_val base b with Some d => d :: digits base r | None => [] end
  end.

Definition digits_val (base : Z) (ds : list Z) : Z :=
  fold_left (λ acc d, acc * base + d) ds 0.

(** [strtoul(s, &tail, base)] for base 10 and 16: the value, how many bytes
    [tail] is past [s], and whether [errno] was set to ERANGE. *)
Definition strtoul (s : bytes) (base : Z) : Z * nat * bool :=
  let sp := length (span isspace s).1 in
  let s1 := drop sp s in
  let '(neg, sg) :=
    match s1 with
    | x2d :: _ => (true, 1%nat)
    | x2b :: _ => (false, 1%nat)
    | _ => (false, O)
    end in
  let s2 := drop sg s1 in
  let px :=
    match s2 with
    | x30 :: (x78 | x58) :: h :: _ =>
        if (base =? 16) && bool_decide (is_Some (digit_val 16 h)) then 2%nat else O
    | _ => O
    end in
  let ds := digits base (drop px s2) in
  match ds with
  | [] => (0, O, false)
  | _ :: _ =>
      let v := digits_val base ds in
      let n := (sp + sg + px + length ds)%nat in
      if ULONG_MAX <? v then (ULONG_MAX, n, true)
      else ((if (neg : bool) then (- v) mod 2 ^ 64 else v), n, false)
  end.

(** [atoi]: decimal, value only. *)
Definition atoi (s : bytes) : Z :=
  let s1 := (span isspace s).2 in
  match s1 with
  | x2d :: r => - digits_val 10 (digits 10 r)
  | x2b :: r => digits_val 10 (digits 10 r)
  | _ => digits_val 10 (digits 10 s1)
  end.

(** When no digit is found the value is 0; otherwise at least one byte is
    consumed. *)
Lemma strtoul_consumed s base v n e :
  strtoul s base = (v, n, e) → (n = O ∧ v = 0 ∧ e = false) ∨ (1 <= n)%nat.
Proof.
  unfold strtoul. destruct (match drop _ s with x2d :: _ => _ | _ => _ end) as [neg sg].
  destruct (digits base _) as [|d ds].
  - intros [= <- <- <-]. by left.
  - destruct (_ <? _); intros [= <- <- <-]; right; simpl; lia.
Qed.

(** [printf]'s %d, %ld and %lu of a value that fits the type. *)
Definition fmt_int (z : Z) : bytes := str (pretty z).

#[export] Instance str_inj : Inj (=) (=) str.
Proof.
  intros a b H. unfold str in H.
  rewrite <-(String.string_of_list_byte_of_string a), H.
  apply String.string_of_list_byte_of_string.
Qed.

Lemma fmt_int_inj a b : fmt_int a = fmt_int b → a = b.
Proof. intros H. apply (inj pretty). by apply (inj str). Qed.

(** What the formats print of a number that is not negative: decimal digits,
    as many as its magnitude needs. *)
Definition is_digit (b : byte) : Prop := 48 <= Z_of_byte b <= 57.

Lemma pretty_N_char_digit x : is_digit (Ascii.byte_of_ascii (pretty_N_char x)).
Proof. unfold is_digit. destruct x as [|p]; [vm_compute; split; discriminate|].
  do 4 (try destruct p as [p|p|]); vm_compute; split; discriminate. Qed.

Lemma pretty_N_go_digits k x s :
  (x < 10 ^ N.of_nat k)%N → Forall is_digit (str s) →
  Forall is_digit (str (pretty_N_go x s)) ∧
  (length (str (pretty_N_go x s)) <= k + length (str s))%nat.
Proof.
  revert x s. induction k as [|k IH]; intros x s Hx Hs.
  - replace x with 0%N by (simpl in Hx; lia). rewrite pretty_N_go_0. split; [done|lia].
  - destruct (decide (x = 0%N)) as [->|]; [rewrite pretty_N_go_0; split; [done|lia]|].
    rewrite pretty_N_go_step by lia.
    destruct (IH (x `div` 10)%N (String (pretty_N_char (x `mod` 10)) s)) as [IH1 IH2].
    + apply N.Div0.div_lt_upper_bound.
      rewrite Nat2N.inj_succ, N.pow_succ_r' in Hx. lia.
    + apply Forall_cons; split; [apply pretty_N_char_digit|done].
    + split; [done|]. change (length (str (String ?c s))) with (S (length (str s))) in IH2. lia.
Qed.

Lemma fmt_int_digits k z :
  0 <= z < 10 ^ Z.of_nat k → (0 < k)%nat →
  Forall is_digit (fmt_int z) ∧ (length (fmt_int z) <= k)%nat.
Proof.
  intros [Hz Hk] Hk0. unfold fmt_int. destruct z as [|p|p]; [|  |lia].
  - split; [apply Forall_cons; split; [vm_compute; split; discriminate|done]|simpl; lia].
  - change (pretty (Z.pos p)) with (pretty_N_go (N.pos p) "").
    destruct (pretty_N_go_digits k (N.pos p) "") as [Hd Hl]; [|constructor|].
    + apply N2Z.inj_lt. rewrite N2Z.inj_pow. change (Z.of_N 10) with 10. simpl. lia.
    + split; [done|]. change (length (str "")) with O in Hl. lia.
Qed.

Lemma fmt_int_no b k z :
  0 <= z < 10 ^ Z.of_nat k → (0 < k)%nat → ¬ is_digit b → b ∉ fmt_int z.
Proof.
  intros Hz Hk Hb Hin. destruct (fmt_int_digits k z Hz Hk) as [Hd _].
  rewrite Forall_forall in Hd. by apply Hb, Hd.
Qed.

(** Reading back what was printed. *)
Lemma pretty_N_char_val (x : N) :
  (x < 10)%N → digit_val 10 (Ascii.byte_of_ascii (pretty_N_char x)) = Some (Z.of_N x).
Proof.
  intros Hx.
  assert (x = 0 ∨ x = 1 ∨ x = 2 ∨ x = 3 ∨ x = 4 ∨ x = 5 ∨ x = 6 ∨ x = 7 ∨ x = 8 ∨ x = 9)%N
    as Hd by lia.
  by destruct_or! Hd; subst.
Qed.

Lemma pretty_N_go_val k x s r :
  (x < 10 ^ N.of_nat k)%N →
  digits_val 10 (digits 10 (str (pretty_N_go x s) ++ r)) =
    fold_left (λ acc d, acc * 10 + d) (digits 10 (str s ++ r)) (Z.of_N x).
Proof.
  revert x s. induction k as [|k IH]; intros x s Hx.
  - replace x with 0%N by (simpl in Hx; lia). by rewrite pretty_N_go_0.
  - destruct (decide (x = 0%N)) as [->|]; [by rewrite pretty_N_go_0|].
    rewrite pretty_N_go_step by lia. rewrite IH.
    + change (str (String ?c s) ++ r) with (Ascii.byte_of_ascii c :: (str s ++ r)).
      cbn [digits]. rewrite pretty_N_char_val by (apply N.mod_lt; lia). cbn [fold_left].
      f_equal. rewrite N2Z.inj_div, N2Z.inj_mod. change (Z.of_N 10) with 10.
      pose proof (Z.div_mod (Z.of_N x) 10 ltac:(lia)). lia.
    + apply N.Div0.div_lt_upper_bound.
      rewrite Nat2N.inj_succ, N.pow_succ_r' in Hx. lia.
Qed.

Lemma atoi_digit b r : is_digit b → atoi (b :: r) = digits_val 10 (digits 10 (b :: r)).
Proof.
  intros Hb. unfold atoi.
  assert (isspace b = false) as Hs by (unfold isspace, is_digit in *; lia).
  cbn [span]. rewrite Hs. cbn [snd]. destruct b; try reflexivity; destruct Hb as [Hb _]; by destruct Hb.
Qed.

Lemma atoi_fmt_int k z c r :
  0 < z < 10 ^ Z.of_nat k → digit_val 10 c = None → atoi (fmt_int z ++ c :: r) = z.
Proof.
  intros Hz Hc. assert (0 < k)%nat as Hk by (destruct k; [simpl in Hz; lia|lia]).
  destruct (fmt_int_digits k z ltac:(lia) Hk) as [Hd _].
  assert (digits_val 10 (digits 10 (fmt_int z ++ c :: r)) = z) as Hv.
  { unfold fmt_int. destruct z as [|p|p]; [lia| |lia].
    change (pretty (Z.pos p)) with (pretty_N_go (N.pos p) "").
    rewrite (pretty_N_go_val k).
    - cbn [str app String.list_byte_of_string digits]. simpl. by rewrite Hc.
    - apply N2Z.inj_lt. rewrite N2Z.inj_pow. change (Z.of_N 10) with 10.
      rewrite nat_N_Z. simpl. lia. }
  destruct (fmt_int z) as [|b s] eqn:E.
  - exfalso. simpl in Hv. rewrite Hc in Hv. unfold digits_val in Hv. simpl in Hv. lia.
  - apply Forall_cons in Hd as [Hb _]. simpl app in *. by rewrite atoi_digit.
Qed.

(** ** bsearch *)

Section bsearch.
Context {A : Type} (cmp : A → Z) (t : list A).

Fixpoint bsearch_loop (fuel l u : nat) : outcome (option A) :=
  match fuel with
  | O => Fault OutOfFuel
  | S fuel =>
      if decide (l < u)%nat then
        let idx := Nat.div2 (l + u) in
        x ← deref OutOfBounds (t !! idx);
        if cmp x <? 0 then bsearch_loop fuel l idx
        else if 0 <? cmp x then bsearch_loop fuel (S idx) u
        else Ok (Some x)
      else Ok None
  end.

Definition bsearch : outcome (option A) :=
  bsearch_loop (S (length t)) O (length t).

(** The table is sorted as [bsearch] requires: once the key does not come
    after an element, it comes before every later one. *)
Definition cmp_sorted : Prop :=
  ∀ i j x y, (i < j)%nat → t !! i = Some x → t !! j = Some y → cmp x <= 0 → cmp y < 0.

Hypothesis Hsorted : cmp_sorted.

Lemma bsearch_loop_spec fuel l u :
  (u - l < fuel)%nat → (u <= length t)%nat →
  (∀ i x, (i < l)%nat → t !! i = Some x → cmp x ≠ 0) →
  (∀ i x, (u <= i)%nat → t !! i = Some x → cmp x ≠ 0) →
  ∃ r, bsearch_loop fuel l u = Ok r ∧
    match r with
    | Some x => x ∈ t ∧ cmp x = 0
    | None => ∀ x, x ∈ t → cmp x ≠ 0
    end.
Proof.
  revert l u. induction fuel as [|fuel IH]; intros l u Hf Hu Hlo Hhi; [lia|].
  simpl. case_decide as Hlu.
  - pose proof (Nat.div2_decr (l + u) (2 * u - 1) ltac:(lia)).
    assert (l <= Nat.div2 (l + u) < u)%nat as Hidx.
    { rewrite Nat.div2_div. split; [apply Nat.div_le_lower_bound|apply Nat.Div0.div_lt_upper_bound]; lia. }
    destruct (lookup_lt_is_Some_2 t (Nat.div2 (l + u))) as [x Hx]; [lia|].
    rewrite Hx. simpl. destruct (Z.ltb_spec (cmp x) 0); [|destruct (Z.ltb_spec 0 (cmp x))].
    + apply IH; [lia|lia|done|]. intros i y Hi Hy.
      destruct (decide (i = Nat.div2 (l + u))) as [->|]; [simplify_eq; lia|].
      pose proof (Hsorted (Nat.div2 (l + u)) i x y ltac:(lia) Hx Hy ltac:(lia)). lia.
    + apply IH; [lia|lia| |done]. intros i y Hi Hy Hc.
      destruct (decide (i = Nat.div2 (l + u))) as [->|]; [simplify_eq; lia|].
      pose proof (Hsorted i (Nat.div2 (l + u)) y x ltac:(lia) Hy Hx ltac:(lia)). lia.
    + exists (Some x). split; [done|]. split; [by eapply list_elem_of_lookup_2|lia].
  - exists None. split; [done|]. intros x [i Hi]%list_elem_of_lookup_1.
    destruct (decide (i < l)%nat); eauto using Nat.lt_le_trans.
    eapply Hhi; [|done]. lia.
Qed.

Lemma bsearch_spec :
  ∃ r, bsearch = Ok r ∧
    match r with
    | Some x => x ∈ t ∧ cmp x = 0
    | None => ∀ x, x ∈ t → cmp x ≠ 0
    end.
Proof.
  apply bsearch_loop_spec; [lia|lia|lia|].
  intros i x Hi Hx. apply lookup_lt_Some in Hx. lia.
Qed.
End bsearch.

#[export] Hint Resolve nul_free_nil nul_free_drop nul_free_take prefix_nil : ahttpd.
