(* ===== verification/Entity.v ===== *)
(** * entity.c: decoding of HTML entities into UTF-8

    [decode_html_entities_utf8] works on a flat memory ([list byte]) with the
    pointers of the C code as offsets; a read or write outside the block is a
    fault.  [decode] is the specification: what the function promises to
    leave in the destination, character by character.

    The main theorem says that the in-place, pointer-chasing function writes
    exactly [decode] of its input and the terminator, touches nothing else
    and never leaves the block; the reads it makes after it has started to
    overwrite its own input still see the original text. *)

From S2P Require Import Prelude CLib.
From Stdlib Require Import Strings.Byte.

(** ** Memory *)

Abbreviation mem := (list byte).

Definition load (m : mem) (p : nat) : outcome byte := deref OutOfBounds (m !! p).

Definition store_bytes (m : mem) (p : nat) (bs : bytes) : outcome mem :=
  if decide (p + length bs <= length m)%nat then Ok (splice p bs m) else Fault OutOfBounds.

Definition store (m : mem) (p : nat) (b : byte) : outcome mem := store_bytes m p [b].

Definition load_bytes (m : mem) (p n : nat) : outcome bytes :=
  if decide (p + n <= length m)%nat then Ok (take n (drop p m)) else Fault OutOfBounds.

Definition memmove (m : mem) (dst src n : nat) : outcome mem :=
  bs ← load_bytes m src n; store_bytes m dst bs.

(** The string at an address: what [strchr], [strlen], [strtoul] read. *)
Definition cstr_at (m : mem) (p : nat) : outcome bytes :=
  deref OutOfBounds (c_string (drop p m)).

(** ** The program *)

Definition UNICODE_MAX : Z := 0x10FFFF.

Definition NAMED_ENTITIES_upper : list (bytes * bytes) := Eval vm_compute in [
  (str "AElig;", str "Æ"); (str "Aacute;", str "Á"); (str "Acirc;", str "Â");
  (str "Agrave;", str "À"); (str "Alpha;", str "Α"); (str "Aring;", str "Å");
  (str "Atilde;", str "Ã"); (str "Auml;", str "Ä"); (str "Beta;", str "Β");
  (str "Ccedil;", str "Ç"); (str "Chi;", str "Χ"); (str "Dagger;", str "‡");
  (str "Delta;", str "Δ"); (str "ETH;", str "Ð"); (str "Eacute;", str "É");
  (str "Ecirc;", str "Ê"); (str "Egrave;", str "È"); (str "Epsilon;", str "Ε");
  (str "Eta;", str "Η"); (str "Euml;", str "Ë"); (str "Gamma;", str "Γ"); (str "Iacute;", str "Í");
  (str "Icirc;", str "Î"); (str "Igrave;", str "Ì"); (str "Iota;", str "Ι");
  (str "Iuml;", str "Ï"); (str "Kappa;", str "Κ"); (str "Lambda;", str "Λ"); (str "Mu;", str "Μ");
  (str "Ntilde;", str "Ñ"); (str "Nu;", str "Ν"); (str "OElig;", str "Œ");
  (str "Oacute;", str "Ó"); (str "Ocirc;", str "Ô"); (str "Ograve;", str "Ò");
  (str "Omega;", str "Ω"); (str "Omicron;", str "Ο"); (str "Oslash;", str "Ø");
  (str "Otilde;", str "Õ"); (str "Ouml;", str "Ö"); (str "Phi;", str "Φ"); (str "Pi;", str "Π");
  (str "Prime;", str "″"); (str "Psi;", str "Ψ"); (str "Rho;", str "Ρ"); (str "Scaron;", str "Š");
  (str "Sigma;", str "Σ"); (str "THORN;", str "Þ"); (str "Tau;", str "Τ"); (str "Theta;", str "Θ");
  (str "Uacute;", str "Ú"); (str "Ucirc;", str "Û"); (str "Ugrave;", str "Ù");
  (str "Upsilon;", str "Υ"); (str "Uuml;", str "Ü"); (str "Xi;", str "Ξ");
  (str "Yacute;", str "Ý"); (str "Yuml;", str "Ÿ"); (str "Zeta;", str "Ζ")
].

Definition NAMED_ENTITIES_a_m : list (bytes * bytes) := Eval vm_compute in [
  (str "aacute;", str "á"); (str "acirc;", str "â"); (str "acute;", str "´");
  (str "aelig;", str "æ"); (str "agrave;", str "à"); (str "alefsym;", str "ℵ");
  (str "alpha;", str "α"); (str "amp;", str "&"); (str "and;", str "∧"); (str "ang;", str "∠");
  (str "apos;", str "'"); (str "aring;", str "å"); (str "asymp;", str "≈");
  (str "atilde;", str "ã"); (str "auml;", str "ä"); (str "bdquo;", str "„");
  (str "beta;", str "β"); (str "brvbar;", str "¦"); (str "bull;", str "•"); (str "cap;", str "∩");
  (str "ccedil;", str "ç"); (str "cedil;", str "¸"); (str "cent;", str "¢"); (str "chi;", str "χ");
  (str "circ;", str "ˆ"); (str "clubs;", str "♣"); (str "cong;", str "≅"); (str "copy;", str "©");
  (str "crarr;", str "↵"); (str "cup;", str "∪"); (str "curren;", str "¤"); (str "dArr;", str "⇓");
  (str "dagger;", str "†"); (str "darr;", str "↓"); (str "deg;", str "°"); (str "delta;", str "δ");
  (str "diams;", str "♦"); (str "divide;", str "÷"); (str "eacute;", str "é");
  (str "ecirc;", str "ê"); (str "egrave;", str "è"); (str "empty;", str "∅");
  (str "emsp;", [xe2; x80; x83]); (str "ensp;", [xe2; x80; x82]); (str "epsilon;", str "ε");
  (str "equiv;", str "≡"); (str "eta;", str "η"); (str "eth;", str "ð"); (str "euml;", str "ë");
  (str "euro;", str "€"); (str "exist;", str "∃"); (str "fnof;", str "ƒ");
  (str "forall;", str "∀"); (str "frac12;", str "½"); (str "frac14;", str "¼");
  (str "frac34;", str "¾"); (str "frasl;", str "⁄"); (str "gamma;", str "γ"); (str "ge;", str "≥");
  (str "gt;", str ">"); (str "hArr;", str "⇔"); (str "harr;", str "↔"); (str "hearts;", str "♥");
  (str "hellip;", str "…"); (str "iacute;", str "í"); (str "icirc;", str "î");
  (str "iexcl;", str "¡"); (str "igrave;", str "ì"); (str "image;", str "ℑ");
  (str "infin;", str "∞"); (str "int;", str "∫"); (str "iota;", str "ι"); (str "iquest;", str "¿");
  (str "isin;", str "∈"); (str "iuml;", str "ï"); (str "kappa;", str "κ"); (str "lArr;", str "⇐");
  (str "lambda;", str "λ"); (str "lang;", str "〈"); (str "laquo;", str "«");
  (str "larr;", str "←"); (str "lceil;", str "⌈"); (str "ldquo;", str "“"); (str "le;", str "≤");
  (str "lfloor;", str "⌊"); (str "lowast;", str "∗"); (str "loz;", str "◊");
  (str "lrm;", [xe2; x80; x8e]); (str "lsaquo;", str "‹"); (str "lsquo;", str "‘");
  (str "lt;", str "<"); (str "macr;", str "¯"); (str "mdash;", str "—"); (str "micro;", str "µ");
  (str "middot;", str "·"); (str "minus;", str "−"); (str "mu;", str "μ"); (str "nabla;", str "∇")
].

Definition NAMED_ENTITIES_n_z : list (bytes * bytes) := Eval vm_compute in [
  (str "nbsp;", [xc2; xa0]); (str "ndash;", str "–"); (str "ne;", str "≠"); (str "ni;", str "∋");
  (str "not;", str "¬"); (str "notin;", str "∉"); (str "nsub;", str "⊄"); (str "ntilde;", str "ñ");
  (str "nu;", str "ν"); (str "oacute;", str "ó"); (str "ocirc;", str "ô"); (str "oelig;", str "œ");
  (str "ograve;", str "ò"); (str "oline;", str "‾"); (str "omega;", str "ω");
  (str "omicron;", str "ο"); (str "oplus;", str "⊕"); (str "or;", str "∨"); (str "ordf;", str "ª");
  (str "ordm;", str "º"); (str "oslash;", str "ø"); (str "otilde;", str "õ");
  (str "otimes;", str "⊗"); (str "ouml;", str "ö"); (str "para;", str "¶"); (str "part;", str "∂");
  (str "permil;", str "‰"); (str "perp;", str "⊥"); (str "phi;", str "φ"); (str "pi;", str "π");
  (str "piv;", str "ϖ"); (str "plusmn;", str "±"); (str "pound;", str "£");
  (str "prime;", str "′"); (str "prod;", str "∏"); (str "prop;", str "∝"); (str "psi;", str "ψ");
  (str "quot;", [x22]); (str "rArr;", str "⇒"); (str "radic;", str "√"); (str "rang;", str "〉");
  (str "raquo;", str "»"); (str "rarr;", str "→"); (str "rceil;", str "⌉");
  (str "rdquo;", str "”"); (str "real;", str "ℜ"); (str "reg;", str "®"); (str "rfloor;", str "⌋");
  (str "rho;", str "ρ"); (str "rlm;", [xe2; x80; x8f]); (str "rsaquo;", str "›");
  (str "rsquo;", str "’"); (str "sbquo;", str "‚"); (str "scaron;", str "š");
  (str "sdot;", str "⋅"); (str "sect;", str "§"); (str "shy;", [xc2; xad]);
  (str "sigma;", str "σ"); (str "sigmaf;", str "ς"); (str "sim;", str "∼");
  (str "spades;", str "♠"); (str "sub;", str "⊂"); (str "sube;", str "⊆"); (str "sum;", str "∑");
  (str "sup1;", str "¹"); (str "sup2;", str "²"); (str "sup3;", str "³"); (str "sup;", str "⊃");
  (str "supe;", str "⊇"); (str "szlig;", str "ß"); (str "tau;", str "τ"); (str "there4;", str "∴");
  (str "theta;", str "θ"); (str "thetasym;", str "ϑ"); (str "thinsp;", [xe2; x80; x89]);
  (str "thorn;", str "þ"); (str "tilde;", str "˜"); (str "times;", str "×");
  (str "trade;", str "™"); (str "uArr;", str "⇑"); (str "uacute;", str "ú");
  (str "uarr;", str "↑"); (str "ucirc;", str "û"); (str "ugrave;", str "ù"); (str "uml;", str "¨");
  (str "upsih;", str "ϒ"); (str "upsilon;", str "υ"); (str "uuml;", str "ü");
  (str "weierp;", str "℘"); (str "xi;", str "ξ"); (str "yacute;", str "ý"); (str "yen;", str "¥");
  (str "yuml;", str "ÿ"); (str "zeta;", str "ζ"); (str "zwj;", [xe2; x80; x8d]);
  (str "zwnj;", [xe2; x80; x8c])
].
Definition NAMED_ENTITIES : list (bytes * bytes) :=
  NAMED_ENTITIES_upper ++ NAMED_ENTITIES_a_m ++ NAMED_ENTITIES_n_z.

Definition cmp (key : bytes) (value : bytes * bytes) : Z :=
  strncmp key value.1 (length value.1).

Definition get_named_entity (name : bytes) : outcome (option bytes) :=
  entity ← bsearch (cmp name) NAMED_ENTITIES;
  Ok (option_map snd entity).

Definition putc_utf8 (cp : Z) (m : mem) (buffer : nat) : outcome (nat * mem) :=
  if cp <=? 0x7F then
    m ← store m buffer (byte_of_Z cp);
    Ok (1%nat, m)
  else if cp <=? 0x7FF then
    m ← store m (buffer + 1) (byte_of_Z (Z.lor (Z.shiftl 2 6) (Z.land cp 0x3F)));
    m ← store m buffer (byte_of_Z (Z.lor (Z.shiftl 6 5) (Z.shiftr cp 6)));
    Ok (2%nat, m)
  else if cp <=? 0xFFFF then
    m ← store m (buffer + 2) (byte_of_Z (Z.lor (Z.shiftl 2 6) (Z.land cp 0x3F)));
    m ← store m (buffer + 1) (byte_of_Z (Z.lor (Z.shiftl 2 6) (Z.land (Z.shiftr cp 6) 0x3F)));
    m ← store m buffer (byte_of_Z (Z.lor (Z.shiftl 14 4) (Z.shiftr cp 12)));
    Ok (3%nat, m)
  else if cp <=? 0x10FFFF then
    m ← store m (buffer + 3) (byte_of_Z (Z.lor (Z.shiftl 2 6) (Z.land cp 0x3F)));
    m ← store m (buffer + 2) (byte_of_Z (Z.lor (Z.shiftl 2 6) (Z.land (Z.shiftr cp 6) 0x3F)));
    m ← store m (buffer + 1) (byte_of_Z (Z.lor (Z.shiftl 2 6) (Z.land (Z.shiftr cp 12) 0x3F)));
    m ← store m buffer (byte_of_Z (Z.lor (Z.shiftl 30 3) (Z.shiftr cp 18)));
    Ok (4%nat, m)
  else Ok (O, m).

(** The boolean result, the memory, and the new values of *[to] and *[from]. *)
Definition parse_entity (m : mem) (current to from : nat)
    : outcome (bool * mem * nat * nat) :=
  s ← cstr_at m current;
  match strchr s ";"%byte with
  | None => Ok (false, m, to, from)
  | Some i =>
      let end_ := (current + i)%nat in
      c1 ← load m (current + 1);
      if decide (c1 = "#"%byte) then
        c2 ← load m (current + 2);
        let hex := bool_decide (c2 = "x"%byte ∨ c2 = "X"%byte) in
        let nptr := (current + if hex then 3 else 2)%nat in
        digits_text ← cstr_at m nptr;
        let '(cp, n, erange) := strtoul digits_text (if hex then 16 else 10) in
        let tail := (nptr + n)%nat in
        let fail := erange || bool_decide (tail ≠ end_) || (UNICODE_MAX <? cp) in
        if (fail : bool) then Ok (false, m, to, from)
        else
          r ← putc_utf8 cp m to;
          Ok (true, r.2, to + r.1, end_ + 1)%nat
      else
        name ← cstr_at m (current + 1);
        entity ← get_named_entity name;
        match entity with
        | None => Ok (false, m, to, from)
        | Some entity =>
            m ← store_bytes m to entity;
            Ok (true, m, to + length entity, end_ + 1)%nat
        end
  end.

(** The [for] loop: each round finds the next ampersand. *)
Fixpoint decode_loop (fuel : nat) (m : mem) (to from : nat) : outcome (mem * nat * nat) :=
  match fuel with
  | O => Fault OutOfFuel
  | S fuel =>
      s ← cstr_at m from;
      match strchr s "&"%byte with
      | None => Ok (m, to, from)
      | Some i =>
          let current := (from + i)%nat in
          m ← memmove m to from i;
          let to := (to + i)%nat in
          r ← parse_entity m current to from;
          let '(parsed, m, to, from) := r in
          if (parsed : bool) then decode_loop fuel m to from
          else
            let from := current in
            c ← load m from;
            m ← store m to c;
            decode_loop fuel m (to + 1) (from + 1)
      end
  end.

(** [src = None] is the NULL source: decode in place.  The returned number is
    the C return value; [length m] rounds are enough because every round
    advances [from] inside the block. *)
Definition decode_html_entities_utf8 (m : mem) (dest : nat) (src : option nat)
    : outcome (mem * nat) :=
  let src := match src with None => dest | Some p => p end in
  r ← decode_loop (S (length m)) m dest src;
  let '(m, to, from) := r in
  s ← cstr_at m from;
  let remaining := length s in
  m ← memmove m to from remaining;
  let to := (to + remaining)%nat in
  m ← store m to x00;
  Ok (m, to - dest)%nat.

(** ** Specification *)

(** UTF-8 (RFC 3629's bit distribution, without its exclusion of the
    surrogates: the code does not have it). *)
Definition utf8 (cp : Z) : bytes :=
  if cp <=? 0x7F then [byte_of_Z cp]
  else if cp <=? 0x7FF then
    [byte_of_Z (0xC0 + cp / 2 ^ 6); byte_of_Z (0x80 + cp mod 2 ^ 6)]
  else if cp <=? 0xFFFF then
    [byte_of_Z (0xE0 + cp / 2 ^ 12); byte_of_Z (0x80 + cp / 2 ^ 6 mod 2 ^ 6);
     byte_of_Z (0x80 + cp mod 2 ^ 6)]
  else
    [byte_of_Z (0xF0 + cp / 2 ^ 18); byte_of_Z (0x80 + cp / 2 ^ 12 mod 2 ^ 6);
     byte_of_Z (0x80 + cp / 2 ^ 6 mod 2 ^ 6); byte_of_Z (0x80 + cp mod 2 ^ 6)].

(** The text [t] after an ampersand: the bytes a reference at its head stands
    for and how much of [t] the reference takes, semicolon included. *)
Definition entity_ref (t : bytes) : option (bytes * nat) :=
  match strchr t ";"%byte with
  | None => None
  | Some e =>
      if decide (head t = Some "#"%byte) then
        let hex := bool_decide (t !! 1%nat = Some "x"%byte ∨ t !! 1%nat = Some "X"%byte) in
        let off := if hex then 2%nat else 1%nat in
        let '(cp, n, erange) := strtoul (drop off t) (if hex then 16 else 10) in
        if erange || bool_decide ((off + n)%nat ≠ e) || (UNICODE_MAX <? cp) then None
        else Some (utf8 cp, S e)
      else (λ v, (v, S e)) <$> assoc (take (S e) t) NAMED_ENTITIES
  end.

Fixpoint decode_fuel (fuel : nat) (s : bytes) : bytes :=
  match fuel with
  | O => []
  | S fuel =>
      match s with
      | [] => []
      | c :: t =>
          if decide (c = "&"%byte) then
            match entity_ref t with
            | Some (bs, k) => bs ++ decode_fuel fuel (drop k t)
            | None => c :: decode_fuel fuel t
            end
          else c :: decode_fuel fuel t
      end
  end.

Definition decode (s : bytes) : bytes := decode_fuel (length s) s.

(** ** Memory lemmas *)

Lemma cstr_at_Ok m p s :
  cstr_at m p = Ok s ↔ nul_free s ∧ ∃ r, drop p m = s ++ x00 :: r.
Proof.
  unfold cstr_at. split.
  - destruct (c_string (drop p m)) as [s'|] eqn:E; [|done]. intros [= <-].
    by apply c_string_Some.
  - intros [Hs [r Hr]]. rewrite Hr, c_string_app by done. done.
Qed.

Lemma cstr_at_drop m p s k :
  cstr_at m p = Ok s → (k <= length s)%nat → cstr_at m (p + k) = Ok (drop k s).
Proof.
  rewrite !cstr_at_Ok. intros [Hs [r Hr]] Hk. split; [auto with ahttpd|].
  exists r. rewrite <-drop_drop, Hr, drop_app_le by done. done.
Qed.

Lemma load_cstr m p s i c :
  cstr_at m p = Ok s → s !! i = Some c → load m (p + i) = Ok c.
Proof.
  rewrite cstr_at_Ok. intros [_ [r Hr]] Hi. unfold load.
  rewrite <-lookup_drop, Hr, lookup_app_l by (by eapply lookup_lt_Some).
  by rewrite Hi.
Qed.

Lemma load_cstr_nul m p s : cstr_at m p = Ok s → load m (p + length s) = Ok x00.
Proof.
  rewrite cstr_at_Ok. intros [_ [r Hr]]. unfold load.
  by rewrite <-lookup_drop, Hr, list_lookup_middle.
Qed.

Lemma cstr_at_room m p s : cstr_at m p = Ok s → (p + length s + 1 <= length m)%nat.
Proof.
  rewrite cstr_at_Ok. intros [_ [r Hr]].
  apply (f_equal length) in Hr. rewrite length_drop, length_app in Hr. simpl in Hr. lia.
Qed.

Lemma store_bytes_Ok m p bs :
  (p + length bs <= length m)%nat → store_bytes m p bs = Ok (splice p bs m).
Proof. intros. unfold store_bytes. by rewrite decide_True. Qed.

Lemma store_Ok m p b : (p + 1 <= length m)%nat → store m p b = Ok (splice p [b] m).
Proof. intros. by apply store_bytes_Ok. Qed.

Lemma memmove_cstr m dst p s n :
  cstr_at m p = Ok s → (n <= length s)%nat → (dst + n <= length m)%nat →
  memmove m dst p n = Ok (splice dst (take n s) m).
Proof.
  intros Hs Hn Hd. pose proof (cstr_at_room _ _ _ Hs).
  apply cstr_at_Ok in Hs as [_ [r Hr]]. unfold memmove, load_bytes.
  rewrite decide_True by lia. rewrite Hr, take_app_le by lia.
  autorewrite with ahttpd. apply store_bytes_Ok. rewrite length_take. lia.
Qed.

(** [ready m to from rest]: the bytes from [from] on are the string [rest],
    there is room for its decoding at [to], and writing at [to] no more than
    what is read at [from] cannot destroy what is still to be read. *)
Record ready (m : mem) (to from : nat) (rest : bytes) : Prop := {
  ready_str : cstr_at m from = Ok rest;
  ready_room : (to + length rest + 1 <= length m)%nat;
  ready_sep : (to <= from)%nat ∨ (from + length rest + 1 <= to)%nat
}.

Lemma cstr_at_splice_before m p s to bs :
  cstr_at m p = Ok s → (p + length s + 1 <= to)%nat → (to <= length m)%nat →
  cstr_at (splice to bs m) p = Ok s.
Proof.
  rewrite !cstr_at_Ok. intros [Hs [r Hr]] Hp Hto. split; [done|].
  assert (drop p (take to m) = s ++ x00 :: take (to - p - length s - 1) r) as E.
  { rewrite skipn_firstn_comm, Hr, take_app, take_ge by lia. f_equal.
    destruct (to - p - length s)%nat eqn:E; [lia|]. simpl. by rewrite Nat.sub_0_r. }
  unfold splice. rewrite drop_app_le by (rewrite length_take; lia).
  rewrite E, <-app_assoc. simpl. eauto.
Qed.

Lemma ready_advance m to from rest k bs :
  ready m to from rest → (k <= length rest)%nat → (length bs <= k)%nat →
  store_bytes m to bs = Ok (splice to bs m) ∧
  ready (splice to bs m) (to + length bs) (from + k) (drop k rest).
Proof.
  intros [Hs Hroom Hsep] Hk Hbs. split; [apply store_bytes_Ok; lia|].
  split; rewrite ?length_drop, ?length_splice by lia; [|lia|lia].
  destruct Hsep as [Hle|Hge].
  - pose proof (cstr_at_drop _ _ _ k Hs Hk) as Hd. unfold cstr_at in *.
    by rewrite drop_splice_ge by lia.
  - apply cstr_at_splice_before; [by apply cstr_at_drop|rewrite length_drop; lia|lia].
Qed.

(** ** The entity table *)

(** [k1] is less than [k2] at the first byte where they differ, and they do
    differ before either ends. *)
Fixpoint diff_lt (k1 k2 : bytes) : bool :=
  match k1, k2 with
  | x :: a, y :: b => if decide (x = y) then diff_lt a b else Z_of_byte x <? Z_of_byte y
  | _, _ => false
  end.

Lemma diff_lt_irrefl k : diff_lt k k = false.
Proof. induction k as [|x k IH]; simpl; [done|]. by rewrite decide_True. Qed.

Lemma Z_of_byte_pos b : b ≠ x00 → 0 < Z_of_byte b.
Proof.
  intros H. pose proof (Z_of_byte_bound b).
  assert (Z_of_byte b ≠ 0); [|lia].
  intros E. apply H. by apply (inj Z_of_byte).
Qed.

Lemma strncmp_diff_lt s k1 k2 :
  diff_lt k1 k2 = true → nul_free k2 →
  strncmp s k1 (length k1) <= 0 → strncmp s k2 (length k2) < 0.
Proof.
  revert s k2. induction k1 as [|x a IH]; intros s [|y b] Hd Hn; try done.
  apply nul_free_cons in Hn as [Hy Hn]. apply Z_of_byte_pos in Hy.
  destruct s as [|c s]; simpl in *; [lia|].
  case_decide as Hxy; [subst y|]; repeat case_decide; subst; eauto; byte_lia.
Qed.

Lemma strncmp_prefix s k :
  nul_free k → strncmp s k (length k) = 0 ↔ k `prefix_of` s.
Proof.
  revert s. induction k as [|y k IH]; intros s Hn.
  - split; [intros _; apply prefix_nil|by destruct s].
  - apply nul_free_cons in Hn as [Hy%Z_of_byte_pos Hn]. destruct s as [|c s]; simpl.
    + split; [lia|]. intros [? [=]].
    + case_decide as Hc; [subst c|].
      * rewrite IH by done. split; [apply prefix_cons|apply prefix_cons_inv_2].
      * split; [|by intros ->%prefix_cons_inv_1].
        byte_lia.
Qed.

(** What the binary search and the pointer arithmetic need of each row. *)
Definition row_ok (row : bytes * bytes) : bool :=
  let '(k, v) := row in
  bool_decide (strchr k ";"%byte = Some (pred (length k))) &&
  bool_decide (nul_free k) &&
  match k with c :: _ => bool_decide (c ≠ "#"%byte) | [] => false end &&
  bool_decide (length v <= S (length k))%nat.

Lemma NAMED_ENTITIES_rows : forallb row_ok NAMED_ENTITIES = true.
Proof. vm_compute. reflexivity. Qed.

Lemma NAMED_ENTITIES_pairwise :
  pairwise (λ r1 r2, diff_lt r1.1 r2.1) NAMED_ENTITIES = true.
Proof. vm_compute. reflexivity. Qed.

#[local] Opaque NAMED_ENTITIES.

Lemma NAMED_ENTITIES_row k v :
  (k, v) ∈ NAMED_ENTITIES →
  strchr k ";"%byte = Some (pred (length k)) ∧ nul_free k ∧
  (∃ c r, k = c :: r ∧ c ≠ "#"%byte) ∧ (length v <= S (length k))%nat.
Proof.
  intros Hin. pose proof NAMED_ENTITIES_rows as H. rewrite forallb_forall in H.
  specialize (H (k, v) ltac:(by apply list_elem_of_In)). unfold row_ok in H.
  rewrite !andb_true_iff, !bool_decide_eq_true in H.
  destruct H as [[[? ?] Hc] ?]. split_and!; try done.
  destruct k as [|c r]; [done|]. rewrite bool_decide_eq_true in Hc. eauto.
Qed.

Lemma NAMED_ENTITIES_sorted name : cmp_sorted (cmp name) NAMED_ENTITIES.
Proof.
  intros i j [k1 v1] [k2 v2] Hij Hi Hj.
  pose proof (pairwise_lookup _ _ _ _ _ _ NAMED_ENTITIES_pairwise Hij Hi Hj) as Hlt.
  unfold cmp. apply strncmp_diff_lt; [done|].
  by eapply NAMED_ENTITIES_row, list_elem_of_lookup_2.
Qed.

Lemma NAMED_ENTITIES_NoDup : NoDup NAMED_ENTITIES.*1.
Proof.
  apply NoDup_alt. intros i j k Hi Hj.
  rewrite list_lookup_fmap in Hi, Hj.
  destruct (NAMED_ENTITIES !! i) as [[k1 v1]|] eqn:E1; [|done].
  destruct (NAMED_ENTITIES !! j) as [[k2 v2]|] eqn:E2; [|done].
  simplify_eq/=. destruct (Nat.lt_total i j) as [Hij|[Hij|Hij]]; [|done|];
    [pose proof (pairwise_lookup _ _ _ _ _ _ NAMED_ENTITIES_pairwise Hij E1 E2) as H
    |pose proof (pairwise_lookup _ _ _ _ _ _ NAMED_ENTITIES_pairwise Hij E2 E1) as H];
    simpl in H; by rewrite diff_lt_irrefl in H.
Qed.

(** A row's name is a prefix of the text exactly when it is the text up to
    its first semicolon. *)
Lemma NAMED_ENTITIES_prefix k v t e :
  (k, v) ∈ NAMED_ENTITIES → strchr t ";"%byte = Some e →
  k `prefix_of` t ↔ k = take (S e) t.
Proof.
  intros (Hk & _ & (c & r & Hc & _) & _)%NAMED_ENTITIES_row He.
  apply strchr_Some in Hk as (Hlt & Hk & Hkn). apply strchr_Some in He as (Het & He & Hen).
  split.
  - intros [u ->]. rewrite lookup_app in He. rewrite take_app.
    destruct (decide (e < length k)%nat) as [Hek|Hek].
    + assert (e = pred (length k)) as ->.
      { rewrite take_app_le in Hen by lia.
        destruct (lookup_lt_is_Some_2 k e) as [b Hb]; [done|]. rewrite Hb in He.
        destruct (decide (e < pred (length k))%nat) as [Hl|]; [|lia].
        destruct Hkn. simplify_eq. apply (list_elem_of_lookup_2 _ e).
        by rewrite lookup_take_lt. }
      rewrite take_ge by lia. replace (S (pred (length k)) - length k)%nat with O by lia.
      by rewrite app_nil_r.
    + exfalso. apply Hen. rewrite take_app. apply elem_of_app. left.
      rewrite take_ge by lia. by eapply list_elem_of_lookup_2.
  - intros ->. apply prefix_take.
Qed.

Lemma get_named_entity_assoc t e :
  strchr t ";"%byte = Some e →
  get_named_entity t = Ok (assoc (take (S e) t) NAMED_ENTITIES).
Proof.
  intros He. unfold get_named_entity.
  destruct (bsearch_spec _ _ (NAMED_ENTITIES_sorted t)) as ([[k v]|] & -> & Hr);
    autorewrite with ahttpd; f_equal; simpl.
  - destruct Hr as [Hin Hz]. symmetry. unfold cmp in Hz. simpl in Hz.
    pose proof (NAMED_ENTITIES_row _ _ Hin) as (_ & Hn & _ & _).
    rewrite strncmp_prefix in Hz by done.
    rewrite (NAMED_ENTITIES_prefix _ _ _ _ Hin He) in Hz. subst k.
    by apply assoc_elem, Hin; apply NAMED_ENTITIES_NoDup.
  - symmetry. destruct (assoc _ _) as [v|] eqn:E; [|done].
    apply assoc_Some_elem in E. exfalso. apply (Hr _ E). unfold cmp. simpl.
    apply strncmp_prefix; [by eapply NAMED_ENTITIES_row|].
    eapply NAMED_ENTITIES_prefix; eauto.
Qed.

(** ** The steps of the decoder *)

(** Storing a byte just below a block already written. *)
Lemma store_splice_below m p q b k :
  q = (p + 1)%nat → (p + 1 + length k <= length m)%nat →
  store (splice q k m) p b = Ok (splice p (b :: k) m).
Proof.
  intros -> H. rewrite store_Ok by (rewrite length_splice; lia).
  by rewrite (splice_app_rev p [b] k) by (simpl; lia).
Qed.

Lemma putc_utf8_spec cp m p :
  0 <= cp <= UNICODE_MAX → (p + length (utf8 cp) <= length m)%nat →
  putc_utf8 cp m p = Ok (length (utf8 cp), splice p (utf8 cp) m).
Proof.
  unfold UNICODE_MAX, putc_utf8, utf8. intros Hcp.
  change 0x3F with (Z.ones 6). rewrite !Z_land_ones_mod by lia.
  rewrite !Z.shiftr_div_pow2 by lia.
  assert (∀ x, Z.lor (Z.shiftl 2 6) (x mod 2 ^ 6) = 0x80 + x mod 2 ^ 6) as Hlow.
  { intros x. apply Z_lor_shiftl_add; [lia|]. apply Z.mod_pos_bound. lia. }
  assert (∀ h n k, 0 <= n → 0 <= k → cp < 2 ^ k * 2 ^ n →
    Z.lor (Z.shiftl h n) (cp / 2 ^ k) = h * 2 ^ n + cp / 2 ^ k) as Hhigh.
  { intros h n k Hn Hk Hlt. apply Z_lor_shiftl_add; [done|].
    split; [apply Z.div_pos|apply Z.div_lt_upper_bound]; lia. }
  rewrite !Hlow.
  repeat case_match; simpl; intros Hm; rewrite ?Z.leb_le, ?Z.leb_gt in *;
    [by rewrite store_Ok|rewrite (Hhigh 6 5)|rewrite (Hhigh 14 4)|rewrite (Hhigh 30 3)|lia]; try lia;
    rewrite store_Ok by lia; simpl;
    repeat (rewrite store_splice_below by (simpl; lia); simpl); done.
Qed.

(** ** The specification, case by case *)

Lemma entity_ref_bounds t bs k :
  entity_ref t = Some (bs, k) → (k <= length t)%nat ∧ (length bs <= S k)%nat.
Proof.
  unfold entity_ref. destruct (strchr t _) as [e|] eqn:He; [|done].
  apply strchr_Some in He as (Hlt & He & _). intros H.
  assert (∀ v, assoc (take (S e) t) NAMED_ENTITIES = Some v → (length v <= S (S e))%nat) as Hv.
  { intros v Hin%assoc_Some_elem. apply NAMED_ENTITIES_row in Hin as (_ & _ & _ & Hl).
    rewrite length_take in Hl. lia. }
  assert (∀ o : option bytes, (λ v, (v, S e)) <$> o = Some (bs, k) →
    o = Some bs ∧ k = S e) as Hmap by (intros [v|]; simpl; naive_solver).
  case_decide; [|apply Hmap in H as [H ->]; apply Hv in H; lia].
  assert (1 <= if bool_decide (t !! 1%nat = Some "x"%byte ∨ t !! 1%nat = Some "X"%byte)
    then 2 else 1)%nat as Hoff by (destruct (bool_decide _); lia).
  revert Hoff H. generalize (if bool_decide
    (t !! 1%nat = Some "x"%byte ∨ t !! 1%nat = Some "X"%byte) then 2%nat else 1%nat).
  intros off Hoff H. destruct (strtoul _ _) as [[v n] er] eqn:Hst. apply strtoul_consumed in Hst.
  destruct (er || _ || _) eqn:Hc; [done|]. injection H as <- <-. split; [lia|].
  apply orb_false_elim in Hc as [[_ Hn]%orb_false_elim _].
  rewrite bool_decide_eq_false in Hn.
  destruct Hst as [(-> & -> & ->)|Hn1]; [simpl; lia|].
  unfold utf8. repeat case_match; simpl; lia.
Qed.

Lemma decode_fuel_enough s n m :
  (length s <= n)%nat → (length s <= m)%nat → decode_fuel n s = decode_fuel m s.
Proof.
  revert s m. induction n as [|n IH]; intros [|c t] [|m] Hn Hm; simpl in *; try done; try lia.
  case_decide; [|f_equal; apply IH; lia].
  destruct (entity_ref t) as [[bs k]|] eqn:E; [|f_equal; apply IH; lia].
  apply entity_ref_bounds in E as [??]. f_equal. apply IH; rewrite length_drop; lia.
Qed.

Lemma decode_nil : decode [] = [].
Proof. done. Qed.

Lemma decode_other c t : c ≠ "&"%byte → decode (c :: t) = c :: decode t.
Proof. intros. unfold decode. simpl. by rewrite decide_False. Qed.

Lemma decode_ref t bs k :
  entity_ref t = Some (bs, k) → decode ("&"%byte :: t) = bs ++ decode (drop k t).
Proof.
  intros H. unfold decode. simpl. rewrite H. f_equal.
  apply decode_fuel_enough; rewrite length_drop; lia.
Qed.

Lemma decode_no_ref t : entity_ref t = None → decode ("&"%byte :: t) = "&"%byte :: decode t.
Proof. intros H. unfold decode. simpl. by rewrite H. Qed.

Lemma decode_app_plain s t : "&"%byte ∉ s → decode (s ++ t) = s ++ decode t.
Proof.
  induction s as [|c s IH]; intros H; [done|].
  apply not_elem_of_cons in H as [??]. simpl. rewrite decode_other, IH by done. done.
Qed.

#[local] Hint Rewrite decode_nil : ahttpd.

(** ** The decoder meets its specification *)

Lemma strtoul_nonneg s base : 0 <= base → 0 <= (strtoul s base).1.1.
Proof.
  intros Hb. unfold strtoul.
  destruct (match drop _ s with x2d :: _ => _ | _ => _ end) as [neg sg].
  destruct (digits base _) as [|d ds] eqn:E; [done|]. rewrite <-E. clear E.
  assert (∀ l a, 0 <= a → 0 <= fold_left (λ acc d, acc * base + d) (digits base l) a) as H.
  { induction l as [|b l IH]; intros a Ha; simpl; [done|].
    unfold digit_val. repeat case_match; simplify_eq; simpl; try done; apply IH; lia. }
  match goal with |- context [digits base ?l] => specialize (H l 0 ltac:(lia)) end.
  destruct (_ <? _); simpl; [done|].
  destruct neg; [|exact H]. apply Z.mod_pos_bound. lia.
Qed.

Lemma cstr_at_load_opt m p s i c :
  cstr_at m p = Ok s → (i <= length s)%nat → c ≠ x00 →
  ∃ b, load m (p + i) = Ok b ∧ (b = c ↔ s !! i = Some c).
Proof.
  intros Hs Hi Hc. destruct (decide (i = length s)) as [->|].
  - exists x00. split; [by eapply load_cstr_nul|].
    rewrite lookup_ge_None_2 by lia. split; congruence.
  - destruct (lookup_lt_is_Some_2 s i) as [b Hb]; [lia|].
    exists b. split; [by eapply load_cstr|]. rewrite Hb. split; congruence.
Qed.

Lemma head_lookup_0 {A} (l : list A) : head l = l !! O.
Proof. by destruct l. Qed.

Lemma parse_entity_spec m current to from t :
  ready m to current ("&"%byte :: t) →
  parse_entity m current to from =
    Ok match entity_ref t with
       | Some (bs, k) => (true, splice to bs m, (to + length bs)%nat, (current + S k)%nat)
       | None => (false, m, to, from)
       end.
Proof.
  intros [Hs Hroom Hsep]. unfold parse_entity. rewrite Hs. simpl.
  pose proof (entity_ref_bounds t) as Hbounds. unfold entity_ref in *.
  destruct (strchr t ";"%byte) as [e|] eqn:He; simpl; [|done].
  pose proof (strchr_Some _ _ _ He) as (Hlt & _ & _). simpl in Hroom.
  pose proof (cstr_at_drop _ _ _ 1 Hs ltac:(simpl; lia)) as Ht. simpl in Ht.
  rewrite drop_0 in Ht.
  destruct (cstr_at_load_opt m (current + 1) t 0 "#"%byte Ht) as (c1 & Hc1 & H1); [lia|done|].
  rewrite Nat.add_0_r in Hc1. rewrite Hc1, head_lookup_0. simpl.
  destruct (decide (c1 = "#"%byte)) as [->|Hn1].
  - rewrite decide_True by tauto. rewrite decide_True in Hbounds by (rewrite head_lookup_0; tauto).
    destruct (cstr_at_load_opt m (current + 1) t 1 "x"%byte Ht) as (c2 & Hc2 & Hx); [lia|done|].
    destruct (cstr_at_load_opt m (current + 1) t 1 "X"%byte Ht) as (c2' & Hc2' & HX); [lia|done|].
    rewrite Hc2 in Hc2'. injection Hc2' as <-.
    replace (current + 2)%nat with (current + 1 + 1)%nat by lia. rewrite Hc2. simpl.
    rewrite (bool_decide_ext _ (t !! 1%nat = Some "x"%byte ∨ t !! 1%nat = Some "X"%byte)) by tauto.
    set (off := if bool_decide (t !! 1%nat = Some "x"%byte ∨ t !! 1%nat = Some "X"%byte)
                then 2%nat else 1%nat) in *.
    assert (off <= length t)%nat as Hoff.
    { unfold off. case_bool_decide as Hhex; [|lia].
      destruct Hhex as [Hhex|Hhex]; apply lookup_lt_Some in Hhex; lia. }
    assert (cstr_at m (current + if bool_decide (t !! 1%nat = Some "x"%byte ∨ t !! 1%nat = Some "X"%byte)
                then 3 else 2) = Ok (drop off t)) as ->.
    { rewrite <-(cstr_at_drop _ _ _ off Ht Hoff). f_equal. unfold off.
      destruct (bool_decide _); lia. }
    simpl. set (base := if bool_decide _ then 16 else 10) in *.
    pose proof (strtoul_nonneg (drop off t) base ltac:(unfold base; destruct (bool_decide _); lia)) as Hcp.
    destruct (strtoul (drop off t) base) as [[cp n] er]. simpl in Hcp.
    rewrite (bool_decide_ext _ ((off + n)%nat ≠ e))
      by (unfold off; destruct (bool_decide _); lia).
    destruct (er || _ || _) eqn:Hf; [done|].
    apply orb_false_elim in Hf as [_ Hmax]. apply Z.ltb_ge in Hmax.
    destruct (Hbounds _ _ eq_refl) as [_ Hl].
    rewrite putc_utf8_spec by (try done; lia). simpl. do 2 f_equal. lia.
  - rewrite decide_False by tauto. rewrite decide_False in Hbounds by (rewrite head_lookup_0; tauto).
    rewrite Ht. simpl. rewrite (get_named_entity_assoc _ _ He). simpl.
    destruct (assoc _ _) as [v|]; simpl in *; [|done].
    destruct (Hbounds _ _ eq_refl) as [_ Hl].
    rewrite store_bytes_Ok by lia. simpl. do 2 f_equal. lia.
Qed.

(** One ampersand is dealt with: what was output, and that the invariant
    holds for the rest of the text. *)
Lemma decode_step m to from i rest :
  ready m to from rest → strchr rest "&"%byte = Some i →
  ∃ out k, (i < k <= length rest)%nat ∧ (length out <= k)%nat ∧
    decode rest = out ++ decode (drop k rest) ∧
    ∀ fuel, decode_loop (S fuel) m to from =
      decode_loop fuel (splice to out m) (to + length out) (from + k).
Proof.
  intros Hr Hi. pose proof (strchr_Some _ _ _ Hi) as (Hlt & Hch & Hpre).
  pose proof (strchr_split _ _ _ Hi) as Hsplit. set (t := drop (S i) rest) in *.
  assert (drop i rest = "&"%byte :: t) as Hdrop by (by apply drop_S).
  assert (length (take i rest) = i) as Hli by (rewrite length_take; lia).
  destruct (ready_advance m to from rest i (take i rest) Hr) as [_ Hr1]; [lia|lia|].
  rewrite Hdrop, Hli in Hr1.
  assert (∀ fuel, decode_loop (S fuel) m to from =
    (r ← parse_entity (splice to (take i rest) m) (from + i) (to + i) from;
     let '(parsed, m, to, from0) := r in
     if (parsed : bool) then decode_loop fuel m to from0
     else c ← load m (from + i);
          m ← store m to c;
          decode_loop fuel m (to + 1) (from + i + 1))) as Hloop.
  { intros fuel. simpl. rewrite (ready_str _ _ _ _ Hr). simpl. rewrite Hi.
    rewrite (memmove_cstr m to from rest i) by (destruct Hr; done || lia). done. }
  assert (decode rest = take i rest ++ decode ("&"%byte :: t)) as Hdec.
  { rewrite Hsplit at 1. by apply decode_app_plain. }
  pose proof (ready_room _ _ _ _ Hr) as Hroom.
  setoid_rewrite Hloop. rewrite (parse_entity_spec _ _ _ from t Hr1). simpl.
  destruct (entity_ref t) as [[bs k]|] eqn:E.
  - pose proof (entity_ref_bounds _ _ _ E) as [Hk Hbs]. unfold t in Hk.
    rewrite length_drop in Hk. exists (take i rest ++ bs), (i + S k)%nat.
    rewrite length_app, Hli. split_and!; [lia|lia|lia| |].
    + rewrite Hdec, (decode_ref _ _ _ E), <-app_assoc. unfold t. rewrite drop_drop.
      do 4 f_equal. lia.
    + intros fuel. rewrite <-splice_app, Hli by lia. f_equal; lia.
  - exists (take i rest ++ ["&"%byte]), (i + 1)%nat.
    rewrite length_app, Hli. simpl. split_and!; [lia|lia|lia| |].
    + rewrite Hdec, (decode_no_ref _ E), <-app_assoc. simpl. unfold t. do 4 f_equal. lia.
    + intros fuel. rewrite <-(Nat.add_0_r (from + i)) at 1.
      rewrite (load_cstr _ _ _ 0 "&"%byte (ready_str _ _ _ _ Hr1) eq_refl). simpl.
      rewrite store_Ok by (rewrite length_splice; lia). simpl.
      rewrite <-splice_app, Hli by (simpl; lia). f_equal; lia.
Qed.

Lemma decode_loop_spec fuel m to from rest :
  ready m to from rest → (length rest < fuel)%nat →
  ∃ out k, (length out <= k <= length rest)%nat ∧
    decode rest = out ++ drop k rest ∧
    decode_loop fuel m to from = Ok (splice to out m, (to + length out)%nat, (from + k)%nat).
Proof.
  revert m to from rest. induction fuel as [|fuel IH]; intros m to from rest Hr Hf; [lia|].
  destruct (strchr rest "&"%byte) as [i|] eqn:Hi.
  - destruct (decode_step _ _ _ _ _ Hr Hi) as (out & k & Hk & Hout & Hdec & Hloop).
    destruct (ready_advance _ _ _ _ k out Hr) as [_ Hr']; [lia|lia|].
    destruct (IH _ _ _ _ Hr') as (out' & k' & Hk' & Hdec' & Hloop').
    { rewrite length_drop. lia. }
    rewrite length_drop in Hk'. exists (out ++ out'), (k + k')%nat. rewrite length_app.
    split_and!; [lia|lia| |].
    + rewrite Hdec, Hdec', <-app_assoc, drop_drop. done.
    + rewrite Hloop, Hloop', splice_app by (destruct Hr; lia).
      do 2 f_equal; [f_equal|]; lia.
  - exists [], O. simpl. split_and!; [lia|lia| |].
    + rewrite drop_0, <-(app_nil_r rest) at 1. rewrite decode_app_plain by (by apply strchr_None).
      by rewrite decode_nil, app_nil_r.
    + rewrite (ready_str _ _ _ _ Hr). simpl. rewrite Hi, splice_nil. do 2 f_equal; [f_equal|]; lia.
Qed.

Lemma decode_length s : (length (decode s) <= length s)%nat.
Proof.
  unfold decode. cut (∀ n s, (length s <= n → length (decode_fuel n s) <= length s)%nat); [by auto|].
  clear s. intros n. induction n as [|n IH]; intros [|c t] Hn; simpl in *; try lia.
  case_decide; [|specialize (IH t); simpl; lia].
  destruct (entity_ref t) as [[bs k]|] eqn:E; [|specialize (IH t); simpl; lia].
  apply entity_ref_bounds in E as [??]. specialize (IH (drop k t)).
  rewrite length_app, length_drop in *. lia.
Qed.

Lemma decode_html_entities_utf8_ready m dest src s :
  ready m dest (match src with None => dest | Some p => p end) s →
  decode_html_entities_utf8 m dest src =
    Ok (splice dest (decode s ++ [x00]) m, length (decode s)).
Proof.
  intros Hr. unfold decode_html_entities_utf8. set (p := match src with None => _ | _ => _ end) in *.
  pose proof (ready_room _ _ _ _ Hr) as Hroom.
  destruct (decode_loop_spec (S (length m)) m dest p s Hr) as (out & k & Hk & Hdec & ->).
  { lia. }
  destruct (ready_advance _ _ _ _ k out Hr) as [_ Hr']; [lia|lia|]. simpl.
  rewrite (ready_str _ _ _ _ Hr'). simpl.
  rewrite (memmove_cstr _ _ _ _ _ (ready_str _ _ _ _ Hr')) by
    (rewrite ?length_splice, ?length_drop by lia; rewrite ?length_drop; lia).
  rewrite (take_ge (drop k s)) by lia. simpl.
  rewrite splice_app by (rewrite length_drop; lia). rewrite <-Hdec.
  assert (length (decode s) = length out + length (drop k s))%nat as Hlen
    by (by rewrite Hdec, length_app).
  rewrite length_drop in *.
  rewrite store_Ok by (rewrite length_splice; lia). simpl.
  replace (dest + length out + (length s - k))%nat with (dest + length (decode s))%nat by lia.
  rewrite splice_app by (simpl; lia). do 2 f_equal. lia.
Qed.

(** ** A reference UTF-8 reader *)

Definition surrogate (cp : Z) : bool := (0xD800 <=? cp) && (cp <=? 0xDFFF).

(** What RFC 3629 requires of a sequence that is meant for the code points
    from [min] on: it is not overlong, and not a surrogate. *)
Definition scalar (min cp : Z) (r : bytes) : option (Z * bytes) :=
  if (min <=? cp) && (cp <=? 0x10FFFF) && negb (surrogate cp) then Some (cp, r) else None.

(** The code point at the head of a byte string, by lead-byte ranges; ill-formed
    sequences are refused. *)
Definition utf8_head (s : bytes) : option (Z * bytes) :=
  let cont b := if (0x80 <=? Z_of_byte b) && (Z_of_byte b <? 0xC0)
                then Some (Z_of_byte b - 0x80) else None in
  match s with
  | [] => None
  | b0 :: r =>
      let z := Z_of_byte b0 in
      if z <? 0x80 then Some (z, r)
      else if z <? 0xC0 then None
      else if z <? 0xE0 then
        match r with
        | b1 :: r => c1 ← cont b1; scalar 0x80 ((z - 0xC0) * 2 ^ 6 + c1) r
        | _ => None
        end
      else if z <? 0xF0 then
        match r with
        | b1 :: b2 :: r =>
            c1 ← cont b1; c2 ← cont b2; scalar 0x800 ((z - 0xE0) * 2 ^ 12 + c1 * 2 ^ 6 + c2) r
        | _ => None
        end
      else
        match r with
        | b1 :: b2 :: b3 :: r =>
            c1 ← cont b1; c2 ← cont b2; c3 ← cont b3;
            scalar 0x10000 ((z - 0xF0) * 2 ^ 18 + c1 * 2 ^ 12 + c2 * 2 ^ 6 + c3) r
        | _ => None
        end
  end.

Lemma scalar_eq min cp cp' r :
  cp' = cp → min <= cp <= 0x10FFFF →
  scalar min cp' r = if surrogate cp then None else Some (cp, r).
Proof.
  intros -> [Hmin Hmax]. unfold scalar. rewrite (proj2 (Z.leb_le _ _) Hmin), (proj2 (Z.leb_le _ _) Hmax).
  by destruct (surrogate cp).
Qed.

Lemma utf8_head_utf8 cp r :
  0 <= cp <= UNICODE_MAX →
  utf8_head (utf8 cp ++ r) = if surrogate cp then None else Some (cp, r).
Proof.
  unfold UNICODE_MAX, utf8. intros Hcp.
  pose proof (Z.mod_pos_bound cp 64 ltac:(lia)).
  pose proof (Z.mod_pos_bound (cp / 64) 64 ltac:(lia)).
  pose proof (Z.mod_pos_bound (cp / 4096) 64 ltac:(lia)).
  pose proof (Z.div_mod cp 64 ltac:(lia)) as D1.
  pose proof (Z.div_mod (cp / 64) 64 ltac:(lia)) as D2.
  pose proof (Z.div_mod (cp / 4096) 64 ltac:(lia)) as D3.
  rewrite Z.div_div in D2 by lia. rewrite Z.div_div in D3 by lia.
  change (64 * 64) with 4096 in D2. change (4096 * 64) with 262144 in D3.
  change (2 ^ 6) with 64. change (2 ^ 12) with 4096. change (2 ^ 18) with 262144.
  destruct (Z.leb_spec cp 0x7F); [|destruct (Z.leb_spec cp 0x7FF);
    [|destruct (Z.leb_spec cp 0xFFFF)]];
    unfold utf8_head; cbn [app]; repeat rewrite Z_of_byte_small by lia;
    repeat (match goal with
      | |- context [?a <? ?b] => destruct (Z.ltb_spec a b); try lia
      | |- context [?a <=? ?b] => destruct (Z.leb_spec a b); try lia
      end; cbn [andb mbind option_bind]); try (apply scalar_eq; lia).
  unfold surrogate. by rewrite (proj2 (Z.leb_gt _ _)) by lia.
Qed.

(** ** Escaping *)

(** What a client does to a file name before it puts it in a header: the
    inverse the decoder is there for. *)
Definition escape_byte (c : byte) : bytes :=
  if decide (c = "&"%byte) then str "&amp;"
  else if decide (c = "<"%byte) then str "&lt;"
  else if decide (c = ">"%byte) then str "&gt;"
  else if decide (c = x22) then str "&quot;"
  else [c].

Definition escape (s : bytes) : bytes := s ≫= escape_byte.

Lemma entity_ref_named k v t :
  (k, v) ∈ NAMED_ENTITIES → entity_ref (k ++ t) = Some (v, length k).
Proof.
  intros Hin. pose proof (NAMED_ENTITIES_row _ _ Hin) as (Hk & _ & (c & r & Hcr & Hc) & _).
  pose proof (strchr_split _ _ _ Hk) as Hs. pose proof (strchr_Some _ _ _ Hk) as (Hl & _ & Hn).
  assert (S (pred (length k)) = length k) as HS by lia.
  rewrite HS, drop_all in Hs. unfold entity_ref.
  rewrite Hs at 1. rewrite <-app_assoc. simpl. rewrite strchr_app_mid by done.
  rewrite length_take, Nat.min_l, HS by lia.
  rewrite decide_False by (rewrite Hcr; simpl; congruence).
  rewrite take_app_length, (assoc_elem k v) by (done || apply NAMED_ENTITIES_NoDup). done.
Qed.

Lemma decode_named k v t :
  (k, v) ∈ NAMED_ENTITIES → decode ("&"%byte :: k ++ t) = v ++ decode t.
Proof.
  intros Hin. rewrite (decode_ref _ v (length k)) by (by apply entity_ref_named).
  by rewrite drop_app_length.
Qed.

Lemma NAMED_ENTITIES_elem k v :
  bool_decide ((k, v) ∈ NAMED_ENTITIES) = true → (k, v) ∈ NAMED_ENTITIES.
Proof. apply bool_decide_eq_true. Qed.

Lemma decode_escape s : decode (escape s) = s.
Proof.
  induction s as [|c s IH]; [done|]. change (escape (c :: s)) with (escape_byte c ++ escape s).
  assert (∀ k v, bool_decide ((k, v) ∈ NAMED_ENTITIES) = true →
    decode (("&"%byte :: k) ++ escape s) = v ++ s) as Hn.
  { intros k v Hkv%NAMED_ENTITIES_elem. simpl. by rewrite (decode_named k v), IH. }
  unfold escape_byte. repeat case_decide; subst.
  - apply (Hn (str "amp;") [x26]). by vm_compute.
  - apply (Hn (str "lt;") [x3c]). by vm_compute.
  - apply (Hn (str "gt;") [x3e]). by vm_compute.
  - apply (Hn (str "quot;") [x22]). by vm_compute.
  - rewrite decode_app_plain, IH; [done|]. by apply not_elem_of_cons; auto using not_elem_of_nil.
Qed.

Lemma escape_nul_free s : nul_free s → nul_free (escape s).
Proof.
  induction s as [|c s IH]; [done|].
  change (escape (c :: s)) with (escape_byte c ++ escape s). intros [Hc Hs]%nul_free_cons. apply nul_free_app. split; [|auto].
  unfold escape_byte. repeat case_decide; try decide_vm.
  apply nul_free_cons. split; [done|apply nul_free_nil].
Qed.

(** ** Theorems *)

(** C1: [decode_html_entities_utf8] refines [decode].  For a string [s] at
    the source pointer and a destination that is the source itself (the NULL
    source), lies below it (overlapping or not) or beyond its terminator, with
    room for strlen(s) + 1 bytes, the function terminates without leaving the
    block, writes exactly the decoded text and its NUL at the destination and
    nothing else, and returns the decoded length, which is at most
    strlen(s). *)
Theorem decode_html_entities_utf8_correct m dest src s :
  let from := match src with None => dest | Some p => p end in
  cstr_at m from = Ok s →
  (dest <= from ∨ from + length s + 1 <= dest)%nat →
  (dest + length s + 1 <= length m)%nat →
  decode_html_entities_utf8 m dest src =
    Ok (splice dest (decode s ++ [x00]) m, length (decode s)) ∧
  (length (decode s) <= length s)%nat.
Proof.
  intros from Hs Hsep Hroom. split; [|apply decode_length].
  apply decode_html_entities_utf8_ready. by split.
Qed.

Lemma decode_html_entities_utf8_correct_witness :
  decode_html_entities_utf8 (str "a&lt;b" ++ [x00]) 0 None =
    Ok (splice 0 (decode (str "a&lt;b") ++ [x00]) (str "a&lt;b" ++ [x00]),
        length (decode (str "a&lt;b"))) ∧
  (length (decode (str "a&lt;b")) <= length (str "a&lt;b"))%nat.
Proof.
  apply (decode_html_entities_utf8_correct (str "a&lt;b" ++ [x00]) 0 None (str "a&lt;b")).
  - vm_compute. reflexivity.
  - left. apply le_n.
  - vm_compute. lia.
Defined.

(** C32: the binary search with prefix comparison finds an entity exactly when
    the text starts with the name of one, and the row found is the only such
    row. *)
Theorem get_named_entity_correct name e :
  strchr name ";"%byte = Some e →
  ∃ r, get_named_entity name = Ok r ∧
    ∀ v, r = Some v ↔ ∃ k, (k, v) ∈ NAMED_ENTITIES ∧ k `prefix_of` name.
Proof.
  intros He. exists (assoc (take (S e) name) NAMED_ENTITIES).
  split; [by apply get_named_entity_assoc|]. intros v. split.
  - intros Hin%assoc_Some_elem. exists (take (S e) name). split; [done|apply prefix_take].
  - intros (k & Hin & Hk). rewrite (NAMED_ENTITIES_prefix _ _ _ _ Hin He) in Hk. subst k.
    by apply assoc_elem, Hin; apply NAMED_ENTITIES_NoDup.
Qed.

Lemma get_named_entity_correct_witness :
  ∃ r, get_named_entity (str "sup;x") = Ok r ∧
    ∀ v, r = Some v ↔ ∃ k, (k, v) ∈ NAMED_ENTITIES ∧ k `prefix_of` (str "sup;x").
Proof.
  apply (get_named_entity_correct (str "sup;x") 3). vm_compute. reflexivity.
Defined.

(** C33: [putc_utf8] writes, for every code point [parse_entity] lets
    through, a sequence that a strict UTF-8 reader (RFC 3629: neither overlong
    forms nor surrogates nor values past U+10FFFF) reads back as the code
    point, unless the code point is a surrogate: [parse_entity] lets those
    through too, and what is written for them is ill-formed.  The number of
    bytes is reported. *)
Theorem putc_utf8_roundtrip cp m p r :
  0 <= cp <= UNICODE_MAX → (p + 4 <= length m)%nat →
  ∃ bs, putc_utf8 cp m p = Ok (length bs, splice p bs m) ∧
    (1 <= length bs <= 4)%nat ∧
    utf8_head (bs ++ r) = if surrogate cp then None else Some (cp, r).
Proof.
  intros Hcp Hm. assert (1 <= length (utf8 cp) <= 4)%nat as Hl
    by (unfold utf8; repeat case_match; simpl; lia).
  exists (utf8 cp). split_and!; [|lia|lia|by apply utf8_head_utf8].
  apply putc_utf8_spec; [done|lia].
Qed.

(** The euro sign, the last code point of one byte, and a surrogate. *)
Lemma putc_utf8_roundtrip_witness :
  (∃ bs, putc_utf8 0x20AC (repeat x00 6) 1 = Ok (length bs, splice 1 bs (repeat x00 6)) ∧
    (1 <= length bs <= 4)%nat ∧ utf8_head (bs ++ str "z") = Some (0x20AC, str "z")) ∧
  (∃ bs, putc_utf8 0x7F (repeat x00 6) 1 = Ok (length bs, splice 1 bs (repeat x00 6)) ∧
    (1 <= length bs <= 4)%nat ∧ utf8_head (bs ++ str "z") = Some (0x7F, str "z")) ∧
  (∃ bs, putc_utf8 0xD800 (repeat x00 6) 1 = Ok (length bs, splice 1 bs (repeat x00 6)) ∧
    (1 <= length bs <= 4)%nat ∧ utf8_head (bs ++ str "z") = None).
Proof.
  split_and!.
  - apply (putc_utf8_roundtrip 0x20AC (repeat x00 6) 1 (str "z")); vm_compute; intuition congruence || lia.
  - apply (putc_utf8_roundtrip 0x7F (repeat x00 6) 1 (str "z")); vm_compute; intuition congruence || lia.
  - apply (putc_utf8_roundtrip 0xD800 (repeat x00 6) 1 (str "z")); vm_compute; intuition congruence || lia.
Defined.

(** A numeric reference to a surrogate is decoded, and the decoded text is
    not UTF-8. *)
Example surrogate_reference_ill_formed :
  decode (str "&#xD800;") = utf8 0xD800 ∧ utf8_head (decode (str "&#xD800;")) = None.
Proof. split; vm_compute; reflexivity. Qed.

(** C34: escaping round trip: decoding in place a string whose special
    characters were escaped gives the string back. *)
Theorem decode_escape_roundtrip s :
  nul_free s →
  ∃ m', decode_html_entities_utf8 (escape s ++ [x00]) 0 None = Ok (m', length s) ∧
    cstr_at m' 0 = Ok s.
Proof.
  intros Hs. pose proof (escape_nul_free s Hs) as He.
  pose proof (decode_length (escape s)) as Hl. rewrite decode_escape in Hl.
  exists (splice 0 (s ++ [x00]) (escape s ++ [x00])). split.
  - rewrite (decode_html_entities_utf8_ready _ _ _ (escape s)), decode_escape; [done|].
    split; [|rewrite length_app; simpl; lia|lia].
    apply cstr_at_Ok. split; [done|]. by exists [].
  - apply cstr_at_Ok. split; [done|]. eexists. unfold splice. simpl.
    by rewrite <-app_assoc.
Qed.

Lemma decode_escape_roundtrip_witness :
  ∃ m', decode_html_entities_utf8 (escape (str "a<b&c") ++ [x00]) 0 None = Ok (m', 5%nat) ∧
    cstr_at m' 0 = Ok (str "a<b&c").
Proof. apply (decode_escape_roundtrip (str "a<b&c")). decide_vm. Defined.

(** a numeric reference without digits is taken for U+0000: the decoded
    text then has a NUL in the middle, so that the returned length exceeds
    the length of the C string the caller sees. *)
Theorem empty_numeric_reference_truncates s t :
  nul_free s → "&"%byte ∉ s → nul_free t →
  ∃ m' n, decode_html_entities_utf8 (s ++ str "&#;" ++ t ++ [x00]) 0 None = Ok (m', n) ∧
    n = (length s + 1 + length (decode t))%nat ∧ cstr_at m' 0 = Ok s.
Proof.
  intros Hs Hamp Ht. assert (decode (s ++ str "&#;" ++ t) = s ++ x00 :: decode t) as Hd.
  { rewrite decode_app_plain by done. f_equal. simpl. by rewrite (decode_ref _ [x00] 2). }
  eexists _, _. rewrite (decode_html_entities_utf8_ready _ _ _ (s ++ str "&#;" ++ t)).
  - rewrite Hd. split; [done|]. split; [rewrite length_app; simpl; lia|].
    apply cstr_at_Ok. split; [done|]. unfold splice. simpl. eexists.
    rewrite <-!app_assoc. done.
  - split; [|rewrite !length_app; simpl; lia|lia]. apply cstr_at_Ok. split.
    + rewrite !nul_free_app. split_and!; try done. decide_vm.
    + exists []. by rewrite <-!app_assoc.
Qed.

Lemma empty_numeric_reference_truncates_witness :
  ∃ m' n, decode_html_entities_utf8 (str "up" ++ str "&#;" ++ str ".txt" ++ [x00]) 0 None = Ok (m', n) ∧
    n = (length (str "up") + 1 + length (decode (str ".txt")))%nat ∧ cstr_at m' 0 = Ok (str "up").
Proof.
  apply (empty_numeric_reference_truncates (str "up") (str ".txt"));
    decide_vm.
Defined.
