(* ===== verification/Json.v ===== *)
(** * json-c as the program uses it, and json-helpers.c

    A [json] is the value a [struct json_object *] stands for; json-c has no
    object for null, so that the NULL pointer and a JSON null are the same
    [JNull].  An object lists its members in the order in which
    [json_object_object_foreach] visits them.

    json-c is not part of the sources: what it computes (conversions, the
    serialiser, the parser, adding a member) is the operational class
    [JsonC]; [JsonCLaws] is the documented behaviour the proofs rely on.
    Building and indexing arrays are list operations.  Reference counts are
    not part of this value-level view. *)

From S2P Require Import Prelude CLib.
From Stdlib Require Import Strings.Byte.

Inductive json :=
  | JNull
  | JBool (b : bool)
  | JDouble (repr : bytes)
  | JInt (z : Z)
  | JObject (members : list (bytes * json))
  | JArray (elems : list json)
  | JString (s : bytes).

Inductive json_type :=
  | json_type_null
  | json_type_boolean
  | json_type_double
  | json_type_int
  | json_type_object
  | json_type_array
  | json_type_string.

#[export] Instance json_type_eq_decision : EqDecision json_type.
Proof. solve_decision. Defined.

Definition json_object_get_type (j : json) : json_type :=
  match j with
  | JNull => json_type_null
  | JBool _ => json_type_boolean
  | JDouble _ => json_type_double
  | JInt _ => json_type_int
  | JObject _ => json_type_object
  | JArray _ => json_type_array
  | JString _ => json_type_string
  end.

Definition json_object_is_type (j : json) (t : json_type) : bool :=
  bool_decide (json_object_get_type j = t).

(** Adding to something that is not an array trips json-c's own assertion;
    the program only adds to arrays it has just made. *)
Definition json_object_array_add (arr v : json) : json :=
  match arr with JArray l => JArray (l ++ [v]) | _ => arr end.

Definition json_object_array_get_idx (arr : json) (i : Z) : json :=
  match arr with
  | JArray l => if i <? 0 then JNull else default JNull (l !! Z.to_nat i)
  | _ => JNull
  end.

Definition json_object_array_length (arr : json) : Z :=
  match arr with JArray l => Z.of_nat (length l) | _ => 0 end.

(** ** The library interface *)

Class JsonC := {
  (** Adds or replaces a member. *)
  json_object_object_add : list (bytes * json) → bytes → json → list (bytes * json);
  (** NULL for the null object. *)
  json_object_get_string : json → option bytes;
  json_object_get_int64 : json → Z;
  json_object_get_int : json → Z;
  json_object_get_boolean : json → bool;
  json_object_to_json_string : json → bytes;
  (** The value and whether the error is [json_tokener_success]. *)
  json_tokener_parse_verbose : bytes → json * bool
}.

(** [json_object_new_*]: NULL when memory is out. *)
Class JsonAlloc := {
  json_new : json → option json;
  json_new_Some j j' : json_new j = Some j' → j' = j
}.

(** [json_object_new_string] reads its argument. *)
Definition json_object_new_string `{JsonAlloc} (s : option bytes) : outcome (option json) :=
  s ← deref NullDeref s; Ok (json_new (JString s)).

Class JsonCLaws `{JsonC} := {
  object_add_fresh l k v : k ∉ l.*1 → json_object_object_add l k v = l ++ [(k, v)];
  object_add_present l1 k v v' l2 :
    k ∉ l1.*1 → json_object_object_add (l1 ++ (k, v') :: l2) k v = l1 ++ (k, v) :: l2;
  get_string_string s : json_object_get_string (JString s) = Some s;
  get_string_null : json_object_get_string JNull = None;
  get_int64_int z : - 2 ^ 63 <= z < 2 ^ 63 → json_object_get_int64 (JInt z) = z;
  get_int_int z : - 2 ^ 31 <= z < 2 ^ 31 → json_object_get_int (JInt z) = z;
  get_boolean_bool b : json_object_get_boolean (JBool b) = b
}.

(** ** A reference instance, for running the model *)

Module RefJson.
Fixpoint object_add (l : list (bytes * json)) (k : bytes) (v : json) : list (bytes * json) :=
  match l with
  | [] => [(k, v)]
  | (k', v') :: l => if decide (k' = k) then (k, v) :: l else (k', v') :: object_add l k v
  end.

Definition quote (s : bytes) : bytes := [x22] ++ s ++ [x22].

Fixpoint join (sep : bytes) (l : list bytes) : bytes :=
  match l with
  | [] => []
  | [x] => x
  | x :: l => x ++ sep ++ join sep l
  end.

Fixpoint print (j : json) : bytes :=
  match j with
  | JNull => str "null"
  | JBool b => if b then str "true" else str "false"
  | JDouble r => r
  | JInt z => fmt_int z
  | JObject l =>
      str "{ " ++ join (str ", ") (map (λ '(k, v), quote k ++ str ": " ++ print v) l) ++ str " }"
  | JArray l => str "[ " ++ join (str ", ") (map print l) ++ str " ]"
  | JString s => quote s
  end.

Definition to_int (lo hi : Z) (j : json) : Z :=
  match j with
  | JInt z => Z.max lo (Z.min hi z)
  | JBool b => if b then 1 else 0
  | _ => 0
  end.

#[export] Instance ref_json : JsonC := {
  json_object_object_add := object_add;
  json_object_get_string j :=
    match j with JNull => None | JString s => Some s | _ => Some (print j) end;
  json_object_get_int64 := to_int (- 2 ^ 63) (2 ^ 63 - 1);
  json_object_get_int := to_int (- 2 ^ 31) (2 ^ 31 - 1);
  json_object_get_boolean j := match j with JBool b => b | _ => false end;
  json_object_to_json_string := print;
  json_tokener_parse_verbose s := (JString s, true)
}.

#[export] Program Instance ref_alloc : JsonAlloc := {| json_new := Some |}.
Next Obligation. by intros j j' [= ->]. Qed.

Lemma object_add_app l1 k v v' l2 :
  k ∉ l1.*1 → object_add (l1 ++ (k, v') :: l2) k v = l1 ++ (k, v) :: l2.
Proof.
  induction l1 as [|[k1 v1] l1 IH]; simpl; intros Hk.
  - by rewrite decide_True.
  - apply not_elem_of_cons in Hk as [??]. rewrite decide_False by congruence.
    by rewrite IH.
Qed.

#[export] Instance ref_json_laws : JsonCLaws.
Proof.
  split; simpl; try done.
  - induction l as [|[k1 v1] l IH]; simpl; intros k v Hk; [done|].
    apply not_elem_of_cons in Hk as [??]. rewrite decide_False by congruence.
    by rewrite IH.
  - intros. by apply object_add_app.
  - intros z Hz. unfold to_int. lia.
  - intros z Hz. unfold to_int. lia.
Qed.
End RefJson.

(** ** json-helpers.c *)

Section helpers.
Context `{JsonC}.

(** NULL ([JNull]) when there is no such member. *)
Fixpoint json_members_find (l : list (bytes * json)) (k : bytes) : json :=
  match l with
  | [] => JNull
  | (key, val) :: l => if decide (key = k) then val else json_members_find l k
  end.

(** [json_object_object_foreach] follows the member table of the object; a
    value that is not an object has none (NULL). *)
Definition json_array_find (arr : json) (k : bytes) : outcome json :=
  match arr with
  | JObject l => Ok (json_members_find l k)
  | _ => Fault NullDeref
  end.

Definition json_array_find_string (o : json) (k : bytes) : outcome (option bytes) :=
  tmp ← json_array_find o k;
  match tmp with JNull => Ok None | _ => Ok (json_object_get_string tmp) end.

Definition json_array_find_number (o : json) (k : bytes) : outcome Z :=
  tmp ← json_array_find o k;
  match tmp with JNull => Ok (-1) | _ => Ok (json_object_get_int64 tmp) end.

Definition json_array_find_boolean (o : json) (k : bytes) : outcome bool :=
  tmp ← json_array_find o k;
  match tmp with JNull => Ok false | _ => Ok (json_object_get_boolean tmp) end.

Lemma json_members_find_assoc l k : json_members_find l k = default JNull (assoc k l).
Proof. induction l as [|[k' v] l IH]; simpl; [done|]. by case_decide. Qed.
End helpers.
