(* ===== verification/Evhttp.v ===== *)
(** * libevent's evhttp and evbuffer as interfaces, and utils.c

    libevent is not part of the sources.  Three of its services matter here:

    - the replies: the calls a handler makes on a request are recorded in
      order as a list of [http_call]s (the model of what the client gets);
    - the callback table that [evhttp_set_cb] and [evhttp_del_cb] maintain:
      class [CbTable] with its documented laws;
    - the input buffer: class [Evbuffer] with the laws documented in
      event2/buffer.h, stated on the bytes the buffer holds, and class
      [EvbufferChains] with what libevent 2 does to its chains, and to pointers
      into them, when bytes are removed, which its manual leaves open.

    utils.c's helpers are defined on top of these.  The reference instances
    run the model on concrete inputs. *)

From S2P Require Import Prelude CLib Json.
From Stdlib Require Import Strings.Byte.

(** ** Requests and replies *)

Definition EVHTTP_REQ_GET : Z := Z.shiftl 1 0.
Definition EVHTTP_REQ_POST : Z := Z.shiftl 1 1.
Definition EVHTTP_REQ_PUT : Z := Z.shiftl 1 3.

Inductive http_call :=
  | AddHeader (key value : bytes)
  | SendReply (code : Z) (reason body : bytes)
  | SendError (code : Z) (reason : bytes).

#[export] Instance http_call_eq_decision : EqDecision http_call.
Proof. solve_decision. Defined.

(** The calls that answer the request. *)
Definition is_answer (c : http_call) : bool :=
  match c with AddHeader _ _ => false | _ => true end.

Definition answers (l : list http_call) : list http_call := List.filter is_answer l.

(** ** The callback table *)

Class CbTable (tab cb : Type) := {
  cb_empty : tab;
  (** 0, -1 when the path has a callback already, -2 on failure. *)
  evhttp_set_cb : tab → bytes → cb → Z * tab;
  evhttp_del_cb : tab → bytes → tab;
  cb_find : tab → bytes → option cb
}.

Class CbTableLaws (tab cb : Type) `{CbTable tab cb} := {
  cb_find_empty p : cb_find cb_empty p = None;
  set_cb_new t p c : cb_find t p = None → (evhttp_set_cb t p c).1 = 0;
  set_cb_find t p c q :
    cb_find t p = None →
    cb_find (evhttp_set_cb t p c).2 q = if decide (p = q) then Some c else cb_find t q;
  set_cb_taken t p c : is_Some (cb_find t p) → evhttp_set_cb t p c = (-1, t);
  del_cb_find t p q :
    cb_find (evhttp_del_cb t p) q = if decide (p = q) then None else cb_find t q
}.

Module RefCb.
Section ref.
Context {cb : Type}.

#[export] Instance ref_table : CbTable (gmap bytes cb) cb := {
  cb_empty := ∅;
  evhttp_set_cb t p c := match t !! p with Some _ => (-1, t) | None => (0, <[p:=c]> t) end;
  evhttp_del_cb t p := delete p t;
  cb_find t p := t !! p
}.

#[export] Instance ref_table_laws : CbTableLaws (gmap bytes cb) cb.
Proof.
  split; simpl; intros.
  - apply lookup_empty.
  - by simplify_option_eq.
  - simplify_option_eq; [apply lookup_insert_eq|by apply lookup_insert_ne].
  - destruct H as [? ->]. done.
  - apply lookup_delete.
Qed.
End ref.
End RefCb.

(** ** utils.c *)

Section utils.
Context `{JsonC}.

(** The result and the calls on the request. *)
Definition ahttpd_method_allowed (command tp : Z) (calls : list http_call)
    : Z * list http_call :=
  let ret := Z.land tp command in
  (ret, if ret =? 0
        then calls ++ [SendError 405 (str "Method not allowed. Check ur docs")]
        else calls).

Definition ahttpd_reply_accepted (redir : bytes) (calls : list http_call) : list http_call :=
  calls ++ [AddHeader (str "Location") redir; SendReply 202 (str "Accepted") []].

Definition ahttpd_reply_with_json (o : json) (calls : list http_call) : list http_call :=
  calls ++ [AddHeader (str "Content-Type") (str "application/json");
            SendReply 200 (str "OK") (json_object_to_json_string o)].
End utils.

Section paths.
Context `{CbTable tab cb}.

(** The return value of [evhttp_set_cb] is dropped, as in the code. *)
Definition ahttpd_add_path (mountpoint path : bytes) (c : cb) (t : tab) : tab :=
  (evhttp_set_cb t (mountpoint ++ path) c).2.

Definition ahttpd_del_path (mountpoint path : bytes) (t : tab) : tab :=
  evhttp_del_cb t (mountpoint ++ path).

Context `{!CbTableLaws tab cb}.

Lemma add_path_find mp p c t q :
  cb_find (ahttpd_add_path mp p c t) q =
    match cb_find t (mp ++ p) with
    | Some _ => cb_find t q
    | None => if decide (mp ++ p = q) then Some c else cb_find t q
    end.
Proof.
  unfold ahttpd_add_path. destruct (cb_find t (mp ++ p)) eqn:E.
  - by rewrite set_cb_taken by eauto.
  - by rewrite set_cb_find.
Qed.

Lemma add_path_find_inv mp p c t q c' :
  cb_find (ahttpd_add_path mp p c t) q = Some c' →
  cb_find t q = Some c' ∨ (c' = c ∧ q = mp ++ p).
Proof. rewrite add_path_find. repeat case_match; intros; simplify_eq; auto. Qed.

Lemma add_path_local mp p c t q :
  ¬ mp `prefix_of` q → cb_find (ahttpd_add_path mp p c t) q = cb_find t q.
Proof.
  intros Hq. rewrite add_path_find. case_match; [done|].
  rewrite decide_False; [done|]. intros <-. apply Hq. by eexists.
Qed.

Lemma del_path_find mp p t q :
  cb_find (ahttpd_del_path mp p t) q =
    if decide (mp ++ p = q) then None else cb_find t q.
Proof. apply del_cb_find. Qed.
End paths.

(** ** The input buffer

    libevent keeps the bytes in chains.  A position found by [evbuffer_search]
    is a pointer into a chain: [ptr_pos] is its [.pos] field, the distance from
    the start of the buffer that was searched, and [ptr_at] is where the
    pointer leads in a buffer, [None] when the chain it points into is not
    part of that buffer any more (it has been freed).  event2/buffer.h says
    that a pointer is only good until the buffer is modified. *)

Class EvbufferOps (evb : Type) := {
  evbuffer_ptr : Type;
  ptr_pos : evbuffer_ptr → nat;
  ptr_at : evb → evbuffer_ptr → option nat;
  evbuffer_get_length : evb → nat;
  (** The first occurrence, [None] for a position of -1. *)
  evbuffer_search : evb → bytes → option evbuffer_ptr;
  evbuffer_drain : evb → nat → evb;
  (** EVBUFFER_EOL_CRLF: the line without its end, or NULL. *)
  evbuffer_readln : evb → option bytes * evb;
  (** The extents that hold the first [len] bytes (all the data when [len] is
      negative) from a position on; [evbuffer_peek] returns their number and
      fills in as many as fit. *)
  evbuffer_extents : evb → Z → nat → list bytes;
  (** The first bytes in one piece, or NULL when there are not that many; the
      buffer may have to be laid out anew for it. *)
  evbuffer_pullup : evb → nat → option bytes * evb
}.

(** The end of the line that starts a buffer: its content and what the line
    takes of the buffer. *)
Definition first_line (s : bytes) : option (bytes * nat) :=
  match strchr s x0a with
  | None => None
  | Some i =>
      let l := take i s in
      Some (match last l with Some x0d => take (pred i) l | _ => l end, S i)
  end.

(** What event2/buffer.h documents.  Nothing is said of a pointer after the
    buffer it was found in has been modified. *)
Class Evbuffer (evb : Type) `{EvbufferOps evb} := {
  contents : evb → bytes;
  get_length_spec b : evbuffer_get_length b = length (contents b);
  search_spec b what : what ≠ [] →
    ptr_pos <$> evbuffer_search b what = strstr (contents b) what;
  search_valid b what p : evbuffer_search b what = Some p → ptr_at b p = Some (ptr_pos p);
  drain_spec b n : contents (evbuffer_drain b n) = drop n (contents b);
  readln_spec b :
    match first_line (contents b) with
    | None => (evbuffer_readln b).1 = None ∧ contents (evbuffer_readln b).2 = contents b
    | Some (l, n) =>
        (evbuffer_readln b).1 = Some l ∧ contents (evbuffer_readln b).2 = drop n (contents b)
    end;
  extents_spec b len :
    0 < len <= Z.of_nat (length (contents b)) →
    evbuffer_extents b len 0 ≠ [] ∧
    ∃ r, concat (evbuffer_extents b len 0) ++ r = contents b ∧
      len <= Z.of_nat (length (concat (evbuffer_extents b len 0)));
  pullup_spec b n :
    (evbuffer_pullup b n).1 =
      if decide (n <= length (contents b))%nat then Some (take n (contents b)) else None;
  pullup_contents b n : contents (evbuffer_pullup b n).2 = contents b
}.

(** The sizes of the chains, as [evbuffer_peek] of the whole buffer shows
    them, and the size of the first. *)
Definition evbuffer_layout `{EvbufferOps evb} (b : evb) : list nat :=
  length <$> evbuffer_extents b (-1) 0.

Definition front (cs : list nat) : nat := default O (head cs).

(** Removing bytes frees the chains it empties. *)
Fixpoint drain_layout (n : nat) (cs : list nat) : list nat :=
  match cs with
  | [] => []
  | c :: cs => if decide (n < c)%nat then (c - n)%nat :: cs else drain_layout (n - c) cs
  end.

(** What the chains of libevent 2 do (buffer.c), beyond what it promises: a
    pointer to the first byte of the buffer keeps leading to the first byte
    as long as bytes are removed from inside the first chain, and its chain is
    freed with the last byte of it; [evbuffer_pullup] moves the bytes it is
    asked for into one chain, unless the first has them all. *)
Class EvbufferChains (evb : Type) `{EvbufferOps evb, !Evbuffer evb} := {
  layout_drain b n : evbuffer_layout (evbuffer_drain b n) = drain_layout n (evbuffer_layout b);
  layout_readln b l n :
    first_line (contents b) = Some (l, n) →
    evbuffer_layout (evbuffer_readln b).2 = drain_layout n (evbuffer_layout b);
  layout_pullup b n :
    (n <= length (contents b))%nat →
    evbuffer_layout (evbuffer_pullup b n).2 =
      if decide (n <= front (evbuffer_layout b))%nat then evbuffer_layout b
      else n :: drain_layout n (evbuffer_layout b);
  ptr_drain b p n :
    ptr_at b p = Some O →
    ptr_at (evbuffer_drain b n) p =
      if decide (n < front (evbuffer_layout b))%nat then Some O else None;
  ptr_readln b p l n :
    first_line (contents b) = Some (l, n) → ptr_at b p = Some O →
    ptr_at (evbuffer_readln b).2 p =
      if decide (n < front (evbuffer_layout b))%nat then Some O else None;
  freed_drain b p n : ptr_at b p = None → ptr_at (evbuffer_drain b n) p = None;
  freed_readln b p : ptr_at b p = None → ptr_at (evbuffer_readln b).2 p = None
}.

Lemma drain_layout_drain m n cs : drain_layout n (drain_layout m cs) = drain_layout (m + n) cs.
Proof.
  revert m n. induction cs as [|c cs IH]; intros m n; [done|]. cbn [drain_layout].
  case_decide as Hm; cbn [drain_layout].
  - do 2 case_decide; try lia; [f_equal; lia|f_equal; lia].
  - rewrite IH, (decide_False (P := (m + n < c)%nat)) by lia. f_equal. lia.
Qed.

Lemma front_drain n cs : (n < front cs)%nat → front (drain_layout n cs) = (front cs - n)%nat.
Proof. destruct cs as [|c cs]; cbn; intros; [lia|]. by rewrite decide_True. Qed.

(** A pointer to the first byte of a buffer laid out as [L], after [m] bytes
    have been removed in one way or another. *)
Section followed.
Context `{EvbufferChains evb}.

Definition followed (b : evb) (q : evbuffer_ptr) (m : nat) (L : list nat) : Prop :=
  evbuffer_layout b = drain_layout m L ∧
  ptr_at b q = if decide (m < front L)%nat then Some O else None.

Lemma followed_eq b q m m' L : followed b q m L → m = m' → followed b q m' L.
Proof. by intros ? <-. Qed.

Lemma followed_start b q n :
  ptr_at b q = Some O → followed (evbuffer_drain b n) q n (evbuffer_layout b).
Proof. intros Hq. split; [apply layout_drain|by apply ptr_drain]. Qed.

Lemma followed_step (b b' : evb) q m n L :
  followed b q m L →
  evbuffer_layout b' = drain_layout n (evbuffer_layout b) →
  (ptr_at b q = Some O →
   ptr_at b' q = if decide (n < front (evbuffer_layout b))%nat then Some O else None) →
  (ptr_at b q = None → ptr_at b' q = None) →
  followed b' q (m + n) L.
Proof.
  intros [Hl Hq] Hl' Ho Hn. split; [by rewrite Hl', Hl, drain_layout_drain|].
  rewrite Hl in Ho. destruct (decide (m < front L)%nat) as [Hm|Hm].
  - rewrite Ho, front_drain by done. repeat case_decide; try done; lia.
  - rewrite Hn, decide_False by (done || lia). done.
Qed.

Lemma followed_readln b q m L l n :
  followed b q m L → first_line (contents b) = Some (l, n) →
  followed (evbuffer_readln b).2 q (m + n) L.
Proof.
  intros Hb Hf. eapply followed_step; [done|by eapply layout_readln|by eapply ptr_readln|].
  apply freed_readln.
Qed.
End followed.

Module RefBuffer.
(** A buffer kept in chains; [base] chains of it have been freed so far, so
    that chain number [base + i] is the [i]-th of those that hold data.  A
    pointer is the number of a chain and an offset in it. *)
Record buffer := { base : nat; raw : list bytes }.
Record ptr := { p_chain : nat; p_offset : nat; p_pos : nat }.

Definition chains (b : buffer) : list bytes := filter (λ c, c ≠ []) (raw b).

Definition all (b : buffer) : bytes := concat (chains b).

Fixpoint locate (cs : list bytes) (i pos : nat) : nat * nat :=
  match cs with
  | [] => (i, pos)
  | c :: cs => if decide (pos < length c)%nat then (i, pos) else locate cs (S i) (pos - length c)
  end.

Fixpoint drain_chains (base n : nat) (cs : list bytes) : buffer :=
  match cs with
  | [] => {| base := base; raw := [] |}
  | c :: cs =>
      if decide (n < length c)%nat then {| base := base; raw := drop n c :: cs |}
      else drain_chains (S base) (n - length c) cs
  end.

Definition leads_to (b : buffer) (p : ptr) : option nat :=
  if decide (base b <= p_chain p)%nat then
    match chains b !! (p_chain p - base b)%nat with
    | Some _ => Some (length (concat (take (p_chain p - base b) (chains b))) + p_offset p)%nat
    | None => None
    end
  else None.

Definition search (b : buffer) (what : bytes) : option ptr :=
  pos ← strstr (all b) what;
  let '(i, off) := locate (chains b) (base b) pos in
  Some {| p_chain := i; p_offset := off; p_pos := pos |}.

Fixpoint up_to (len : Z) (cs : list bytes) : list bytes :=
  match cs with
  | [] => []
  | c :: cs => if len <=? 0 then [] else c :: up_to (len - Z.of_nat (length c)) cs
  end.

Definition extents (b : buffer) (len : Z) (start : nat) : list bytes :=
  let cs := raw (drain_chains 0 start (chains b)) in
  if len <? 0 then cs else up_to len cs.

Definition pullup (b : buffer) (n : nat) : option bytes * buffer :=
  if decide (n <= length (all b))%nat then
    (Some (take n (all b)),
     if decide (n <= front (length <$> chains b))%nat then b
     else let rest := drain_chains (base b) n (chains b) in
          {| base := pred (base rest); raw := take n (all b) :: raw rest |})
  else (None, b).

#[export] Instance ref_buffer_ops : EvbufferOps buffer := {
  ptr_pos := p_pos;
  ptr_at := leads_to;
  evbuffer_get_length b := length (all b);
  evbuffer_search b what := if decide (what = []) then None else search b what;
  evbuffer_drain b n := drain_chains (base b) n (chains b);
  evbuffer_readln b :=
    match first_line (all b) with
    | Some (l, n) => (Some l, drain_chains (base b) n (chains b))
    | None => (None, b)
    end;
  evbuffer_extents := extents;
  evbuffer_pullup := pullup
}.

Definition full (cs : list bytes) : Prop := Forall (λ c, c ≠ []) cs.

Lemma full_chains b : full (chains b).
Proof. apply Forall_forall. intros c Hc. by apply list_elem_of_filter in Hc as [? _]. Qed.

Lemma chains_full k cs : full cs → chains {| base := k; raw := cs |} = cs.
Proof.
  unfold chains. simpl. induction 1 as [|c cs Hc _ IH]; [done|].
  rewrite filter_cons_True by done. by rewrite IH.
Qed.

Lemma locate_spec cs i pos :
  (pos < length (concat cs))%nat →
  ∃ k c, locate cs i pos = (i + k, pos - length (concat (take k cs)))%nat ∧ cs !! k = Some c ∧
    (length (concat (take k cs)) <= pos)%nat.
Proof.
  revert i pos. induction cs as [|c cs IH]; intros i pos; cbn [concat locate]; [simpl; lia|].
  rewrite length_app. intros Hp. case_decide.
  - exists 0%nat, c. cbn. split_and!; [f_equal; lia|done|lia].
  - destruct (IH (S i) (pos - length c)%nat) as (k & c' & Hk & Hc & Hl); [lia|].
    exists (S k), c'. cbn [take concat lookup list_lookup]. rewrite Hk, length_app.
    split_and!; [f_equal; lia|done|lia].
Qed.

Lemma drain_chains_spec k n cs :
  full cs →
  full (raw (drain_chains k n cs)) ∧
  concat (raw (drain_chains k n cs)) = drop n (concat cs) ∧
  length <$> raw (drain_chains k n cs) = drain_layout n (length <$> cs).
Proof.
  intros Hcs. revert k n. induction Hcs as [|c cs Hc Hcs IH]; intros k n.
  - simpl. rewrite drop_nil. by split_and!; [constructor|..].
  - cbn [drain_chains concat fmap list_fmap drain_layout]. case_decide as Hn.
    + cbn [raw concat fmap list_fmap]. rewrite length_drop. split_and!; [|by rewrite drop_app_le by lia|done].
      constructor; [|done]. intros Hd%(f_equal length). rewrite length_drop in Hd. simpl in Hd. lia.
    + destruct (IH (S k) (n - length c)%nat) as (? & Hr & ?). split_and!; [done| |done].
      by rewrite Hr, drop_app, (drop_ge c) by lia.
Qed.

Lemma chains_drain k n cs :
  full cs → chains (drain_chains k n cs) = raw (drain_chains k n cs).
Proof.
  intros Hcs. destruct (drain_chains_spec k n cs Hcs) as [Hf _].
  destruct (drain_chains k n cs). by apply chains_full.
Qed.

Lemma all_drain b n : all (drain_chains (base b) n (chains b)) = drop n (all b).
Proof.
  unfold all. rewrite chains_drain by apply full_chains. by apply drain_chains_spec, full_chains.
Qed.

Lemma drain_0 k cs : full cs → raw (drain_chains k 0 cs) = cs.
Proof.
  intros [|c cs' Hc _]; [done|]. simpl. rewrite decide_True; [done|].
  destruct c; [done|simpl; lia].
Qed.

Lemma layout_chains b : evbuffer_layout b = length <$> chains b.
Proof. unfold evbuffer_layout. simpl. unfold extents. simpl. by rewrite drain_0 by apply full_chains. Qed.

Lemma layout_drained b n :
  evbuffer_layout (drain_chains (base b) n (chains b)) = drain_layout n (evbuffer_layout b).
Proof.
  rewrite !layout_chains, chains_drain by apply full_chains. by apply drain_chains_spec, full_chains.
Qed.

Lemma drain_base k n cs : (k <= base (drain_chains k n cs))%nat.
Proof.
  revert k n. induction cs as [|c cs IH]; intros k n; simpl; [lia|]. case_decide; simpl; [lia|].
  specialize (IH (S k) (n - length c)%nat). lia.
Qed.

(** A pointer to the first byte is a pointer to the start of the first
    chain. *)
Lemma leads_to_0 b p :
  leads_to b p = Some O → p_chain p = base b ∧ p_offset p = O ∧ chains b ≠ [].
Proof.
  unfold leads_to. case_decide as Hb; [|done].
  destruct (chains b !! _) as [c|] eqn:Hc; [|done]. intros [= Hl].
  pose proof (full_chains b) as Hf. destruct (chains b) as [|c0 cs]; [done|].
  apply Forall_cons in Hf as [Hc0 _].
  destruct (p_chain p - base b)%nat eqn:E; [split_and!; [lia|simpl in *; lia|done]|].
  cbn [take concat] in Hl. rewrite length_app in Hl. destruct c0; simpl in *; [done|lia].
Qed.

Lemma leads_to_drain b p n :
  leads_to b p = Some O →
  leads_to (drain_chains (base b) n (chains b)) p =
    if decide (n < front (evbuffer_layout b))%nat then Some O else None.
Proof.
  intros (Hp & Ho & Hne)%leads_to_0. rewrite layout_chains. unfold leads_to.
  rewrite chains_drain by apply full_chains. rewrite Hp.
  destruct (chains b) as [|c cs]; [done|]. cbn [drain_chains fmap list_fmap].
  unfold front. cbn [head default]. destruct (decide (n < length c)%nat) as [Hn|Hn].
  - simpl. rewrite decide_True, Nat.sub_diag by lia. by rewrite Ho, decide_True by done.
  - rewrite (decide_False (P := (n < length c)%nat)) by done. rewrite decide_False; [done|]. pose proof (drain_base (S (base b)) (n - length c) cs). lia.
Qed.

Lemma drain_count k n cs :
  (base (drain_chains k n cs) + length (raw (drain_chains k n cs)) = k + length cs)%nat.
Proof.
  revert k n. induction cs as [|c cs IH]; intros k n; simpl; [lia|]. case_decide; simpl; [lia|].
  rewrite IH. lia.
Qed.

Lemma freed_drained b p n :
  leads_to b p = None → leads_to (drain_chains (base b) n (chains b)) p = None.
Proof.
  unfold leads_to. rewrite chains_drain by apply full_chains. intros Hb.
  pose proof (drain_count (base b) n (chains b)) as Hc.
  pose proof (drain_base (base b) n (chains b)) as Hk.
  destruct (decide (base (drain_chains (base b) n (chains b)) <= p_chain p)%nat) as [Hd|]; [|done].
  rewrite decide_True in Hb by lia.
  destruct (chains b !! _) eqn:E; [done|]. apply lookup_ge_None in E.
  by rewrite (proj2 (lookup_ge_None _ _)) by lia.
Qed.

Lemma up_to_spec len cs :
  0 < len <= Z.of_nat (length (concat cs)) →
  up_to len cs ≠ [] ∧ ∃ r, concat (up_to len cs) ++ r = concat cs ∧
    len <= Z.of_nat (length (concat (up_to len cs))).
Proof.
  revert len. induction cs as [|c cs IH]; intros len; cbn [concat up_to]; [simpl; lia|].
  rewrite length_app. intros Hl. destruct (Z.leb_spec len 0); [lia|]. split; [done|].
  cbn [concat]. rewrite length_app.
  destruct (decide (len <= Z.of_nat (length c))) as [Hc|Hc].
  - destruct cs as [|c' cs]; cbn [up_to].
    + exists []. simpl. rewrite app_nil_r. split; [done|lia].
    + destruct (Z.leb_spec (len - Z.of_nat (length c)) 0); [|lia].
      exists (concat (c' :: cs)). simpl. rewrite app_nil_r. split; [done|lia].
  - destruct (IH (len - Z.of_nat (length c))) as (_ & r & Hr & Hl'); [lia|].
    exists r. rewrite <-app_assoc, Hr. split; [done|lia].
Qed.

#[export] Instance ref_buffer : Evbuffer buffer.
Proof.
  refine {| contents := all |}; simpl.
  - done.
  - intros b what Hw. rewrite decide_False by done. unfold search.
    destruct (strstr (all b) what) as [pos|]; [|done]. simpl. by destruct (locate _ _ _).
  - intros b what p. case_decide as Hw; [done|]. unfold search.
    destruct (strstr (all b) what) as [pos|] eqn:Hs; [|done].
    apply strstr_Some in Hs as (_ & [r Hr] & _).
    apply (f_equal length) in Hr. rewrite length_drop, length_app in Hr.
    destruct (locate_spec (chains b) (base b) pos) as (k & c & Hk & Hc & Hl).
    { fold (all b). destruct what; [done|]. simpl in *. lia. }
    simpl. rewrite Hk. intros [= <-]. unfold leads_to. simpl. rewrite decide_True by lia.
    replace (base b + k - base b)%nat with k by lia. rewrite Hc. f_equal. lia.
  - apply all_drain.
  - intros b. destruct (first_line (all b)) as [[l n]|]; [|done]. split; [done|apply all_drain].
  - intros b len Hlen. unfold extents. destruct (Z.ltb_spec len 0); [lia|].
    rewrite drain_0 by apply full_chains. by apply up_to_spec.
  - intros b n. unfold pullup. by case_decide.
  - intros b n. unfold pullup. case_decide; [|done]. simpl. case_decide; [done|].
    destruct (drain_chains_spec (base b) n (chains b) (full_chains b)) as (Hf & Hr & _).
    unfold all at 1. rewrite chains_full.
    + cbn [concat]. rewrite Hr. apply take_drop.
    + constructor; [|done]. intros Ht%(f_equal length). rewrite length_take_le in Ht by done.
      simpl in Ht. lia.
Defined.

#[export] Instance ref_buffer_chains : EvbufferChains buffer.
Proof.
  split; simpl.
  - apply layout_drained.
  - intros b l n ->. apply layout_drained.
  - intros b n Hn. rewrite (layout_chains b). unfold pullup. rewrite decide_True by done.
    destruct (decide (n <= front (length <$> chains b))%nat); [apply layout_chains|].
    destruct (drain_chains_spec (base b) n (chains b) (full_chains b)) as (Hf & _ & Hl).
    cbn [snd]. rewrite layout_chains, chains_full.
    { cbn [fmap list_fmap]. by rewrite length_take_le, <-Hl. }
    constructor; [|done]. intros Ht%(f_equal length). rewrite length_take_le in Ht by done.
    simpl in Ht. lia.
  - apply leads_to_drain.
  - intros b p l n ->. apply leads_to_drain.
  - apply freed_drained.
  - intros b p Hp. destruct (first_line (all b)) as [[l n]|]; [by apply freed_drained|done].
Qed.
End RefBuffer.
