(* ===== verification/Upload.v ===== *)
(** * fs_upload.c: the multipart/form-data receiver

    [extract_key_value] and [sanitize_string] work on malloc'ed blocks as the
    C code does and call the entity decoder in place.  The receiver itself
    ([multipart_handle_next_file], [upload]) is a function of the input
    buffer ([Evbuffer]) and of the upload module's callbacks, a record of
    optional functions as [struct uploadfs_module] is; NULL callbacks are
    [None].

    [run_upload] is the abstract specification: what the module is told about
    a list of parts.  The receiver looks at the data of a part through a
    pointer it took before it removed the header lines from the buffer, so
    what it does also depends on the chains of the buffer: [run_upload_on] is
    the specification with the chains, which ends in a use after free when a
    part's header lines reach the end of the chain they start in.  The
    refinement theorem says that the receiver, run on the encoding of the
    parts, does exactly that. *)

From S2P Require Import Prelude CLib Entity Json Evhttp.
From Stdlib Require Import Strings.Byte.

Definition EIO : Z := 5.
Definition ENOMEM : Z := 12.
Definition EBADMSG : Z := 74.

Definition CRLF : bytes := [x0d; x0a].

(** [malloc(n)]: NULL or a block of n bytes of unknown content. *)
Class Malloc := {
  malloc : nat → option mem;
  malloc_length n b : malloc n = Some b → length b = n
}.

(** [sprintf] into a block of a given size: the text, when it fits with its
    terminator. *)
Definition sprintf (size : nat) (text : bytes) : outcome bytes :=
  if decide (length text < size)%nat then Ok text else Fault OutOfBounds.

(** ** Content-Disposition *)

(** The loop reads strlen again in every round. *)
Fixpoint sanitize_loop (fuel : nat) (ret : mem) (i : nat) : outcome mem :=
  match fuel with
  | O => Fault OutOfFuel
  | S fuel =>
      s ← cstr_at ret 0;
      if decide (i < length s)%nat then
        c ← load ret i;
        ret ← (if decide (c = "/"%byte) then store ret i "_"%byte else Ok ret);
        sanitize_loop fuel ret (S i)
      else Ok ret
  end.

Definition sanitize_string (ret : mem) : outcome mem :=
  sanitize_loop (S (length ret)) ret 0.

(** [while ( *pos && *pos != quote) ret[i++] = *pos++;] *)
Fixpoint copy_value (pos : bytes) (ret : mem) (i : nat) : outcome (mem * nat) :=
  match pos with
  | [] => Ok (ret, i)
  | c :: pos =>
      if decide (c = x22) then Ok (ret, i)
      else ret ← store ret i c; copy_value pos ret (S i)
  end.

Section extract.
Context `{Malloc}.

(** The alloca'd block has strlen("key") + 8 bytes, whatever the key. *)
Definition extract_key_value (key : bytes) (cds_string : option bytes)
    : outcome (option bytes) :=
  match cds_string with
  | None => Ok None
  | Some cds =>
      if decide (length cds = O) then Ok None
      else
        let tmp := repeat x00 (length (str "key") + 8) in
        tmp ← store_bytes tmp 0 (key ++ [x00]);
        tmp ← store_bytes tmp (length key) ([x3d; x22] ++ [x00]);
        pat ← cstr_at tmp 0;
        match strstr cds pat with
        | None => Ok None
        | Some p =>
            match malloc (length cds) with
            | None => Ok None
            | Some ret =>
                r ← copy_value (drop (p + length pat) cds) ret 0;
                let '(ret, i) := r in
                ret ← store ret i x00;
                d ← decode_html_entities_utf8 ret 0 None;
                ret ← sanitize_string d.1;
                v ← cstr_at ret 0;
                Ok (Some v)
            end
        end
  end.

Definition uploadfs_get_content_disposition_name (cds_string : option bytes) :=
  extract_key_value (str "name") cds_string.

Definition uploadfs_get_content_disposition_filename (cds_string : option bytes) :=
  extract_key_value (str "filename") cds_string.
End extract.

(** *** Specification of the extraction *)

Definition sanitize (s : bytes) : bytes :=
  (λ c, if decide (c = "/"%byte) then "_"%byte else c) <$> s.

(** A C reader sees a buffer up to its first NUL. *)
Definition c_trunc (s : bytes) : bytes := (span (λ c, bool_decide (c ≠ x00)) s).1.

(** The raw text of the value: from after the quote that follows the first
    occurrence of [key=], to the next quote. *)
Definition raw_value (key cds : bytes) : option bytes :=
  (λ p, (span (λ c, bool_decide (c ≠ x22)) (drop (p + length key + 2) cds)).1)
    <$> strstr cds (key ++ [x3d; x22]).

Definition parameter_value (key cds : bytes) : option bytes :=
  (λ v, sanitize (c_trunc (decode v))) <$> raw_value key cds.

(** ** The request header *)

(** [find] is [evhttp_find_header] on the input headers of the request. *)
Definition request_check_headers (headers : option (bytes → option bytes)) : option bytes :=
  match headers with
  | None => None
  | Some find =>
      match find (str "Content-Type") with
      | None => None
      | Some vl =>
          match strstr vl (str "multipart/form-data") with
          | None => None
          | Some _ =>
              let bnd := str "boundary=" in
              match strstr vl bnd with
              | None => None
              | Some boundary => Some (drop (boundary + length bnd) vl)
              end
          end
      end
  end.

(** ** Writing extents *)

(** [vec] is the extent array from index [i] on; the list of extents ends
    where the array does.  [fd] is what the file holds so far. *)
Fixpoint dump_iovec (fd : bytes) (vec : list bytes) (len : Z) : outcome bytes :=
  if len =? 0 then Ok fd
  else
    match vec with
    | [] => Fault OutOfBounds
    | v :: vec =>
        let towrite := Z.min len (Z.of_nat (length v)) in
        (* a negative count is a huge size_t for fwrite *)
        if towrite <? 0 then Fault OutOfBounds
        else dump_iovec (fd ++ take (Z.to_nat towrite) v) vec (len - towrite)
    end.

(** [fopen_w path] tells whether the file can be opened for writing; the
    contents of the files are a map. *)
Definition dump_iovec_to_file (fopen_w : bytes → bool) (fs : gmap bytes bytes)
    (path : bytes) (vec : list bytes) (len : Z) : outcome (Z * gmap bytes bytes) :=
  if fopen_w path then
    data ← dump_iovec [] vec len;
    Ok (0, <[path:=data]> fs)
  else Ok (- EIO, fs).

(** ** Upload modules (uploadfs.h) *)

(** The part of [struct upfs_data] a module works on: the error flag, its own
    data together with the outside world it acts on, and the calls made on
    the current request. *)
Record upfs_data (D : Type) := mk_upfs {
  upload_error : Z;
  mod_data : D;
  calls : list http_call
}.
Arguments mk_upfs {D} _ _ _.
Arguments upload_error {D} _.
Arguments mod_data {D} _.
Arguments calls {D} _.

Definition set_calls {D} (f : list http_call → list http_call) (fsd : upfs_data D) : upfs_data D :=
  mk_upfs (upload_error fsd) (mod_data fsd) (f (calls fsd)).

Definition set_error {D} (e : Z) (fsd : upfs_data D) : upfs_data D :=
  mk_upfs e (mod_data fsd) (calls fsd).

Definition set_mod_data {D} (d : D) (fsd : upfs_data D) : upfs_data D :=
  mk_upfs (upload_error fsd) d (calls fsd).

(** [struct uploadfs_module]; a NULL callback is [None]. *)
Record uploadfs_module (D : Type) := {
  mod_name : bytes;
  mod_init : option (upfs_data D → outcome (Z * upfs_data D));
  mod_deinit : option (upfs_data D → outcome (upfs_data D));
  inbound_request_hook : option (upfs_data D → outcome (upfs_data D));
  handle_form_header : option (upfs_data D → bytes → bytes → outcome (upfs_data D));
  handle_data : option (upfs_data D → list bytes → Z → outcome (upfs_data D));
  finalize : option (upfs_data D → Z → outcome (upfs_data D))
}.
Arguments mod_name {D} _.
Arguments mod_init {D} _.
Arguments mod_deinit {D} _.
Arguments inbound_request_hook {D} _.
Arguments handle_form_header {D} _.
Arguments handle_data {D} _.
Arguments finalize {D} _.

(** [list_add_tail] on the registry. *)
Definition uploadfs_register_module {D} (md : uploadfs_module D)
    (mod_registry : list (uploadfs_module D)) : list (uploadfs_module D) :=
  mod_registry ++ [md].

(** The first module of that name; [None] stands for -1. *)
Fixpoint uploadfs_module_select {D} (mod_registry : list (uploadfs_module D)) (name : bytes)
    : option (uploadfs_module D) :=
  match mod_registry with
  | [] => None
  | pos :: rest =>
      if decide (name = mod_name pos) then Some pos else uploadfs_module_select rest name
  end.

(** [finalize] is [fsd->mod->finalize]. *)
Definition uploadfs_upload_send_error `{JsonC} {D}
    (fin : option (upfs_data D → Z → outcome (upfs_data D)))
    (fsd : upfs_data D) (reply : option json) : outcome (upfs_data D) :=
  let fsd := set_error 1 fsd in
  let fsd := set_calls (λ l,
    match reply with
    | Some o => ahttpd_reply_with_json o l
    | None => l ++ [SendError 406 (str "Not acceptable")]
    end) fsd in
  match fin with Some f => f fsd 0 | None => Ok fsd end.

(** ** The receiver *)

(** [(int)z]: [handle_data] takes its [ssize_t] argument as an [int]. *)
Definition int_of (z : Z) : Z := (z + 2 ^ 31) mod 2 ^ 32 - 2 ^ 31.

(** The request: its method, its headers ([evhttp_find_header]) and its input
    buffer. *)
Record http_request (evb : Type) := {
  rq_command : Z;
  rq_input_headers : option (bytes → option bytes);
  rq_input_buffer : evb
}.
Arguments rq_command {evb} _.
Arguments rq_input_headers {evb} _.
Arguments rq_input_buffer {evb} _.

Section receiver.
Context `{JsonC} `{Malloc} `{EvbufferOps evb} {D : Type}.
Implicit Types (fsd : upfs_data D) (md : uploadfs_module D) (buf : evb).

(** How many extents there are, and the [n_vec] that fit.  The call reads the
    chain the pointer was made for. *)
Definition evbuffer_peek buf (len : Z) (start : evbuffer_ptr) (n_vec : nat)
    : outcome (nat * list bytes) :=
  pos ← deref UseAfterFree (ptr_at buf start);
  let ext := evbuffer_extents buf len pos in
  Ok (length ext, take n_vec ext).

(** The result, the array and its new capacity; [struct iovec] has 16
    bytes. *)
Fixpoint evbuffer_peek_realloc (fuel : nat) buf (len : Z) (start : evbuffer_ptr) (n_vec : nat)
    : outcome (Z * list bytes * nat) :=
  match fuel with
  | O => Fault OutOfFuel
  | S fuel =>
      r ← evbuffer_peek buf len start n_vec;
      let '(ret, vec) := r in
      if decide (n_vec < ret)%nat then
        match malloc (16 * ret) with
        | None => Ok (- ENOMEM, vec, n_vec)
        | Some _ => evbuffer_peek_realloc fuel buf len start ret
        end
      else Ok (Z.of_nat ret, vec, n_vec)
  end.

(** -1, 0 or 1 as described in the source. *)
Definition handle_file_header_line md fsd (ln : option bytes)
    : outcome (Z * upfs_data D) :=
  match ln with
  | None => Ok (-1, fsd)
  | Some ln =>
      let ln := c_trunc ln in
      if decide (length ln = O) then Ok (1, fsd)
      else
        let '(key, tmp) := strtok_r ln (str ":") in
        let '(value, tmp) := strtok_r tmp CRLF in
        value ← deref NullDeref value;
        key ← deref NullDeref key;
        let value := (span (λ c, bool_decide (c = " "%byte)) value).2 in
        fsd ← match handle_form_header md with
              | Some h => h fsd key value
              | None => Ok fsd
              end;
        if upload_error fsd =? 0 then Ok (0, fsd) else Ok (1, fsd)
  end.

(** The [while (1)] over the header lines of a part. *)
Fixpoint header_lines (fuel : nat) md fsd buf : outcome (upfs_data D * evb) :=
  match fuel with
  | O => Fault OutOfFuel
  | S fuel =>
      let '(ln, buf) := evbuffer_readln buf in
      r ← handle_file_header_line md fsd ln;
      let '(ret, fsd) := r in
      if ret =? 0 then header_lines fuel md fsd buf else Ok (fsd, buf)
  end.

(** The C result, the module's state, the capacity of [fsd->iovec] and the
    input buffer.  [start] points into the buffer as it was before it was
    drained and is still passed to [evbuffer_peek] as it is. *)
Definition multipart_handle_next_file md fsd (num_iovec : nat) buf (boundary : bytes)
    : outcome (Z * (upfs_data D * nat * evb)) :=
  match malloc (length boundary + 8) with
  | None => Ok (- ENOMEM, (fsd, num_iovec, buf))
  | Some _ =>
      boundary_search ← sprintf (length boundary + 8) (str "--" ++ boundary);
      match evbuffer_search buf boundary_search with
      | None => Ok (- EBADMSG, (fsd, num_iovec, buf))
      | Some start =>
          let buf := evbuffer_drain buf (length boundary_search + ptr_pos start + 2) in
          r ← header_lines (S (evbuffer_get_length buf)) md fsd buf;
          let '(fsd, buf) := r in
          if negb (upload_error fsd =? 0) then Ok (- EBADMSG, (fsd, num_iovec, buf))
          else
            match evbuffer_search buf boundary_search with
            | None => Ok (- EBADMSG, (fsd, num_iovec, buf))
            | Some next =>
                if decide (ptr_pos next < ptr_pos start)%nat then Ok (- EBADMSG, (fsd, num_iovec, buf))
                else
                  let len := Z.of_nat (ptr_pos next) - 2 in
                  r ← evbuffer_peek_realloc 2 buf len start num_iovec;
                  let '(count, iovec, num_iovec) := r in
                  if count <=? 0 then Ok (- EBADMSG, (fsd, num_iovec, buf))
                  else
                    fsd ← match handle_data md with
                          | Some h => h fsd iovec (int_of len)
                          | None => Ok fsd
                          end;
                    if negb (upload_error fsd =? 0) then
                      Ok (- EBADMSG, (fsd, num_iovec, buf))
                    else
                      let buf := evbuffer_drain buf (ptr_pos next) in
                      boundary_search ← sprintf (length boundary + 8)
                                          (str "--" ++ boundary ++ str "--");
                      let '(tmp, buf) := evbuffer_pullup buf (length boundary_search) in
                      tmp ← deref NullDeref tmp;
                      Ok (if decide (take (length boundary_search) tmp = boundary_search)
                          then 0 else 1,
                          (fsd, num_iovec, buf))
            end
      end
  end.

(** [do ... while (ret == 1)] *)
Fixpoint upload_loop (fuel : nat) md fsd (num_iovec : nat) buf (boundary : bytes)
    : outcome (Z * (upfs_data D * nat * evb)) :=
  match fuel with
  | O => Fault OutOfFuel
  | S fuel =>
      r ← multipart_handle_next_file md fsd num_iovec buf boundary;
      let '(ret, (fsd, num_iovec, buf)) := r in
      if ret =? 1 then upload_loop fuel md fsd num_iovec buf boundary
      else Ok (ret, (fsd, num_iovec, buf))
  end.

(** The handler of POST requests: the module's state and the capacity of the
    extent array afterwards.  The record of calls is that of the new
    request. *)
Definition upload md (request : http_request evb) fsd (num_iovec : nat)
    : outcome (upfs_data D * nat) :=
  let '(allowed, l) := ahttpd_method_allowed (rq_command request) EVHTTP_REQ_POST [] in
  let fsd := set_calls (λ _, l) fsd in
  if allowed =? 0 then Ok (fsd, num_iovec)
  else
    let fsd := set_error 0 fsd in
    fsd ← match inbound_request_hook md with Some h => h fsd | None => Ok fsd end;
    if negb (upload_error fsd =? 0) then Ok (fsd, num_iovec)
    else
      let buf := rq_input_buffer request in
      match request_check_headers (rq_input_headers request) with
      | None =>
          fsd ← uploadfs_upload_send_error (finalize md) fsd None;
          Ok (fsd, num_iovec)
      | Some boundary =>
          r ← upload_loop (S (evbuffer_get_length buf)) md fsd num_iovec buf boundary;
          let '(ret, (fsd, num_iovec, buf)) := r in
          if ret <? 0 then
            fsd ← uploadfs_upload_send_error (finalize md) fsd None;
            Ok (fsd, num_iovec)
          else
            fsd ← match finalize md with Some f => f fsd 1 | None => Ok fsd end;
            Ok (fsd, num_iovec)
      end.
End receiver.

(** ** Mounting *)

Section mount.
Context `{JsonC} `{Malloc} `{CbTable tab cb} {D : Type}.

(** [post_cb] is the callback [upload] with its mountpoint.  The result is
    the C result, the callback table, the module's state, the selected
    module and the capacity of the extent array.  A NULL mode reaches
    strcmp; the registry is never empty, modules register themselves before
    main. *)
Definition up_mount (mod_registry : list (uploadfs_module D)) (props : json)
    (mountpoint : bytes) (post_cb : cb) (fsd : upfs_data D) (t : tab)
    : outcome (Z * (tab * upfs_data D * option (uploadfs_module D) * nat)) :=
  modname ← json_array_find_string props (str "mode");
  modname ← deref NullDeref modname;
  match uploadfs_module_select mod_registry modname with
  | None => Ok (- EIO, (t, fsd, None, O))
  | Some md =>
      r ← match mod_init md with Some init => init fsd | None => Ok (0, fsd) end;
      let '(ret, fsd) := r in
      if negb (ret =? 0) then Ok (- EIO, (t, fsd, Some md, O))
      else
        match malloc (16 * 4) with
        | None => Ok (- ENOMEM, (t, fsd, Some md, O))
        | Some _ =>
            Ok (0, (ahttpd_add_path mountpoint (str "/post") post_cb t, fsd, Some md, 4%nat))
        end
  end.

Definition up_unmount (md : uploadfs_module D) (mountpoint : bytes) (fsd : upfs_data D) (t : tab)
    : outcome (upfs_data D * tab) :=
  fsd ← match mod_deinit md with Some deinit => deinit fsd | None => Ok fsd end;
  Ok (fsd, ahttpd_del_path mountpoint (str "/post") t).
End mount.

(** ** Specification of the receiver *)

Record part := {
  part_headers : list (bytes * bytes);
  part_data : bytes
}.

Definition delimiter (boundary : bytes) : bytes := str "--" ++ boundary.

Definition encode_header (h : bytes * bytes) : bytes := h.1 ++ str ": " ++ h.2 ++ CRLF.

(** A part as a client sends it, up to the CRLF before the next delimiter. *)
Definition encode_part (boundary : bytes) (p : part) : bytes :=
  delimiter boundary ++ CRLF ++ concat (encode_header <$> part_headers p) ++ CRLF
    ++ part_data p ++ CRLF.

(** How far the delimiter and the header lines of a part reach. *)
Definition head_length (boundary : bytes) (p : part) : nat :=
  length (delimiter boundary ++ CRLF ++ concat (encode_header <$> part_headers p) ++ CRLF).

(** Every part of a body laid out in chains of these sizes has its delimiter
    and its header lines inside the chain they start in, and at least the
    first byte after them. *)
Fixpoint heads_in_chains (boundary : bytes) (cs : list nat) (ps : list part) : Prop :=
  match ps with
  | [] => True
  | p :: ps =>
      (head_length boundary p < front cs)%nat ∧
      heads_in_chains boundary (drain_layout (length (encode_part boundary p)) cs) ps
  end.

Definition encode_parts (boundary : bytes) (ps : list part) (epilogue : bytes) : bytes :=
  concat (encode_part boundary <$> ps) ++ delimiter boundary ++ str "--" ++ epilogue.

Definition free_of (bad s : bytes) : Prop := Forall (λ c, c ∉ bad) s.

#[export] Instance free_of_dec bad s : Decision (free_of bad s).
Proof. unfold free_of. apply _. Defined.

(** A name is a non-empty token; a value is a line that does not start with a
    space. *)
Definition wf_header (h : bytes * bytes) : Prop :=
  h.1 ≠ [] ∧ free_of [x00; x0a; x0d; ":"%byte] h.1 ∧
  free_of [x00; x0a; x0d] h.2 ∧ head h.2 ≠ Some " "%byte.

(** The data is not empty, its size fits an [int] and the delimiter does not
    occur in it, nor in what follows it before the real one. *)
Definition wf_part (boundary : bytes) (p : part) : Prop :=
  Forall wf_header (part_headers p) ∧
  (part_data p ≠ [] ∧ Z.of_nat (length (part_data p)) < 2 ^ 31) ∧
  strstr (part_data p ++ CRLF ++ delimiter boundary) (delimiter boundary) =
    Some (length (part_data p) + 2)%nat.

#[export] Instance wf_header_dec h : Decision (wf_header h).
Proof. unfold wf_header. apply _. Defined.

#[export] Instance heads_in_chains_dec boundary cs ps : Decision (heads_in_chains boundary cs ps).
Proof. revert cs. induction ps; intros cs; simpl; apply _. Defined.

#[export] Instance wf_part_dec boundary p : Decision (wf_part boundary p).
Proof. unfold wf_part. apply _. Defined.

Section spec.
Context `{JsonC} {D : Type} (md : uploadfs_module D).
(** What the module does with the data of a part, however it is cut. *)
Context (hdata : upfs_data D → bytes → outcome (upfs_data D)).
Implicit Types fsd : upfs_data D.

Fixpoint run_headers fsd (hs : list (bytes * bytes)) : outcome (upfs_data D) :=
  match hs with
  | [] => Ok fsd
  | (k, v) :: hs =>
      fsd ← match handle_form_header md with Some h => h fsd k v | None => Ok fsd end;
      if upload_error fsd =? 0 then run_headers fsd hs else Ok fsd
  end.

(** [false]: the module reported an error and the part was abandoned. *)
Definition run_part fsd (p : part) : outcome (bool * upfs_data D) :=
  fsd ← run_headers fsd (part_headers p);
  if negb (upload_error fsd =? 0) then Ok (false, fsd)
  else
    fsd ← hdata fsd (part_data p);
    Ok (upload_error fsd =? 0, fsd).


(** A request, from what happens to its parts. *)
Definition run_request (parts : upfs_data D → outcome (bool * upfs_data D)) fsd
    : outcome (upfs_data D) :=
  fsd ← match inbound_request_hook md with Some h => h fsd | None => Ok fsd end;
  if negb (upload_error fsd =? 0) then Ok fsd
  else
    r ← parts fsd;
    let '(ok, fsd) := r in
    if (ok : bool)
    then match finalize md with Some f => f fsd 1 | None => Ok fsd end
    else uploadfs_upload_send_error (finalize md) fsd None.


(** The same on a body in chains of these sizes: the data of a part is read
    through a freed chain when its head is not inside one chain. *)
Definition run_part_on (boundary : bytes) (cs : list nat) fsd (p : part)
    : outcome (bool * upfs_data D) :=
  fsd ← run_headers fsd (part_headers p);
  if negb (upload_error fsd =? 0) then Ok (false, fsd)
  else if decide (head_length boundary p < front cs)%nat then
    fsd ← hdata fsd (part_data p);
    Ok (upload_error fsd =? 0, fsd)
  else Fault UseAfterFree.

Fixpoint run_parts_on (boundary : bytes) (cs : list nat) fsd (ps : list part)
    : outcome (bool * upfs_data D) :=
  match ps with
  | [] => Ok (true, fsd)
  | p :: ps =>
      r ← run_part_on boundary cs fsd p;
      let '(ok, fsd) := r in
      if (ok : bool)
      then run_parts_on boundary (drain_layout (length (encode_part boundary p)) cs) fsd ps
      else Ok (false, fsd)
  end.

Definition run_upload_on (boundary : bytes) (cs : list nat) fsd (ps : list part)
    : outcome (upfs_data D) :=
  run_request (λ fsd, run_parts_on boundary cs fsd ps) fsd.


Lemma run_part_inside boundary cs fsd p :
  (head_length boundary p < front cs)%nat → run_part_on boundary cs fsd p = run_part fsd p.
Proof. intros Hp. unfold run_part_on, run_part. by destruct (decide (head_length boundary p < front cs)%nat). Qed.

End spec.

(** ** The extraction meets its specification *)

Lemma c_string_trunc d r : c_string (d ++ x00 :: r) = Some (c_trunc d).
Proof.
  unfold c_trunc. induction d as [|c d IH]; simpl; [done|].
  case_decide as Hc; [by rewrite bool_decide_eq_false_2 by tauto|].
  rewrite bool_decide_eq_true_2 by done. by rewrite IH.
Qed.

Lemma c_trunc_nul_free d : nul_free (c_trunc d).
Proof.
  unfold nul_free, c_trunc. intros Hin.
  pose proof (span_Forall (λ c, bool_decide (c ≠ x00)) d) as HF.
  rewrite Forall_forall in HF. specialize (HF _ Hin). by apply bool_decide_eq_true in HF.
Qed.

Lemma c_trunc_id s : nul_free s → c_trunc s = s.
Proof.
  unfold nul_free, c_trunc. intros Hs. rewrite span_all_nil; [done|].
  apply Forall_forall. intros c Hc. apply bool_decide_eq_true. congruence.
Qed.

Lemma length_sanitize s : length (sanitize s) = length s.
Proof. apply length_fmap. Qed.

Lemma sanitize_nul_free s : nul_free s → nul_free (sanitize s).
Proof.
  unfold nul_free, sanitize. intros Hs (c & Hc & Hin)%list_elem_of_fmap.
  case_decide; congruence.
Qed.

Lemma sanitize_no_slash s : "/"%byte ∉ sanitize s.
Proof. intros (c & Hc & _)%list_elem_of_fmap. by case_decide. Qed.

Lemma cstr_at_splice_0 m s :
  nul_free s → (length s < length m)%nat → cstr_at (splice 0 (s ++ [x00]) m) 0 = Ok s.
Proof.
  intros Hs Hm. apply cstr_at_Ok. split; [done|]. eexists.
  unfold splice. simpl. by rewrite <-app_assoc.
Qed.

Lemma cstr_at_replace m i s1 c c' s2 :
  cstr_at m 0 = Ok (s1 ++ c :: s2) → i = length s1 → c' ≠ x00 →
  store m i c' = Ok (splice i [c'] m) ∧ cstr_at (splice i [c'] m) 0 = Ok (s1 ++ c' :: s2).
Proof.
  intros Hs -> Hc. pose proof (cstr_at_room _ _ _ Hs) as Hroom.
  rewrite length_app in Hroom. simpl in Hroom.
  split; [apply store_Ok; lia|]. apply cstr_at_Ok in Hs as [Hn [r Hr]].
  apply nul_free_app in Hn as [Hn1 [? Hn2]%nul_free_cons].
  apply cstr_at_Ok. split; [apply nul_free_app; split; [done|by apply nul_free_cons]|].
  exists r. rewrite drop_0 in *. rewrite Hr. unfold splice.
  rewrite <-app_assoc, take_app_length.
  replace (length s1 + length [c'])%nat with (length s1 + 1)%nat by (simpl; lia).
  rewrite <-drop_drop, drop_app_length. simpl. by rewrite drop_0, <-app_assoc.
Qed.

Lemma sanitize_loop_spec fuel m i s1 s2 :
  cstr_at m 0 = Ok (sanitize s1 ++ s2) → i = length s1 → (length s2 < fuel)%nat →
  ∃ m', sanitize_loop fuel m i = Ok m' ∧ cstr_at m' 0 = Ok (sanitize (s1 ++ s2)).
Proof.
  revert m i s1 s2. induction fuel as [|fuel IH]; intros m i s1 s2 Hs Hi Hf; [lia|].
  simpl. rewrite Hs. simpl. rewrite length_app, length_sanitize.
  destruct s2 as [|c s2]; simpl in *.
  - rewrite decide_False by lia. exists m. split; [done|].
    by rewrite app_nil_r in *.
  - rewrite decide_True by lia.
    assert (i = length (sanitize s1)) as Hi' by (by rewrite length_sanitize).
    assert (load m i = Ok c) as ->.
    { apply (load_cstr m 0 _ i c Hs). by rewrite Hi', list_lookup_middle. }
    simpl. replace (s1 ++ c :: s2) with ((s1 ++ [c]) ++ s2) by (by rewrite <-app_assoc).
    assert (sanitize (s1 ++ [c]) = sanitize s1 ++ sanitize [c]) as Hsan by apply fmap_app.
    case_decide as Hc.
    + destruct (cstr_at_replace m i _ c "_"%byte s2 Hs Hi') as [-> Hs']; [done|]. simpl.
      apply IH; [|rewrite length_app; simpl; lia|lia].
      rewrite Hs', Hsan, <-app_assoc. simpl. by rewrite decide_True.
    + simpl. apply IH; [|rewrite length_app; simpl; lia|lia].
      rewrite Hs, Hsan, <-app_assoc. simpl. by rewrite decide_False.
Qed.

Lemma sanitize_string_spec m s :
  cstr_at m 0 = Ok s → ∃ m', sanitize_string m = Ok m' ∧ cstr_at m' 0 = Ok (sanitize s).
Proof.
  intros Hs. apply (sanitize_loop_spec _ m 0 [] s); [done|done|].
  apply cstr_at_room in Hs. lia.
Qed.

Lemma copy_value_spec pos ret i :
  let v := (span (λ c, bool_decide (c ≠ x22)) pos).1 in
  (i + length v <= length ret)%nat →
  copy_value pos ret i = Ok (splice i v ret, (i + length v)%nat).
Proof.
  revert ret i. induction pos as [|c pos IH]; intros ret i; simpl; intros Hl.
  - by rewrite splice_nil, Nat.add_0_r.
  - case_decide as Hc.
    + rewrite bool_decide_eq_false_2 by tauto. simpl. by rewrite splice_nil, Nat.add_0_r.
    + rewrite bool_decide_eq_true_2 in * by done. simpl in *.
      rewrite store_Ok by lia. simpl. rewrite IH by (rewrite length_splice; simpl; lia).
      do 2 f_equal; [|lia]. replace (S i) with (i + length [c])%nat by (simpl; lia).
      by rewrite splice_app by (simpl; lia).
Qed.

(** The alloca'd block is large enough for the two keys of the program, and
    ends up with the pattern. *)
Lemma pattern_in_block key :
  nul_free key → (length key <= 8)%nat →
  (tmp ← store_bytes (repeat x00 (length (str "key") + 8)) 0 (key ++ [x00]);
   tmp ← store_bytes tmp (length key) ([x3d; x22] ++ [x00]);
   cstr_at tmp 0) = Ok (key ++ [x3d; x22]).
Proof.
  intros Hn Hl. change (length (str "key") + 8)%nat with 11%nat.
  set (blk := repeat x00 11). assert (length blk = 11%nat) as Hb by done.
  rewrite store_bytes_Ok by (rewrite length_app; simpl; lia). simpl.
  rewrite store_bytes_Ok by (rewrite length_splice; rewrite ?length_app; simpl; lia).
  cbn [mbind outcome_bind]. apply cstr_at_Ok. split.
  { apply nul_free_app. split; [done|decide_vm]. }
  eexists. unfold splice at 1. rewrite drop_0.
  unfold splice at 1. simpl. rewrite <-app_assoc, take_app_length.
  rewrite <-app_assoc. simpl. done.
Qed.

Section extract_correct.
Context `{Malloc}.

Lemma extract_key_value_spec key cds :
  nul_free key → (length key <= 8)%nat → nul_free cds →
  extract_key_value key (Some cds) =
    Ok match malloc (length cds) with Some _ => parameter_value key cds | None => None end.
Proof.
  intros Hk Hkl Hc. unfold extract_key_value, parameter_value, raw_value.
  case_decide as Hcds.
  { destruct cds; [|done]. assert (strstr [] (key ++ [x3d; x22]) = None) as ->
      by (by destruct key). by destruct (malloc _). }
  pose proof (pattern_in_block key Hk Hkl) as Hpat.
  apply bind_Ok_inv in Hpat as (t1 & -> & Hpat). simpl.
  apply bind_Ok_inv in Hpat as (t2 & Ht2 & Hpat). simpl in Ht2. rewrite Ht2. simpl.
  rewrite Hpat. simpl.
  destruct (strstr cds _) as [p|] eqn:Hp; simpl; [|by destruct (malloc _)].
  destruct (malloc (length cds)) as [ret|] eqn:Hm; [|done].
  apply malloc_length in Hm. apply strstr_Some in Hp as (Hpl & [rest Hp] & _).
  apply (f_equal length) in Hp. rewrite length_drop, !length_app in Hp. simpl in Hp.
  rewrite length_app, Nat.add_assoc. simpl.
  set (v := (span _ (drop (p + length key + 2) cds)).1).
  assert (length v < length ret)%nat as Hv.
  { pose proof (span_length (λ c, bool_decide (c ≠ x22)) (drop (p + length key + 2) cds)).
    rewrite length_drop in *. unfold v. lia. }
  assert (nul_free v) as Hvn.
  { pose proof (nul_free_drop (p + length key + 2) _ Hc) as Hd.
    rewrite <-(span_app (λ c, bool_decide (c ≠ x22))) in Hd.
    by apply nul_free_app in Hd as [? _]. }
  rewrite copy_value_spec by (fold v; lia). fold v. simpl.
  rewrite store_Ok by (rewrite length_splice; lia). simpl.
  rewrite splice_app_0 by (simpl; lia).
  rewrite (decode_html_entities_utf8_ready _ _ _ v).
  2:{ split; [by apply cstr_at_splice_0|rewrite length_splice; rewrite ?length_app; simpl; lia|lia]. }
  simpl. pose proof (decode_length v) as Hdl.
  destruct (sanitize_string_spec (splice 0 (decode v ++ [x00]) (splice 0 (v ++ [x00]) ret))
    (c_trunc (decode v))) as (m' & -> & Hm').
  { unfold cstr_at. rewrite drop_0. unfold splice at 1. rewrite take_0, app_nil_l.
    rewrite <-app_assoc. cbn [app]. by rewrite c_string_trunc. }
  simpl. rewrite Hm'. done.
Qed.
End extract_correct.

(** ** Writing extents: lemmas *)

Lemma dump_iovec_spec fd vec len :
  0 <= len <= Z.of_nat (length (concat vec)) →
  dump_iovec fd vec len = Ok (fd ++ take (Z.to_nat len) (concat vec)).
Proof.
  revert fd len. induction vec as [|v vec IH]; intros fd len Hlen; simpl in *;
    destruct (Z.eqb_spec len 0) as [->|Hne]; rewrite ?take_0, ?app_nil_r; try done; [lia|].
  rewrite length_app in Hlen.
  destruct (Z.ltb_spec (Z.min len (Z.of_nat (length v))) 0); [lia|].
  rewrite IH by lia. rewrite <-app_assoc. do 2 f_equal.
  rewrite take_app. f_equal; [|f_equal; lia].
  destruct (decide (len <= Z.of_nat (length v))).
  - f_equal. lia.
  - rewrite !take_ge by lia. done.
Qed.

(** ** The receiver meets its specification *)

Lemma starts_with_app needle hay t :
  (length needle <= length hay)%nat → starts_with needle (hay ++ t) = starts_with needle hay.
Proof.
  revert hay. induction needle as [|c needle IH]; intros [|d hay] Hl; simpl in *; try done; [lia|].
  by rewrite IH by lia.
Qed.

Lemma strstr_app hay needle t i : strstr hay needle = Some i → strstr (hay ++ t) needle = Some i.
Proof.
  intros H. pose proof (strstr_Some _ _ _ H) as (Hi & [r Hr] & _).
  assert (i + length needle <= length hay)%nat as Hlen.
  { apply (f_equal length) in Hr. rewrite length_drop, length_app in Hr. lia. }
  clear Hr Hi. revert i H Hlen. induction hay as [|c hay IH]; intros i H Hlen; simpl in *.
  - destruct needle; [|simpl in Hlen; lia]. destruct t; simpl in *; congruence.
  - change (c :: hay ++ t) with ((c :: hay) ++ t).
    rewrite starts_with_app by (simpl; lia).
    destruct (starts_with needle (c :: hay)); [done|].
    destruct (strstr hay needle) as [j|]; [|done]. injection H as <-.
    by rewrite (IH j) by (done || lia).
Qed.

Lemma strstr_head needle t : strstr (needle ++ t) needle = Some O.
Proof.
  assert (starts_with needle (needle ++ t) = true) as Hs
    by (apply starts_with_spec; by exists t).
  destruct (needle ++ t) eqn:E; simpl; by rewrite Hs.
Qed.

Lemma free_of_notin bad s c : free_of bad s → c ∈ bad → c ∉ s.
Proof. unfold free_of. rewrite Forall_forall. intros Hs Hc Hin. by apply (Hs c). Qed.

Lemma first_line_crlf l r : x0a ∉ l → first_line (l ++ CRLF ++ r) = Some (l, (length l + 2)%nat).
Proof.
  intros Hl. unfold first_line, CRLF. simpl.
  replace (l ++ x0d :: x0a :: r) with ((l ++ [x0d]) ++ x0a :: r) by (by rewrite <-app_assoc).
  rewrite strchr_app_mid, take_app_length.
  2:{ rewrite not_elem_of_app. split; [done|]. by apply not_elem_of_cons; split; [|apply not_elem_of_nil]. }
  rewrite last_snoc, length_app. simpl. replace (pred (length l + 1)) with (length l) by lia.
  rewrite take_app_length. do 2 f_equal. lia.
Qed.

Lemma strtok_r_token k d r :
  k ≠ [] → d ∉ k → strtok_r (k ++ d :: r) [d] = (Some k, r).
Proof.
  intros Hk Hd. unfold strtok_r.
  assert (∀ c, is_delim [d] c = bool_decide (c = d)) as Hdel.
  { intros c. unfold is_delim. apply bool_decide_ext. by rewrite list_elem_of_singleton. }
  destruct k as [|c k]; [done|]. apply not_elem_of_cons in Hd as [Hcd Hd].
  simpl. rewrite Hdel, bool_decide_eq_false_2 by congruence. simpl.
  rewrite Hdel, bool_decide_eq_false_2 by congruence. simpl.
  rewrite span_all; [done| |].
  - apply Forall_forall. intros x Hx. rewrite Hdel, bool_decide_eq_false_2; [done|congruence].
  - rewrite Hdel, bool_decide_eq_true_2; done.
Qed.

Lemma strtok_r_rest s ds :
  s ≠ [] → (∀ c, c ∈ s → c ∉ ds) → strtok_r s ds = (Some s, []).
Proof.
  intros Hs Hd. unfold strtok_r.
  assert (∀ c, c ∈ s → is_delim ds c = false) as Hdel
    by (intros; by apply bool_decide_eq_false_2, Hd).
  assert (span (is_delim ds) s = ([], s)) as ->.
  { destruct s as [|c s]; [done|]. simpl. rewrite Hdel by apply elem_of_cons, or_introl, eq_refl.
    done. }
  simpl. destruct s as [|c s]; [done|]. rewrite span_all_nil; [done|].
  apply Forall_forall. intros x Hx. by rewrite Hdel.
Qed.

Lemma encode_header_app h hs body :
  (encode_header h ++ concat hs) ++ body = (h.1 ++ str ": " ++ h.2) ++ CRLF ++ concat hs ++ body.
Proof. unfold encode_header. by rewrite <-!app_assoc. Qed.

Lemma encode_headers_length hs :
  (length hs <= length (concat (encode_header <$> hs)))%nat.
Proof.
  induction hs as [|h hs IH]; [done|]. rewrite fmap_cons. cbn [concat].
  unfold encode_header at 1. rewrite !length_app. simpl. lia.
Qed.

Lemma sprintf_Ok size text : (length text < size)%nat → sprintf size text = Ok text.
Proof. intros. unfold sprintf. by rewrite decide_True. Qed.

Lemma request_check_headers_boundary headers find boundary :
  headers = Some find →
  find (str "Content-Type") = Some (str "multipart/form-data; boundary=" ++ boundary) →
  request_check_headers headers = Some boundary.
Proof.
  intros -> Hct. unfold request_check_headers. rewrite Hct.
  rewrite (strstr_app _ _ _ 0) by done. rewrite (strstr_app _ _ _ 21) by done.
  by rewrite drop_app_length'.
Qed.

Lemma int_of_small z : - 2 ^ 31 <= z < 2 ^ 31 → int_of z = z.
Proof. intros. unfold int_of. rewrite Z.mod_small; lia. Qed.

Section refinement.
Context `{JsonC} `{Malloc} `{Evbuffer evb} {D : Type} (md : uploadfs_module D).
Implicit Types (fsd : upfs_data D) (buf : evb) (start : evbuffer_ptr).

(** What a header callback leaves of the state. *)
Definition header_cb fsd (k v : bytes) : outcome (upfs_data D) :=
  match handle_form_header md with Some h => h fsd k v | None => Ok fsd end.

Lemma handle_header_line_spec fsd h :
  wf_header h →
  handle_file_header_line md fsd (Some (h.1 ++ str ": " ++ h.2)) =
    (fsd ← header_cb fsd h.1 h.2;
     if upload_error fsd =? 0 then Ok (0, fsd) else Ok (1, fsd)).
Proof.
  destruct h as [k v]. intros (Hk & Hkf & Hvf & Hv). simpl in *.
  unfold handle_file_header_line.
  assert (∀ c, c ∈ [x00; x0a; x0d] → c ∉ v) as Hvn by (intros; by eapply free_of_notin).
  assert (∀ c, c ∈ [x00; x0a; x0d; ":"%byte] → c ∉ k) as Hkn by (intros; by eapply free_of_notin).
  rewrite c_trunc_id.
  2:{ apply nul_free_app. split; [apply Hkn; set_solver|].
      apply (nul_free_app (str ": ")). split; [decide_vm|apply Hvn; set_solver]. }
  rewrite decide_False by (rewrite length_app; simpl; destruct k; simpl; [done|lia]).
  rewrite (strtok_r_token k ":"%byte) by (done || apply Hkn; set_solver).
  rewrite strtok_r_rest; [|done|].
  2:{ intros c Hc Hcc. unfold CRLF in Hcc.
      assert (c ∈ [x00; x0a; x0d]) as Hc3 by set_solver.
      apply elem_of_cons in Hc as [->|Hc]; [set_solver|by eapply Hvn]. }
  assert (span (λ c, bool_decide (c = " "%byte)) v = ([], v)) as Hsp.
  { destruct v as [|c v]; [done|]. simpl in *.
    rewrite bool_decide_eq_false_2; [done|congruence]. }
  simpl. by rewrite Hsp.
Qed.

Lemma handle_header_no_colon fsd line :
  line ≠ [] → free_of [x00; x0a; x0d; ":"%byte] line →
  handle_file_header_line md fsd (Some line) = Fault NullDeref.
Proof.
  intros Hne Hl. unfold handle_file_header_line.
  rewrite c_trunc_id by (eapply free_of_notin; [done|set_solver]).
  rewrite decide_False by (destruct line; simpl; [done|lia]).
  change (str ":") with [":"%byte]. rewrite strtok_r_rest; [done|done|].
  intros c Hc ->%list_elem_of_singleton. eapply free_of_notin in Hl; [done|set_solver].
Qed.

Lemma search_found buf what i :
  what ≠ [] → strstr (contents buf) what = Some i →
  ∃ p, evbuffer_search buf what = Some p ∧ ptr_pos p = i ∧ ptr_at buf p = Some i.
Proof.
  intros Hw Hs. rewrite <-search_spec in Hs by done.
  destruct (evbuffer_search buf what) as [p|] eqn:E; [|done]. injection Hs as Hs.
  exists p. split_and!; [done..|]. by rewrite (search_valid _ _ _ E), Hs.
Qed.

Context `{!EvbufferChains evb}.

(** The loop over the header lines feeds them to the module in order and
    stops after the empty line, or after the header the module refuses.  A
    pointer to what was the first byte is followed. *)
Lemma header_lines_spec fuel fsd hs body buf start m L :
  Forall wf_header hs → upload_error fsd = 0 →
  contents buf = concat (encode_header <$> hs) ++ CRLF ++ body →
  (length hs < fuel)%nat → followed buf start m L →
  match run_headers md fsd hs with
  | Fault f => header_lines fuel md fsd buf = Fault f
  | Ok fsd' => ∃ buf', header_lines fuel md fsd buf = Ok (fsd', buf') ∧
      (upload_error fsd' = 0 → contents buf' = body ∧
        followed buf' start (m + length (concat (encode_header <$> hs) ++ CRLF)) L)
  end.
Proof.
  revert fsd hs buf m. induction fuel as [|fuel IH]; intros fsd hs buf m Hwf He Hc Hf Hp; [lia|].
  pose proof (readln_spec buf) as Hln. cbn [header_lines].
  destruct hs as [|[k v] hs]; cbn [fmap list_fmap concat run_headers] in *;
    rewrite ?encode_header_app in Hc; rewrite Hc in Hln.
  - rewrite app_nil_l in Hln.
    pose proof (first_line_crlf [] body (not_elem_of_nil _)) as Hfl.
    rewrite app_nil_l in Hfl. rewrite Hfl in Hln.
    apply (followed_readln _ _ _ _ [] 2%nat) in Hp; [|by rewrite Hc].
    destruct Hln as [Hl Hb]. destruct (evbuffer_readln buf) as [ln buf']. simpl in *. subst ln.
    exists buf'. split; [done|]. intros _. split; [by rewrite Hb|done].
  - apply Forall_cons in Hwf as [Hkv Hwf].
    assert (x0a ∉ k ++ str ": " ++ v) as Hlf.
    { destruct Hkv as (_ & Hk & Hv & _). rewrite !not_elem_of_app. split_and!.
      - eapply free_of_notin; [done|set_solver].
      - decide_vm.
      - eapply free_of_notin; [done|set_solver]. }
    cbn [fst snd] in Hln.
    pose proof (first_line_crlf _ (concat (encode_header <$> hs) ++ CRLF ++ body) Hlf) as Hfl.
    rewrite Hfl in Hln.
    apply (followed_readln _ _ _ _ (k ++ str ": " ++ v) (length (k ++ str ": " ++ v) + 2)) in Hp;
      [|by rewrite Hc].
    destruct Hln as [Hl Hb]. destruct (evbuffer_readln buf) as [ln buf'].
    cbn [fst snd] in Hl, Hb. subst ln.
    pose proof (handle_header_line_spec fsd (k, v) Hkv) as Hh. cbn [fst snd] in Hh.
    cbv beta iota zeta. rewrite Hh. unfold header_cb.
    destruct (match handle_form_header md with Some h => h fsd k v | None => Ok fsd end)
      as [fsd'|f]; simpl; [|done].
    destruct (Z.eqb_spec (upload_error fsd') 0) as [He'|He']; simpl.
    + eapply (IH fsd' hs buf') in Hp; [|done|done| |simpl in *; lia].
      * destruct (run_headers md fsd' hs) as [fsd2|]; [|done].
        destruct Hp as (buf2 & -> & Hp). exists buf2. split; [done|]. intros He2.
        destruct (Hp He2) as [-> Hp2]. split; [done|]. eapply followed_eq; [exact Hp2|].
        unfold encode_header. rewrite !length_app. simpl. lia.
      * rewrite Hb. rewrite (app_assoc _ CRLF). apply drop_app_length'.
        rewrite !length_app. simpl. lia.
    + exists buf'. split; [done|]. intros ?. done.
Qed.
Context (hdata : upfs_data D → bytes → outcome (upfs_data D)).

(** The module looks at the bytes, not at how they are cut into extents. *)
Definition data_oblivious : Prop :=
  ∀ fsd vec len, 0 < len <= Z.of_nat (length (concat vec)) →
    match handle_data md with Some h => h fsd vec len | None => Ok fsd end =
    hdata fsd (take (Z.to_nat len) (concat vec)).

Hypothesis Hdata : data_oblivious.
Hypothesis Hmalloc : ∀ n, is_Some (malloc n).

Lemma peek_realloc_spec buf len start n_vec :
  0 < len <= Z.of_nat (length (contents buf)) → ptr_at buf start = Some O →
  ∃ count vec n_vec', evbuffer_peek_realloc 2 buf len start n_vec = Ok (count, vec, n_vec') ∧
    0 < count ∧ len <= Z.of_nat (length (concat vec)) ∧
    take (Z.to_nat len) (concat vec) = take (Z.to_nat len) (contents buf).
Proof.
  intros Hlen Hp. pose proof (extents_spec buf len Hlen) as (Hne & r & Hr & Hl).
  set (ext := evbuffer_extents buf len 0) in *.
  assert (0 < length ext)%nat as Hext by (destruct ext; [done|simpl; lia]).
  assert (take (Z.to_nat len) (concat ext) = take (Z.to_nat len) (contents buf)) as Ht.
  { rewrite <-Hr, take_app_le; [done|lia]. }
  cbn [evbuffer_peek_realloc]. unfold evbuffer_peek. rewrite Hp. cbn [deref].
  rewrite !bind_Ok. fold ext. cbv beta iota zeta. case_decide as Hn.
  - destruct (Hmalloc (16 * length ext)) as [blk ->]. rewrite decide_False by lia.
    exists (Z.of_nat (length ext)), ext, (length ext). rewrite take_ge by lia.
    split_and!; [done|lia|done|done].
  - exists (Z.of_nat (length ext)), ext, n_vec. rewrite take_ge by lia.
    split_and!; [done|lia|done|done].
Qed.

Lemma peek_realloc_stale buf len start n_vec :
  ptr_at buf start = None →
  evbuffer_peek_realloc 2 buf len start n_vec = Fault UseAfterFree.
Proof. intros Hp. cbn [evbuffer_peek_realloc]. unfold evbuffer_peek. by rewrite Hp. Qed.

(** Two layouts that no part's head fits in are as good as one another. *)
Definition similar (boundary : bytes) (L cs : list nat) : Prop :=
  L = cs ∨ (front L <= length (delimiter boundary) + 2 ∧
            front cs <= length (delimiter boundary) + 2)%nat.

Lemma run_parts_similar boundary L cs fsd ps :
  similar boundary L cs →
  run_parts_on md hdata boundary L fsd ps = run_parts_on md hdata boundary cs fsd ps.
Proof.
  intros [->|[HL Hcs]]; [done|]. destruct ps as [|p ps]; [done|]. cbn [run_parts_on].
  unfold run_part_on. destruct (run_headers md fsd (part_headers p)) as [fsd1|]; [|done].
  cbn [mbind outcome_bind]. destruct (negb _); [done|].
  assert (length (delimiter boundary) + 4 <= head_length boundary p)%nat
    by (unfold head_length; rewrite !length_app; simpl; lia).
  rewrite !decide_False by lia. done.
Qed.

Lemma encode_part_length boundary p :
  length (encode_part boundary p) = (head_length boundary p + length (part_data p) + 2)%nat.
Proof. unfold encode_part, head_length. rewrite !length_app. simpl. lia. Qed.

(** What is left of [multipart_handle_next_file] after the header lines, when
    the first delimiter was at the start of the buffer; for the proofs only. *)
Definition multipart_data fsd (num_iovec : nat) buf start boundary :=
  match evbuffer_search buf (delimiter boundary) with
  | None => Ok (- EBADMSG, (fsd, num_iovec, buf))
  | Some next =>
      if decide (ptr_pos next < 0)%nat then Ok (- EBADMSG, (fsd, num_iovec, buf))
      else
        let len := Z.of_nat (ptr_pos next) - 2 in
        r ← evbuffer_peek_realloc 2 buf len start num_iovec;
        let '(count, iovec, num_iovec) := r in
        if count <=? 0 then Ok (- EBADMSG, (fsd, num_iovec, buf))
        else
          fsd ← match handle_data md with
                | Some h => h fsd iovec (int_of len)
                | None => Ok fsd
                end;
          if negb (upload_error fsd =? 0) then
            Ok (- EBADMSG, (fsd, num_iovec, buf))
          else
            let buf := evbuffer_drain buf (ptr_pos next) in
            boundary_search ← sprintf (length boundary + 8)
                                (str "--" ++ boundary ++ str "--");
            let '(tmp, buf) := evbuffer_pullup buf (length boundary_search) in
            tmp ← deref NullDeref tmp;
            Ok (if decide (take (length boundary_search) tmp = boundary_search)
                then 0 else 1,
                (fsd, num_iovec, buf))
  end.

Lemma multipart_data_spec fsd n buf start boundary p tail L :
  wf_part boundary p → upload_error fsd = 0 →
  contents buf = part_data p ++ CRLF ++ delimiter boundary ++ tail →
  followed buf start (head_length boundary p) L →
  match (if decide (head_length boundary p < front L)%nat then
           fsd ← hdata fsd (part_data p); Ok (upload_error fsd =? 0, fsd)
         else Fault UseAfterFree) with
  | Fault f => multipart_data fsd n buf start boundary = Fault f
  | Ok (false, fsd') => ∃ n' buf',
      multipart_data fsd n buf start boundary = Ok (- EBADMSG, (fsd', n', buf'))
  | Ok (true, fsd') =>
      upload_error fsd' = 0 ∧
      if decide (2 <= length tail)%nat then ∃ n' buf',
        multipart_data fsd n buf start boundary =
          Ok (if decide (take 2 tail = str "--") then 0 else 1, (fsd', n', buf')) ∧
        contents buf' = delimiter boundary ++ tail ∧
        similar boundary (evbuffer_layout buf')
          (drain_layout (length (encode_part boundary p)) L)
      else multipart_data fsd n buf start boundary = Fault NullDeref
  end.
Proof.
  intros (_ & [Hne Hsz] & Hfind) He Hc [Hl Hptr]. unfold multipart_data.
  destruct (search_found buf (delimiter boundary) (length (part_data p) + 2))
    as (next & -> & -> & _); [done| |].
  { rewrite Hc, !app_assoc, <-(app_assoc (part_data p) CRLF). by apply strstr_app. }
  rewrite (decide_False (P := (length (part_data p) + 2 < 0)%nat)) by lia. cbv zeta.
  destruct (decide (head_length boundary p < front L)%nat) as [Hin|Hout];
    [|by rewrite peek_realloc_stale].
  assert (0 < length (part_data p))%nat by (destruct (part_data p); [done|simpl; lia]).
  destruct (peek_realloc_spec buf (Z.of_nat (length (part_data p) + 2) - 2) start n)
    as (count & vec & n' & -> & Hcount & Hvl & Hv); [rewrite Hc, length_app; lia|done|].
  rewrite bind_Ok. destruct (Z.leb_spec count 0); [lia|].
  rewrite int_of_small, Hdata by lia. rewrite Hv, Hc, take_app_length' by lia.
  destruct (hdata fsd (part_data p)) as [fsd2|f]; cbn [mbind outcome_bind]; [|done].
  destruct (Z.eqb_spec (upload_error fsd2) 0) as [He2|He2]; cbn [negb]; [|eauto].
  rewrite sprintf_Ok by (rewrite !length_app; simpl; lia). rewrite bind_Ok.
  change (str "--" ++ boundary ++ str "--") with ((str "--" ++ boundary) ++ str "--").
  fold (delimiter boundary). set (close := delimiter boundary ++ str "--").
  assert (length close = length (delimiter boundary) + 2)%nat as Hcl
    by (unfold close; by rewrite length_app).
  set (buf3 := evbuffer_drain buf (length (part_data p) + 2)).
  assert (contents buf3 = delimiter boundary ++ tail) as Hc4.
  { unfold buf3. rewrite drain_spec, Hc, (app_assoc (part_data p)). apply drop_app_length'.
    rewrite length_app. simpl. lia. }
  assert (evbuffer_layout buf3 = drain_layout (length (encode_part boundary p)) L) as Hl3.
  { unfold buf3. rewrite layout_drain, Hl, drain_layout_drain, encode_part_length. f_equal. lia. }
  pose proof (pullup_spec buf3 (length close)) as Hpu.
  pose proof (pullup_contents buf3 (length close)) as Hpc.
  pose proof (layout_pullup buf3 (length close)) as Hpl.
  rewrite Hc4, length_app, Hcl in Hpl, Hpu. rewrite Hcl in Hpc. rewrite Hcl.
  destruct (evbuffer_pullup buf3 _) as [tmp buf4]. cbn [fst snd] in *. subst tmp.
  split; [done|]. destruct (decide (2 <= length tail)%nat) as [Ht|Ht];
    [|by rewrite decide_False by lia].
  rewrite decide_True by lia. cbn [deref]. rewrite bind_Ok.
  specialize (Hpl ltac:(lia)). exists n', buf4. split_and!; [|by rewrite Hpc|].
  - f_equal. f_equal. unfold close. rewrite take_take, Nat.min_id, take_app, (take_ge (delimiter boundary)) by lia.
    replace (_ + _ - _)%nat with 2%nat by lia.
    apply decide_ext. split; [intros ?%app_inv_head; done|by intros ->].
  - rewrite <-Hl3, Hpl. unfold similar. case_decide; [by left|right]. split; [apply Nat.le_refl|lia].
Qed.

(** One part: what the receiver makes of it, and that it leaves the buffer
    at the next delimiter; the two bytes after that delimiter have to be
    there. *)
Lemma multipart_spec fsd n buf boundary p tail :
  wf_part boundary p → upload_error fsd = 0 →
  contents buf = encode_part boundary p ++ delimiter boundary ++ tail →
  match run_part_on md hdata boundary (evbuffer_layout buf) fsd p with
  | Fault f => multipart_handle_next_file md fsd n buf boundary = Fault f
  | Ok (false, fsd') => ∃ n' buf',
      multipart_handle_next_file md fsd n buf boundary = Ok (- EBADMSG, (fsd', n', buf'))
  | Ok (true, fsd') =>
      upload_error fsd' = 0 ∧
      if decide (2 <= length tail)%nat then ∃ n' buf',
        multipart_handle_next_file md fsd n buf boundary =
          Ok (if decide (take 2 tail = str "--") then 0 else 1, (fsd', n', buf')) ∧
        contents buf' = delimiter boundary ++ tail ∧
        similar boundary (evbuffer_layout buf')
          (drain_layout (length (encode_part boundary p)) (evbuffer_layout buf))
      else multipart_handle_next_file md fsd n buf boundary = Fault NullDeref
  end.
Proof.
  intros (Hwf & [Hne Hsz] & Hfind) He Hc. unfold multipart_handle_next_file, run_part_on.
  destruct (Hmalloc (length boundary + 8)) as [blk ->].
  rewrite (sprintf_Ok _ (str "--" ++ boundary)), bind_Ok by (rewrite length_app; simpl; lia).
  fold (delimiter boundary).
  set (body := part_data p ++ CRLF ++ delimiter boundary ++ tail).
  assert (contents buf = delimiter boundary ++ CRLF ++
    concat (encode_header <$> part_headers p) ++ CRLF ++ body)
    as Hc1 by (rewrite Hc; unfold encode_part, body; by rewrite <-!app_assoc).
  destruct (search_found buf (delimiter boundary) 0) as (start & -> & -> & Hptr);
    [done|by rewrite Hc1, strstr_head|].
  apply (followed_start _ _ (length (delimiter boundary) + 0 + 2)) in Hptr.
  set (buf1 := evbuffer_drain buf _) in *.
  assert (contents buf1 = concat (encode_header <$> part_headers p) ++ CRLF ++ body) as Hc2.
  { unfold buf1. rewrite drain_spec, Hc1, (app_assoc (delimiter boundary)). apply drop_app_length'.
    rewrite length_app. simpl. lia. }
  pose proof (header_lines_spec (S (evbuffer_get_length buf1)) fsd _ body buf1 start (length (delimiter boundary) + 0 + 2)
    (evbuffer_layout buf) Hwf He Hc2) as Hh. specialize (Hh ltac:(rewrite get_length_spec, Hc2, length_app;
      pose proof (encode_headers_length (part_headers p)); lia) Hptr).
  cbv zeta. destruct (run_headers md fsd (part_headers p)) as [fsd1|f]; [|by rewrite Hh].
  destruct Hh as (buf2 & -> & Hc3).
  rewrite !bind_Ok. destruct (Z.eqb_spec (upload_error fsd1) 0) as [He1|He1]; cbn [negb]; [|eauto].
  destruct (Hc3 He1) as [Hc4 Hf]. apply (followed_eq _ _ _ (head_length boundary p)) in Hf;
    [|unfold head_length; rewrite !length_app; simpl; lia].
  apply (multipart_data_spec fsd1 n buf2 start boundary p tail (evbuffer_layout buf)); done.
Qed.

Lemma encode_parts_cons boundary p ps epilogue :
  encode_parts boundary (p :: ps) epilogue =
    encode_part boundary p ++ encode_parts boundary ps epilogue.
Proof. unfold encode_parts. rewrite fmap_cons. cbn [concat]. by rewrite <-app_assoc. Qed.

Lemma encode_parts_length boundary ps epilogue :
  (length ps <= length (encode_parts boundary ps epilogue))%nat.
Proof.
  induction ps as [|q ps IH]; [simpl; lia|]. rewrite encode_parts_cons, length_app.
  unfold encode_part. rewrite !length_app. simpl. lia.
Qed.

(** After a part comes a delimiter, followed by two hyphens exactly when
    there are no more parts. *)
Lemma encode_parts_tail boundary ps epilogue :
  ∃ tail, encode_parts boundary ps epilogue = delimiter boundary ++ tail ∧
    (2 <= length tail)%nat ∧ (take 2 tail = str "--" ↔ ps = []).
Proof.
  destruct ps as [|p ps].
  - exists (str "--" ++ epilogue). split; [done|]. split; [rewrite length_app; simpl; lia|done].
  - rewrite encode_parts_cons. unfold encode_part. rewrite <-!app_assoc.
    eexists. split; [reflexivity|]. split; [rewrite length_app; simpl; lia|]. by split.
Qed.

Lemma upload_loop_spec fuel fsd n buf boundary p ps epilogue :
  Forall (wf_part boundary) (p :: ps) → upload_error fsd = 0 →
  contents buf = encode_parts boundary (p :: ps) epilogue → (length ps < fuel)%nat →
  match run_parts_on md hdata boundary (evbuffer_layout buf) fsd (p :: ps) with
  | Fault f => upload_loop fuel md fsd n buf boundary = Fault f
  | Ok (ok, fsd') => ∃ n' buf', upload_loop fuel md fsd n buf boundary =
      Ok (if (ok : bool) then 0 else - EBADMSG, (fsd', n', buf'))
  end.
Proof.
  revert p ps fsd n buf. induction fuel as [|fuel IH]; intros p ps fsd n buf Hwf He Hc Hf; [lia|].
  apply Forall_cons in Hwf as [Hp Hps]. rewrite encode_parts_cons in Hc.
  destruct (encode_parts_tail boundary ps epilogue) as (tail & Htail & Hlen & Hlast).
  rewrite Htail in Hc.
  pose proof (multipart_spec fsd n buf boundary p tail Hp He Hc) as Hm.
  cbn [run_parts_on upload_loop].
  destruct (run_part_on md hdata boundary (evbuffer_layout buf) fsd p) as [[[] fsd1]|f].
  - destruct Hm as [He1 Hm]. rewrite decide_True in Hm by done.
    destruct Hm as (n1 & buf1 & -> & Hc1 & Hsim). rewrite !bind_Ok. cbv beta iota.
    rewrite <-Htail in Hc1. rewrite <-(run_parts_similar _ _ _ _ _ Hsim).
    destruct ps as [|p' ps].
    + rewrite decide_True by tauto. cbn. eauto.
    + rewrite decide_False by (rewrite Hlast; done). cbn [Z.eqb].
      apply IH; [done|done|done|simpl in *; lia].
  - destruct Hm as (n1 & buf1 & ->). cbn. eauto.
  - by rewrite Hm.
Qed.

Lemma upload_spec_on (request : http_request evb) fsd n find boundary ps epilogue :
  Z.land EVHTTP_REQ_POST (rq_command request) ≠ 0 →
  rq_input_headers request = Some find →
  find (str "Content-Type") = Some (str "multipart/form-data; boundary=" ++ boundary) →
  contents (rq_input_buffer request) = encode_parts boundary ps epilogue →
  ps ≠ [] → Forall (wf_part boundary) ps →
  fst <$> upload md request fsd n =
    run_upload_on md hdata boundary (evbuffer_layout (rq_input_buffer request))
      (mk_upfs 0 (mod_data fsd) []) ps.
Proof.
  intros Hpost Hh Hct Hc Hne Hwf. unfold upload, run_upload_on, run_request, ahttpd_method_allowed.
  destruct (Z.eqb_spec (Z.land EVHTTP_REQ_POST (rq_command request)) 0) as [|_]; [done|].
  unfold set_calls, set_error. cbn [mod_data calls upload_error].
  destruct (match inbound_request_hook md with Some _ => _ | None => _ end) as [fsd1|f]; [|done].
  rewrite !bind_Ok. destruct (Z.eqb_spec (upload_error fsd1) 0) as [He|He]; cbn [negb]; [|done].
  rewrite (request_check_headers_boundary _ find boundary) by done.
  destruct ps as [|p ps]; [done|].
  pose proof (upload_loop_spec (S (evbuffer_get_length (rq_input_buffer request))) fsd1 n
    _ boundary p ps epilogue Hwf He Hc) as Hl.
  destruct (run_parts_on md hdata boundary _ fsd1 (p :: ps)) as [[ok fsd2]|f].
  - destruct Hl as (n' & buf' & ->).
    { rewrite get_length_spec, Hc.
      pose proof (encode_parts_length boundary (p :: ps) epilogue). simpl in *. lia. }
    rewrite !bind_Ok. cbv beta iota. destruct ok; cbn [Z.ltb Z.opp Z.compare].
    + by destruct (match finalize md with Some _ => _ | None => _ end).
    + by destruct (uploadfs_upload_send_error (finalize md) fsd2 None).
  - rewrite Hl; [done|]. rewrite get_length_spec, Hc.
    pose proof (encode_parts_length boundary (p :: ps) epilogue). simpl in *. lia.
Qed.

End refinement.

(** ** Termination of the receiver

    The loops of the C code are unbounded; the model's fuel is computed from
    the length of the input buffer and never runs out. *)

Definition no_fuel_fault {A} (m : outcome A) : Prop := m ≠ Fault OutOfFuel.

Lemma no_fuel_bind {A B} (m : outcome A) (f : A → outcome B) :
  no_fuel_fault m → (∀ a, m = Ok a → no_fuel_fault (f a)) → no_fuel_fault (m ≫= f).
Proof. unfold no_fuel_fault. destruct m; simpl; [auto|congruence]. Qed.

Lemma no_fuel_ok {A} (a : A) : no_fuel_fault (Ok a).
Proof. done. Qed.

Lemma no_fuel_deref {A} f (o : option A) : f ≠ OutOfFuel → no_fuel_fault (deref f o).
Proof. unfold no_fuel_fault. destruct o; simpl; congruence. Qed.

Lemma no_fuel_sprintf size text : no_fuel_fault (sprintf size text).
Proof. unfold no_fuel_fault, sprintf. case_decide; congruence. Qed.

#[export] Hint Resolve no_fuel_ok no_fuel_deref no_fuel_sprintf : ahttpd.

(** The callbacks of a module do not run out of fuel. *)
Record module_no_fuel {D} (md : uploadfs_module D) : Prop := {
  hook_no_fuel h fsd : inbound_request_hook md = Some h → no_fuel_fault (h fsd);
  header_no_fuel h fsd k v : handle_form_header md = Some h → no_fuel_fault (h fsd k v);
  data_no_fuel h fsd vec len : handle_data md = Some h → no_fuel_fault (h fsd vec len);
  finalize_no_fuel f fsd ok : finalize md = Some f → no_fuel_fault (f fsd ok)
}.

Lemma no_fuel_option {A B} (cb : option A) (f : A → outcome B) (d : B) :
  (∀ h, cb = Some h → no_fuel_fault (f h)) →
  no_fuel_fault (match cb with Some h => f h | None => Ok d end).
Proof. destruct cb; auto with ahttpd. Qed.

Section termination.
Context `{JsonC} `{Malloc} `{Evbuffer evb} {D : Type} (md : uploadfs_module D).
Implicit Types (fsd : upfs_data D) (buf : evb).
Hypothesis Hmd : module_no_fuel md.

Lemma header_line_no_fuel fsd ln : no_fuel_fault (handle_file_header_line md fsd ln).
Proof.
  unfold handle_file_header_line. destruct ln as [ln|]; [|done]. case_decide; [done|].
  destruct (strtok_r (c_trunc ln) _) as [key tmp]. destruct (strtok_r tmp _) as [value tmp'].
  apply no_fuel_bind; [auto with ahttpd|]. intros v _.
  apply no_fuel_bind; [auto with ahttpd|]. intros k _.
  apply no_fuel_bind.
  - apply no_fuel_option. intros h Hh. by eapply header_no_fuel.
  - intros fsd' _. by case_match.
Qed.

(** Reading a line takes something from the buffer. *)
Lemma readln_shrinks buf l :
  (evbuffer_readln buf).1 = Some l →
  (length (contents (evbuffer_readln buf).2) < length (contents buf))%nat.
Proof.
  intros Hl. pose proof (readln_spec buf) as Hr. unfold first_line in Hr.
  destruct (strchr (contents buf) x0a) as [i|] eqn:Hi.
  - apply strchr_Some in Hi as (Hi & _). destruct Hr as [_ ->]. rewrite length_drop. lia.
  - destruct Hr as [Hn _]. congruence.
Qed.

Lemma readln_none buf :
  (evbuffer_readln buf).1 = None → contents (evbuffer_readln buf).2 = contents buf.
Proof.
  intros Hl. pose proof (readln_spec buf) as Hr.
  destruct (first_line (contents buf)) as [[l n]|]; destruct Hr; congruence.
Qed.

Lemma header_lines_no_fuel fuel fsd buf :
  (length (contents buf) < fuel)%nat →
  no_fuel_fault (header_lines fuel md fsd buf) ∧
  ∀ fsd' buf', header_lines fuel md fsd buf = Ok (fsd', buf') →
    (length (contents buf') <= length (contents buf))%nat.
Proof.
  revert fsd buf. induction fuel as [|fuel IH]; intros fsd buf Hf; [lia|]. cbn [header_lines].
  pose proof (readln_shrinks buf) as Hs. pose proof (readln_none buf) as Hn.
  destruct (evbuffer_readln buf) as [[l|] buf1]; cbn [fst snd] in *.
  - specialize (Hs _ eq_refl).
    pose proof (header_line_no_fuel fsd (Some l)) as Hl.
    destruct (handle_file_header_line md fsd (Some l)) as [[ret fsd1]|e]; cbn.
    + case_match.
      * destruct (IH fsd1 buf1) as [Hn1 Hn2]; [lia|]. split; [done|].
        intros fsd' buf' Hr. apply Hn2 in Hr. lia.
      * split; [done|]. intros fsd' buf' [= <- <-]. lia.
    + split; [unfold no_fuel_fault in *; congruence|done].
  - specialize (Hn eq_refl). cbn. split; [done|]. intros fsd' buf' [= <- <-]. by rewrite Hn.
Qed.

Lemma peek_realloc_no_fuel buf len start n_vec :
  no_fuel_fault (evbuffer_peek_realloc 2 buf len start n_vec).
Proof.
  cbn [evbuffer_peek_realloc]. unfold evbuffer_peek. destruct (ptr_at buf start); [|done]. cbn.
  case_decide; [|done]. destruct (malloc _); [|done]. by rewrite decide_False by lia.
Qed.

Lemma multipart_no_fuel fsd n buf boundary :
  no_fuel_fault (multipart_handle_next_file md fsd n buf boundary) ∧
  ∀ ret fsd' n' buf',
    multipart_handle_next_file md fsd n buf boundary = Ok (ret, (fsd', n', buf')) →
    ret = 1 → (length (contents buf') < length (contents buf))%nat.
Proof.
  unfold multipart_handle_next_file. destruct (malloc _); [|split; [done|by intros ???? [= <- ???]]].
  rewrite (sprintf_Ok _ (str "--" ++ boundary)), bind_Ok by (rewrite length_app; simpl; lia).
  fold (delimiter boundary). pose proof (search_spec buf (delimiter boundary) ltac:(done)) as Hs.
  destruct (evbuffer_search buf _) as [start|]; [|split; [done|by intros ???? [= <- ???]]].
  symmetry in Hs. apply strstr_Some in Hs as (_ & [r Hr] & _).
  apply (f_equal length) in Hr. rewrite length_drop, !length_app in Hr.
  assert (2 <= length (delimiter boundary))%nat by (unfold delimiter; rewrite length_app; simpl; lia).
  cbv zeta.
  set (buf1 := evbuffer_drain buf _).
  assert (length (contents buf1) < length (contents buf))%nat as Hlt.
  { unfold buf1. rewrite drain_spec, length_drop. lia. }
  destruct (header_lines_no_fuel (S (evbuffer_get_length buf1)) fsd buf1) as [Hh Hle];
    [rewrite get_length_spec; lia|].
  destruct (header_lines _ md fsd buf1) as [[fsd1 buf2]|e];
    [|cbn; split; [unfold no_fuel_fault in *; congruence|done]].
  specialize (Hle _ _ eq_refl). rewrite bind_Ok. cbv beta iota.
  case_match; [split; [done|by intros ???? [= <- ???]]|].
  destruct (evbuffer_search buf2 _) as [next|]; [|split; [done|by intros ???? [= <- ???]]].
  case_decide; [split; [done|by intros ???? [= <- ???]]|].
  pose proof (peek_realloc_no_fuel buf2 (Z.of_nat (ptr_pos next) - 2) start n) as Hp.
  destruct (evbuffer_peek_realloc 2 _ _ _ _) as [[[count vec] n1]|e];
    [|cbn; split; [unfold no_fuel_fault in *; congruence|done]].
  rewrite bind_Ok. cbv beta iota. case_match; [split; [done|by intros ???? [= <- ???]]|].
  set (d := match handle_data md with Some _ => _ | None => _ end).
  assert (no_fuel_fault d) as Hd
    by (unfold d; apply no_fuel_option; intros; by eapply data_no_fuel).
  destruct d as [fsd2|e]; [|cbn; split; [unfold no_fuel_fault in *; congruence|done]].
  rewrite bind_Ok. case_match; [split; [done|by intros ???? [= <- ???]]|].
  split.
  - apply no_fuel_bind; [auto with ahttpd|]. intros bs _.
    destruct (evbuffer_pullup _ _) as [tmp buf3]. apply no_fuel_bind; [auto with ahttpd|]. done.
  - intros ret fsd' n' buf' Hr' _. apply bind_Ok_inv in Hr' as (bs & _ & Hr').
    pose proof (pullup_contents (evbuffer_drain buf2 (ptr_pos next)) (length bs)) as Hpc.
    destruct (evbuffer_pullup _ _) as [tmp buf3]. cbn [snd] in Hpc.
    apply bind_Ok_inv in Hr' as (? & _ & Hr'). inv_ok.
    rewrite Hpc, drain_spec, length_drop. lia.
Qed.

Lemma upload_loop_no_fuel fuel fsd n buf boundary :
  (length (contents buf) < fuel)%nat → no_fuel_fault (upload_loop fuel md fsd n buf boundary).
Proof.
  revert fsd n buf. induction fuel as [|fuel IH]; intros fsd n buf Hf; [lia|]. cbn [upload_loop].
  destruct (multipart_no_fuel fsd n buf boundary) as [Hm Hlt].
  apply no_fuel_bind; [done|]. intros [ret [[fsd' n'] buf']] Hr.
  destruct (Z.eqb_spec ret 1) as [->|]; [|done].
  apply IH. specialize (Hlt _ _ _ _ Hr eq_refl). lia.
Qed.

Lemma send_error_no_fuel fsd reply :
  no_fuel_fault (uploadfs_upload_send_error (finalize md) fsd reply).
Proof.
  unfold uploadfs_upload_send_error. apply no_fuel_option.
  intros f Hf. by eapply finalize_no_fuel.
Qed.
End termination.

Lemma span_nul_free p s : nul_free s → nul_free (span p s).1 ∧ nul_free (span p s).2.
Proof. rewrite <-(span_app p s) at 1. apply nul_free_app. Qed.

Lemma strtok_r_nul_free s ds tok r :
  strtok_r s ds = (tok, r) → nul_free s → (∀ t, tok = Some t → nul_free t) ∧ nul_free r.
Proof.
  unfold strtok_r. intros H Hs. pose proof (span_nul_free (is_delim ds) s Hs) as [_ H2].
  destruct (span (is_delim ds) s).2 as [|c s1] eqn:E.
  - injection H as <- <-. split; [done|apply nul_free_nil].
  - destruct (span _ (c :: s1)) as [t r'] eqn:E'.
    pose proof (span_nul_free (λ c, negb (is_delim ds c)) (c :: s1) H2) as [H3 H4].
    rewrite E' in H3, H4. injection H as <- <-. split; [by intros ? [= <-]|by apply nul_free_drop].
Qed.

(** ** Invariants of the module's state

    What every callback preserves, and the receiver's own writes to
    [upfs_data] too, holds after any request that returns. *)

Section part_invariant.
Context `{JsonC} `{Malloc} `{EvbufferOps evb} {D : Type} (md : uploadfs_module D).
Context (I : upfs_data D → Prop).
Implicit Types (fsd : upfs_data D).

Record part_preserves : Prop := {
  header_preserves h fsd k v fsd' :
    handle_form_header md = Some h → nul_free k → nul_free v →
    I fsd → h fsd k v = Ok fsd' → I fsd';
  data_preserves h fsd vec len fsd' :
    handle_data md = Some h → I fsd → h fsd vec len = Ok fsd' → I fsd'
}.

Record module_preserves : Prop := {
  parts_preserve : part_preserves;
  hook_preserves h fsd fsd' :
    inbound_request_hook md = Some h → I fsd → h fsd = Ok fsd' → I fsd';
  finalize_preserves h fsd ok fsd' :
    finalize md = Some h → I fsd → h fsd ok = Ok fsd' → I fsd';
  calls_preserves f fsd : I fsd → I (set_calls f fsd);
  error_preserves e fsd : I fsd → I (set_error e fsd)
}.

Hypothesis Hparts : part_preserves.

Lemma option_preserves {F} (o : option F) (k : F → upfs_data D → outcome (upfs_data D)) fsd fsd' :
  match o with Some f => k f fsd | None => Ok fsd end = Ok fsd' →
  (∀ f, o = Some f → k f fsd = Ok fsd' → I fsd') → I fsd → I fsd'.
Proof. destruct o; [|by intros [= <-]]. eauto. Qed.

Lemma header_line_preserves fsd ln ret fsd' :
  handle_file_header_line md fsd ln = Ok (ret, fsd') → I fsd → I fsd'.
Proof.
  unfold handle_file_header_line. intros Hl HI. destruct ln as [ln|]; [|by inv_ok].
  case_decide; [by inv_ok|]. destruct (strtok_r _ _) as [key tmp] eqn:Hk.
  destruct (strtok_r tmp _) as [value tmp'] eqn:Hv.
  apply strtok_r_nul_free in Hk as [Hk Ht]; [|apply c_trunc_nul_free].
  apply strtok_r_nul_free in Hv as [Hv _]; [|done].
  destruct value as [value|]; [|done]. destruct key as [key|]; [|done].
  cbn [deref mbind outcome_bind] in Hl. apply bind_Ok_inv in Hl as (fsd1 & Hh & Hl).
  assert (I fsd1) as HI1; [|case_match; by inv_ok].
  destruct (handle_form_header md) eqn:Hm; inv_ok; [|done].
  eapply (header_preserves Hparts); [done|by apply Hk| |done|exact Hh].
  by apply span_nul_free, Hv.
Qed.

Lemma header_lines_preserves fuel fsd buf fsd' buf' :
  header_lines fuel md fsd buf = Ok (fsd', buf') → I fsd → I fsd'.
Proof.
  revert fsd buf. induction fuel as [|fuel IH]; [done|]. cbn [header_lines].
  intros fsd buf Hl HI. destruct (evbuffer_readln buf) as [ln buf1].
  apply bind_Ok_inv in Hl as ([ret fsd1] & Hh & Hl).
  pose proof (header_line_preserves _ _ _ _ Hh HI) as HI1.
  destruct (ret =? 0); [by eapply IH|by inv_ok].
Qed.

Lemma multipart_preserves fsd n buf boundary ret fsd' n' buf' :
  multipart_handle_next_file md fsd n buf boundary = Ok (ret, (fsd', n', buf')) →
  I fsd → I fsd'.
Proof.
  unfold multipart_handle_next_file. intros Hm HI.
  destruct (malloc _); [|by inv_ok]. apply bind_Ok_inv in Hm as (bs & _ & Hm).
  destruct (evbuffer_search buf bs) as [start|]; [|by inv_ok]. cbv zeta in Hm.
  apply bind_Ok_inv in Hm as ([fsd1 buf1] & Hh & Hm).
  pose proof (header_lines_preserves _ _ _ _ _ Hh HI) as HI1.
  case_match; [by inv_ok|]. destruct (evbuffer_search buf1 bs); [|by inv_ok].
  case_decide; [by inv_ok|]. apply bind_Ok_inv in Hm as ([[count vec] n1] & _ & Hm).
  case_match; [by inv_ok|]. apply bind_Ok_inv in Hm as (fsd2 & Hd & Hm).
  assert (I fsd2) as HI2.
  { eapply (option_preserves (handle_data md) (λ h fsd, h fsd _ _)); [exact Hd| |done].
    intros. by eapply (data_preserves Hparts). }
  case_match; [by inv_ok|]. apply bind_Ok_inv in Hm as (bs' & _ & Hm).
  destruct (evbuffer_pullup _ _) as [tmp' buf2].
  apply bind_Ok_inv in Hm as (tmp & _ & Hm). by inv_ok.
Qed.

Lemma upload_loop_preserves fuel fsd n buf boundary ret fsd' n' buf' :
  upload_loop fuel md fsd n buf boundary = Ok (ret, (fsd', n', buf')) → I fsd → I fsd'.
Proof.
  revert fsd n buf. induction fuel as [|fuel IH]; [done|]. cbn [upload_loop].
  intros fsd n buf Hl HI. apply bind_Ok_inv in Hl as ([r [[fsd1 n1] buf1]] & Hm & Hl).
  pose proof (multipart_preserves _ _ _ _ _ _ _ _ Hm HI) as HI1.
  destruct (r =? 1); [by eapply IH|by inv_ok].
Qed.

(** How an upload that was let in ends, for a property that the hook
    establishes and the callbacks of the parts preserve. *)
Lemma upload_ends (request : http_request evb) fsd n fsd' n' :
  (∀ fsd0 fsd1, match inbound_request_hook md with Some h => h fsd0 | None => Ok fsd0 end =
     Ok fsd1 → I fsd1) →
  Z.land EVHTTP_REQ_POST (rq_command request) ≠ 0 →
  upload md request fsd n = Ok (fsd', n') →
  (I fsd' ∧ upload_error fsd' ≠ 0) ∨
  ∃ fsd1, I fsd1 ∧
    (uploadfs_upload_send_error (finalize md) fsd1 None = Ok fsd' ∨
     match finalize md with Some f => f fsd1 1 | None => Ok fsd1 end = Ok fsd').
Proof.
  intros Hhook Hpost. unfold upload, ahttpd_method_allowed.
  destruct (Z.eqb_spec (Z.land EVHTTP_REQ_POST (rq_command request)) 0) as [|_]; [done|].
  cbv zeta. intros Hu. apply bind_Ok_inv in Hu as (fsd1 & Hh & Hu). apply Hhook in Hh.
  destruct (Z.eqb_spec (upload_error fsd1) 0) as [He|He]; cbn [negb] in Hu;
    [|inv_ok; by left]. right. destruct (request_check_headers _) as [boundary|].
  - apply bind_Ok_inv in Hu as ([ret [[fsd2 n2] buf]] & Hl & Hu).
    pose proof (upload_loop_preserves _ _ _ _ _ _ _ _ _ Hl Hh) as HI2. exists fsd2.
    split; [done|]. case_match; apply bind_Ok_inv in Hu as (fsd3 & Hs & Hu); inv_ok; eauto.
  - apply bind_Ok_inv in Hu as (fsd3 & Hs & Hu). inv_ok. eauto.
Qed.
End part_invariant.

Section invariant.
Context `{JsonC} `{Malloc} `{EvbufferOps evb} {D : Type} (md : uploadfs_module D).
Context (I : upfs_data D → Prop) (Hmd : module_preserves md I).
Implicit Types (fsd : upfs_data D).

Lemma send_error_preserves fsd reply fsd' :
  uploadfs_upload_send_error (finalize md) fsd reply = Ok fsd' → I fsd → I fsd'.
Proof.
  unfold uploadfs_upload_send_error. intros Hs HI.
  eapply (option_preserves I (finalize md) (λ f fsd, f fsd 0)); [exact Hs| |].
  - intros f Hf. eapply (finalize_preserves _ _ Hmd); [done|].
    by apply (calls_preserves _ _ Hmd), (error_preserves _ _ Hmd).
  - by apply (calls_preserves _ _ Hmd), (error_preserves _ _ Hmd).
Qed.

Lemma upload_preserves (request : http_request evb) fsd n fsd' n' :
  upload md request fsd n = Ok (fsd', n') → I fsd → I fsd'.
Proof.
  unfold upload. intros Hu HI. destruct (ahttpd_method_allowed _ _ _) as [allowed l].
  cbv zeta in Hu. case_match; [inv_ok; by apply (calls_preserves _ _ Hmd)|].
  apply bind_Ok_inv in Hu as (fsd1 & Hh & Hu).
  assert (I fsd1) as HI1.
  { eapply (option_preserves I (inbound_request_hook md) (λ h fsd, h fsd)); [exact Hh| |].
    - intros. eapply (hook_preserves _ _ Hmd); [done| |done].
      by apply (error_preserves _ _ Hmd), (calls_preserves _ _ Hmd).
    - by apply (error_preserves _ _ Hmd), (calls_preserves _ _ Hmd). }
  case_match; [by inv_ok|]. destruct (request_check_headers _) as [boundary|].
  - apply bind_Ok_inv in Hu as ([ret [[fsd2 n2] buf]] & Hl & Hu).
    pose proof (upload_loop_preserves md I (parts_preserve _ _ Hmd) _ _ _ _ _ _ _ _ _ Hl HI1) as HI2.
    case_match; apply bind_Ok_inv in Hu as (fsd3 & Hs & Hu); inv_ok.
    + by eapply send_error_preserves.
    + eapply (option_preserves I (finalize md) (λ h fsd, h fsd 1)); [exact Hs| |done].
      intros. by eapply (finalize_preserves _ _ Hmd).
  - apply bind_Ok_inv in Hu as (fsd3 & Hs & Hu). inv_ok. by eapply send_error_preserves.
Qed.

(** The requests a server receives one after the other. *)
Fixpoint uploads (requests : list (http_request evb)) fsd (n : nat)
    : outcome (upfs_data D * nat) :=
  match requests with
  | [] => Ok (fsd, n)
  | request :: requests =>
      r ← upload md request fsd n;
      let '(fsd, n) := r in
      uploads requests fsd n
  end.

Lemma uploads_preserves requests fsd n fsd' n' :
  uploads requests fsd n = Ok (fsd', n') → I fsd → I fsd'.
Proof.
  revert fsd n. induction requests as [|request requests IH]; intros fsd n Hu HI; cbn [uploads] in Hu.
  - by inv_ok.
  - apply bind_Ok_inv in Hu as ([fsd1 n1] & Hr & Hu).
    eapply IH; [exact Hu|]. by eapply upload_preserves.
Qed.
End invariant.

(** ** A module that records what it is told, to run the receiver *)

Module Recorder.
Inductive event :=
  | Started
  | Header (key value : bytes)
  | Data (data : bytes)
  | Finished (ok : Z).

Definition log (e : event) (fsd : upfs_data (list event)) : upfs_data (list event) :=
  set_mod_data (mod_data fsd ++ [e]) fsd.

Definition recorder : uploadfs_module (list event) := {|
  mod_name := str "recorder";
  mod_init := None;
  mod_deinit := None;
  inbound_request_hook := Some (λ fsd, Ok (log Started fsd));
  handle_form_header := Some (λ fsd k v, Ok (log (Header k v) fsd));
  handle_data := Some (λ fsd vec len, Ok (log (Data (take (Z.to_nat len) (concat vec))) fsd));
  finalize := Some (λ fsd ok, Ok (log (Finished ok) fsd))
|}.

Definition record_data (fsd : upfs_data (list event)) (data : bytes) : outcome _ :=
  Ok (log (Data data) fsd).

#[export] Program Instance ref_malloc : Malloc := {| malloc n := Some (repeat x00 n) |}.
Next Obligation. intros n b [= <-]. apply repeat_length. Qed.

Definition sample_parts : list part := [
  {| part_headers := [(str "Content-Disposition", str "form-data; name=f")];
     part_data := str "hello, world" |};
  {| part_headers := [(str "A", str "b"); (str "C", str "")]; part_data := str "x" |}].

(** The body as the chains it arrived in. *)
Definition sample_request (body : list bytes) : http_request RefBuffer.buffer := {|
  rq_command := EVHTTP_REQ_POST;
  rq_input_headers := Some (λ k,
    if decide (k = str "Content-Type")
    then Some (str "multipart/form-data; boundary=XyZ") else None);
  rq_input_buffer := {| RefBuffer.base := 0; RefBuffer.raw := body |}
|}.


(** Here it ends in the header lines of the first part. *)
Definition cut_body : list bytes :=
  let body := encode_parts (str "XyZ") sample_parts CRLF in [take 20 body; drop 20 body].

Definition fresh : upfs_data (list event) := mk_upfs 0 [] [].
End Recorder.

(** ** Theorems *)

Section theorems.
Context `{JsonC} `{Malloc}.

(** C28: For the two keys the program extracts (any key of at most 8 bytes),
    [extract_key_value] never leaves the alloca'd pattern block nor the
    malloc'ed result, and returns the text between the quotes after
    [key=], entity-decoded, cut at its first NUL, with every slash replaced;
    NULL when the key does not occur (or memory is out). *)
Theorem extract_key_value_correct key cds :
  nul_free key → (length key <= 8)%nat → nul_free cds →
  extract_key_value key (Some cds) =
    Ok match malloc (length cds) with Some _ => parameter_value key cds | None => None end.
Proof. apply extract_key_value_spec. Qed.

(** A file name taken from a Content-Disposition header cannot name
    another directory or end early: it has no slash and no NUL, and it is
    shorter than the header, so that it fits the block it was built in. *)
Theorem content_disposition_filename_safe cds v :
  nul_free cds →
  uploadfs_get_content_disposition_filename (Some cds) = Ok (Some v) →
  "/"%byte ∉ v ∧ nul_free v ∧ (length v < length cds)%nat.
Proof.
  intros Hc. unfold uploadfs_get_content_disposition_filename.
  rewrite extract_key_value_spec by (done || decide_vm).
  unfold parameter_value, raw_value. destruct (malloc _); [|done].
  destruct (strstr cds _) as [p|] eqn:Hp; [|done]. simpl. intros [= <-].
  split_and!; [apply sanitize_no_slash|apply sanitize_nul_free, c_trunc_nul_free|].
  rewrite length_sanitize. apply strstr_Some in Hp as (_ & [r Hr] & _).
  apply (f_equal length) in Hr. rewrite length_drop, length_app in Hr.
  change (length (str "filename" ++ [x3d; x22])) with 10%nat in Hr.
  set (raw := (span _ _).1).
  pose proof (span_length (λ c, bool_decide (c ≠ x00)) (decode raw)) as Htr.
  pose proof (decode_length raw) as Hd.
  pose proof (span_length (λ c, bool_decide (c ≠ x22))
    (drop (p + 8 + 2) cds)) as Hs.
  fold raw in Hs. rewrite length_drop in Hs. unfold c_trunc. lia.
Qed.

(** [uploadfs_get_content_disposition_name] does not look for a parameter
    called [name]: it takes the first [name=] it meets, also the one inside
    [filename=].  A header that gives the file name first yields the file
    name in place of the field name. *)
Theorem content_disposition_name_confused fn nm :
  nul_free fn → x22 ∉ fn → nul_free nm → x22 ∉ nm →
  (∀ n, is_Some (malloc n)) →
  let cds := str "form-data; filename=" ++ [x22] ++ fn ++ [x22] ++
             str "; name=" ++ [x22] ++ nm ++ [x22] in
  uploadfs_get_content_disposition_name (Some cds) =
    Ok (Some (sanitize (c_trunc (decode fn)))).
Proof.
  intros Hfn Hq Hnm Hqn Hm cds. unfold uploadfs_get_content_disposition_name.
  assert (nul_free cds) as Hc.
  { unfold cds. rewrite !nul_free_app. split_and!; try done; decide_vm. }
  rewrite extract_key_value_spec by (done || decide_vm).
  destruct (Hm (length cds)) as [b ->]. unfold parameter_value.
  assert (raw_value (str "name") cds = Some fn) as ->; [|done].
  unfold raw_value. assert (strstr cds (str "name" ++ [x3d; x22]) = Some 15%nat) as ->.
  { unfold cds. rewrite app_assoc. by rewrite (strstr_app _ _ _ 15) by (by vm_compute). }
  cbn [fmap option_fmap option_map]. f_equal.
  transitivity (span (λ c, bool_decide (c ≠ x22)) (drop 21 cds)).1; [done|].
  unfold cds. rewrite app_assoc, drop_app_length' by done.
  apply span_1_app; [|by vm_compute]. apply Forall_forall. intros c Hin.
  apply bool_decide_eq_true. congruence.
Qed.
End theorems.

Lemma extract_key_value_correct_witness :
  @extract_key_value Recorder.ref_malloc (str "name") (Some (str "form-data")) = Ok None.
Proof.
  rewrite (@extract_key_value_correct Recorder.ref_malloc (str "name") (str "form-data")).
  - vm_compute. reflexivity.
  - decide_vm.
  - decide_vm.
  - decide_vm.
Defined.

(** A header line with a file name of one slash and one entity. *)
Definition sample_cds : bytes :=
  str "form-data; filename=" ++ [x22] ++ str "../a&lt;b" ++ [x22].

Lemma content_disposition_filename_safe_witness :
  "/"%byte ∉ str ".._a<b" ∧ nul_free (str ".._a<b") ∧
  (length (str ".._a<b") < length sample_cds)%nat.
Proof.
  apply (@content_disposition_filename_safe Recorder.ref_malloc sample_cds (str ".._a<b")).
  - decide_vm.
  - vm_compute. reflexivity.
Defined.

Lemma content_disposition_name_confused_witness :
  @uploadfs_get_content_disposition_name Recorder.ref_malloc
    (Some (str "form-data; filename=" ++ [x22] ++ str "f" ++ [x22] ++
           str "; name=" ++ [x22] ++ str "n" ++ [x22])) =
  Ok (Some (sanitize (c_trunc (decode (str "f"))))).
Proof.
  apply (@content_disposition_name_confused Recorder.ref_malloc (str "f") (str "n")).
  - decide_vm.
  - decide_vm.
  - decide_vm.
  - decide_vm.
  - intros n. exists (repeat x00 n). reflexivity.
Defined.

(** C38: [dump_iovec] writes exactly the first [len] bytes of the extents,
    whatever their number and sizes (empty ones included), and does not read
    past the last extent. *)
Theorem dump_iovec_correct fd vec len :
  0 <= len <= Z.of_nat (length (concat vec)) →
  dump_iovec fd vec len = Ok (fd ++ take (Z.to_nat len) (concat vec)).
Proof. apply dump_iovec_spec. Qed.

Lemma dump_iovec_correct_witness :
  dump_iovec (str "x") [str "ab"; []; str "cde"] 4 = Ok (str "xabcd").
Proof.
  exact (dump_iovec_correct (str "x") [str "ab"; []; str "cde"] 4
    ltac:(vm_compute; split; discriminate)).
Defined.



(** A first part whose delimiter and header lines reach the end of the
    chain they start in makes the receiver read freed memory, whatever its
    data, once the module has accepted the headers. *)
Theorem split_head_uses_freed_chain `{JsonC} `{Malloc} `{EvbufferChains evb} {D : Type}
    (md : uploadfs_module D) (hdata : upfs_data D → bytes → outcome (upfs_data D))
    (request : http_request evb) (fsd fsd1 fsd2 : upfs_data D) (n : nat)
    find boundary p ps epilogue :
  data_oblivious md hdata →
  (∀ n, is_Some (malloc n)) →
  Z.land EVHTTP_REQ_POST (rq_command request) ≠ 0 →
  match inbound_request_hook md with
  | Some h => h (mk_upfs 0 (mod_data fsd) [])
  | None => Ok (mk_upfs 0 (mod_data fsd) [])
  end = Ok fsd1 → upload_error fsd1 = 0 →
  rq_input_headers request = Some find →
  find (str "Content-Type") = Some (str "multipart/form-data; boundary=" ++ boundary) →
  contents (rq_input_buffer request) = encode_parts boundary (p :: ps) epilogue →
  Forall (wf_part boundary) (p :: ps) →
  run_headers md fsd1 (part_headers p) = Ok fsd2 → upload_error fsd2 = 0 →
  (front (evbuffer_layout (rq_input_buffer request)) <= head_length boundary p)%nat →
  upload md request fsd n = Fault UseAfterFree.
Proof.
  intros Hdata Hmalloc Hpost Hhook He Hh Hct Hc Hwf Hrun He2 Hfront.
  pose proof (upload_spec_on md hdata Hdata Hmalloc request fsd n find boundary (p :: ps) epilogue
    Hpost Hh Hct Hc ltac:(done) Hwf) as Hu.
  unfold run_upload_on, run_request in Hu. rewrite Hhook, bind_Ok, He in Hu.
  cbn [Z.eqb negb run_parts_on] in Hu. unfold run_part_on in Hu.
  rewrite Hrun, bind_Ok, He2 in Hu. cbn [Z.eqb negb] in Hu. rewrite decide_False in Hu by lia.
  destruct (upload md request fsd n) as [|f]; [done|]. by injection Hu as ->.
Qed.

Lemma split_head_uses_freed_chain_witness :
  @upload RefJson.ref_json Recorder.ref_malloc RefBuffer.buffer RefBuffer.ref_buffer_ops
    (list Recorder.event) Recorder.recorder
    (Recorder.sample_request Recorder.cut_body) Recorder.fresh 4 = Fault UseAfterFree.
Proof.
  eapply (@split_head_uses_freed_chain RefJson.ref_json Recorder.ref_malloc RefBuffer.buffer
    RefBuffer.ref_buffer_ops RefBuffer.ref_buffer RefBuffer.ref_buffer_chains
    (list Recorder.event) Recorder.recorder Recorder.record_data
    (Recorder.sample_request Recorder.cut_body) Recorder.fresh
    (Recorder.log Recorder.Started Recorder.fresh) _ 4
    (λ k, if decide (k = str "Content-Type")
          then Some (str "multipart/form-data; boundary=XyZ") else None)
    (str "XyZ") _ _ CRLF).
  - intros fsd vec len _. reflexivity.
  - intros n. exists (repeat x00 n). reflexivity.
  - vm_compute. discriminate.
  - reflexivity.
  - reflexivity.
  - reflexivity.
  - vm_compute. reflexivity.
  - instantiate (1 := tail Recorder.sample_parts).
    instantiate (1 := List.hd {| part_headers := []; part_data := [] |} Recorder.sample_parts).
    vm_compute. reflexivity.
  - decide_vm.
  - reflexivity.
  - reflexivity.
  - vm_compute. lia.
Defined.

(** C27: The receiver terminates on every request: whatever the method, the
    headers and the bytes of the body, none of its loops outruns the fuel
    computed from the length of the body, provided the module's own callbacks
    terminate. *)
Theorem upload_terminates `{JsonC} `{Malloc} `{Evbuffer evb} {D : Type}
    (md : uploadfs_module D) (request : http_request evb) (fsd : upfs_data D) (n : nat) :
  module_no_fuel md → upload md request fsd n ≠ Fault OutOfFuel.
Proof.
  intros Hmd. change (no_fuel_fault (upload md request fsd n)). unfold upload.
  destruct (ahttpd_method_allowed _ _ _) as [allowed l]. cbv zeta. case_match; [done|].
  apply no_fuel_bind.
  { apply no_fuel_option. intros. by eapply hook_no_fuel. }
  intros fsd1 _. case_match; [done|]. destruct (request_check_headers _) as [boundary|].
  - apply no_fuel_bind.
    { apply upload_loop_no_fuel; [done|]. rewrite get_length_spec. lia. }
    intros [ret [[fsd2 n2] buf]] _. case_match.
    + apply no_fuel_bind; [by apply send_error_no_fuel|done].
    + apply no_fuel_bind; [|done]. apply no_fuel_option. intros. by eapply finalize_no_fuel.
  - apply no_fuel_bind; [by apply send_error_no_fuel|done].
Qed.

Lemma upload_terminates_witness :
  @upload RefJson.ref_json Recorder.ref_malloc RefBuffer.buffer RefBuffer.ref_buffer_ops
    (list Recorder.event) Recorder.recorder
    (Recorder.sample_request [str "no delimiter at all"]) Recorder.fresh 4 ≠ Fault OutOfFuel.
Proof.
  apply (@upload_terminates RefJson.ref_json Recorder.ref_malloc RefBuffer.buffer
    RefBuffer.ref_buffer_ops RefBuffer.ref_buffer).
  split; simpl; intros; simplify_eq; done.
Defined.

(** A header line without a colon makes the receiver dereference NULL:
    [strtok_r] finds no second token and the loop that skips spaces reads
    [*value].  Any client can send it, whatever the module, as long as the
    request hook lets the upload start. *)
Theorem header_without_colon_crashes `{JsonC} `{Malloc} `{Evbuffer evb} {D : Type}
    (md : uploadfs_module D) (request : http_request evb) (fsd fsd1 : upfs_data D) (n : nat)
    find boundary line rest :
  (∀ n, is_Some (malloc n)) →
  Z.land EVHTTP_REQ_POST (rq_command request) ≠ 0 →
  match inbound_request_hook md with
  | Some h => h (mk_upfs 0 (mod_data fsd) [])
  | None => Ok (mk_upfs 0 (mod_data fsd) [])
  end = Ok fsd1 → upload_error fsd1 = 0 →
  rq_input_headers request = Some find →
  find (str "Content-Type") = Some (str "multipart/form-data; boundary=" ++ boundary) →
  line ≠ [] → free_of [x00; x0a; x0d; ":"%byte] line →
  contents (rq_input_buffer request) = delimiter boundary ++ CRLF ++ line ++ CRLF ++ rest →
  upload md request fsd n = Fault NullDeref.
Proof.
  intros Hmalloc Hpost Hhook He Hh Hct Hne Hline Hc.
  unfold upload, ahttpd_method_allowed.
  destruct (Z.eqb_spec (Z.land EVHTTP_REQ_POST (rq_command request)) 0) as [|_]; [done|].
  unfold set_calls, set_error. cbn [mod_data calls upload_error].
  rewrite Hhook, bind_Ok, He. cbn [Z.eqb negb].
  rewrite (request_check_headers_boundary _ find boundary) by done.
  cbn [upload_loop]. unfold multipart_handle_next_file.
  destruct (Hmalloc (length boundary + 8)%nat) as [blk ->].
  rewrite (sprintf_Ok _ (str "--" ++ boundary)), bind_Ok by (rewrite length_app; simpl; lia).
  fold (delimiter boundary).
  destruct (search_found (rq_input_buffer request) (delimiter boundary) 0) as (start & -> & -> & _);
    [done|by rewrite Hc, strstr_head|]. cbv zeta.
  set (buf1 := evbuffer_drain _ _).
  assert (contents buf1 = line ++ CRLF ++ rest) as Hc1.
  { unfold buf1. rewrite drain_spec, Hc, (app_assoc (delimiter boundary)).
    apply drop_app_length'. rewrite length_app. simpl. lia. }
  cbn [header_lines]. pose proof (readln_spec buf1) as Hln.
  rewrite Hc1, first_line_crlf in Hln by (eapply free_of_notin; [done|set_solver]).
  destruct Hln as [Hl _]. destruct (evbuffer_readln buf1) as [ln buf2]. cbn [fst] in Hl. subst ln.
  by rewrite (handle_header_no_colon md fsd1 line Hne Hline).
Qed.

Lemma header_without_colon_crashes_witness :
  @upload RefJson.ref_json Recorder.ref_malloc RefBuffer.buffer RefBuffer.ref_buffer_ops
    (list Recorder.event) Recorder.recorder
    (Recorder.sample_request [str "--XyZ" ++ CRLF ++ str "no colon" ++ CRLF ++ []])
    Recorder.fresh 4 = Fault NullDeref.
Proof.
  apply (@header_without_colon_crashes RefJson.ref_json Recorder.ref_malloc RefBuffer.buffer
    RefBuffer.ref_buffer_ops RefBuffer.ref_buffer (list Recorder.event) Recorder.recorder
    (Recorder.sample_request [str "--XyZ" ++ CRLF ++ str "no colon" ++ CRLF ++ []])
    Recorder.fresh (Recorder.log Recorder.Started Recorder.fresh) 4
    (λ k, if decide (k = str "Content-Type")
          then Some (str "multipart/form-data; boundary=XyZ") else None)
    (str "XyZ") (str "no colon") []).
  - intros n. exists (repeat x00 n). reflexivity.
  - vm_compute. discriminate.
  - reflexivity.
  - reflexivity.
  - reflexivity.
  - vm_compute. reflexivity.
  - discriminate.
  - decide_vm.
  - reflexivity.
Defined.

(** A body that ends less than two bytes after the delimiter that closes
    a part makes the receiver compare the result of a failed
    [evbuffer_pullup], NULL, with the closing delimiter.  The part itself has
    been delivered to the module by then. *)
Theorem truncated_body_crashes `{JsonC} `{Malloc} `{EvbufferChains evb} {D : Type}
    (md : uploadfs_module D) (hdata : upfs_data D → bytes → outcome (upfs_data D))
    (request : http_request evb) (fsd fsd1 fsd2 : upfs_data D) (n : nat)
    find boundary p tail :
  data_oblivious md hdata →
  (∀ n, is_Some (malloc n)) →
  Z.land EVHTTP_REQ_POST (rq_command request) ≠ 0 →
  match inbound_request_hook md with
  | Some h => h (mk_upfs 0 (mod_data fsd) [])
  | None => Ok (mk_upfs 0 (mod_data fsd) [])
  end = Ok fsd1 → upload_error fsd1 = 0 →
  rq_input_headers request = Some find →
  find (str "Content-Type") = Some (str "multipart/form-data; boundary=" ++ boundary) →
  wf_part boundary p → run_part md hdata fsd1 p = Ok (true, fsd2) →
  contents (rq_input_buffer request) = encode_part boundary p ++ delimiter boundary ++ tail →
  (head_length boundary p < front (evbuffer_layout (rq_input_buffer request)))%nat →
  (length tail < 2)%nat →
  upload md request fsd n = Fault NullDeref.
Proof.
  intros Hdata Hmalloc Hpost Hhook He Hh Hct Hwf Hrun Hc Hin Ht.
  unfold upload, ahttpd_method_allowed.
  destruct (Z.eqb_spec (Z.land EVHTTP_REQ_POST (rq_command request)) 0) as [|_]; [done|].
  unfold set_calls, set_error. cbn [mod_data calls upload_error].
  rewrite Hhook, bind_Ok, He. cbn [Z.eqb negb].
  rewrite (request_check_headers_boundary _ find boundary) by done.
  cbn [upload_loop].
  pose proof (multipart_spec md hdata Hdata Hmalloc fsd1 n _ boundary p tail Hwf He Hc) as Hm.
  rewrite run_part_inside, Hrun in Hm by done. destruct Hm as [_ Hm]. rewrite decide_False in Hm by lia.
  by rewrite Hm.
Qed.

Lemma truncated_body_crashes_witness :
  @upload RefJson.ref_json Recorder.ref_malloc RefBuffer.buffer RefBuffer.ref_buffer_ops
    (list Recorder.event) Recorder.recorder
    (Recorder.sample_request
      [encode_part (str "XyZ") {| part_headers := []; part_data := str "x" |} ++
       delimiter (str "XyZ") ++ str "-"])
    Recorder.fresh 4 = Fault NullDeref.
Proof.
  apply (@truncated_body_crashes RefJson.ref_json Recorder.ref_malloc RefBuffer.buffer
    RefBuffer.ref_buffer_ops RefBuffer.ref_buffer RefBuffer.ref_buffer_chains (list Recorder.event) Recorder.recorder
    Recorder.record_data
    (Recorder.sample_request
      [encode_part (str "XyZ") {| part_headers := []; part_data := str "x" |} ++
       delimiter (str "XyZ") ++ str "-"])
    Recorder.fresh (Recorder.log Recorder.Started Recorder.fresh)
    (Recorder.log (Recorder.Data (str "x")) (Recorder.log Recorder.Started Recorder.fresh)) 4
    (λ k, if decide (k = str "Content-Type")
          then Some (str "multipart/form-data; boundary=XyZ") else None)
    (str "XyZ") {| part_headers := []; part_data := str "x" |} (str "-")).
  - intros fsd vec len _. reflexivity.
  - intros n. exists (repeat x00 n). reflexivity.
  - vm_compute. discriminate.
  - reflexivity.
  - reflexivity.
  - reflexivity.
  - vm_compute. reflexivity.
  - decide_vm.
  - reflexivity.
  - vm_compute. reflexivity.
  - vm_compute. lia.
  - vm_compute. lia.
Defined.
