(* ===== verification/UploadFile.v ===== *)
(** * fs_upload_mod_file.c and fs_upload_mod_debug.c: the modules that write files

    Both are values of [uploadfs_module] ([filemod], [debugmod]).  The state
    of the file module is its [struct filemod_data] (none before [file_init]
    and after it is freed), the files written so far and the number of values
    drawn from [random()].  What the system answers (can this path be opened,
    can a temporary file be made there, the random numbers) are parameters.

    [filemod_upload] says what a whole upload amounts to; [filemod_confined]
    is the safety property: whatever the client sends, nothing outside the
    configured directory is written. *)

From S2P Require Import Prelude CLib Entity Json Evhttp Upload.
From Stdlib Require Import Strings.Byte.

(** [random()] is between 0 and 2^31 - 1. *)
Class Random := {
  random : nat → Z;
  random_range i : 0 <= random i < 2 ^ 31
}.

(** ** The file module *)

Record filemod_data := {
  original_filename : bool;
  directory : option bytes;
  filename : option bytes;
  reply : option json
}.

Record file_state := {
  fdata : option filemod_data;
  files : gmap bytes bytes;
  draws : nat
}.

Definition set_fdata (d : option filemod_data) (w : file_state) : file_state :=
  {| fdata := d; files := files w; draws := draws w |}.

(** An empty string is indexed at -1. *)
Definition kill_trailing_slash (s : bytes) : outcome bytes :=
  c ← deref OutOfBounds (last s);
  Ok (if decide (c = "/"%byte) then take (pred (length s)) s else s).

Section filemod.
Context `{JsonC} `{Malloc} `{JsonAlloc} `{Random}.
(** [fopen(path, "w+")] and [mkstemp(template)] succeed. *)
Context (fopen_w mkstemp : bytes → bool).
(** [fsd->mpoint->props] *)
Context (props : json).

(** glibc prints a NULL argument of %s as (null). *)
Definition show (s : option bytes) : bytes := default (str "(null)") s.

(** -1 is [None]. *)
Definition asprintf (text : bytes) : option bytes :=
  match malloc (S (length text)) with Some _ => Some text | None => None end.

Implicit Types fsd : upfs_data file_state.

Definition put_fdata (d : option filemod_data) fsd : upfs_data file_state :=
  set_mod_data (set_fdata d (mod_data fsd)) fsd.

Definition get_fdata fsd : outcome filemod_data :=
  deref UseAfterFree (fdata (mod_data fsd)).

Definition file_init fsd : outcome (Z * upfs_data file_state) :=
  match malloc 32 with
  | None => Ok (- ENOMEM, fsd)
  | Some _ =>
      let d := {| original_filename := false; directory := None;
                  filename := None; reply := None |} in
      dir ← json_array_find_string props (str "directory");
      match dir with
      | None => Ok (- EBADMSG, put_fdata (Some d) fsd)
      | Some dir =>
          match malloc (S (length dir)) with
          | None => Ok (- EIO, put_fdata None fsd)
          | Some _ =>
              dir ← kill_trailing_slash dir;
              orig ← json_array_find_boolean props (str "original_filename");
              let d := {| original_filename := orig; directory := Some dir;
                          filename := None; reply := None |} in
              match asprintf (dir ++ str "/ahttpd_write_check_XXXXXX") with
              | None => Ok (- EIO, put_fdata None fsd)
              | Some tmpfpath =>
                  (* the temporary file is closed and unlinked at once *)
                  if mkstemp tmpfpath then Ok (0, put_fdata (Some d) fsd)
                  else Ok (- EIO, put_fdata None fsd)
              end
          end
      end
  end.

Definition file_deinit fsd : outcome (upfs_data file_state) :=
  _ ← get_fdata fsd; Ok (put_fdata None fsd).

Definition file_send_result fsd (ok : Z) : outcome (upfs_data file_state) :=
  d ← get_fdata fsd;
  fsd ← (if ok =? 0 then Ok fsd
         else Ok (set_calls (ahttpd_reply_with_json (default JNull (reply d))) fsd));
  Ok (put_fdata (Some {| original_filename := original_filename d; directory := directory d;
                         filename := filename d; reply := None |}) fsd).

Definition file_send_error fsd : outcome (upfs_data file_state) :=
  uploadfs_upload_send_error (Some file_send_result) fsd None.

Definition file_handle_rq_headers fsd : outcome (upfs_data file_state) :=
  d ← get_fdata fsd;
  let r := json_new (JArray []) in
  let fsd := put_fdata (Some {| original_filename := original_filename d;
                                directory := directory d;
                                filename := None; reply := r |}) fsd in
  match r with None => file_send_error fsd | Some _ => Ok fsd end.

Definition file_handle_form_header fsd (key value : bytes) : outcome (upfs_data file_state) :=
  d ← get_fdata fsd;
  if negb (original_filename d) then Ok fsd
  else if decide (key = str "Content-Disposition") then
    fn ← uploadfs_get_content_disposition_filename (Some value);
    let fsd := put_fdata (Some {| original_filename := original_filename d;
                                  directory := directory d;
                                  filename := fn; reply := reply d |}) fsd in
    match fn with
    | None | Some [] => file_send_error fsd
    | Some _ => Ok fsd
    end
  else Ok fsd.

Definition file_handle_data fsd (vec : list bytes) (len : Z) : outcome (upfs_data file_state) :=
  d ← get_fdata fsd;
  match json_new (JObject []) with
  | None => file_send_error fsd
  | Some _ =>
      let w := mod_data fsd in
      randname ← sprintf 32 (str "up." ++ fmt_int (random (draws w)));
      let fsd := set_mod_data {| fdata := fdata w; files := files w; draws := S (draws w) |} fsd in
      let fname := if original_filename d then filename d else Some randname in
      match asprintf (show (directory d) ++ str "/" ++ show fname) with
      | None => file_send_error fsd
      | Some filepath =>
          tmp ← json_object_new_string (Some filepath);
          match tmp with
          | None => file_send_error fsd
          | Some tmp =>
              let fl := json_object_object_add [] (str "fullpath") tmp in
              tmp ← json_object_new_string fname;
              match tmp with
              | None => file_send_error fsd
              | Some tmp =>
                  let fl := json_object_object_add fl (str "filename") tmp in
                  r ← deref NullDeref (reply d);
                  let fsd := put_fdata (Some {|
                    original_filename := original_filename d; directory := directory d;
                    filename := filename d;
                    reply := Some (json_object_array_add r (JObject fl)) |}) fsd in
                  w ← dump_iovec_to_file fopen_w (files (mod_data fsd)) filepath vec len;
                  let '(ret, fs) := w in
                  let fsd := set_mod_data {| fdata := fdata (mod_data fsd); files := fs;
                                             draws := draws (mod_data fsd) |} fsd in
                  if negb (ret =? 0) then file_send_error fsd else Ok fsd
              end
          end
      end
  end.

Definition filemod : uploadfs_module file_state := {|
  mod_name := str "file";
  mod_init := Some file_init;
  mod_deinit := Some file_deinit;
  inbound_request_hook := Some file_handle_rq_headers;
  handle_form_header := Some file_handle_form_header;
  handle_data := Some file_handle_data;
  finalize := Some file_send_result
|}.
End filemod.

(** ** The debug module *)

Section debugmod.
Context `{JsonC} (fopen_w : bytes → bool).
(** The only state is the files; the messages on stdout are left out. *)
Implicit Types fsd : upfs_data (gmap bytes bytes).

Definition debug_init fsd : outcome (Z * upfs_data (gmap bytes bytes)) := Ok (0, fsd).

Definition debug_deinit fsd : outcome (upfs_data (gmap bytes bytes)) := Ok fsd.

Definition debug_handle_rq_headers fsd : outcome (upfs_data (gmap bytes bytes)) := Ok fsd.

Definition debug_handle_form_header fsd (key value : bytes)
    : outcome (upfs_data (gmap bytes bytes)) := Ok fsd.

Definition debug_send_result fsd (ok : Z) : outcome (upfs_data (gmap bytes bytes)) :=
  Ok (set_calls (ahttpd_reply_accepted (str "/")) fsd).

Definition debug_handle_data fsd (vec : list bytes) (len : Z)
    : outcome (upfs_data (gmap bytes bytes)) :=
  r ← dump_iovec_to_file fopen_w (mod_data fsd) (str "/tmp/data.bin") vec len;
  let '(ret, fs) := r in
  let fsd := set_mod_data fs fsd in
  if negb (ret =? 0)
  then uploadfs_upload_send_error (Some debug_send_result) fsd None
  else Ok fsd.

Definition debugmod : uploadfs_module (gmap bytes bytes) := {|
  mod_name := str "debug";
  mod_init := Some debug_init;
  mod_deinit := Some debug_deinit;
  inbound_request_hook := Some debug_handle_rq_headers;
  handle_form_header := Some debug_handle_form_header;
  handle_data := Some debug_handle_data;
  finalize := Some debug_send_result
|}.
End debugmod.

(** ** Nothing is written outside the directory *)

Section confinement.
Context `{JsonC} `{Malloc} `{JsonAlloc} `{Random}.
Context (fopen_w mkstemp : bytes → bool) (props : json).
Notation md := (filemod fopen_w mkstemp props).
Implicit Types fsd : upfs_data file_state.

(** A path directly inside a directory. *)
Definition inside (dir path : bytes) : Prop :=
  ∃ name, path = dir ++ str "/" ++ name ∧ "/"%byte ∉ name.

Definition confined (dir : bytes) (fs0 : gmap bytes bytes) fsd : Prop :=
  ∃ d, fdata (mod_data fsd) = Some d ∧ directory d = Some dir ∧
    (∀ v, filename d = Some v → "/"%byte ∉ v) ∧
    ∀ path, files (mod_data fsd) !! path ≠ fs0 !! path → inside dir path.

Lemma randname_no_slash i : "/"%byte ∉ str "up." ++ fmt_int (random i).
Proof.
  rewrite not_elem_of_app. split; [decide_vm|].
  apply (fmt_int_no _ 10); [|lia|by intros [Hd _]; apply Hd].
  pose proof (random_range i). change (10 ^ Z.of_nat 10) with 10000000000.
  change (2 ^ 31) with 2147483648 in *. lia.
Qed.

Lemma send_result_confined dir fs0 fsd ok fsd' :
  file_send_result fsd ok = Ok fsd' → confined dir fs0 fsd → confined dir fs0 fsd'.
Proof.
  intros Hs (d & Hd & Hdir & Hfn & Hfs). unfold file_send_result, get_fdata in Hs.
  rewrite Hd in Hs. cbn in Hs. destruct (ok =? 0); inv_ok;
    (eexists; split; [reflexivity|]; by split_and!).
Qed.

Lemma file_send_error_confined dir fs0 fsd fsd' :
  file_send_error fsd = Ok fsd' → confined dir fs0 fsd → confined dir fs0 fsd'.
Proof. intros Hs Hc. by eapply send_result_confined. Qed.

Lemma extracted_no_slash value v :
  nul_free value → uploadfs_get_content_disposition_filename (Some value) = Ok (Some v) →
  "/"%byte ∉ v.
Proof.
  intros Hv. unfold uploadfs_get_content_disposition_filename.
  rewrite extract_key_value_spec by (done || decide_vm). destruct (malloc _); [|done].
  unfold parameter_value. destruct (raw_value _ _); [|done].
  intros [= <-]. apply sanitize_no_slash.
Qed.

Lemma form_header_confined dir fs0 fsd k v fsd' :
  nul_free v → file_handle_form_header fsd k v = Ok fsd' →
  confined dir fs0 fsd → confined dir fs0 fsd'.
Proof.
  intros Hv Hh (d & Hd & Hdir & Hfn & Hfs). unfold file_handle_form_header, get_fdata in Hh.
  rewrite Hd in Hh. cbn [deref mbind outcome_bind] in Hh.
  case_match; [inv_ok; by exists d|]. case_decide; [|inv_ok; by exists d].
  apply bind_Ok_inv in Hh as (fn & He & Hh). cbv zeta in Hh.
  match type of Hh with context [put_fdata ?d' ?f] => set (fsd1 := put_fdata d' f) in * end.
  assert (confined dir fs0 fsd1) as Hc.
  { eexists. split; [reflexivity|]. split_and!; [done| |done]. simpl. intros v' ->.
    by eapply extracted_no_slash. }
  destruct fn as [[|c fn]|]; inv_ok; [|done|]; by eapply file_send_error_confined.
Qed.

Lemma handle_data_confined dir fs0 fsd vec len fsd' :
  file_handle_data fopen_w fsd vec len = Ok fsd' → confined dir fs0 fsd → confined dir fs0 fsd'.
Proof.
  intros Hh Hc. pose proof Hc as (d & Hd & Hdir & Hfn & Hfs).
  unfold file_handle_data, get_fdata in Hh. rewrite Hd in Hh. cbn [deref mbind outcome_bind] in Hh.
  destruct (json_new _); [|by eapply file_send_error_confined].
  apply bind_Ok_inv in Hh as (rn & Hrn & Hh). cbv zeta in Hh.
  set (fsd1 := set_mod_data _ fsd) in *.
  assert (confined dir fs0 fsd1) as Hc1 by (by exists d).
  set (fname := if original_filename d then filename d else Some rn) in *.
  assert ("/"%byte ∉ show fname) as Hslash.
  { unfold sprintf in Hrn. case_decide; inv_ok. unfold fname.
    destruct (original_filename d); [|apply randname_no_slash].
    destruct (filename d) as [v|] eqn:Hv; [by apply Hfn|decide_vm]. }
  unfold asprintf in Hh. destruct (malloc _); [|by eapply file_send_error_confined].
  apply bind_Ok_inv in Hh as (t & _ & Hh). destruct t; [|by eapply file_send_error_confined].
  apply bind_Ok_inv in Hh as (t & _ & Hh). destruct t; [|by eapply file_send_error_confined].
  apply bind_Ok_inv in Hh as (r & _ & Hh). apply bind_Ok_inv in Hh as ([ret fs] & Hw & Hh).
  match type of Hh with context [set_mod_data ?x ?f] => set (fsd2 := set_mod_data x f) in * end.
  assert (confined dir fs0 fsd2) as Hc2.
  { eexists. split; [reflexivity|]. split_and!; [done|done|]. simpl. intros path Hp.
    unfold dump_iovec_to_file in Hw. destruct (fopen_w _); inv_ok; [|by apply Hfs].
    destruct (decide (show (directory d) ++ str "/" ++ show fname = path)) as [<-|Hne].
    - rewrite Hdir. by exists (show fname).
    - apply Hfs. by rewrite lookup_insert_ne in Hp. }
  case_match; [by eapply file_send_error_confined|by inv_ok].
Qed.

Lemma rq_headers_confined dir fs0 fsd fsd' :
  file_handle_rq_headers fsd = Ok fsd' → confined dir fs0 fsd → confined dir fs0 fsd'.
Proof.
  intros Hh (d & Hd & Hdir & Hfn & Hfs). unfold file_handle_rq_headers, get_fdata in Hh.
  rewrite Hd in Hh. cbn [deref mbind outcome_bind] in Hh. cbv zeta in Hh.
  match type of Hh with context [put_fdata ?d' ?f] => set (fsd1 := put_fdata d' f) in * end.
  assert (confined dir fs0 fsd1) as Hc by (eexists; split; [reflexivity|]; by split_and!).
  destruct (json_new _); [by inv_ok|by eapply file_send_error_confined].
Qed.

Lemma filemod_preserves dir fs0 : module_preserves md (confined dir fs0).
Proof.
  split; [split|..]; simpl; intros; simplify_eq; try done.
  - by eapply form_header_confined.
  - by eapply handle_data_confined.
  - by eapply rq_headers_confined.
  - by eapply send_result_confined.
Qed.

Lemma file_init_confined fsd0 fsd :
  file_init mkstemp props fsd0 = Ok (0, fsd) →
  ∃ dir0 dir, json_array_find_string props (str "directory") = Ok (Some dir0) ∧
    kill_trailing_slash dir0 = Ok dir ∧ confined dir (files (mod_data fsd0)) fsd.
Proof.
  unfold file_init. destruct (malloc 32); [|done]. intros Hi.
  apply bind_Ok_inv in Hi as ([dir0|] & Hdir & Hi); [|by inv_ok].
  destruct (malloc _); [|by inv_ok].
  apply bind_Ok_inv in Hi as (dir & Hk & Hi). apply bind_Ok_inv in Hi as (orig & Ho & Hi).
  destruct (asprintf _); [|by inv_ok]. destruct (mkstemp _); inv_ok; [|done].
  exists dir0, dir. split_and!; [done|done|]. eexists. split; [reflexivity|].
  by split_and!.
Qed.
End confinement.

(** ** What an upload amounts to *)

Section functional.
Context `{JsonC} `{!JsonCLaws} `{Malloc} `{JsonAlloc} `{Random}.
Context (fopen_w mkstemp : bytes → bool) (props : json).
Notation md := (filemod fopen_w mkstemp props).
Implicit Types fsd : upfs_data file_state.

(** The file name in force after a header, and after the headers of a part:
    it is not forgotten between parts. *)
Definition next_name (cur : option bytes) (h : bytes * bytes) : option bytes :=
  if decide (h.1 = str "Content-Disposition") then parameter_value (str "filename") h.2 else cur.

Definition part_name (cur : option bytes) (p : part) : option bytes :=
  foldl next_name cur (part_headers p).


Definition randname (i : nat) : bytes := str "up." ++ fmt_int (random i).

(** The names under which the parts are stored and the order of the
    writes. *)
Fixpoint stored (orig : bool) (cur : option bytes) (i : nat) (ps : list part)
    : list (bytes * bytes) :=
  match ps with
  | [] => []
  | p :: ps =>
      let cur := part_name cur p in
      (if orig then default [] cur else randname i, part_data p) :: stored orig cur (S i) ps
  end.



Hypothesis Hopen : ∀ path, fopen_w path = true.
Hypothesis Hmalloc : ∀ n, is_Some (malloc n).
Hypothesis Hjson : ∀ j, is_Some (json_new j).

Definition file_data fsd (data : bytes) : outcome (upfs_data file_state) :=
  file_handle_data fopen_w fsd [data] (Z.of_nat (length data)).

Lemma dump_to_file_spec fs path vec len :
  0 <= len <= Z.of_nat (length (concat vec)) →
  dump_iovec_to_file fopen_w fs path vec len =
    Ok (0, <[path := take (Z.to_nat len) (concat vec)]> fs).
Proof. intros Hl. unfold dump_iovec_to_file. by rewrite Hopen, dump_iovec_spec. Qed.

Lemma filemod_oblivious : data_oblivious md file_data.
Proof.
  intros fsd vec len Hl. unfold file_data. simpl. unfold file_handle_data.
  destruct (get_fdata fsd) as [d|]; [|done]. cbn [mbind outcome_bind].
  assert (∀ fs path, dump_iovec_to_file fopen_w fs path vec len =
    dump_iovec_to_file fopen_w fs path [take (Z.to_nat len) (concat vec)]
      (Z.of_nat (length (take (Z.to_nat len) (concat vec))))) as Hd.
  { intros fs path. set (s := take (Z.to_nat len) (concat vec)).
    assert (concat [s] = s) as Hs by (simpl; apply app_nil_r).
    rewrite (dump_to_file_spec _ _ vec) by lia.
    rewrite (dump_to_file_spec _ _ [s]) by (rewrite Hs; lia).
    by rewrite Hs, Nat2Z.id, (take_ge s). }
  destruct (json_new (JObject [])); [|done]. destruct (sprintf _ _); [|done].
  cbn [mbind outcome_bind]. destruct (asprintf _); [|done].
  destruct (json_object_new_string (Some _)) as [[]|]; [|done|done]. cbn [mbind outcome_bind].
  destruct (json_object_new_string (if _ : bool then _ else _)) as [[]|]; [|done|done].
  cbn [mbind outcome_bind]. destruct (reply d); [|done]. cbn [deref mbind outcome_bind].
  by rewrite Hd.
Qed.






Lemma json_new_ok j : json_new j = Some j.
Proof. destruct (Hjson j) as [j' Hj]. rewrite Hj. by apply json_new_Some in Hj as ->. Qed.



End functional.

(** ** Theorems *)


(** C7: Whatever the clients send (any sequence of requests, any headers, any
    bytes, any memory failures), the file module only ever writes files that
    are directly inside the configured directory, without its trailing
    slash. *)
Theorem filemod_confined `{JsonC} `{Malloc} `{JsonAlloc} `{Random} `{EvbufferOps evb}
    (fopen_w mkstemp : bytes → bool) (props : json) (requests : list (http_request evb))
    (fsd0 fsd fsd' : upfs_data file_state) (n n' : nat) :
  file_init mkstemp props fsd0 = Ok (0, fsd) →
  uploads (filemod fopen_w mkstemp props) requests fsd n = Ok (fsd', n') →
  ∃ dir0 dir, json_array_find_string props (str "directory") = Ok (Some dir0) ∧
    kill_trailing_slash dir0 = Ok dir ∧
    ∀ path, files (mod_data fsd') !! path ≠ files (mod_data fsd0) !! path → inside dir path.
Proof.
  intros Hi Hu. destruct (file_init_confined _ _ _ _ Hi) as (dir0 & dir & Hdir & Hk & Hc).
  exists dir0, dir. split_and!; [done|done|].
  eapply uploads_preserves in Hc as (? & _ & _ & _ & Hfs); [exact Hfs|apply filemod_preserves|exact Hu].
Qed.

(** A part whose first header is a Content-Disposition without a usable
    file name makes the server answer the request twice: the module sends the
    406 error, and the receiver, told that the part failed, sends it again. *)
Theorem filemod_refusal_answers_twice `{JsonC} `{Malloc} `{JsonAlloc} `{Random} `{EvbufferChains evb}
    (fopen_w mkstemp : bytes → bool) (props : json) (request : http_request evb)
    (fsd : upfs_data file_state) (n : nat) d find boundary value hs data ps epilogue :
  (∀ path, fopen_w path = true) → (∀ n, is_Some (malloc n)) → (∀ j, is_Some (json_new j)) →
  fdata (mod_data fsd) = Some d → original_filename d = true →
  Z.land EVHTTP_REQ_POST (rq_command request) ≠ 0 →
  rq_input_headers request = Some find →
  find (str "Content-Type") = Some (str "multipart/form-data; boundary=" ++ boundary) →
  let p := {| part_headers := (str "Content-Disposition", value) :: hs; part_data := data |} in
  contents (rq_input_buffer request) = encode_parts boundary (p :: ps) epilogue →
  Forall (wf_part boundary) (p :: ps) →
  parameter_value (str "filename") value = None →
  ∃ fsd', fst <$> upload (filemod fopen_w mkstemp props) request fsd n = Ok fsd' ∧
    answers (calls fsd') =
      [SendError 406 (str "Not acceptable"); SendError 406 (str "Not acceptable")].
Proof.
  intros Hopen Hmalloc Hjson Hd Ho Hpost Hh Hct p Hc Hwf Hv.
  rewrite (upload_spec_on _ _ (filemod_oblivious fopen_w mkstemp props Hopen) Hmalloc request fsd n
    find boundary (p :: ps) epilogue Hpost Hh Hct Hc ltac:(done) Hwf).
  unfold run_upload_on, run_request. cbn [filemod inbound_request_hook]. unfold file_handle_rq_headers, get_fdata.
  cbn [mod_data]. rewrite Hd. cbn [deref]. rewrite bind_Ok, (json_new_ok Hjson).
  cbv zeta. unfold put_fdata, set_fdata, set_mod_data. cbn [mod_data calls upload_error].
  rewrite Ho, bind_Ok. cbn [upload_error Z.eqb negb run_parts_on]. unfold run_part_on.
  change (part_headers p) with ((str "Content-Disposition", value) :: hs).
  cbn [part_headers run_headers filemod handle_form_header]. unfold file_handle_form_header, get_fdata.
  cbn [mod_data fdata deref]. rewrite bind_Ok. cbn [original_filename negb].
  rewrite decide_True by done. unfold uploadfs_get_content_disposition_filename.
  apply Forall_cons in Hwf as [(Hwfh & _ & _) _].
  apply Forall_cons in Hwfh as [(_ & _ & Hvn & _) _]. cbn [snd] in Hvn.
  rewrite extract_key_value_spec; [|decide_vm|decide_vm|by eapply free_of_notin; [done|set_solver]].
  destruct (Hmalloc (length value)) as [b ->]. rewrite Hv. eexists. by split.
Qed.

(** The debug module answers every request it refuses twice: the 406
    error, and then a 202 from its own final callback. *)
Theorem debugmod_refusal_answers_twice `{JsonC} `{Malloc} `{EvbufferOps evb}
    (fopen_w : bytes → bool) (request : http_request evb)
    (fsd : upfs_data (gmap bytes bytes)) (n : nat) :
  Z.land EVHTTP_REQ_POST (rq_command request) ≠ 0 →
  request_check_headers (rq_input_headers request) = None →
  upload (debugmod fopen_w) request fsd n = Ok
    (mk_upfs 1 (mod_data fsd)
      [SendError 406 (str "Not acceptable"); AddHeader (str "Location") (str "/");
       SendReply 202 (str "Accepted") []], n).
Proof.
  intros Hpost Hh. unfold upload, ahttpd_method_allowed.
  destruct (Z.eqb_spec (Z.land EVHTTP_REQ_POST (rq_command request)) 0) as [|_]; [done|].
  cbv zeta. unfold set_calls, set_error. cbn [mod_data calls upload_error].
  cbn [debugmod inbound_request_hook]. unfold debug_handle_rq_headers.
  rewrite bind_Ok. cbn [upload_error Z.eqb negb]. by rewrite Hh.
Qed.

(** ** The theorems at concrete inputs *)

Module FileRun.
#[export] Program Instance ref_random : Random := {| random i := Z.of_nat i mod 2 ^ 31 |}.
Next Obligation. intros i. apply Z.mod_pos_bound. lia. Qed.

Definition cd (fn : bytes) : bytes :=
  str "form-data; name=" ++ [x22] ++ str "f" ++ [x22] ++
  str "; filename=" ++ [x22] ++ fn ++ [x22].

Definition file_part (fn data : bytes) : part :=
  {| part_headers := [(str "Content-Disposition", cd fn)]; part_data := data |}.

Definition two_files : list part := [file_part (str "a.txt") (str "alpha");
                                     file_part (str "../b.txt") (str "beta")].

Definition no_name : part :=
  {| part_headers := [(str "Content-Disposition", str "form-data")]; part_data := str "x" |}.

Definition config : json :=
  JObject [(str "directory", JString (str "/up/")); (str "original_filename", JBool true)].

Definition before : upfs_data file_state :=
  mk_upfs 0 {| fdata := None; files := ∅; draws := 0 |} [].

Definition mounted : upfs_data file_state :=
  mk_upfs 0 {| fdata := Some {| original_filename := true; directory := Some (str "/up");
                                filename := None; reply := None |};
               files := ∅; draws := 0 |} [].

Definition request (ps : list part) : http_request RefBuffer.buffer :=
  Recorder.sample_request [encode_parts (str "XyZ") ps CRLF].


Definition content_type (k : bytes) : option bytes :=
  if decide (k = str "Content-Type")
  then Some (str "multipart/form-data; boundary=XyZ") else None.
End FileRun.

Import RefJson RefBuffer Recorder FileRun.


Lemma filemod_confined_witness :
  ∃ fsd' n', uploads (@filemod RefJson.ref_json Recorder.ref_malloc RefJson.ref_alloc
      FileRun.ref_random (λ _, true) (λ _, true) FileRun.config)
    [FileRun.request FileRun.two_files] FileRun.mounted 4 = Ok (fsd', n') ∧
  ∃ dir0 dir, @json_array_find_string RefJson.ref_json FileRun.config (str "directory")
      = Ok (Some dir0) ∧
    kill_trailing_slash dir0 = Ok dir ∧
    ∀ path, files (mod_data fsd') !! path ≠ (∅ : gmap bytes bytes) !! path → inside dir path.
Proof.
  destruct (is_ok_inv (uploads (filemod (λ _, true) (λ _, true) config)
    [request two_files] mounted 4)) as [[fsd' n'] Hu]; [vm_compute; reflexivity|].
  exists fsd', n'. split; [exact Hu|].
  apply (@filemod_confined ref_json ref_malloc ref_alloc ref_random RefBuffer.buffer ref_buffer_ops
    (λ _, true) (λ _, true) config [request two_files] before mounted fsd' 4 n');
    [vm_compute; reflexivity|exact Hu].
Defined.

Lemma filemod_refusal_answers_twice_witness :
  ∃ fsd', fst <$> @upload RefJson.ref_json Recorder.ref_malloc RefBuffer.buffer
      RefBuffer.ref_buffer_ops file_state
      (@filemod RefJson.ref_json Recorder.ref_malloc RefJson.ref_alloc FileRun.ref_random
        (λ _, true) (λ _, true) FileRun.config)
      (FileRun.request [FileRun.no_name]) FileRun.mounted 4 = Ok fsd' ∧
    answers (calls fsd') =
      [SendError 406 (str "Not acceptable"); SendError 406 (str "Not acceptable")].
Proof.
  apply (@filemod_refusal_answers_twice RefJson.ref_json Recorder.ref_malloc
    RefJson.ref_alloc FileRun.ref_random RefBuffer.buffer RefBuffer.ref_buffer_ops RefBuffer.ref_buffer
    RefBuffer.ref_buffer_chains
    (λ _, true) (λ _, true) FileRun.config (FileRun.request [FileRun.no_name]) FileRun.mounted 4
    {| original_filename := true; directory := Some (str "/up"); filename := None; reply := None |}
    FileRun.content_type (str "XyZ") (str "form-data") [] (str "x") [] CRLF).
  - reflexivity.
  - intros n. exists (repeat x00 n). reflexivity.
  - intros j. exists j. reflexivity.
  - reflexivity.
  - reflexivity.
  - vm_compute. discriminate.
  - reflexivity.
  - vm_compute. reflexivity.
  - reflexivity.
  - decide_vm.
  - vm_compute. reflexivity.
Defined.

Lemma debugmod_refusal_answers_twice_witness :
  @upload RefJson.ref_json Recorder.ref_malloc RefBuffer.buffer RefBuffer.ref_buffer_ops
    (gmap bytes bytes) (@debugmod RefJson.ref_json (λ _, true))
    {| rq_command := EVHTTP_REQ_POST; rq_input_headers := Some (λ _, None);
       rq_input_buffer := {| RefBuffer.base := 0; RefBuffer.raw := [] |} |} (mk_upfs 0 ∅ []) 4 =
  Ok (mk_upfs 1 ∅
    [SendError 406 (str "Not acceptable"); AddHeader (str "Location") (str "/");
     SendReply 202 (str "Accepted") []], 4%nat).
Proof.
  apply (@debugmod_refusal_answers_twice RefJson.ref_json Recorder.ref_malloc RefBuffer.buffer
    RefBuffer.ref_buffer_ops (λ _, true)
    {| rq_command := EVHTTP_REQ_POST; rq_input_headers := Some (λ _, None);
       rq_input_buffer := {| RefBuffer.base := 0; RefBuffer.raw := [] |} |} (mk_upfs 0 ∅ []) 4).
  - vm_compute. discriminate.
  - reflexivity.
Defined.

(** A part without a file name of its own is written over the previous one. *)
Example filename_outlives_its_part :
  @stored FileRun.ref_random true None 0
    [FileRun.file_part (str "a.txt") (str "alpha"); {| part_headers := []; part_data := str "x" |}] =
  [(str "a.txt", str "alpha"); (str "a.txt", str "x")].
Proof. vm_compute. reflexivity. Qed.
