(* ===== verification/UploadBuffer.v ===== *)
(** * fs_upload_mod_buffer.c: uploads kept in aura buffers

    The module's state is explicit: its [struct bufmod_data], the heap of
    [struct available_buffer] blocks (an address that is not in the map has
    been freed, or was never allocated), the store of the json objects that
    are shared and counted, and libevent's callback table, whose callbacks
    hold the addresses of the blocks.  An address is never given out twice,
    so that using a freed block shows as [UseAfterFree].

    aura's buffers and json-c's reference counting are not part of the
    sources: classes [AuraBuffers] and [JsonStore], with the documented
    behaviour of the counts as [JsonStoreLaws].

    The invariant [registered_ok] says that every download and drop callback
    points to a live block of the list; the operations preserve it.  The
    other theorems are about the ownership errors of the code: what a second
    upload, an upload that is too big and a part without headers do. *)

From S2P Require Import Prelude CLib Entity Json Evhttp Upload.
From Stdlib Require Import Strings.Byte.

(** ** Interfaces *)

Class AuraBuffers (node ab : Type) := {
  (** NULL when the node cannot allocate the buffer. *)
  aura_buffer_from_eviovec : node → list bytes → Z → option ab;
  aura_buffer_rewind : ab → ab;
  aura_buffer_payload_length : ab → Z;
  (** The memory from the returned pointer to the end of the buffer. *)
  aura_buffer_get_bin : ab → Z → bytes;
  aura_buffer_size : ab → Z
}.

(** Counted json objects: a reference is a number. *)
Class JsonStore (jh : Type) := {
  js_new : json → jh → option (nat * jh);
  js_get : nat → jh → outcome jh;
  js_put : nat → jh → outcome jh;
  (** [json_object_object_add] of a value that is not shared. *)
  js_object_add : nat → bytes → json → jh → outcome jh;
  (** [json_object_array_add arr i]: the array takes the caller's count. *)
  js_array_add : nat → nat → jh → outcome jh;
  js_value : nat → jh → json
}.

Class JsonStoreLaws (jh : Type) `{JsonStore jh} := {
  js_count : nat → jh → nat;
  new_count j h i h' :
    js_new j h = Some (i, h') →
    js_count i h = O ∧ js_count i h' = 1%nat ∧ ∀ k, k ≠ i → js_count k h' = js_count k h;
  get_count i h h' :
    js_get i h = Ok h' → ∀ k, k ≠ i → js_count k h' = js_count k h;
  get_alive i h h' : js_get i h = Ok h' → js_count i h ≠ O;
  object_add_count i k v h h' :
    js_object_add i k v h = Ok h' → ∀ j, js_count j h' = js_count j h;
  array_add_count a i h h' :
    js_array_add a i h = Ok h' → ∀ j, js_count j h' = js_count j h;
  put_last i h h' : js_count i h = 1%nat → js_put i h = Ok h' → js_count i h' = O;
  put_dead i h : js_count i h = O → js_put i h = Fault UseAfterFree
}.

(** ** Data *)

(** What a path is handled by: the three handlers of this module, with the
    block they are given, or another component's. *)
Inductive callback :=
  | RqListBuffers
  | RqDownloadBuffer (buf : nat)
  | RqDropBuffer (buf : nat)
  | Elsewhere (tag : nat).

#[export] Instance callback_eq_decision : EqDecision callback.
Proof. solve_decision. Defined.

(** [in_use], [lastused] and [owner] are left out: the first two are never
    read, the last is the one mountpoint. *)
Record available_buffer (ab : Type) := {
  ab_buf : option ab;
  ab_info : option nat;
  ab_registered : bool;
  ab_id : Z
}.
Arguments ab_buf {ab} _.
Arguments ab_info {ab} _.
Arguments ab_registered {ab} _.
Arguments ab_id {ab} _.

Record bufmod_data (node : Type) := {
  bm_node : node;
  max_size : Z;
  current_size : Z;
  current_buf : option nat;
  current_info : option nat;
  buffers : list nat;
  current_id : Z
}.
Arguments bm_node {node} _.
Arguments max_size {node} _.
Arguments current_size {node} _.
Arguments current_buf {node} _.
Arguments current_info {node} _.
Arguments buffers {node} _.
Arguments current_id {node} _.

Record buf_state (node ab jh tab : Type) := {
  bdata : option (bufmod_data node);
  avails : gmap nat (available_buffer ab);
  next_addr : nat;
  jsons : jh;
  table : tab
}.
Arguments bdata {node ab jh tab} _.
Arguments avails {node ab jh tab} _.
Arguments next_addr {node ab jh tab} _.
Arguments jsons {node ab jh tab} _.
Arguments table {node ab jh tab} _.

Section bufmod.
Context `{JsonC} `{Malloc} {node ab jh tab : Type}.
Context `{AuraBuffers node ab} `{JsonStore jh} `{CbTable tab callback}.
(** [fsd->mpoint->mountpoint], [fsd->mpoint->props], and what
    [ahttpd_mountpoint_lookup] finds: the name of the file system and its
    node. *)
Context (mountpoint : bytes) (props : json)
  (mountpoint_lookup : bytes → option (bytes * node)).

Notation state := (buf_state node ab jh tab).
Implicit Types (st : state) (fsd : upfs_data state).

Definition set_bdata (d : option (bufmod_data node)) st : state :=
  {| bdata := d; avails := avails st; next_addr := next_addr st;
     jsons := jsons st; table := table st |}.

Definition set_avails (m : gmap nat (available_buffer ab)) st : state :=
  {| bdata := bdata st; avails := m; next_addr := next_addr st;
     jsons := jsons st; table := table st |}.

Definition set_jsons (j : jh) st : state :=
  {| bdata := bdata st; avails := avails st; next_addr := next_addr st;
     jsons := j; table := table st |}.

Definition set_table (t : tab) st : state :=
  {| bdata := bdata st; avails := avails st; next_addr := next_addr st;
     jsons := jsons st; table := t |}.

Definition get_bdata st : outcome (bufmod_data node) := deref UseAfterFree (bdata st).

Definition get_avail st (a : nat) : outcome (available_buffer ab) :=
  deref UseAfterFree (avails st !! a).

Definition set_current_buf (a : option nat) (d : bufmod_data node) : bufmod_data node :=
  {| bm_node := bm_node d; max_size := max_size d; current_size := current_size d;
     current_buf := a; current_info := current_info d;
     buffers := buffers d; current_id := current_id d |}.

Definition set_current_info (i : option nat) (d : bufmod_data node) : bufmod_data node :=
  {| bm_node := bm_node d; max_size := max_size d; current_size := current_size d;
     current_buf := current_buf d; current_info := i;
     buffers := buffers d; current_id := current_id d |}.

Definition set_buffers (l : list nat) (d : bufmod_data node) : bufmod_data node :=
  {| bm_node := bm_node d; max_size := max_size d; current_size := current_size d;
     current_buf := current_buf d; current_info := current_info d;
     buffers := l; current_id := current_id d |}.

Definition set_registered (r : bool) (b : available_buffer ab) : available_buffer ab :=
  {| ab_buf := ab_buf b; ab_info := ab_info b; ab_registered := r; ab_id := ab_id b |}.

Definition dload_fmt (id : Z) : bytes := str "/download/" ++ fmt_int id.
Definition drop_fmt (id : Z) : bytes := str "/drop/" ++ fmt_int id.

Definition buf_avail_register st (a : nat) : outcome state :=
  b ← get_avail st a;
  tmp ← sprintf 48 (dload_fmt (ab_id b));
  let t := ahttpd_add_path mountpoint tmp (RqDownloadBuffer a) (table st) in
  tmp ← sprintf 48 (drop_fmt (ab_id b));
  let t := ahttpd_add_path mountpoint tmp (RqDropBuffer a) t in
  Ok (set_avails (<[a := set_registered true b]> (avails st)) (set_table t st)).

Definition buf_avail_deregister st (a : nat) : outcome state :=
  b ← get_avail st a;
  tmp ← sprintf 48 (dload_fmt (ab_id b));
  let t := ahttpd_del_path mountpoint tmp (table st) in
  tmp ← sprintf 48 (drop_fmt (ab_id b));
  let t := ahttpd_del_path mountpoint tmp t in
  Ok (set_avails (<[a := set_registered false b]> (avails st)) (set_table t st)).

(** [aura_buffer_release] ends the life of the block's buffer; [list_del]
    takes the block out of the module's list. *)
Definition buf_avail_drop st (buf : option nat) : outcome state :=
  match buf with
  | None => Ok st
  | Some a =>
      b ← get_avail st a;
      st ← (if ab_registered b then buf_avail_deregister st a else Ok st);
      st ← match ab_info b with
           | Some i => j ← js_put i (jsons st); Ok (set_jsons j st)
           | None => Ok st
           end;
      d ← get_bdata st;
      let st := if decide (a ∈ buffers d)
                then set_bdata (Some (set_buffers (List.filter (λ x, negb (x =? a)%nat)
                                                     (buffers d)) d)) st
                else st in
      Ok (set_avails (delete a (avails st)) st)
  end.

(** ** The handlers of the module's own paths *)

(** [json_object_array_add] of every info, and a count for each; the reply
    array is put at the end. *)
Fixpoint list_infos (arr : nat) (l : list nat) st : outcome state :=
  match l with
  | [] => Ok st
  | pos :: l =>
      b ← get_avail st pos;
      i ← deref NullDeref (ab_info b);
      j ← js_array_add arr i (jsons st);
      j ← js_get i j;
      list_infos arr l (set_jsons j st)
  end.

Definition rq_list_buffers st : outcome (list http_call * state) :=
  d ← get_bdata st;
  match js_new (JArray []) (jsons st) with
  | None => Ok ([SendError 500 (str "Failed to create json")], st)
  | Some (ret, j) =>
      st ← list_infos ret (buffers d) (set_jsons j st);
      let l := ahttpd_reply_with_json (js_value ret (jsons st)) [] in
      j ← js_put ret (jsons st);
      Ok (l, set_jsons j st)
  end.

(** [evbuffer_new] is given 64 bytes here; [evbuffer_add] reads [size] bytes
    from the payload. *)
Definition rq_download_buffer st (a : nat) : outcome (list http_call * state) :=
  b ← get_avail st a;
  let l := [AddHeader (str "Content-Type") (str "application/octet-stream")] in
  match malloc 64 with
  | None => Ok (l ++ [SendError 500 (str "Out of resources")], st)
  | Some _ =>
      buf ← deref NullDeref (ab_buf b);
      let buf := aura_buffer_rewind buf in
      let data := aura_buffer_get_bin buf (aura_buffer_payload_length buf) in
      if Z.of_nat (length data) <? aura_buffer_size buf then Fault OutOfBounds
      else
        let b := {| ab_buf := Some buf; ab_info := ab_info b;
                    ab_registered := ab_registered b; ab_id := ab_id b |} in
        Ok (l ++ [SendReply 200 (str "OK") (take (Z.to_nat (aura_buffer_size buf)) data)],
            set_avails (<[a:=b]> (avails st)) st)
  end.

Definition rq_drop_buffer st (a : nat) : outcome (list http_call * state) :=
  _ ← get_avail st a;
  st ← buf_avail_drop st (Some a);
  Ok (ahttpd_reply_accepted mountpoint [], st).

(** ** The module's callbacks *)

Definition on_state (f : state → outcome state) fsd : outcome (upfs_data state) :=
  st ← f (mod_data fsd); Ok (set_mod_data st fsd).

Definition buffer_init fsd : outcome (Z * upfs_data state) :=
  let st := mod_data fsd in
  match malloc 64 with
  | None => Ok (- ENOMEM, fsd)
  | Some _ =>
      let fail := Ok (- EIO, set_mod_data (set_bdata None st) fsd) in
      owner ← json_array_find_string props (str "owner");
      match owner with
      | None => fail
      | Some owner =>
          match mountpoint_lookup owner with
          | None => fail
          | Some (fsname, nd) =>
              if negb (bool_decide (fsname = str "node")) then fail
              else
                let d := {| bm_node := nd; max_size := 8 * 1024 * 1024; current_size := 0;
                            current_buf := None; current_info := None;
                            buffers := []; current_id := 0 |} in
                let t := ahttpd_add_path mountpoint (str "/") RqListBuffers (table st) in
                Ok (0, set_mod_data (set_bdata (Some d) (set_table t st)) fsd)
          end
      end
  end.

(** The buffers stay behind. *)
Definition buffer_deinit fsd : outcome (upfs_data state) :=
  on_state (λ st, _ ← get_bdata st; Ok (set_bdata None st)) fsd.

Definition buffer_send_result fsd (ok : Z) : outcome (upfs_data state) :=
  let st := mod_data fsd in
  d ← get_bdata st;
  if negb (ok =? 0) then
    let v := match current_info d with Some i => js_value i (jsons st) | None => JNull end in
    let fsd := set_calls (ahttpd_reply_with_json v) fsd in
    match current_info d with
    | None => Ok fsd
    | Some i => j ← js_put i (jsons st); Ok (set_mod_data (set_jsons j st) fsd)
    end
  else
    match current_buf d with
    | None => Ok fsd
    | Some a =>
        _ ← get_avail st a;
        Ok (set_mod_data (set_avails (delete a (avails st)) st) fsd)
    end.

Definition buffer_send_error fsd : outcome (upfs_data state) :=
  uploadfs_upload_send_error (Some buffer_send_result) fsd None.

(** [json_object_put] of what is left of a previous request. *)
Definition put_stale_info st : outcome state :=
  d ← get_bdata st;
  match current_info d with
  | Some i =>
      j ← js_put i (jsons st);
      Ok (set_bdata (Some (set_current_info None d)) (set_jsons j st))
  | None => Ok st
  end.

Definition drop_stale_buf st : outcome state :=
  d ← get_bdata st;
  match current_buf d with
  | Some a =>
      st ← buf_avail_drop st (Some a);
      d ← get_bdata st;
      Ok (set_bdata (Some (set_current_buf None d)) st)
  | None => Ok st
  end.

Definition buffer_handle_rq_headers fsd : outcome (upfs_data state) :=
  st ← put_stale_info (mod_data fsd);
  st ← drop_stale_buf st;
  d ← get_bdata st;
  match js_new (JArray []) (jsons st) with
  | None =>
      buffer_send_error (set_mod_data (set_bdata (Some (set_current_info None d)) st) fsd)
  | Some (i, j) =>
      Ok (set_mod_data (set_bdata (Some (set_current_info (Some i) d)) (set_jsons j st)) fsd)
  end.

Definition err_mem fsd (buf : option nat) : outcome (upfs_data state) :=
  fsd ← on_state (λ st, buf_avail_drop st buf) fsd;
  buffer_send_error fsd.

(** A new block of zeros, with its info object when that could be made. *)
Definition new_avail st : option (nat * option nat * state) :=
  match malloc 72 with
  | None => None
  | Some _ =>
      let a := next_addr st in
      let blk i := {| ab_buf := None; ab_info := i; ab_registered := false; ab_id := 0 |} in
      let mk i j := {| bdata := set_current_buf (Some a) <$> bdata st;
                       avails := <[a := blk i]> (avails st); next_addr := S a;
                       jsons := j; table := table st |} in
      Some match js_new (JObject []) (jsons st) with
           | Some (i, j) => (a, Some i, mk (Some i) j)
           | None => (a, None, mk None (jsons st))
           end
  end.

(** A name that could not be extracted is added as null. *)
Definition json_of (s : option bytes) : json :=
  match s with Some s => JString s | None => JNull end.

Definition add_disposition st (a : nat) (value : bytes) : outcome state :=
  b ← get_avail st a;
  fn ← uploadfs_get_content_disposition_filename (Some value);
  nm ← uploadfs_get_content_disposition_name (Some value);
  i ← deref NullDeref (ab_info b);
  j ← js_object_add i (str "filename") (json_of fn) (jsons st);
  j ← js_object_add i (str "name") (json_of nm) j;
  Ok (set_jsons j st).

Definition buffer_handle_form_header fsd (key value : bytes) : outcome (upfs_data state) :=
  d ← get_bdata (mod_data fsd);
  let disposition a fsd :=
    if decide (key = str "Content-Disposition")
    then on_state (λ st, add_disposition st a value) fsd
    else Ok fsd in
  match current_buf d with
  | Some a => disposition a fsd
  | None =>
      match new_avail (mod_data fsd) with
      | None => err_mem fsd None
      | Some (a, None, st) => err_mem (set_mod_data st fsd) (Some a)
      | Some (a, Some _, st) => disposition a (set_mod_data st fsd)
      end
  end.

(** The [size_t] sum wraps; the id is taken before the buffer is tested.  The
    new id object is owned by the info object from then on, as a plain
    member. *)
Definition buffer_handle_data fsd (vec : list bytes) (len : Z) : outcome (upfs_data state) :=
  let st := mod_data fsd in
  d ← get_bdata st;
  if max_size d <? (current_size d + len) mod 2 ^ 64 then err_mem fsd (current_buf d)
  else
    a ← deref NullDeref (current_buf d);
    b ← get_avail st a;
    let buf := aura_buffer_from_eviovec (bm_node d) vec len in
    let id := current_id d in
    let b := {| ab_buf := buf; ab_info := ab_info b;
                ab_registered := ab_registered b; ab_id := id |} in
    let d := {| bm_node := bm_node d; max_size := max_size d; current_size := current_size d;
                current_buf := current_buf d; current_info := current_info d;
                buffers := buffers d; current_id := id + 1 |} in
    let st := set_bdata (Some d) (set_avails (<[a:=b]> (avails st)) st) in
    match buf with
    | None => err_mem (set_mod_data st fsd) (Some a)
    | Some _ =>
        match js_new (JInt id) (jsons st) with
        | None => err_mem (set_mod_data st fsd) (Some a)
        | Some _ =>
            i ← deref NullDeref (ab_info b);
            info ← deref NullDeref (current_info d);
            j ← js_object_add i (str "id") (JInt id) (jsons st);
            j ← js_array_add info i j;
            j ← js_get i j;
            let d := set_buffers (buffers d ++ [a]) d in
            st ← buf_avail_register (set_bdata (Some d) (set_jsons j st)) a;
            let d := {| bm_node := bm_node d; max_size := max_size d;
                        current_size := (current_size d + len) mod 2 ^ 64;
                        current_buf := None; current_info := current_info d;
                        buffers := buffers d; current_id := current_id d |} in
            Ok (set_mod_data (set_bdata (Some d) st) fsd)
        end
    end.

Definition debugmod : uploadfs_module state := {|
  mod_name := str "buffer";
  mod_init := Some buffer_init;
  mod_deinit := Some buffer_deinit;
  inbound_request_hook := Some buffer_handle_rq_headers;
  handle_form_header := Some buffer_handle_form_header;
  handle_data := Some buffer_handle_data;
  finalize := Some buffer_send_result
|}.
End bufmod.

(** ** The callbacks and the list agree with the heap *)

Section invariant.
Context `{JsonC} `{Malloc} {node ab jh tab : Type}.
Context `{AuraBuffers node ab} `{JsonStore jh} `{CbTable tab callback}.
Context `{!CbTableLaws tab callback}.
Context (mountpoint : bytes) (props : json)
  (mountpoint_lookup : bytes → option (bytes * node)).

Notation state := (buf_state node ab jh tab).
Notation md := (debugmod (ab := ab) (jh := jh) (tab := tab) mountpoint props mountpoint_lookup).
Implicit Types (st : state) (fsd : upfs_data state).

(** A block the clients can reach. *)
Definition listed st (a : nat) (b : available_buffer ab) : Prop :=
  avails st !! a = Some b ∧ ab_registered b = true ∧ is_Some (ab_buf b) ∧ is_Some (ab_info b) ∧
  ∃ d, bdata st = Some d ∧ a ∈ buffers d.

Record registered_ok st : Prop := {
  list_ok d a : bdata st = Some d → a ∈ buffers d → ∃ b, listed st a b;
  download_ok p a :
    cb_find (table st) p = Some (RqDownloadBuffer a) →
    ∃ b, listed st a b ∧ p = mountpoint ++ dload_fmt (ab_id b);
  drop_ok p a :
    cb_find (table st) p = Some (RqDropBuffer a) →
    ∃ b, listed st a b ∧ p = mountpoint ++ drop_fmt (ab_id b);
  current_ok d a :
    bdata st = Some d → current_buf d = Some a → a ∉ buffers d ∧ (a < next_addr st)%nat;
  fresh_ok a b : avails st !! a = Some b → (a < next_addr st)%nat
}.

(** A change of the json store, or of the module's bookkeeping that keeps the
    list and does not name a listed block as the current one. *)
Lemma registered_ok_change st st' :
  registered_ok st → avails st' = avails st → next_addr st' = next_addr st →
  table st' = table st →
  (∀ d', bdata st' = Some d' → ∃ d, bdata st = Some d ∧ buffers d' = buffers d ∧
     (current_buf d' = current_buf d ∨ current_buf d' = None)) →
  (∀ d, bdata st = Some d → ∃ d', bdata st' = Some d' ∧ buffers d' = buffers d) →
  registered_ok st'.
Proof.
  intros [Hl Hd Hr Hc Hf] Ha Hn Ht Hb Hb'.
  assert (∀ a b, listed st a b → listed st' a b) as Hlisted.
  { intros a b (? & ? & ? & ? & d & Hbd & Hin). destruct (Hb' d Hbd) as (d' & ? & Heq).
    split_and!; [by rewrite Ha|done|done|done|]. exists d'. by rewrite Heq. }
  split; rewrite ?Ht, ?Hn, ?Ha.
  - intros d' a Hd' Hin. destruct (Hb d' Hd') as (d & Hbd & Heq & _). rewrite Heq in Hin.
    destruct (Hl d a Hbd Hin) as (b & ?). eauto.
  - intros p a (b & ? & ?)%Hd. eauto.
  - intros p a (b & ? & ?)%Hr. eauto.
  - intros d' a Hd' Hcur. destruct (Hb d' Hd') as (d & Hbd & Heq & [He|He]); rewrite He in Hcur;
      [|done]. rewrite Heq. by eapply Hc.
  - done.
Qed.

Lemma set_jsons_ok j st : registered_ok st → registered_ok (set_jsons j st).
Proof. intros Hok. apply (registered_ok_change st); simpl; eauto 10. Qed.

Lemma set_info_ok i d st :
  registered_ok st → bdata st = Some d → registered_ok (set_bdata (Some (set_current_info i d)) st).
Proof.
  intros Hok Hd. apply (registered_ok_change st); simpl; try done.
  - intros d' [= <-]. eexists. split; [exact Hd|]. simpl. auto.
  - intros d'. rewrite Hd. intros [= ->]. eexists. by split.
Qed.

Lemma clear_current_ok d st :
  registered_ok st → bdata st = Some d → registered_ok (set_bdata (Some (set_current_buf None d)) st).
Proof.
  intros Hok Hd. apply (registered_ok_change st); simpl; try done.
  - intros d' [= <-]. eexists. split; [exact Hd|]. simpl. auto.
  - intros d'. rewrite Hd. intros [= ->]. eexists. by split.
Qed.

(** Freeing a block that is not listed. *)
Lemma delete_unlisted_ok st a :
  registered_ok st → (∀ d, bdata st = Some d → a ∉ buffers d) →
  registered_ok (set_avails (delete a (avails st)) st).
Proof.
  intros [Hl Hd Hr Hc Hf] Ha.
  assert (∀ x b, listed st x b → listed (set_avails (delete a (avails st)) st) x b) as Hlisted.
  { intros x b (Hx & ? & ? & ? & d & Hbd & Hin). split_and!; try done; [|by exists d].
    simpl. rewrite lookup_delete_ne; [done|]. intros ->. by eapply Ha. }
  split; simpl.
  - intros d x Hbd Hin. destruct (Hl d x Hbd Hin) as (b & ?). eauto.
  - intros p x (b & ? & ?)%Hd. eauto.
  - intros p x (b & ? & ?)%Hr. eauto.
  - done.
  - intros x b Hx. apply lookup_delete_Some in Hx as [_ Hx]. by eapply Hf.
Qed.

(** Changing a block that is not listed. *)
Lemma insert_unlisted_ok st a b :
  registered_ok st → (∀ d, bdata st = Some d → a ∉ buffers d) → (a < next_addr st)%nat →
  registered_ok (set_avails (<[a:=b]> (avails st)) st).
Proof.
  intros [Hl Hd Hr Hc Hf] Ha Hlt.
  assert (∀ x b', listed st x b' → listed (set_avails (<[a:=b]> (avails st)) st) x b') as Hlisted.
  { intros x b' (Hx & ? & ? & ? & d & Hbd & Hin). split_and!; try done; [|by exists d].
    simpl. rewrite lookup_insert_ne; [done|]. intros ->. by eapply Ha. }
  split; simpl.
  - intros d x Hbd Hin. destruct (Hl d x Hbd Hin) as (b' & ?). eauto.
  - intros p x (b' & ? & ?)%Hd. eauto.
  - intros p x (b' & ? & ?)%Hr. eauto.
  - done.
  - intros x b' [[<- _]|[_ Hx]]%lookup_insert_Some; [done|by eapply Hf].
Qed.

Lemma dload_neq_drop i j : dload_fmt i ≠ drop_fmt j.
Proof. unfold dload_fmt, drop_fmt. simpl. congruence. Qed.

Lemma dload_fmt_inj i j : dload_fmt i = dload_fmt j → i = j.
Proof. unfold dload_fmt. intros ?%app_inv_head. by apply fmt_int_inj. Qed.

Lemma drop_fmt_inj i j : drop_fmt i = drop_fmt j → i = j.
Proof. unfold drop_fmt. intros ?%app_inv_head. by apply fmt_int_inj. Qed.

Definition forget (a : nat) (l : list nat) : list nat := List.filter (λ x, negb (x =? a)%nat) l.

Lemma elem_of_forget x a l : x ∈ forget a l ↔ x ∈ l ∧ x ≠ a.
Proof.
  unfold forget. rewrite !list_elem_of_In, filter_In, negb_true_iff, Nat.eqb_neq. done.
Qed.

(** What [buf_avail_drop] does to the state. *)
Lemma drop_result st a st' :
  buf_avail_drop mountpoint st (Some a) = Ok st' →
  ∃ b d, avails st !! a = Some b ∧ bdata st = Some d ∧
    avails st' = delete a (avails st) ∧ next_addr st' = next_addr st ∧
    bdata st' = Some (if decide (a ∈ buffers d) then set_buffers (forget a (buffers d)) d else d) ∧
    table st' = (if ab_registered b then
                   ahttpd_del_path mountpoint (drop_fmt (ab_id b))
                     (ahttpd_del_path mountpoint (dload_fmt (ab_id b)) (table st))
                 else table st).
Proof.
  unfold buf_avail_drop, get_avail. intros Hs.
  destruct (avails st !! a) as [b|] eqn:Hb; [|done]. cbn [deref mbind outcome_bind] in Hs.
  apply bind_Ok_inv in Hs as (st1 & E1 & Hs). apply bind_Ok_inv in Hs as (st2 & E2 & Hs).
  apply bind_Ok_inv in Hs as (d & E3 & Hs). exists b, d.
  assert (bdata st1 = bdata st ∧ next_addr st1 = next_addr st ∧
    delete a (avails st1) = delete a (avails st) ∧
    table st1 = (if ab_registered b then
                   ahttpd_del_path mountpoint (drop_fmt (ab_id b))
                     (ahttpd_del_path mountpoint (dload_fmt (ab_id b)) (table st))
                 else table st)) as (Hbd & Hn & Ha & Ht).
  { destruct (ab_registered b); [|by inv_ok]. unfold buf_avail_deregister, get_avail in E1.
    rewrite Hb in E1. cbn [deref mbind outcome_bind] in E1. unfold sprintf in E1.
    inv_ok. repeat (case_decide; inv_ok).
    split_and!; try done. simpl. by rewrite delete_insert_eq. }
  assert (bdata st2 = bdata st1 ∧ next_addr st2 = next_addr st1 ∧ avails st2 = avails st1 ∧
    table st2 = table st1) as (Hbd2 & Hn2 & Ha2 & Ht2).
  { destruct (ab_info b); [|by inv_ok]. apply bind_Ok_inv in E2 as (j & _ & E2). by inv_ok. }
  assert (bdata st = Some d) as Hd.
  { rewrite <-Hbd, <-Hbd2. unfold get_bdata in E3. by destruct (bdata st2); simplify_eq/=. }
  injection Hs as <-. split_and!; [done|done|..]; unfold forget; case_decide; simpl; congruence.
Qed.

Lemma drop_preserves st a st' :
  buf_avail_drop mountpoint st (Some a) = Ok st' → registered_ok st → registered_ok st'.
Proof.
  intros (b & d & Hb & Hd & Ha & Hn & Hd' & Ht)%drop_result [Hl Hdl Hdr Hc Hf].
  assert (∀ x, x ∈ buffers (if decide (a ∈ buffers d) then set_buffers (forget a (buffers d)) d
                              else d) ↔ x ∈ buffers d ∧ x ≠ a) as Hin.
  { intros x. case_decide; simpl; [apply elem_of_forget|]. split; [|by intros []].
    intros ?. split; [done|]. by intros ->. }
  assert (∀ x bx, listed st x bx → x ≠ a → listed st' x bx) as Hlisted.
  { intros x bx (? & ? & ? & ? & d0 & Hd0 & ?) Hx. split_and!; try done.
    - by rewrite Ha, lookup_delete_ne.
    - rewrite Hd' . eexists. split; [done|]. apply Hin. simplify_eq. done. }
  assert (∀ p c, cb_find (table st') p = Some c → cb_find (table st) p = Some c ∧
    (ab_registered b = true → p ≠ mountpoint ++ dload_fmt (ab_id b) ∧
                              p ≠ mountpoint ++ drop_fmt (ab_id b))) as Htab.
  { intros p c. rewrite Ht. destruct (ab_registered b); [|by split].
    rewrite !del_path_find. repeat case_decide; naive_solver. }
  split.
  - rewrite Hd'. intros d0 x [= <-] Hx. apply Hin in Hx as [Hx Hne].
    destruct (Hl d x Hd Hx) as (bx & ?). eauto.
  - intros p x [Hp Hne]%Htab. destruct (Hdl p x Hp) as (bx & Hx & Heq).
    exists bx. split; [|done]. apply Hlisted; [done|]. intros ->.
    destruct Hx as (? & ? & _). simplify_eq. by destruct Hne.
  - intros p x [Hp Hne]%Htab. destruct (Hdr p x Hp) as (bx & Hx & Heq).
    exists bx. split; [|done]. apply Hlisted; [done|]. intros ->.
    destruct Hx as (? & ? & _). simplify_eq. by destruct Hne.
  - rewrite Hd', Hn. intros d0 x [= <-] Hcur. rewrite Hin.
    assert (current_buf d = Some x) as Hcx by (by case_decide).
    destruct (Hc d x Hd Hcx). naive_solver.
  - rewrite Ha, Hn. intros x bx [_ Hx]%lookup_delete_Some. by eapply Hf.
Qed.

(** *** Every callback of the module preserves it *)

Notation inv := (λ fsd, registered_ok (mod_data fsd)).

Lemma bdata_of st d : get_bdata st = Ok d → bdata st = Some d.
Proof. unfold get_bdata. by destruct (bdata st); intros; simplify_eq/=. Qed.

Lemma avail_of st a b : get_avail st a = Ok b → avails st !! a = Some b.
Proof. unfold get_avail. by destruct (avails st !! a); intros; simplify_eq/=. Qed.

Lemma on_state_preserves f fsd fsd' :
  on_state f fsd = Ok fsd' → (∀ st', f (mod_data fsd) = Ok st' → registered_ok st') → inv fsd'.
Proof. unfold on_state. intros Hf Hp. inv_ok. by apply Hp. Qed.

Lemma send_result_preserves fsd ok fsd' :
  buffer_send_result fsd ok = Ok fsd' → inv fsd → inv fsd'.
Proof.
  unfold buffer_send_result. intros Hs Hok. apply bind_Ok_inv in Hs as (d & Hd & Hs).
  apply bdata_of in Hd. case_match.
  - destruct (current_info d); [|by inv_ok]. apply bind_Ok_inv in Hs as (j & _ & Hs). inv_ok.
    by apply set_jsons_ok.
  - destruct (current_buf d) as [a|] eqn:Hcur; [|by inv_ok].
    apply bind_Ok_inv in Hs as (b & _ & Hs). inv_ok. simpl.
    apply delete_unlisted_ok; [done|]. intros d' Hd'. simplify_eq.
    by eapply (current_ok _ Hok).
Qed.

Lemma send_error_ok fsd fsd' : buffer_send_error fsd = Ok fsd' → inv fsd → inv fsd'.
Proof. intros Hs Hok. by eapply send_result_preserves. Qed.

Lemma put_stale_info_ok st st' : put_stale_info st = Ok st' → registered_ok st → registered_ok st'.
Proof.
  unfold put_stale_info. intros Hs Hok. apply bind_Ok_inv in Hs as (d & Hd & Hs).
  apply bdata_of in Hd. destruct (current_info d); [|by inv_ok].
  apply bind_Ok_inv in Hs as (j & _ & Hs). inv_ok.
  apply (set_info_ok None d (set_jsons j st)); [by apply set_jsons_ok|done].
Qed.

Lemma drop_stale_buf_ok st st' :
  drop_stale_buf mountpoint st = Ok st' → registered_ok st → registered_ok st'.
Proof.
  unfold drop_stale_buf. intros Hs Hok. apply bind_Ok_inv in Hs as (d & Hd & Hs).
  destruct (current_buf d) as [a|]; [|by inv_ok].
  apply bind_Ok_inv in Hs as (st1 & Hdrop & Hs). apply drop_preserves in Hdrop; [|done].
  apply bind_Ok_inv in Hs as (d1 & Hd1 & Hs). apply bdata_of in Hd1. inv_ok.
  by apply clear_current_ok.
Qed.

Lemma rq_headers_ok fsd fsd' :
  buffer_handle_rq_headers mountpoint fsd = Ok fsd' → inv fsd → inv fsd'.
Proof.
  unfold buffer_handle_rq_headers. intros Hs Hok. apply bind_Ok_inv in Hs as (st1 & Hp & Hs).
  apply put_stale_info_ok in Hp; [|done]. apply bind_Ok_inv in Hs as (st2 & Hq & Hs).
  apply drop_stale_buf_ok in Hq; [|done]. apply bind_Ok_inv in Hs as (d & Hd & Hs).
  apply bdata_of in Hd. destruct (js_new _ _) as [[i j]|].
  - inv_ok. apply (set_info_ok (Some i) d (set_jsons j st2)); [by apply set_jsons_ok|done].
  - eapply send_error_ok; [exact Hs|]. by apply set_info_ok.
Qed.

Lemma err_mem_ok fsd buf fsd' : err_mem mountpoint fsd buf = Ok fsd' → inv fsd → inv fsd'.
Proof.
  unfold err_mem. intros Hs Hok. apply bind_Ok_inv in Hs as (fsd1 & Hd & Hs).
  eapply send_error_ok; [exact Hs|]. eapply on_state_preserves; [exact Hd|].
  intros st' Hst. cbv beta in Hst. destruct buf; [by eapply drop_preserves|].
  cbn [buf_avail_drop] in Hst. by inv_ok.
Qed.

Lemma new_avail_ok st a i st' :
  new_avail st = Some (a, i, st') → registered_ok st → registered_ok st'.
Proof.
  unfold new_avail. destruct (malloc 72); [|done]. intros [= Hst] [Hl Hd Hr Hc Hf].
  assert (∃ j blk, st' = {| bdata := set_current_buf (Some (next_addr st)) <$> bdata st;
            avails := <[next_addr st := blk]> (avails st);
            next_addr := S (next_addr st); jsons := j; table := table st |}) as (j & blk & ->).
  { destruct (js_new _ _) as [[i' j]|]; simplify_eq; eauto. }
  clear Hst.
  match goal with |- registered_ok ?s => set (st1 := s) end.
  assert (∀ x b, listed st x b → listed st1 x b) as Hlisted.
  { intros x b (Hx & ? & ? & ? & d & Hbd & Hin). split_and!; try done.
    - simpl. rewrite lookup_insert_ne; [done|]. apply Hf in Hx. lia.
    - simpl. rewrite Hbd. eexists. split; [reflexivity|done]. }
  split; unfold st1; simpl.
  - intros d x Hbd Hin. apply fmap_Some in Hbd as (d0 & Hbd & ->).
    destruct (Hl d0 x Hbd Hin) as (b & ?). eauto.
  - intros p x (b & ? & ?)%Hd. eauto.
  - intros p x (b & ? & ?)%Hr. eauto.
  - intros d x Hbd Hcur. apply fmap_Some in Hbd as (d0 & Hbd & ->). simpl in *. simplify_eq.
    split; [|lia]. intros Hin. destruct (Hl d0 _ Hbd Hin) as (b & Hb & _).
    apply Hf in Hb. lia.
  - intros x b [[<- _]|[_ Hx]]%lookup_insert_Some; [lia|]. apply Hf in Hx. lia.
Qed.

Lemma form_header_ok fsd k v fsd' :
  buffer_handle_form_header mountpoint fsd k v = Ok fsd' → inv fsd → inv fsd'.
Proof.
  unfold buffer_handle_form_header. intros Hs Hok. apply bind_Ok_inv in Hs as (d & Hd & Hs).
  assert (∀ a fsd1, inv fsd1 →
    (if decide (k = str "Content-Disposition")
     then on_state (λ st, add_disposition st a v) fsd1 else Ok fsd1) = Ok fsd' → inv fsd') as Hdisp.
  { intros a fsd1 Hok1 Hd1. case_decide; [|by inv_ok].
    eapply on_state_preserves; [exact Hd1|]. intros st' Hst. cbv beta in Hst. unfold add_disposition in Hst.
    repeat (apply bind_Ok_inv in Hst as (? & _ & Hst)). inv_ok. by apply set_jsons_ok. }
  destruct (current_buf d); [by eapply Hdisp|].
  destruct (new_avail (mod_data fsd)) as [[[a i] st]|] eqn:Hn;
    [|by eapply err_mem_ok]. apply new_avail_ok in Hn; [|done].
  destruct i; [by apply (Hdisp a (set_mod_data st fsd))|].
  by apply (err_mem_ok (set_mod_data st fsd) (Some a)).
Qed.

(** Listing the current block, once it is complete. *)
Lemma register_ok st d a b st' :
  registered_ok st → bdata st = Some d → current_buf d = Some a → avails st !! a = Some b →
  is_Some (ab_buf b) → is_Some (ab_info b) →
  let d' := set_buffers (buffers d ++ [a]) d in
  buf_avail_register mountpoint (set_bdata (Some d') st) a = Ok st' →
  registered_ok (set_bdata (Some (set_current_buf None d')) st').
Proof.
  intros [Hl Hdl Hdr Hc Hf] Hd Hcur Hb Hbuf Hinfo d' Hreg.
  unfold buf_avail_register, get_avail in Hreg. cbn [set_bdata avails] in Hreg. rewrite Hb in Hreg.
  cbn [deref mbind outcome_bind] in Hreg. unfold sprintf in Hreg. inv_ok.
  repeat (case_decide; inv_ok). cbn [set_bdata table] in *.
  destruct (Hc d a Hd Hcur) as [Hna Hlt].
  match goal with |- registered_ok ?s => set (st1 := s) end.
  assert (∀ x bx, listed st x bx → listed st1 x bx) as Hlisted.
  { intros x bx (Hx & ? & ? & ? & d0 & Hd0 & Hin). simplify_eq. split_and!; try done.
    - simpl. rewrite lookup_insert_ne; [done|]. by intros ->.
    - exists (set_current_buf None d'). split; [done|]. simpl. apply elem_of_app. by left. }
  assert (listed st1 a (set_registered true b)) as Hlista.
  { split_and!; [by simpl; rewrite lookup_insert_eq|done|done|done|].
    exists (set_current_buf None d'). split; [done|]. simpl. apply elem_of_app. right.
    by apply list_elem_of_singleton. }
  split.
  - simpl. intros d0 x [= <-] Hin. simpl in Hin. apply elem_of_app in Hin as [Hin|Hin].
    + destruct (Hl d x Hd Hin) as (bx & ?). eauto.
    + apply list_elem_of_singleton in Hin as ->. eauto.
  - intros p x Hp. apply add_path_find_inv in Hp as [Hp|[? _]]; [|done].
    apply add_path_find_inv in Hp as [Hp|[[= ->] ->]]; [|eauto].
    apply Hdl in Hp as (bx & ? & ?). eauto.
  - intros p x Hp. apply add_path_find_inv in Hp as [Hp|[[= ->] ->]]; [|eauto].
    apply add_path_find_inv in Hp as [Hp|[? _]]; [|done].
    apply Hdr in Hp as (bx & ? & ?). eauto.
  - simpl. by intros d0 x [= <-].
  - simpl. intros x bx [[<- _]|[_ Hx]]%lookup_insert_Some; [done|by eapply Hf].
Qed.

Lemma handle_data_ok fsd vec len fsd' :
  buffer_handle_data mountpoint fsd vec len = Ok fsd' → inv fsd → inv fsd'.
Proof.
  unfold buffer_handle_data. intros Hs Hok. apply bind_Ok_inv in Hs as (d & Hd & Hs).
  apply bdata_of in Hd. case_match; [by eapply err_mem_ok|].
  apply bind_Ok_inv in Hs as (a & Hcur & Hs).
  destruct (current_buf d) as [a'|] eqn:Hcd; simplify_eq/=.
  apply bind_Ok_inv in Hs as (b & Hb & Hs). apply avail_of in Hb. cbv zeta in Hs.
  match type of Hs with context [set_bdata (Some ?x) (set_avails (<[a:=?y]> _) _)] =>
    set (d1 := x) in *; set (b1 := y) in * end.
  set (st1 := set_bdata (Some d1) (set_avails (<[a:=b1]> (avails (mod_data fsd))) (mod_data fsd))) in *.
  assert (registered_ok st1) as Hok1.
  { apply (registered_ok_change (set_avails (<[a:=b1]> (avails (mod_data fsd))) (mod_data fsd)));
      try done.
    - apply insert_unlisted_ok; [done| |by eapply (current_ok _ Hok)].
      intros d' Hd'. simplify_eq. by eapply (current_ok _ Hok).
    - simpl. intros d' [= <-]. exists d. split; [done|]. simpl. auto.
    - simpl. intros d'. rewrite Hd. intros [= <-]. by exists d1. }
  destruct (aura_buffer_from_eviovec _ _ _) as [buf|] eqn:Hbuf;
    [|by apply (err_mem_ok (set_mod_data st1 fsd) (Some a))].
  destruct (js_new _ _); [|by apply (err_mem_ok (set_mod_data st1 fsd) (Some a))].
  apply bind_Ok_inv in Hs as (i & Hi & Hs). apply bind_Ok_inv in Hs as (info & _ & Hs).
  do 3 apply bind_Ok_inv in Hs as (? & _ & Hs). apply bind_Ok_inv in Hs as (st2 & Hreg & Hs).
  injection Hs as <-. destruct (ab_info b) as [i'|] eqn:Hinfo; [|done].
  eapply (register_ok _ d1 a b1 st2) in Hreg;
    [|by apply set_jsons_ok|done|done|by simpl; rewrite lookup_insert_eq|done|by exists i'].
  eapply registered_ok_change; [exact Hreg|done|done|done| |].
  - simpl. intros d' [= <-]. eexists. split; [reflexivity|]. simpl. auto.
  - simpl. intros d' [= <-]. eexists. by split.
Qed.

Lemma debugmod_preserves : module_preserves md inv.
Proof.
  split; [split|..]; simpl; intros; simplify_eq; try done.
  - by eapply form_header_ok.
  - by eapply handle_data_ok.
  - by eapply rq_headers_ok.
  - by eapply send_result_preserves.
Qed.

Lemma list_infos_ok arr l st st' :
  list_infos arr l st = Ok st' → registered_ok st →
  registered_ok st' ∧ bdata st' = bdata st ∧ avails st' = avails st.
Proof.
  revert st. induction l as [|a l IH]; intros st Hs Hok; cbn [list_infos] in Hs; [by inv_ok|].
  apply bind_Ok_inv in Hs as (b & _ & Hs). do 3 apply bind_Ok_inv in Hs as (? & _ & Hs).
  by destruct (IH _ Hs (set_jsons_ok _ _ Hok)) as (? & ? & ?).
Qed.

Lemma download_preserves st a b buf :
  registered_ok st → avails st !! a = Some b →
  registered_ok (set_avails (<[a := {| ab_buf := Some buf; ab_info := ab_info b;
    ab_registered := ab_registered b; ab_id := ab_id b |}]> (avails st)) st).
Proof.
  intros [Hl Hdl Hdr Hc Hf] Hb.
  match goal with |- registered_ok ?s => set (st1 := s) end.
  assert (∀ x bx, listed st x bx → ∃ bx', listed st1 x bx' ∧ ab_id bx' = ab_id bx) as Hlisted.
  { intros x bx (Hx & ? & ? & ? & ?). destruct (decide (x = a)) as [->|Hne].
    - simplify_eq. exists {| ab_buf := Some buf; ab_info := ab_info b;
                             ab_registered := ab_registered b; ab_id := ab_id b |}.
      split; [|done]. by split_and!; [simpl; rewrite lookup_insert_eq|..].
    - exists bx. split; [|done]. split_and!; try done. simpl. by rewrite lookup_insert_ne. }
  split.
  - intros d x Hd Hin. destruct (Hl d x Hd Hin) as (bx & (bx' & ? & _)%Hlisted). eauto.
  - intros p x Hp. destruct (Hdl p x Hp) as (bx & (bx' & ? & Heq)%Hlisted & ->).
    exists bx'. by rewrite Heq.
  - intros p x Hp. destruct (Hdr p x Hp) as (bx & (bx' & ? & Heq)%Hlisted & ->).
    exists bx'. by rewrite Heq.
  - done.
  - simpl. intros x bx [[<- _]|[_ Hx]]%lookup_insert_Some; by eapply Hf.
Qed.

(** *** Serving requests *)

(** What libevent does with a request for a path of this mountpoint: it
    calls what the table holds for it. *)
Definition serve st (path : bytes) : outcome (list http_call * state) :=
  match cb_find (table st) path with
  | Some RqListBuffers => rq_list_buffers st
  | Some (RqDownloadBuffer a) => rq_download_buffer st a
  | Some (RqDropBuffer a) => rq_drop_buffer mountpoint st a
  | Some (Elsewhere _) | None => Ok ([], st)
  end.

Lemma serve_preserves st path l st' :
  serve st path = Ok (l, st') → registered_ok st → registered_ok st'.
Proof.
  unfold serve. intros Hs Hok. destruct (cb_find _ _) as [[|a|a|]|]; [| | |by inv_ok|by inv_ok].
  - unfold rq_list_buffers in Hs. apply bind_Ok_inv in Hs as (d & _ & Hs).
    destruct (js_new _ _) as [[ret j]|]; [|by inv_ok].
    apply bind_Ok_inv in Hs as (st1 & Hl & Hs). apply bind_Ok_inv in Hs as (j1 & _ & Hs).
    apply list_infos_ok in Hl as (Hok1 & _); [|by apply set_jsons_ok].
    inv_ok. by apply set_jsons_ok.
  - unfold rq_download_buffer in Hs. apply bind_Ok_inv in Hs as (b & Hb & Hs).
    apply avail_of in Hb. destruct (malloc 64); [|by inv_ok].
    apply bind_Ok_inv in Hs as (buf & _ & Hs). cbv zeta in Hs. case_match; [done|]. inv_ok.
    by apply download_preserves.
  - unfold rq_drop_buffer in Hs. apply bind_Ok_inv in Hs as (b & _ & Hs).
    apply bind_Ok_inv in Hs as (st1 & Hd & Hs). inv_ok. by eapply drop_preserves.
Qed.

(** The states a mounted module goes through. *)
Inductive reachable `{EvbufferOps evb} : upfs_data state → nat → Prop :=
  | reachable_init fsd0 fsd n :
      avails (mod_data fsd0) = ∅ →
      (∀ p a, cb_find (table (mod_data fsd0)) p ≠ Some (RqDownloadBuffer a)) →
      (∀ p a, cb_find (table (mod_data fsd0)) p ≠ Some (RqDropBuffer a)) →
      buffer_init mountpoint props mountpoint_lookup fsd0 = Ok (0, fsd) →
      reachable fsd n
  | reachable_upload fsd n (request : http_request evb) fsd' n' :
      reachable fsd n → upload md request fsd n = Ok (fsd', n') → reachable fsd' n'
  | reachable_serve fsd n path l st' :
      reachable fsd n → serve (mod_data fsd) path = Ok (l, st') →
      reachable (set_mod_data st' fsd) n.

Lemma reachable_ok `{EvbufferOps evb} fsd n : reachable (evb := evb) fsd n → inv fsd.
Proof.
  induction 1 as [fsd0 fsd n Ha Hd Hr Hi|fsd n rq fsd' n' _ IH Hu|fsd n path l st' _ IH Hs].
  - unfold buffer_init in Hi. destruct (malloc 64); [|by inv_ok].
    apply bind_Ok_inv in Hi as (owner & _ & Hi). destruct owner; [|by inv_ok].
    destruct (mountpoint_lookup _) as [[fsn nd]|]; [|by inv_ok].
    case_match; [by inv_ok|]. inv_ok.
    split; simpl; rewrite ?Ha.
    + intros d a [= <-] Hin. by apply not_elem_of_nil in Hin.
    + intros p a Hp. apply add_path_find_inv in Hp as [Hp|[? _]]; [by apply Hd in Hp|done].
    + intros p a Hp. apply add_path_find_inv in Hp as [Hp|[? _]]; [by apply Hr in Hp|done].
    + by intros d a [= <-].
    + intros a b. by rewrite lookup_empty.
  - eapply (upload_preserves md _ debugmod_preserves); [exact Hu|exact IH].
  - by eapply serve_preserves.
Qed.
End invariant.

(** ** The count of the reply array over an upload *)

Section ownership.
Context `{JsonC} `{Malloc} {node ab jh tab : Type}.
Context `{AuraBuffers node ab} `{JsonStore jh} `{!JsonStoreLaws jh} `{CbTable tab callback}.
Context (mountpoint : bytes) (props : json)
  (mountpoint_lookup : bytes → option (bytes * node)).

Notation state := (buf_state node ab jh tab).
Notation md := (debugmod (ab := ab) (jh := jh) (tab := tab) mountpoint props mountpoint_lookup).
Implicit Types (st : state) (fsd : upfs_data state).

(** The module owns one count of the reply array, and the info of the current
    block is another object. *)
Definition owns_info st : Prop :=
  ∃ d i, bdata st = Some d ∧ current_info d = Some i ∧ js_count i (jsons st) = 1%nat ∧
    ∀ a b i', current_buf d = Some a → avails st !! a = Some b → ab_info b = Some i' → i' ≠ i.

Notation J := (λ fsd, upload_error fsd ≠ 0 ∨ owns_info (mod_data fsd)).

Lemma send_result_error fsd ok fsd' :
  buffer_send_result fsd ok = Ok fsd' → upload_error fsd' = upload_error fsd.
Proof.
  unfold buffer_send_result. intros Hs. apply bind_Ok_inv in Hs as (d & _ & Hs).
  case_match; [destruct (current_info d)|destruct (current_buf d)]; by inv_ok.
Qed.

Lemma send_error_error fsd fsd' : buffer_send_error fsd = Ok fsd' → upload_error fsd' ≠ 0.
Proof. intros Hs. apply send_result_error in Hs. by rewrite Hs. Qed.

Lemma err_mem_error fsd buf fsd' : err_mem mountpoint fsd buf = Ok fsd' → upload_error fsd' ≠ 0.
Proof.
  intros Hs. apply bind_Ok_inv in Hs as (fsd1 & _ & Hs). by eapply send_error_error.
Qed.

Lemma hook_owns fsd fsd' : buffer_handle_rq_headers mountpoint fsd = Ok fsd' → J fsd'.
Proof.
  unfold buffer_handle_rq_headers. intros Hs. apply bind_Ok_inv in Hs as (st1 & _ & Hs).
  apply bind_Ok_inv in Hs as (st2 & Hdrop & Hs). apply bind_Ok_inv in Hs as (d & Hd & Hs).
  assert (current_buf d = None) as Hcur.
  { apply bdata_of in Hd. unfold drop_stale_buf in Hdrop.
    apply bind_Ok_inv in Hdrop as (d1 & Hd1 & Hdrop). apply bdata_of in Hd1.
    destruct (current_buf d1) eqn:Hc; [|inv_ok; congruence].
    apply bind_Ok_inv in Hdrop as (st3 & _ & Hdrop). apply bind_Ok_inv in Hdrop as (d2 & _ & Hdrop).
    inv_ok. simpl in Hd. by simplify_eq. }
  destruct (js_new _ _) as [[i j]|] eqn:Hj.
  - inv_ok. right. apply new_count in Hj as (_ & Hj & _). exists (set_current_info (Some i) d), i.
    split_and!; [done|done|done|]. intros a b i' Ha. simpl in Ha. congruence.
  - left. by eapply send_error_error.
Qed.

Lemma new_avail_owns st a i st' :
  new_avail st = Some (a, Some i, st') → owns_info st → owns_info st'.
Proof.
  unfold new_avail. destruct (malloc 72); [|done].
  intros Hn (d & info & Hd & Hinfo & Hc & _).
  destruct (js_new _ _) as [[i' j]|] eqn:Hj; [|done]. injection Hn as <- <- <-.
  apply new_count in Hj as (Hz & _ & Hother).
  assert (i' ≠ info) as Hne by (intros ->; congruence).
  exists (set_current_buf (Some (next_addr st)) d), info.
  split_and!; [by simpl; rewrite Hd|done|simpl; by rewrite Hother by congruence|].
  simpl. intros a b i1 [= <-]. rewrite lookup_insert_eq. intros [= <-] [= <-]. done.
Qed.

Lemma disposition_owns st a value st' :
  add_disposition st a value = Ok st' → owns_info st → owns_info st'.
Proof.
  unfold add_disposition. intros Hs (d & i & Hd & Hi & Hc & Hb).
  do 4 apply bind_Ok_inv in Hs as (? & _ & Hs). apply bind_Ok_inv in Hs as (j1 & Hj1 & Hs).
  apply bind_Ok_inv in Hs as (j2 & Hj2 & Hs). inv_ok. exists d, i.
  split_and!; [done|done| |done]. simpl.
  by rewrite (object_add_count _ _ _ _ _ Hj2), (object_add_count _ _ _ _ _ Hj1).
Qed.

Lemma form_header_owns fsd k v fsd' :
  buffer_handle_form_header mountpoint fsd k v = Ok fsd' → J fsd → J fsd'.
Proof.
  unfold buffer_handle_form_header. intros Hs HJ. apply bind_Ok_inv in Hs as (d & Hd & Hs).
  assert (∀ a fsd1, J fsd1 →
    (if decide (k = str "Content-Disposition")
     then on_state (λ st, add_disposition st a v) fsd1 else Ok fsd1) = Ok fsd' → J fsd') as Hdisp.
  { intros a fsd1 HJ1 Hd1. case_decide; [|by inv_ok]. unfold on_state in Hd1.
    apply bind_Ok_inv in Hd1 as (st & Hst & Hd1). inv_ok.
    destruct HJ1 as [|HJ1]; [by left|]. right. by eapply disposition_owns. }
  destruct (current_buf d); [by eapply Hdisp|].
  destruct (new_avail (mod_data fsd)) as [[[a i] st]|] eqn:Hn;
    [|left; by eapply err_mem_error].
  destruct i; [|left; by eapply err_mem_error].
  apply (Hdisp a (set_mod_data st fsd)); [|done]. destruct HJ as [|HJ]; [by left|].
  right. by eapply new_avail_owns.
Qed.

Lemma register_frame st a st' :
  buf_avail_register mountpoint st a = Ok st' → bdata st' = bdata st ∧ jsons st' = jsons st.
Proof. unfold buf_avail_register, sprintf. intros Hs. inv_ok. repeat (case_decide; inv_ok). done. Qed.

Lemma handle_data_owns fsd vec len fsd' :
  buffer_handle_data mountpoint fsd vec len = Ok fsd' → J fsd → J fsd'.
Proof.
  unfold buffer_handle_data. intros Hs HJ. apply bind_Ok_inv in Hs as (d & Hd & Hs).
  apply bdata_of in Hd. case_match; [left; by eapply err_mem_error|].
  apply bind_Ok_inv in Hs as (a & Hcur & Hs).
  destruct (current_buf d) as [a'|] eqn:Hcd; simplify_eq/=.
  apply bind_Ok_inv in Hs as (b & Hb & Hs). apply avail_of in Hb. cbv zeta in Hs.
  destruct (aura_buffer_from_eviovec _ _ _); [|left; by eapply err_mem_error].
  destruct (js_new _ _); [|left; by eapply err_mem_error].
  apply bind_Ok_inv in Hs as (i & Hi & Hs). apply bind_Ok_inv in Hs as (info & _ & Hs).
  apply bind_Ok_inv in Hs as (j1 & Hj1 & Hs). apply bind_Ok_inv in Hs as (j2 & Hj2 & Hs).
  apply bind_Ok_inv in Hs as (j3 & Hj3 & Hs). apply bind_Ok_inv in Hs as (st2 & Hreg & Hs).
  apply register_frame in Hreg as [_ Hj]. injection Hs as <-.
  destruct HJ as [|(d0 & i0 & Hd0 & Hi0 & Hc & Hne)]; [by left|]. right. simplify_eq.
  eexists _, i0. split_and!; [reflexivity|done| |done]. simpl. rewrite Hj. simpl.
  assert (i ≠ i0) as Hii.
  { destruct (ab_info b) as [i1|] eqn:Hi1; simplify_eq/=. by eapply Hne. }
  rewrite (get_count _ _ _ Hj3) by congruence.
  by rewrite (array_add_count _ _ _ _ Hj2), (object_add_count _ _ _ _ _ Hj1).
Qed.

Lemma parts_own : part_preserves md J.
Proof.
  split; simpl; intros; simplify_eq.
  - by eapply form_header_owns.
  - by eapply handle_data_owns.
Qed.
End ownership.

(** ** Theorems *)

Section theorems.
Context `{JsonC} `{Malloc} {node ab jh tab : Type}.
Context `{AuraBuffers node ab} `{JsonStore jh} `{CbTable tab callback}.
Context (mountpoint : bytes) (props : json)
  (mountpoint_lookup : bytes → option (bytes * node)).

Notation state := (buf_state node ab jh tab).
Notation md := (debugmod (ab := ab) (jh := jh) (tab := tab) mountpoint props mountpoint_lookup).
Implicit Types (st : state) (fsd : upfs_data state).

(** C5: However uploads, downloads, drops and listings are interleaved after
    the mount, a path that libevent holds for a download or a drop leads to a
    block that is alive, complete, in the module's list, and carries the id
    of the path: no callback is left behind for a block that was freed. *)
Theorem buffer_callbacks_alive `{!CbTableLaws tab callback} `{EvbufferOps evb} fsd n p a :
  reachable mountpoint props mountpoint_lookup (evb := evb) fsd n →
  cb_find (table (mod_data fsd)) p = Some (RqDownloadBuffer a) ∨
  cb_find (table (mod_data fsd)) p = Some (RqDropBuffer a) →
  ∃ b, listed (mod_data fsd) a b ∧
    (p = mountpoint ++ dload_fmt (ab_id b) ∨ p = mountpoint ++ drop_fmt (ab_id b)).
Proof.
  intros Hr. apply reachable_ok in Hr.
  intros [Hp|Hp].
  - destruct (download_ok _ _ Hr p a Hp) as (b & ? & ?). eauto.
  - destruct (drop_ok _ _ Hr p a Hp) as (b & ? & ?). eauto.
Qed.

(** A POST that was accepted (no error was raised) makes the next one
    crash: the final callback drops the module's count of the reply array
    but keeps the pointer, and the hook of the next request drops it again. *)
Theorem second_upload_uses_freed_info `{!JsonStoreLaws jh} `{EvbufferOps evb}
    (request1 request2 : http_request evb) fsd n fsd' n' n2 :
  Z.land EVHTTP_REQ_POST (rq_command request1) ≠ 0 →
  Z.land EVHTTP_REQ_POST (rq_command request2) ≠ 0 →
  upload md request1 fsd n = Ok (fsd', n') → upload_error fsd' = 0 →
  upload md request2 fsd' n2 = Fault UseAfterFree.
Proof.
  intros Hp1 Hp2 Hu He. eapply (upload_ends md _ (parts_own mountpoint props mountpoint_lookup))
    in Hu as [[_ ?]|(fsd1 & HJ & Hend)]; [congruence| |by apply hook_owns|done].
  destruct Hend as [Hs|Hf]; [by apply send_error_error in Hs|].
  cbn [finalize debugmod] in Hf. pose proof (send_result_error _ _ _ Hf) as He1.
  destruct HJ as [HJ|(d & i & Hd & Hi & Hc & _)]; [congruence|].
  unfold buffer_send_result, get_bdata in Hf. rewrite Hd in Hf.
  cbn [deref mbind outcome_bind Z.eqb negb] in Hf. rewrite Hi in Hf.
  apply bind_Ok_inv in Hf as (j & Hj & Hf). inv_ok. apply (put_last _ _ _ Hc) in Hj.
  unfold upload, ahttpd_method_allowed.
  destruct (Z.eqb_spec (Z.land EVHTTP_REQ_POST (rq_command request2)) 0) as [|_]; [done|].
  cbv zeta. cbn [inbound_request_hook debugmod]. unfold buffer_handle_rq_headers, put_stale_info.
  unfold get_bdata. simpl. rewrite Hd. cbn [deref]. rewrite bind_Ok, Hi. simpl.
  by rewrite put_dead.
Qed.

(** A part that does not fit what is left of the 8 MiB is an error the
    module does not survive: it frees the current block, and the error reply
    it then sends reads the block again. *)
Theorem oversized_part_uses_freed_block fsd vec len d a st' :
  bdata (mod_data fsd) = Some d → current_buf d = Some a →
  max_size d < (current_size d + len) mod 2 ^ 64 →
  buf_avail_drop mountpoint (mod_data fsd) (Some a) = Ok st' →
  buffer_handle_data mountpoint fsd vec len = Fault UseAfterFree.
Proof.
  intros Hd Hcur Hsz Hdrop. unfold buffer_handle_data, get_bdata. rewrite Hd.
  cbn [deref]. rewrite bind_Ok. destruct (Z.ltb_spec (max_size d) ((current_size d + len) mod 2 ^ 64));
    [|lia]. rewrite Hcur. unfold err_mem, on_state. rewrite Hdrop, !bind_Ok.
  apply drop_result in Hdrop as (b & dx & Hb & Hd0 & Ha & _ & Hd' & _). simplify_eq.
  unfold buffer_send_error, uploadfs_upload_send_error, buffer_send_result, get_bdata, get_avail.
  cbn [set_calls set_error set_mod_data mod_data]. rewrite Hd'. cbn [deref]. rewrite bind_Ok.
  cbn [Z.eqb negb].
  assert (current_buf (if decide (a ∈ buffers d) then set_buffers (forget a (buffers d)) d
    else d) = Some a) as -> by (by case_decide).
  by rewrite Ha, lookup_delete_eq.
Qed.

(** The first part of an upload crashes the module when it has no header
    line: the block is only made when a header arrives. *)
Theorem headerless_part_crashes `{!JsonStoreLaws jh} `{EvbufferChains evb}
    (request : http_request evb) fsd n d find boundary data ps epilogue :
  (∀ nd vec len, 0 < len <= Z.of_nat (length (concat vec)) →
     aura_buffer_from_eviovec (ab := ab) nd vec len =
     aura_buffer_from_eviovec nd [take (Z.to_nat len) (concat vec)] len) →
  (∀ n, is_Some (malloc n)) →
  bdata (mod_data fsd) = Some d → current_buf d = None → current_info d = None →
  is_Some (js_new (JArray []) (jsons (mod_data fsd))) →
  0 <= current_size d → current_size d + Z.of_nat (length data) <= max_size d < 2 ^ 64 →
  Z.land EVHTTP_REQ_POST (rq_command request) ≠ 0 →
  rq_input_headers request = Some find →
  find (str "Content-Type") = Some (str "multipart/form-data; boundary=" ++ boundary) →
  let p := {| part_headers := []; part_data := data |} in
  contents (rq_input_buffer request) = encode_parts boundary (p :: ps) epilogue →
  (length (delimiter boundary) + 4 < front (evbuffer_layout (rq_input_buffer request)))%nat →
  Forall (wf_part boundary) (p :: ps) →
  upload md request fsd n = Fault NullDeref.
Proof.
  intros Hcopy Hmalloc Hd Hcur Hinfo [[i j] Hnew] Hsz0 Hsz Hpost Hh Hct p Hc Hin Hwf.
  set (hdata := λ fsd data, buffer_handle_data mountpoint fsd [data] (Z.of_nat (length data))).
  assert (data_oblivious md hdata) as Hobl.
  { intros fsd0 vec len Hlen. simpl. unfold hdata, buffer_handle_data.
    rewrite length_take_le by lia. rewrite Z2Nat.id by lia.
    destruct (get_bdata _) as [d0|]; [|done]. cbn [mbind outcome_bind].
    by rewrite (Hcopy _ vec len Hlen). }
  pose proof (upload_spec_on md hdata Hobl Hmalloc request fsd n find boundary (p :: ps) epilogue
    Hpost Hh Hct Hc ltac:(done) Hwf) as Hu.
  set (cs := evbuffer_layout (rq_input_buffer request)) in *.
  assert (run_upload_on md hdata boundary cs (mk_upfs 0 (mod_data fsd) []) (p :: ps) =
    Fault NullDeref) as Hr.
  { unfold run_upload_on, run_request. cbn [inbound_request_hook debugmod]. unfold buffer_handle_rq_headers.
    cbn [mod_data]. unfold put_stale_info, drop_stale_buf, get_bdata. rewrite Hd.
    cbn [deref]. rewrite bind_Ok, Hinfo, bind_Ok, Hd. cbn [deref].
    rewrite bind_Ok, Hcur, bind_Ok, Hd. cbn [deref]. rewrite bind_Ok, Hnew, bind_Ok.
    cbn [set_mod_data upload_error Z.eqb negb run_parts_on]. unfold run_part_on.
    cbn [part_headers p run_headers]. rewrite bind_Ok. cbn [upload_error Z.eqb negb part_data].
    destruct (decide (head_length boundary p < front cs)%nat) as [_|Hout];
      [|unfold head_length in Hout; rewrite !length_app in Hout; simpl in *; lia].
    unfold hdata, buffer_handle_data, get_bdata. simpl bdata. cbn [deref]. rewrite bind_Ok.
    cbn [set_current_info max_size current_size current_buf].
    change (part_data p) with data. rewrite Z.mod_small by lia.
    destruct (Z.ltb_spec (max_size d) (current_size d + Z.of_nat (length data))); [lia|].
    by rewrite Hcur. }
  rewrite Hr in Hu. destruct (upload md request fsd n) as [[]|]; [done|]. by injection Hu as ->.
Qed.

(** Dropping a buffer takes it out of the list, frees its block and both
    its paths, redirects to the mountpoint and leaves every other block as it
    was.  The quota is not given back: [current_size] still counts it. *)
Theorem drop_buffer_spec `{!CbTableLaws tab callback} st a b d l st' :
  listed st a b → bdata st = Some d → rq_drop_buffer mountpoint st a = Ok (l, st') →
  l = ahttpd_reply_accepted mountpoint [] ∧
  (∃ d', bdata st' = Some d' ∧ buffers d' = forget a (buffers d) ∧
     current_size d' = current_size d) ∧
  avails st' = delete a (avails st) ∧
  cb_find (table st') (mountpoint ++ dload_fmt (ab_id b)) = None ∧
  cb_find (table st') (mountpoint ++ drop_fmt (ab_id b)) = None.
Proof.
  intros (Ha & Hreg & _ & _ & d0 & Hd0 & Hin) Hd Hs. unfold rq_drop_buffer in Hs.
  apply bind_Ok_inv in Hs as (b0 & _ & Hs). apply bind_Ok_inv in Hs as (st1 & Hdrop & Hs). inv_ok.
  apply drop_result in Hdrop as (b1 & d1 & Hb1 & Hd1 & Hav & _ & Hd' & Ht). simplify_eq.
  rewrite decide_True in Hd' by done. rewrite Hreg in Ht.
  split_and!; [done|eexists; split; [exact Hd'|done]|done|..]; rewrite Ht, !del_path_find;
    repeat case_decide; try done; naive_solver.
Qed.

(** C37: A part that fits the quota, arriving when its block has been made
    and its paths are free, becomes a buffer the clients can fetch: it is
    appended to the list under the next id, counted, and a request for its
    download path is answered with the contents of the aura buffer. *)
Theorem buffered_part_can_be_downloaded `{!CbTableLaws tab callback}
    fsd vec len d a b i info buf j1 j2 j3 :
  let st := mod_data fsd in
  let id := current_id d in
  bdata st = Some d → current_buf d = Some a → avails st !! a = Some b →
  ab_info b = Some i → current_info d = Some info →
  0 <= current_size d → 0 <= len → current_size d + len <= max_size d < 2 ^ 64 →
  0 <= id < 2 ^ 63 →
  aura_buffer_from_eviovec (bm_node d) vec len = Some buf →
  aura_buffer_size buf <= Z.of_nat (length (aura_buffer_get_bin (aura_buffer_rewind buf)
    (aura_buffer_payload_length (aura_buffer_rewind buf)))) →
  aura_buffer_size (aura_buffer_rewind buf) = aura_buffer_size buf →
  is_Some (js_new (JInt id) (jsons st)) → is_Some (malloc 64) →
  js_object_add i (str "id") (JInt id) (jsons st) = Ok j1 →
  js_array_add info i j1 = Ok j2 → js_get i j2 = Ok j3 →
  cb_find (table st) (mountpoint ++ dload_fmt id) = None →
  ∃ fsd' d' st'', buffer_handle_data mountpoint fsd vec len = Ok fsd' ∧
    bdata (mod_data fsd') = Some d' ∧ buffers d' = buffers d ++ [a] ∧
    current_size d' = current_size d + len ∧ current_id d' = id + 1 ∧ current_buf d' = None ∧
    upload_error fsd' = upload_error fsd ∧ calls fsd' = calls fsd ∧
    serve mountpoint (mod_data fsd') (mountpoint ++ dload_fmt id) =
      Ok ([AddHeader (str "Content-Type") (str "application/octet-stream");
           SendReply 200 (str "OK")
             (take (Z.to_nat (aura_buffer_size buf))
                (aura_buffer_get_bin (aura_buffer_rewind buf)
                   (aura_buffer_payload_length (aura_buffer_rewind buf))))], st'').
Proof.
  intros st id Hd Hcur Hb Hi Hinfo Hs0 Hl0 Hsz Hid Hbuf Hfit Hrew [idj Hidj] [m Hm] Hj1 Hj2 Hj3 Hfree.
  unfold buffer_handle_data, get_bdata, get_avail. fold st. rewrite Hd. cbn [deref].
  rewrite bind_Ok. rewrite Z.mod_small by lia.
  destruct (Z.ltb_spec (max_size d) (current_size d + len)); [lia|].
  rewrite Hcur. cbn [deref]. rewrite bind_Ok, Hb. cbn [deref]. rewrite bind_Ok, Hbuf.
  cbv zeta. match goal with |- context [js_new ?x ?y] =>
    change (js_new x y) with (js_new (JInt id) (jsons st)) end.
  rewrite Hidj. cbn [ab_info]. rewrite Hi. cbn [deref]. rewrite bind_Ok. cbn [current_info]. rewrite Hinfo.
  cbn [deref]. rewrite bind_Ok. match goal with |- context [js_object_add i ?k ?x ?y] =>
    change (js_object_add i k x y) with (js_object_add i k (JInt id) (jsons st)) end.
  rewrite Hj1, bind_Ok, Hj2, bind_Ok, Hj3, bind_Ok.
  unfold buf_avail_register, get_avail. simpl avails. rewrite lookup_insert_eq. cbn [deref].
  rewrite bind_Ok. cbn [ab_id].
  assert (∀ pre, (length pre <= 10)%nat → (length (pre ++ fmt_int id) < 48)%nat) as Hlen.
  { intros pre Hp. rewrite length_app. destruct (fmt_int_digits 20 id) as [_ Hf]; [|lia|lia].
    change (10 ^ Z.of_nat 20) with 100000000000000000000.
    change (2 ^ 63) with 9223372036854775808 in Hid. lia. }
  rewrite !sprintf_Ok by (apply Hlen; simpl; lia). rewrite !bind_Ok.
  eexists _, _, _. split; [reflexivity|]. split; [reflexivity|]. split_and!; try done.
  { cbn [current_size set_buffers]. by rewrite Z.mod_small by lia. }
  unfold serve.
  assert (∀ q, cb_find (ahttpd_add_path mountpoint q (RqDropBuffer a)
    (ahttpd_add_path mountpoint (dload_fmt id) (RqDownloadBuffer a) (table st)))
    (mountpoint ++ dload_fmt id) = Some (RqDownloadBuffer a)) as Hfind.
  { intros q. assert (cb_find (ahttpd_add_path mountpoint (dload_fmt id) (RqDownloadBuffer a)
      (table st)) (mountpoint ++ dload_fmt id) = Some (RqDownloadBuffer a)) as Hd1
      by (by rewrite add_path_find, Hfree, decide_True).
    rewrite add_path_find, Hd1. case_match eqn:Hq; [done|]. rewrite decide_False; [done|].
    intros Heq. congruence. }
  match goal with |- context [cb_find ?t ?p] =>
    replace (cb_find t p) with (Some (RqDownloadBuffer a)) by (symmetry; exact (Hfind (drop_fmt id)))
  end.
  unfold rq_download_buffer, get_avail.
  cbn [avails mod_data set_mod_data set_bdata set_avails set_table set_jsons].
  rewrite lookup_insert_eq. cbn [deref]. rewrite bind_Ok, Hm. cbn [ab_buf set_registered deref].
  rewrite bind_Ok, Hrew. match goal with |- context [if ?c then _ else _] => destruct c eqn:Hc end;
    [apply Z.ltb_lt in Hc; lia|]. reflexivity.
Qed.
End theorems.

(** ** Reference instances and witnesses *)

Module BufRun.
#[export] Instance ref_aura : AuraBuffers unit bytes := {
  aura_buffer_from_eviovec _ vec len := Some (take (Z.to_nat len) (concat vec));
  aura_buffer_rewind b := b;
  aura_buffer_payload_length b := Z.of_nat (length b);
  aura_buffer_get_bin b _ := b;
  aura_buffer_size b := Z.of_nat (length b)
}.

(** A counted object: a value, or an array of references. *)
Inductive cell := Val (j : json) | Arr (l : list nat).

Record store := { objs : gmap nat (nat * cell); fresh_ref : nat }.

Definition live (i : nat) (h : store) : outcome (nat * cell) :=
  match objs h !! i with
  | Some (S n, c) => Ok (S n, c)
  | _ => Fault UseAfterFree
  end.

Definition put_cell (i : nat) (nc : nat * cell) (h : store) : store :=
  {| objs := <[i:=nc]> (objs h); fresh_ref := fresh_ref h |}.

(** A reference at a time; the elements of a freed array lose one each. *)
Definition put1 (i : nat) (h : store) : outcome store :=
  nc ← live i h; Ok (put_cell i (pred nc.1, nc.2) h).

Fixpoint puts (l : list nat) (h : store) : outcome store :=
  match l with [] => Ok h | i :: l => h ← put1 i h; puts l h end.

Definition count (i : nat) (h : store) : nat :=
  match objs h !! i with Some (n, _) => n | None => O end.

#[export] Instance ref_store : JsonStore store := {
  js_new j h :=
    let i := fresh_ref h in
    match objs h !! i with
    | Some _ => None
    | None =>
        let c := match j with JArray _ => Arr [] | _ => Val j end in
        Some (i, {| objs := <[i:=(1%nat, c)]> (objs h); fresh_ref := S i |})
    end;
  js_get i h := nc ← live i h; Ok (put_cell i (S nc.1, nc.2) h);
  js_put i h :=
    nc ← live i h;
    let h := put_cell i (pred nc.1, nc.2) h in
    match nc with (1%nat, Arr l) => puts l h | _ => Ok h end;
  js_object_add i k v h :=
    nc ← live i h;
    match nc.2 with
    | Val (JObject m) => Ok (put_cell i (nc.1, Val (JObject (m ++ [(k, v)]))) h)
    | _ => Fault BugAbort
    end;
  js_array_add a i h :=
    nc ← live a h;
    match nc.2 with
    | Arr l => Ok (put_cell a (nc.1, Arr (l ++ [i])) h)
    | _ => Fault BugAbort
    end;
  js_value i h :=
    let one i := match objs h !! i with Some (_, Val j) => j | _ => JNull end in
    match objs h !! i with
    | Some (_, Val j) => j
    | Some (_, Arr l) => JArray (one <$> l)
    | None => JNull
    end
}.

Lemma live_Ok i h nc : live i h = Ok nc → objs h !! i = Some nc ∧ nc.1 ≠ O.
Proof.
  unfold live. destruct (objs h !! i) as [[[|n] c]|]; intros; simplify_eq/=. by split.
Qed.

Lemma count_put_cell i k nc h :
  count k (put_cell i nc h) = if decide (i = k) then nc.1 else count k h.
Proof.
  unfold count, put_cell. simpl. case_decide as Hk.
  - subst. rewrite lookup_insert_eq. by destruct nc.
  - by rewrite lookup_insert_ne.
Qed.

Lemma count_live i h nc : live i h = Ok nc → count i h = nc.1.
Proof. intros [Hi _]%live_Ok. unfold count. rewrite Hi. by destruct nc. Qed.

Lemma puts_zero l h h' i : puts l h = Ok h' → count i h = O → count i h' = O.
Proof.
  revert h. induction l as [|k l IH]; intros h Hp Hc; cbn [puts] in Hp; [by inv_ok|].
  apply bind_Ok_inv in Hp as (h1 & H1 & Hp). apply (IH _ Hp).
  unfold put1 in H1. apply bind_Ok_inv in H1 as (nc & Hl & H1). injection H1 as <-.
  rewrite count_put_cell. case_decide; [|done]. subst. apply count_live in Hl. simpl. lia.
Qed.

#[export] Instance ref_store_laws : JsonStoreLaws store.
Proof.
  refine {| js_count := count |}.
  - intros j h i h' Hn. simpl in Hn. destruct (objs h !! fresh_ref h) eqn:E; [done|].
    injection Hn as <- <-. unfold count. simpl. rewrite E, lookup_insert_eq.
    split_and!; [done|done|]. intros k Hk. by rewrite lookup_insert_ne.
  - intros i h h' Hg k Hk. simpl in Hg. apply bind_Ok_inv in Hg as (nc & _ & Hg).
    injection Hg as <-. by rewrite count_put_cell, decide_False.
  - intros i h h' Hg. simpl in Hg. apply bind_Ok_inv in Hg as (nc & Hl & _).
    rewrite (count_live _ _ _ Hl). by apply live_Ok in Hl as [_ ?].
  - intros i k v h h' Ha j. simpl in Ha. apply bind_Ok_inv in Ha as (nc & Hl & Ha).
    apply count_live in Hl. destruct nc as [c [[]|]]; try done. injection Ha as <-.
    rewrite count_put_cell. simpl in *. case_decide; congruence.
  - intros a i h h' Ha j. simpl in Ha. apply bind_Ok_inv in Ha as (nc & Hl & Ha).
    apply count_live in Hl. destruct nc as [c []]; try done. injection Ha as <-.
    rewrite count_put_cell. simpl in *. case_decide; congruence.
  - intros i h h' Hc Hp. simpl in Hp. apply bind_Ok_inv in Hp as (nc & Hl & Hp).
    apply count_live in Hl. assert (nc.1 = 1%nat) as H1 by congruence.
    assert (count i (put_cell i (pred nc.1, nc.2) h) = O) as Hz
      by (rewrite count_put_cell, decide_True by done; simpl; lia).
    destruct nc as [n [|l]]; simpl in H1; subst n; [by injection Hp as <-|].
    by eapply puts_zero.
  - intros i h Hc. simpl. unfold live, count in *. by destruct (objs h !! i) as [[[|] ?]|].
Qed.

Definition tab : Type := gmap bytes callback.
Definition state : Type := buf_state unit bytes store tab.

Definition cfg : json := JObject [(str "owner", JString (str "/node"))].
Definition lookup_mp (p : bytes) : option (bytes * unit) := Some (str "node", tt).

Definition cold : upfs_data state :=
  mk_upfs 0 {| bdata := None; avails := ∅; next_addr := 0;
               jsons := {| objs := ∅; fresh_ref := 0 |}; table := ∅ |} [].

Definition bm (cur : option nat) (info : option nat) (size : Z) : bufmod_data unit :=
  {| bm_node := tt; max_size := 8 * 1024 * 1024; current_size := size; current_buf := cur;
     current_info := info; buffers := []; current_id := 0 |}.

Definition warm : upfs_data state :=
  mk_upfs 0 {| bdata := Some (bm None None 0); avails := ∅; next_addr := 0;
               jsons := {| objs := ∅; fresh_ref := 0 |};
               table := {[str "/up/" := RqListBuffers]} |} [].

(** The module while it receives a part: the reply array is object 0, the
    info of the block at address 0 is object 1. *)
Definition blank : available_buffer bytes :=
  {| ab_buf := None; ab_info := Some 1%nat; ab_registered := false; ab_id := 0 |}.

Definition receiving (size : Z) : upfs_data state :=
  mk_upfs 0 {| bdata := Some (bm (Some 0%nat) (Some 0%nat) size); avails := {[0%nat := blank]};
               next_addr := 1;
               jsons := {| objs := list_to_map [(0%nat, (1%nat, Arr []));
                                                (1%nat, (1%nat, Val (JObject [])))];
                           fresh_ref := 2 |};
               table := ∅ |} [].

Definition one_part (hs : list (bytes * bytes)) : list part :=
  [{| part_headers := hs; part_data := str "data" |}].

Definition request (hs : list (bytes * bytes)) : http_request RefBuffer.buffer :=
  Recorder.sample_request [encode_parts (str "XyZ") (one_part hs) CRLF].

Definition with_header := request [(str "A", str "b")].
End BufRun.

Import RefJson RefBuffer Recorder RefCb BufRun.

Notation buf_upload := (upload (debugmod (ab := bytes) (jh := store) (tab := tab)
  (str "/up") cfg lookup_mp)).

Lemma buffer_callbacks_alive_witness :
  ∃ fsd' n', buf_upload with_header warm 4 = Ok (fsd', n') ∧
  ∃ b, listed (mod_data fsd') 0 b ∧
    (str "/up/download/0" = str "/up" ++ dload_fmt (ab_id b) ∨
     str "/up/download/0" = str "/up" ++ drop_fmt (ab_id b)).
Proof.
  destruct (is_ok_inv (buf_upload with_header warm 4)) as [[fsd' n'] Hu];
    [vm_compute; reflexivity|].
  exists fsd', n'. split; [exact Hu|].
  apply (@buffer_callbacks_alive ref_json ref_malloc unit bytes store tab ref_aura ref_store ref_table
    (str "/up") cfg lookup_mp ref_table_laws RefBuffer.buffer ref_buffer_ops fsd' n' (str "/up/download/0") 0).
  - eapply reachable_upload; [|exact Hu]. apply (reachable_init _ _ _ cold); [reflexivity| | |].
    + intros p a. discriminate.
    + intros p a. discriminate.
    + reflexivity.
  - left. assert ((λ r, match r with
      | Ok (f, _) => cb_find (table (mod_data f)) (str "/up/download/0")
      | Fault _ => None end) (buf_upload with_header warm 4) = Some (RqDownloadBuffer 0)) as Hf
      by (vm_compute; reflexivity).
    rewrite Hu in Hf. exact Hf.
Defined.

Lemma second_upload_uses_freed_info_witness :
  ∃ fsd' n', buf_upload with_header warm 4 = Ok (fsd', n') ∧
  buf_upload with_header fsd' n' = Fault UseAfterFree.
Proof.
  destruct (is_ok_inv (buf_upload with_header warm 4)) as [[fsd' n'] Hu];
    [vm_compute; reflexivity|].
  exists fsd', n'. split; [exact Hu|].
  apply (@second_upload_uses_freed_info ref_json ref_malloc unit bytes store tab ref_aura ref_store
    ref_table (str "/up") cfg lookup_mp ref_store_laws RefBuffer.buffer ref_buffer_ops
    with_header with_header warm 4 fsd' n' n').
  - vm_compute. discriminate.
  - vm_compute. discriminate.
  - exact Hu.
  - assert ((λ r, match r with Ok (f, _) => upload_error f | Fault _ => 1 end)
      (buf_upload with_header warm 4) = 0) as Hf by (vm_compute; reflexivity).
    rewrite Hu in Hf. exact Hf.
Defined.

Lemma oversized_part_uses_freed_block_witness :
  ∃ st', buf_avail_drop (str "/up") (mod_data (receiving 8388608)) (Some 0%nat) = Ok st' ∧
  buffer_handle_data (str "/up") (receiving 8388608) [str "x"] 1 = Fault UseAfterFree.
Proof.
  destruct (is_ok_inv (buf_avail_drop (str "/up") (mod_data (receiving 8388608)) (Some 0%nat)))
    as [st' Hd]; [vm_compute; reflexivity|].
  exists st'. split; [exact Hd|].
  apply (@oversized_part_uses_freed_block ref_json unit bytes store tab ref_aura ref_store
    ref_table (str "/up") (receiving 8388608) [str "x"] 1
    (bm (Some 0%nat) (Some 0%nat) 8388608) 0 st').
  - reflexivity.
  - reflexivity.
  - vm_compute. reflexivity.
  - exact Hd.
Defined.

Lemma headerless_part_crashes_witness : buf_upload (BufRun.request []) warm 4 = Fault NullDeref.
Proof.
  apply (@headerless_part_crashes ref_json ref_malloc unit bytes store tab ref_aura ref_store
    ref_table (str "/up") cfg lookup_mp ref_store_laws RefBuffer.buffer ref_buffer_ops ref_buffer
    ref_buffer_chains
    (BufRun.request []) warm 4 (bm None None 0)
    (λ k, if decide (k = str "Content-Type")
          then Some (str "multipart/form-data; boundary=XyZ") else None)
    (str "XyZ") (str "data") [] CRLF).
  - intros nd vec len Hl. unfold aura_buffer_from_eviovec, ref_aura. f_equal.
    rewrite concat_cons, app_nil_r, take_take. f_equal. lia.
  - intros n. exists (repeat x00 n). reflexivity.
  - reflexivity.
  - reflexivity.
  - reflexivity.
  - vm_compute. eexists. reflexivity.
  - vm_compute. discriminate.
  - vm_compute. split; [discriminate|reflexivity].
  - vm_compute. discriminate.
  - reflexivity.
  - vm_compute. reflexivity.
  - vm_compute. reflexivity.
  - vm_compute. lia.
  - decide_vm.
Defined.

Lemma drop_buffer_spec_witness :
  ∃ b l st', let st := set_table (<[str "/up/download/0" := RqDownloadBuffer 0]> ∅)
      (set_bdata (Some (set_buffers [0%nat] (bm None None 4)))
        (set_avails {[0%nat := b]} (mod_data (receiving 4)))) in
    rq_drop_buffer (str "/up") st 0 = Ok (l, st') ∧
    l = ahttpd_reply_accepted (str "/up") [] ∧
    (∃ d', bdata st' = Some d' ∧ buffers d' = [] ∧ current_size d' = 4) ∧
    avails st' = delete 0%nat (avails st) ∧
    cb_find (table st') (str "/up" ++ dload_fmt (ab_id b)) = None ∧
    cb_find (table st') (str "/up" ++ drop_fmt (ab_id b)) = None.
Proof.
  set (b := {| ab_buf := Some (str "data"); ab_info := Some 1%nat; ab_registered := true;
               ab_id := 0 |}).
  set (st := set_table (<[str "/up/download/0" := RqDownloadBuffer 0]> ∅)
    (set_bdata (Some (set_buffers [0%nat] (bm None None 4)))
      (set_avails {[0%nat := b]} (mod_data (receiving 4))))).
  destruct (is_ok_inv (rq_drop_buffer (str "/up") st 0)) as [[l st'] Hd]; [vm_compute; reflexivity|].
  exists b, l, st'. split; [exact Hd|].
  apply (@drop_buffer_spec unit bytes store tab ref_store ref_table (str "/up")
    ref_table_laws st 0 b (set_buffers [0%nat] (bm None None 4)) l st').
  - split; [reflexivity|]. split; [reflexivity|]. split; [eexists; reflexivity|].
    split; [eexists; reflexivity|]. eexists. split; [reflexivity|]. decide_vm.
  - reflexivity.
  - exact Hd.
Defined.

Lemma buffered_part_can_be_downloaded_witness :
  ∃ fsd' d' st'',
    buffer_handle_data (str "/up") (receiving 0) [str "da"; str "ta!"] 4 = Ok fsd' ∧
    bdata (mod_data fsd') = Some d' ∧ buffers d' = [0%nat] ∧
    current_size d' = 4 ∧ current_id d' = 1 ∧ current_buf d' = None ∧
    upload_error fsd' = 0 ∧ calls fsd' = [] ∧
    serve (str "/up") (mod_data fsd') (str "/up" ++ dload_fmt 0) =
      Ok ([AddHeader (str "Content-Type") (str "application/octet-stream");
           SendReply 200 (str "OK") (str "data")], st'').
Proof.
  eapply (@buffered_part_can_be_downloaded ref_json ref_malloc unit bytes store tab ref_aura
    ref_store ref_table (str "/up") ref_table_laws (receiving 0) [str "da"; str "ta!"] 4
    (bm (Some 0%nat) (Some 0%nat) 0) 0 blank 1 0 (str "data")).
  - reflexivity.
  - reflexivity.
  - reflexivity.
  - reflexivity.
  - reflexivity.
  - vm_compute. discriminate.
  - vm_compute. discriminate.
  - vm_compute. split; [discriminate|reflexivity].
  - vm_compute. split; [discriminate|reflexivity].
  - vm_compute. reflexivity.
  - vm_compute. discriminate.
  - reflexivity.
  - vm_compute. eexists. reflexivity.
  - vm_compute. eexists. reflexivity.
  - vm_compute. reflexivity.
  - vm_compute. reflexivity.
  - vm_compute. reflexivity.
  - reflexivity.
Defined.
