(* ===== verification/Serdes.v ===== *)
(** * serdes-json.c: aura's wire format and JSON

    A format string is a sequence of type characters; [URPC_BIN] is followed
    by a decimal size and a dot.  The characters are macros of aura's headers:
    class [Urpc] says that they are distinct and not the terminator.  The
    buffer is aura's too: class [AuraBuffer], whose laws say that integers
    are read back in the order in which they were put, with their width.

    [fmt_of] prints a list of fields as a format; the theorems are about
    formats of that shape: what [ahttpd_format_to_json] describes, that values
    sent with [ahttpd_buffer_from_json] are those [ahttpd_buffer_to_json]
    reports, modulo the width of the field, and where a mismatch stops. *)

From S2P Require Import Prelude CLib Json.
From Stdlib Require Import Strings.Byte.

(** ** Interfaces *)

Inductive int_type := U8 | S8 | U16 | S16 | U32 | S32 | U64 | S64.

#[export] Instance int_type_eq_decision : EqDecision int_type.
Proof. solve_decision. Defined.

Class Urpc := {
  urpc_int : int_type → byte;
  URPC_BUF : byte;
  URPC_BIN : byte;
  urpc_distinct :
    NoDup (x00 :: URPC_BUF :: URPC_BIN :: (urpc_int <$> [U8; S8; U16; S16; U32; S32; U64; S64]))
}.

(** [aura_buffer_get_u8] and the like, by type. *)
Class AuraBuffer (ab : Type) := {
  aura_buffer_get : int_type → ab → Z * ab;
  aura_buffer_put : int_type → ab → Z → ab;
  aura_buffer_put_bin : ab → bytes → ab;
  aura_buffer_rewind : ab → ab
}.

Inductive datum :=
  | DInt (t : int_type) (z : Z)
  | DBin (s : bytes).

Class AuraBufferLaws (ab : Type) `{AuraBuffer ab} := {
  written : ab → list datum;
  unread : ab → list datum;
  put_written t b z : written (aura_buffer_put t b z) = written b ++ [DInt t z];
  put_bin_written b s : written (aura_buffer_put_bin b s) = written b ++ [DBin s];
  rewind_unread b : unread (aura_buffer_rewind b) = written b;
  get_unread t z r b :
    unread b = DInt t z :: r → ∃ b', aura_buffer_get t b = (z, b') ∧ unread b' = r
}.

(** ** Widths *)

Definition width (t : int_type) : Z :=
  match t with U8 | S8 => 8 | U16 | S16 => 16 | U32 | S32 => 32 | U64 | S64 => 64 end.

Definition is_signed (t : int_type) : bool :=
  match t with S8 | S16 | S32 | S64 => true | _ => false end.

(** Assignment to a member of the [var] union. *)
Definition wrap (t : int_type) (z : Z) : Z :=
  if is_signed t
  then (z + 2 ^ (width t - 1)) mod 2 ^ width t - 2 ^ (width t - 1)
  else z mod 2 ^ width t.

Definition in_range (t : int_type) (z : Z) : Prop :=
  if is_signed t
  then - 2 ^ (width t - 1) <= z < 2 ^ (width t - 1)
  else 0 <= z < 2 ^ width t.

(** ** The functions *)

(** [while ( *fmt && ( *fmt++ != '.'));] *)
Fixpoint skip_dot (fmt : bytes) : bytes :=
  match fmt with
  | [] => []
  | c :: fmt => if decide (c = "."%byte) then fmt else skip_dot fmt
  end.

Section serdes.
Context `{JsonC} `{JsonAlloc} `{Urpc} `{AuraBuffer ab}.

(** The [case] labels of the integer types. *)
Definition int_case (c : byte) : option int_type :=
  if decide (c = urpc_int U8) then Some U8
  else if decide (c = urpc_int S8) then Some S8
  else if decide (c = urpc_int U16) then Some U16
  else if decide (c = urpc_int S16) then Some S16
  else if decide (c = urpc_int U32) then Some U32
  else if decide (c = urpc_int S32) then Some S32
  else if decide (c = urpc_int U64) then Some U64
  else if decide (c = urpc_int S64) then Some S64
  else None.

Definition type_name (t : int_type) : bytes :=
  match t with
  | U8 => str "uint8_t"
  | U16 => str "uint16_t"
  | U32 => str "uint32_t"
  | U64 => str "uint64_t"
  | S8 => str "int8_t"
  | S16 => str "int16_t"
  | S32 => str "int32_t"
  | S64 => str "int64_t"
  end.

(** [json_object_array_add] to an array that could not be made crashes; an
    element that could not be made is null. *)
Definition array_add (ret : option json) (tmp : option json) : outcome (option json) :=
  ret ← deref NullDeref ret;
  Ok (Some (json_object_array_add ret (default JNull tmp))).

(** One round: the element and the rest of the format. *)
Definition format_step (c : byte) (fmt : bytes) : outcome (option json * bytes) :=
  match int_case c with
  | Some t => Ok (json_new (JString (type_name t)), fmt)
  | None =>
      if decide (c = URPC_BUF) then Ok (json_new (JString (str "buffer")), fmt)
      else if decide (c = URPC_BIN) then
        let len := atoi fmt in
        if len =? 0 then Fault BugAbort
        else
          match json_new (JObject []), json_new (JInt len) with
          | Some _, Some ln =>
              Ok (Some (JObject (json_object_object_add [] (str "binary") ln)), skip_dot fmt)
          | _, _ => Fault BugAbort
          end
      else Fault BugAbort
  end.

Fixpoint format_loop (fuel : nat) (fmt : bytes) (ret : option json) : outcome (option json) :=
  match fuel with
  | O => Fault OutOfFuel
  | S fuel =>
      match fmt with
      | [] => Ok ret
      | c :: fmt =>
          r ← format_step c fmt;
          let '(tmp, fmt) := r in
          ret ← array_add ret tmp;
          format_loop fuel fmt ret
      end
  end.

(** A NULL format is [None], a NULL result too. *)
Definition ahttpd_format_to_json (fmt : option bytes) : outcome (option json) :=
  let ret := json_new (JArray []) in
  match fmt with
  | None => Ok ret
  | Some fmt => format_loop (S (length fmt)) fmt ret
  end.

Definition fetch_step (c : byte) (fmt : bytes) (buf : ab) : outcome (option json * bytes * ab) :=
  match int_case c with
  | Some t =>
      let '(v, buf) := aura_buffer_get t buf in
      (* json_object_new_int64 takes a signed 64-bit value *)
      Ok (json_new (JInt (wrap S64 v)), fmt, buf)
  | None =>
      if decide (c = URPC_BUF) then Ok (json_new (JString (str "buffer")), fmt, buf)
      else if decide (c = URPC_BIN) then
        Ok (json_new (JString (str "buffer")), skip_dot fmt, buf)
      else Fault BugAbort
  end.

Fixpoint fetch_loop (fuel : nat) (fmt : bytes) (buf : ab) (ret : json) : outcome (json * ab) :=
  match fuel with
  | O => Fault OutOfFuel
  | S fuel =>
      match fmt with
      | [] => Ok (ret, buf)
      | c :: fmt =>
          r ← fetch_step c fmt buf;
          let '(tmp, fmt, buf) := r in
          tmp ← deref BugAbort tmp;
          fetch_loop fuel fmt buf (json_object_array_add ret tmp)
      end
  end.

Definition ahttpd_buffer_to_json (buf : ab) (fmt : option bytes) : outcome (option json * ab) :=
  match json_new (JArray []) with
  | None => Ok (None, buf)
  | Some ret =>
      match fmt with
      | None => Ok (Some ret, buf)
      | Some fmt =>
          r ← fetch_loop (S (length fmt)) fmt buf ret;
          Ok (Some r.1, r.2)
      end
  end.

Definition json_object_is_type_log (jo : json) (want : json_type) : bool :=
  json_object_is_type jo want.

(** One round: [None] stands for [return -1].  A character that is no type
    at all is skipped. *)
Definition put_step (c : byte) (fmt : bytes) (js : json) (i : Z) (buf : ab)
    : outcome (option (bytes * Z) * ab) :=
  match int_case c with
  | Some t =>
      let tmp := json_object_array_get_idx js i in
      if json_object_is_type_log tmp json_type_int
      then Ok (Some (fmt, i + 1), aura_buffer_put t buf (wrap t (json_object_get_int64 tmp)))
      else Ok (None, buf)
  | None =>
      if decide (c = URPC_BUF) then Fault BugAbort
      else if decide (c = URPC_BIN) then
        let len := atoi fmt in
        let tmp := json_object_array_get_idx js i in
        buf ← (if json_object_is_type tmp json_type_int then Ok buf
               else if json_object_is_type tmp json_type_string then
                 let s := json_object_to_json_string tmp in
                 let tocopy := Z.min (Z.of_nat (length s)) len in
                 (* a negative count is a huge size_t *)
                 if tocopy <? 0 then Fault OutOfBounds
                 else Ok (aura_buffer_put_bin buf (take (Z.to_nat tocopy) s))
               else Ok buf);
        Ok (Some (skip_dot fmt, i + 1), buf)
      else Ok (Some (fmt, i), buf)
  end.

Fixpoint put_loop (fuel : nat) (fmt : bytes) (js : json) (i : Z) (buf : ab) : outcome (Z * ab) :=
  match fuel with
  | O => Fault OutOfFuel
  | S fuel =>
      match fmt with
      | [] => Ok (0, buf)
      | c :: fmt =>
          r ← put_step c fmt js i buf;
          match r with
          | (None, buf) => Ok (-1, buf)
          | (Some (fmt, i), buf) => put_loop fuel fmt js i buf
          end
      end
  end.

(** The C result and the buffer, which keeps what was put before a
    mismatch. *)
Definition ahttpd_buffer_from_json (buf : ab) (js : json) (fmt : option bytes)
    : outcome (Z * ab) :=
  if negb (json_object_is_type_log js json_type_array) then Ok (-1, buf)
  else
    match fmt with
    | None => Ok (0, buf)
    | Some fmt => put_loop (S (length fmt)) fmt js 0 buf
    end.
End serdes.

(** ** Formats as lists of fields *)

Inductive field :=
  | FInt (t : int_type)
  | FBuf
  | FBin (len : Z).

Section spec.
Context `{Urpc}.

Definition field_fmt (f : field) : bytes :=
  match f with
  | FInt t => [urpc_int t]
  | FBuf => [URPC_BUF]
  | FBin len => URPC_BIN :: fmt_int len ++ ["."%byte]
  end.

Definition fmt_of (fs : list field) : bytes := concat (field_fmt <$> fs).

(** A size of a blob is a positive [int]. *)
Definition wf_field (f : field) : Prop :=
  match f with FBin len => 0 < len < 2 ^ 31 | _ => True end.
End spec.

(** The name <stdint.h> gives an integer type. *)
Definition stdint_name (t : int_type) : bytes :=
  str (if is_signed t then "int" else "uint") ++ fmt_int (width t) ++ str "_t".

Lemma type_name_stdint t : type_name t = stdint_name t.
Proof. by destruct t; vm_compute. Qed.

(** What the description of a field says. *)
Definition field_json `{JsonC} (f : field) : json :=
  match f with
  | FInt t => JString (stdint_name t)
  | FBuf => JString (str "buffer")
  | FBin len => JObject (json_object_object_add [] (str "binary") (JInt len))
  end.

(** ** Lemmas *)

Lemma wrap_in_range t z : in_range t (wrap t z).
Proof.
  unfold wrap, in_range. destruct t; cbn [is_signed width];
    match goal with |- context [?a mod ?b] => pose proof (Z.mod_pos_bound a b ltac:(lia)) end; lia.
Qed.

Lemma wrap_id t z : in_range t z → wrap t z = z.
Proof.
  unfold wrap, in_range. destruct t; cbn [is_signed width]; intros Hz; rewrite Z.mod_small; lia.
Qed.

(** What the reader reports of a number that was put in a field of type
    [t]. *)
Definition seen (t : int_type) (z : Z) : Z := wrap S64 (wrap t z).

Lemma seen_id t z : in_range S64 z → in_range t z ∨ t = U64 → seen t z = z.
Proof.
  unfold seen. intros Hz [Ht|Ht].
  - rewrite (wrap_id t) by done. by apply wrap_id.
  - subst t. unfold wrap, in_range in *. cbn [is_signed width] in *.
    rewrite Zplus_mod_idemp_l. rewrite Z.mod_small; lia.
Qed.

Lemma seen_congr t z : seen t z mod 2 ^ width t = z mod 2 ^ width t.
Proof.
  unfold seen. assert (∀ t z, wrap t z mod 2 ^ width t = z mod 2 ^ width t) as Hw.
  { intros t0 z0. unfold wrap. destruct (is_signed t0).
    - rewrite Zminus_mod_idemp_l. f_equal. lia.
    - apply Z.mod_mod. destruct t0; discriminate. }
  destruct (decide (width t = 64)) as [H64|H64].
  - rewrite <-(Hw t z). replace (width t) with (width S64). apply Hw.
  - rewrite (wrap_id S64); [apply Hw|]. pose proof (wrap_in_range t z) as Hr.
    unfold in_range in *. destruct t; cbn [is_signed width] in *; lia.
Qed.

Lemma skip_dot_length fmt : (length (skip_dot fmt) <= length fmt)%nat.
Proof. induction fmt as [|c fmt IH]; simpl; [done|]. case_decide; lia. Qed.

Lemma skip_dot_app s r : "."%byte ∉ s → skip_dot (s ++ "."%byte :: r) = r.
Proof.
  induction s as [|c s IH]; intros Hs; simpl; [done|].
  apply not_elem_of_cons in Hs as [? Hs]. rewrite decide_False by congruence. auto.
Qed.

Lemma bin_fmt len r :
  0 < len < 2 ^ 31 →
  atoi ((fmt_int len ++ ["."%byte]) ++ r) = len ∧
  skip_dot ((fmt_int len ++ ["."%byte]) ++ r) = r.
Proof.
  intros Hl. rewrite <-app_assoc. change (["."%byte] ++ r) with ("."%byte :: r).
  assert (0 < len < 10 ^ Z.of_nat 10) as Hb
    by (change (10 ^ Z.of_nat 10) with 10000000000; lia).
  split; [by apply (atoi_fmt_int 10)|]. apply skip_dot_app.
  apply (fmt_int_no _ 10); [lia|lia|]. by intros [Hd _]; apply Hd.
Qed.

Section chars.
Context `{Urpc}.

Lemma urpc_int_inj t1 t2 : urpc_int t1 = urpc_int t2 → t1 = t2.
Proof.
  pose proof urpc_distinct as Hnd. simpl in Hnd.
  repeat (apply NoDup_cons in Hnd as [? Hnd]). rewrite ?not_elem_of_cons in *.
  intros Heq. destruct t1, t2; try reflexivity; exfalso; destruct_and?; congruence.
Qed.

Lemma urpc_other t : urpc_int t ≠ URPC_BUF ∧ urpc_int t ≠ URPC_BIN ∧ URPC_BUF ≠ URPC_BIN.
Proof.
  pose proof urpc_distinct as Hnd. simpl in Hnd.
  repeat (apply NoDup_cons in Hnd as [? Hnd]). rewrite ?not_elem_of_cons in *.
  destruct_and?. destruct t; split_and!; congruence.
Qed.

Lemma int_case_int t : int_case (urpc_int t) = Some t.
Proof.
  unfold int_case. destruct t; repeat (rewrite decide_False by (by intros ?%urpc_int_inj));
    by rewrite decide_True.
Qed.

Lemma int_case_other c : (∀ t, c ≠ urpc_int t) → int_case c = None.
Proof. intros Hc. unfold int_case. repeat (case_decide; [exfalso; by eapply Hc|]). done. Qed.

Lemma int_case_buf : int_case URPC_BUF = None.
Proof. apply int_case_other. intros t. pose proof (urpc_other t). naive_solver. Qed.

Lemma int_case_bin : int_case URPC_BIN = None.
Proof. apply int_case_other. intros t. pose proof (urpc_other t). naive_solver. Qed.

Lemma bin_not_buf : URPC_BIN ≠ URPC_BUF.
Proof. pose proof (urpc_other U8). naive_solver. Qed.

Lemma fmt_of_cons f fs : fmt_of (f :: fs) = field_fmt f ++ fmt_of fs.
Proof. done. Qed.

Lemma field_fmt_length f : (1 <= length (field_fmt f))%nat.
Proof. destruct f; simpl; lia. Qed.
End chars.

Section proofs.
Context `{JsonC} `{!JsonCLaws} `{JsonAlloc} `{Urpc} `{AuraBuffer ab} `{!AuraBufferLaws ab}.
Hypothesis Halloc : ∀ j, is_Some (json_new j).

Lemma json_new_eq j : json_new j = Some j.
Proof. destruct (Halloc j) as [j' Hj]. rewrite Hj. by apply json_new_Some in Hj as ->. Qed.

Lemma format_step_spec f r :
  wf_field f →
  ∃ c s, field_fmt f ++ r = c :: s ∧ format_step c s = Ok (Some (field_json f), r).
Proof.
  intros Hf. destruct f as [t| |len];
    [exists (urpc_int t), r|exists URPC_BUF, r|exists URPC_BIN, ((fmt_int len ++ ["."%byte]) ++ r)];
    (split; [reflexivity|]); unfold format_step.
  - by rewrite int_case_int, json_new_eq, type_name_stdint.
  - by rewrite int_case_buf, decide_True, json_new_eq.
  - rewrite int_case_bin, decide_False, decide_True by (done || apply bin_not_buf).
    destruct (bin_fmt len r Hf) as [-> ->]. destruct (Z.eqb_spec len 0) as [->|]; [simpl in Hf; lia|].
    by rewrite !json_new_eq.
Qed.

Lemma format_loop_spec fs l fuel :
  Forall wf_field fs → (length (fmt_of fs) < fuel)%nat →
  format_loop fuel (fmt_of fs) (Some (JArray l)) = Ok (Some (JArray (l ++ (field_json <$> fs)))).
Proof.
  revert l fuel. induction fs as [|f fs IH]; intros l fuel Hwf Hf; destruct fuel as [|fuel];
    try (simpl in Hf; lia).
  - simpl. by rewrite app_nil_r.
  - apply Forall_cons in Hwf as [Hwf1 Hwf]. rewrite fmt_of_cons in *.
    destruct (format_step_spec f (fmt_of fs) Hwf1) as (c & s & Heq & Hs).
    pose proof (field_fmt_length f). rewrite length_app in Hf.
    rewrite Heq. cbn [format_loop]. rewrite Hs, bind_Ok. cbn [array_add deref].
    unfold array_add. cbn [deref]. rewrite !bind_Ok. cbn [json_object_array_add default].
    rewrite IH by (done || lia). simpl. by rewrite <-app_assoc.
Qed.

(** *** Reading the arguments *)

(** The element of the array a field takes, if it takes it. *)
Definition put_datum (f : field) (v : json) : option (list datum) :=
  match f with
  | FInt t => match v with JInt z => Some [DInt t (wrap t z)] | _ => None end
  | FBuf => None
  | FBin len =>
      match v with
      | JString _ =>
          let s := json_object_to_json_string v in
          Some [DBin (take (Z.to_nat (Z.min (Z.of_nat (length s)) len)) s)]
      | _ => Some []
      end
  end.

Fixpoint put_all (fs : list field) (vs : list json) (i : nat) : list datum * bool :=
  match fs with
  | [] => ([], true)
  | f :: fs =>
      match put_datum f (default JNull (vs !! i)) with
      | None => ([], false)
      | Some d => let '(ds, ok) := put_all fs vs (S i) in (d ++ ds, ok)
      end
  end.

Definition int64_json (v : json) : Prop := match v with JInt z => in_range S64 z | _ => True end.

Lemma get_idx vs i : json_object_array_get_idx (JArray vs) (Z.of_nat i) = default JNull (vs !! i).
Proof. unfold json_object_array_get_idx. destruct (Z.ltb_spec (Z.of_nat i) 0); [lia|]. by rewrite Nat2Z.id. Qed.

Lemma int64_lookup vs i : Forall int64_json vs → int64_json (default JNull (vs !! i)).
Proof.
  intros Hv. destruct (vs !! i) eqn:E; [|done]. simpl.
  rewrite Forall_forall in Hv. apply Hv. by eapply list_elem_of_lookup_2.
Qed.

Lemma put_step_spec f r vs i buf :
  wf_field f → f ≠ FBuf → Forall int64_json vs →
  ∃ c s, field_fmt f ++ r = c :: s ∧
    match put_datum f (default JNull (vs !! i)) with
    | None => put_step c s (JArray vs) (Z.of_nat i) buf = Ok (None, buf)
    | Some d => ∃ buf', put_step c s (JArray vs) (Z.of_nat i) buf =
        Ok (Some (r, Z.of_nat (S i)), buf') ∧ written buf' = written buf ++ d
    end.
Proof.
  intros Hf Hne Hv. pose proof (int64_lookup vs i Hv) as Hi.
  destruct f as [t| |len];
    [exists (urpc_int t), r|done|exists URPC_BIN, ((fmt_int len ++ ["."%byte]) ++ r)];
    (split; [reflexivity|]); unfold put_step, put_datum;
    rewrite get_idx; replace (Z.of_nat i + 1) with (Z.of_nat (S i)) by lia.
  - rewrite int_case_int. destruct (default JNull (vs !! i)); try done. simpl in Hi.
    rewrite get_int64_int by done. eexists. split; [reflexivity|]. apply put_written.
  - rewrite int_case_bin, decide_False, decide_True by (done || apply bin_not_buf).
    destruct (bin_fmt len r Hf) as [-> ->].
    destruct (default JNull (vs !! i)) as [| | | | | |s];
      try (eexists; split; [reflexivity|by rewrite app_nil_r]).
    cbn [json_object_is_type]. unfold json_object_is_type. simpl bool_decide. cbv iota.
    match goal with |- context [if ?b <? 0 then _ else _] => destruct (Z.ltb_spec b 0) end;
      [simpl in Hf; lia|]. eexists. split; [reflexivity|]. apply put_bin_written.
Qed.

Lemma put_loop_spec fs vs i fuel buf :
  Forall wf_field fs → FBuf ∉ fs → Forall int64_json vs → (length (fmt_of fs) < fuel)%nat →
  ∃ buf', put_loop fuel (fmt_of fs) (JArray vs) (Z.of_nat i) buf =
      Ok (if (put_all fs vs i).2 then 0 else -1, buf') ∧
    written buf' = written buf ++ (put_all fs vs i).1.
Proof.
  revert i fuel buf. induction fs as [|f fs IH]; intros i fuel buf Hwf Hb Hv Hf;
    destruct fuel as [|fuel]; try (simpl in Hf; lia).
  - exists buf. simpl. by rewrite app_nil_r.
  - apply Forall_cons in Hwf as [Hwf1 Hwf]. apply not_elem_of_cons in Hb as [Hb1 Hb].
    rewrite fmt_of_cons in *.
    destruct (put_step_spec f (fmt_of fs) vs i buf Hwf1 (not_eq_sym Hb1) Hv) as (c & s & Heq & Hs).
    pose proof (field_fmt_length f). rewrite length_app in Hf.
    rewrite Heq. cbn [put_loop put_all]. destruct (put_datum _ _) as [d|].
    + destruct Hs as (buf1 & Hs & Hw). rewrite Hs, bind_Ok. cbv beta iota.
      destruct (IH (S i) fuel buf1) as (buf' & Hr & Hw'); [done|done|done|lia|].
      rewrite Hr. exists buf'. destruct (put_all fs vs (S i)) as [ds ok]. simpl in *.
      split; [done|]. by rewrite Hw', Hw, <-app_assoc.
    + rewrite Hs, bind_Ok. exists buf. simpl. by rewrite app_nil_r.
Qed.

(** *** Reporting the results *)

Lemma fetch_loop_ints tzs l r fuel buf :
  unread buf = (uncurry DInt <$> tzs) ++ r →
  (length (fmt_of (FInt <$> tzs.*1)) < fuel)%nat →
  ∃ buf', fetch_loop fuel (fmt_of (FInt <$> tzs.*1)) buf (JArray l) =
    Ok (JArray (l ++ ((λ tz, JInt (wrap S64 tz.2)) <$> tzs)), buf') ∧ unread buf' = r.
Proof.
  revert l fuel buf. induction tzs as [|[t z] tzs IH]; intros l fuel buf Hu Hf;
    destruct fuel as [|fuel]; try (simpl in Hf; lia).
  - exists buf. simpl in *. by rewrite app_nil_r.
  - rewrite fmap_cons, fmap_cons, fmt_of_cons in *. cbn [field_fmt fst app fetch_loop] in *.
    unfold fetch_step. rewrite int_case_int. cbn [fmap list_fmap uncurry app] in Hu.
    apply get_unread in Hu as (buf1 & -> & Hu). rewrite json_new_eq, bind_Ok. cbn [deref].
    rewrite bind_Ok. cbn [json_object_array_add].
    destruct (IH (l ++ [JInt (wrap S64 z)]) fuel buf1 Hu) as (buf' & -> & ?);
      [simpl in Hf; lia|]. exists buf'. split; [|done]. by rewrite <-app_assoc.
Qed.

Lemma put_all_ints ts zs pre :
  length ts = length zs →
  put_all (FInt <$> ts) (pre ++ (JInt <$> zs)) (length pre) =
    (uncurry DInt <$> zip_with (λ t z, (t, wrap t z)) ts zs, true).
Proof.
  revert zs pre. induction ts as [|t ts IH]; intros [|z zs] pre Hl; simplify_eq/=; [done|].
  rewrite list_lookup_middle by done. simpl.
  specialize (IH zs (pre ++ [JInt z]) ltac:(lia)).
  rewrite length_app, <-app_assoc in IH. simpl in IH.
  replace (length pre + 1)%nat with (S (length pre)) in IH by lia. by rewrite IH.
Qed.
End proofs.

(** ** Termination *)

Section termination.
Context `{JsonC} `{JsonAlloc} `{Urpc} `{AuraBuffer ab}.

Lemma step_shrinks fmt fmt' c : fmt' = fmt ∨ fmt' = skip_dot fmt →
  (length fmt' < length (c :: fmt))%nat.
Proof. pose proof (skip_dot_length fmt). intros [->| ->]; simpl; lia. Qed.

Lemma format_step_rest c fmt :
  match format_step c fmt with
  | Ok (_, fmt') => fmt' = fmt ∨ fmt' = skip_dot fmt
  | Fault f => f ≠ OutOfFuel
  end.
Proof. unfold format_step. repeat case_match; simplify_eq; auto. Qed.

Lemma format_loop_fuel fuel fmt ret :
  (length fmt < fuel)%nat → format_loop fuel fmt ret ≠ Fault OutOfFuel.
Proof.
  revert fmt ret. induction fuel as [|fuel IH]; intros fmt ret Hf; [lia|].
  destruct fmt as [|c fmt]; [done|]. cbn [format_loop].
  pose proof (format_step_rest c fmt) as Hr. destruct (format_step c fmt) as [[tmp fmt']|f];
    [|by intros [= ->]]. rewrite bind_Ok. pose proof (step_shrinks fmt fmt' c Hr).
  unfold array_add. destruct ret as [ret|]; [|done]. cbn [deref]. rewrite !bind_Ok.
  apply IH. simpl in *. lia.
Qed.

Lemma fetch_step_rest c fmt buf :
  match fetch_step c fmt buf with
  | Ok (_, fmt', _) => fmt' = fmt ∨ fmt' = skip_dot fmt
  | Fault f => f ≠ OutOfFuel
  end.
Proof. unfold fetch_step. repeat case_match; simplify_eq; auto. Qed.

Lemma fetch_loop_fuel fuel fmt buf ret :
  (length fmt < fuel)%nat → fetch_loop fuel fmt buf ret ≠ Fault OutOfFuel.
Proof.
  revert fmt buf ret. induction fuel as [|fuel IH]; intros fmt buf ret Hf; [lia|].
  destruct fmt as [|c fmt]; [done|]. cbn [fetch_loop].
  pose proof (fetch_step_rest c fmt buf) as Hr.
  destruct (fetch_step c fmt buf) as [[[tmp fmt'] buf']|f]; [|by intros [= ->]].
  rewrite bind_Ok. pose proof (step_shrinks fmt fmt' c Hr).
  destruct tmp as [tmp|]; [|done]. cbn [deref]. rewrite bind_Ok. apply IH. simpl in *. lia.
Qed.

Lemma put_step_rest c fmt js i buf :
  match put_step c fmt js i buf with
  | Ok (Some (fmt', _), _) => fmt' = fmt ∨ fmt' = skip_dot fmt
  | Ok (None, _) => True
  | Fault f => f ≠ OutOfFuel
  end.
Proof.
  unfold put_step. destruct (int_case c); [destruct (json_object_is_type_log _ _); auto|].
  destruct (decide (c = URPC_BUF)); [done|]. destruct (decide (c = URPC_BIN)); [|auto]. cbv zeta.
  destruct (json_object_is_type _ json_type_int); [cbn; auto|].
  destruct (json_object_is_type _ json_type_string); [|cbn; auto].
  by destruct (_ <? 0); cbn; auto.
Qed.

Lemma put_loop_fuel fuel fmt js i buf :
  (length fmt < fuel)%nat → put_loop fuel fmt js i buf ≠ Fault OutOfFuel.
Proof.
  revert fmt i buf. induction fuel as [|fuel IH]; intros fmt i buf Hf; [lia|].
  destruct fmt as [|c fmt]; [done|]. cbn [put_loop].
  pose proof (put_step_rest c fmt js i buf) as Hr.
  destruct (put_step c fmt js i buf) as [[[[fmt' i']|] buf']|f]; [|done|by intros [= ->]].
  rewrite bind_Ok. pose proof (step_shrinks fmt fmt' c Hr). apply IH. simpl in *. lia.
Qed.
End termination.

(** ** Theorems *)

Section theorems.
Context `{JsonC} `{!JsonCLaws} `{JsonAlloc} `{Urpc} `{AuraBuffer ab} `{!AuraBufferLaws ab}.

(** C35: [ahttpd_format_to_json] describes a format field by field, in order:
    the name of the type of each integer as <stdint.h> makes it from the
    signedness and the width, "buffer" for a buffer, the size of each blob. *)
Theorem format_to_json_correct fs :
  (∀ j, is_Some (json_new j)) → Forall wf_field fs →
  ahttpd_format_to_json (Some (fmt_of fs)) = Ok (Some (JArray (field_json <$> fs))).
Proof.
  intros Ha Hwf. unfold ahttpd_format_to_json. rewrite json_new_eq by done.
  rewrite format_loop_spec by (done || lia). done.
Qed.

(** C15: The integers of a call survive the way to the wire and back: values
    put by [ahttpd_buffer_from_json] are reported by [ahttpd_buffer_to_json]
    in order, reduced to the width of their field, and unchanged when they
    fit it; a 64-bit field is lossless for every JSON integer, although it
    goes through the unsigned type. *)
Theorem serdes_roundtrip ts zs buf :
  (∀ j, is_Some (json_new j)) → length ts = length zs → Forall (in_range S64) zs →
  written buf = [] →
  ∃ buf1 buf2,
    ahttpd_buffer_from_json buf (JArray (JInt <$> zs)) (Some (fmt_of (FInt <$> ts))) =
      Ok (0, buf1) ∧
    ahttpd_buffer_to_json (aura_buffer_rewind buf1) (Some (fmt_of (FInt <$> ts))) =
      Ok (Some (JArray (JInt <$> zip_with seen ts zs)), buf2) ∧
    (∀ i t z, ts !! i = Some t → zs !! i = Some z →
       seen t z mod 2 ^ width t = z mod 2 ^ width t ∧
       (in_range t z ∨ t = U64 → seen t z = z)).
Proof.
  intros Ha Hl Hz Hw.
  set (tzs := zip_with (λ t z, (t, wrap t z)) ts zs).
  assert (tzs.*1 = ts) as Hts.
  { subst tzs. clear -Hl. revert zs Hl. induction ts as [|t ts IH]; intros [|z zs] Hl; simplify_eq/=;
      [done|]. f_equal. apply IH. lia. }
  assert (JInt <$> zip_with seen ts zs = (λ tz, JInt (wrap S64 tz.2)) <$> tzs) as Hseen.
  { subst tzs. clear. revert zs. induction ts as [|t ts IH]; intros [|z zs]; simpl; [done..|].
    by rewrite IH. }
  destruct (put_loop_spec (FInt <$> ts) (JInt <$> zs) 0 (S (length (fmt_of (FInt <$> ts)))) buf)
    as (buf1 & Hp & Hw1).
  - apply Forall_fmap, Forall_true. done.
  - intros (t & ? & _)%list_elem_of_fmap. done.
  - apply Forall_fmap. by eapply Forall_impl.
  - lia.
  - pose proof (put_all_ints ts zs [] Hl) as Hpa. cbn [app length] in Hpa.
    rewrite Hpa in Hp, Hw1. cbn [fst snd] in Hp, Hw1.
    destruct (fetch_loop_ints Ha tzs [] [] (S (length (fmt_of (FInt <$> ts))))
      (aura_buffer_rewind buf1)) as (buf2 & Hf & _).
    { by rewrite rewind_unread, Hw1, Hw, app_nil_r. }
    { rewrite Hts. lia. }
    exists buf1, buf2. split_and!.
    + exact Hp.
    + unfold ahttpd_buffer_to_json. rewrite json_new_eq by done. rewrite Hts in Hf.
      rewrite Hf, Hseen. done.
    + intros i t z _ Hi. split; [apply seen_congr|]. apply seen_id.
      rewrite Forall_forall in Hz. apply Hz. by eapply list_elem_of_lookup_2.
Qed.

(** C16: [ahttpd_buffer_from_json] takes the elements of the array in the
    order of the fields and stops with -1 at the first integer field whose
    element is missing or not an integer; what came before stays in the
    buffer.  Elements in excess are ignored.  A blob takes a string, cut to
    its size, and no other element. *)
Theorem buffer_from_json_correct buf vs fs :
  Forall wf_field fs → FBuf ∉ fs → Forall int64_json vs →
  ∃ buf', ahttpd_buffer_from_json buf (JArray vs) (Some (fmt_of fs)) =
      Ok (if (put_all fs vs 0).2 then 0 else -1, buf') ∧
    written buf' = written buf ++ (put_all fs vs 0).1.
Proof.
  intros Hwf Hb Hv.
  destruct (put_loop_spec fs vs 0 (S (length (fmt_of fs))) buf Hwf Hb Hv ltac:(lia))
    as (buf' & Hp & Hw). exists buf'. by split.
Qed.

(** A method with a buffer argument cannot be called: if the arguments
    before it are accepted, the server aborts in [BUG]. *)
Theorem buffer_argument_aborts buf vs ts fs :
  Forall int64_json vs → (put_all (FInt <$> ts) vs 0).2 = true →
  ahttpd_buffer_from_json buf (JArray vs) (Some (fmt_of ((FInt <$> ts) ++ FBuf :: fs))) =
    Fault BugAbort.
Proof.
  intros Hv Hok. unfold ahttpd_buffer_from_json. cbn [negb json_object_is_type_log].
  assert (∀ i fuel buf, (length (fmt_of ((FInt <$> ts) ++ FBuf :: fs)) < fuel)%nat →
    (put_all (FInt <$> ts) vs i).2 = true →
    put_loop fuel (fmt_of ((FInt <$> ts) ++ FBuf :: fs)) (JArray vs) (Z.of_nat i) buf =
      Fault BugAbort) as Hloop; [|by apply (Hloop O); [lia|]].
  clear buf Hok. induction ts as [|t ts IH]; intros i fuel buf Hf Hok;
    destruct fuel as [|fuel]; try (simpl in Hf; lia).
  - cbn [fmap list_fmap app]. rewrite fmt_of_cons. cbn [field_fmt app put_loop].
    unfold put_step. by rewrite int_case_buf, decide_True.
  - cbn [fmap list_fmap app] in *. rewrite fmt_of_cons in *.
    destruct (put_step_spec (FInt t) (fmt_of ((FInt <$> ts) ++ FBuf :: fs)) vs i buf I
      ltac:(done) Hv) as (c & s & Heq & Hs).
    cbn [put_all] in Hok. rewrite Heq. cbn [put_loop].
    destruct (put_datum (FInt t) (default JNull (vs !! i))) as [d|]; [|done].
    destruct Hs as (buf1 & -> & _). rewrite bind_Ok. cbv beta iota.
    apply IH; [rewrite length_app in Hf; simpl in *; lia|].
    by destruct (put_all (FInt <$> ts) vs (S i)).
Qed.
End theorems.

(** C36: Every loop of the serialiser ends on every format, well-formed or not:
    each round consumes at least the type character. *)
Theorem serdes_terminates `{JsonC} `{JsonAlloc} `{Urpc} `{AuraBuffer ab}
    (buf : ab) (js : json) (fmt : option bytes) :
  ahttpd_format_to_json fmt ≠ Fault OutOfFuel ∧
  ahttpd_buffer_to_json buf fmt ≠ Fault OutOfFuel ∧
  ahttpd_buffer_from_json buf js fmt ≠ Fault OutOfFuel.
Proof.
  unfold ahttpd_format_to_json, ahttpd_buffer_to_json, ahttpd_buffer_from_json. split_and!.
  - destruct fmt; [apply format_loop_fuel; lia|done].
  - destruct (json_new _) as [ret|]; [|done]. destruct fmt as [fmt|]; [|done].
    pose proof (fetch_loop_fuel (S (length fmt)) fmt buf ret ltac:(lia)).
    destruct (fetch_loop _ _ _ _); simpl; congruence.
  - case_match; [done|]. destruct fmt; [apply put_loop_fuel; lia|done].
Qed.

(** ** Witnesses *)

Module SerdesRun.
#[export] Program Instance ref_urpc : Urpc := {|
  urpc_int t :=
    match t with
    | U8 => "1"%byte | U16 => "2"%byte | U32 => "3"%byte | U64 => "4"%byte
    | S8 => "7"%byte | S16 => "8"%byte | S32 => "9"%byte | S64 => "0"%byte
    end;
  URPC_BUF := "b"%byte;
  URPC_BIN := "s"%byte
|}.
Next Obligation. decide_vm. Qed.

Record wire := { wr : list datum; rd : list datum }.

#[export] Instance ref_wire : AuraBuffer wire := {
  aura_buffer_get t b :=
    match rd b with
    | DInt _ z :: r => (z, {| wr := wr b; rd := r |})
    | _ => (0, b)
    end;
  aura_buffer_put t b z := {| wr := wr b ++ [DInt t z]; rd := rd b |};
  aura_buffer_put_bin b s := {| wr := wr b ++ [DBin s]; rd := rd b |};
  aura_buffer_rewind b := {| wr := wr b; rd := wr b |}
}.

#[export] Program Instance ref_wire_laws : AuraBufferLaws wire := {|
  written := wr; unread := rd
|}.
Next Obligation. done. Qed.
Next Obligation. done. Qed.
Next Obligation. done. Qed.
Next Obligation. intros t z r b Hb. simpl in *. rewrite Hb. by eexists. Qed.

Definition empty : wire := {| wr := []; rd := [] |}.
End SerdesRun.

Import RefJson SerdesRun.

Lemma format_to_json_correct_witness :
  ahttpd_format_to_json (Some (str "1s16.b23478901")) =
    Ok (Some (JArray [JString (str "uint8_t"); JObject [(str "binary", JInt 16)];
                      JString (str "buffer");
                      JString (str "uint16_t"); JString (str "uint32_t"); JString (str "uint64_t");
                      JString (str "int8_t"); JString (str "int16_t"); JString (str "int32_t");
                      JString (str "int64_t"); JString (str "uint8_t")])).
Proof.
  exact (@format_to_json_correct ref_json ref_alloc ref_urpc
    [FInt U8; FBin 16; FBuf; FInt U16; FInt U32; FInt U64; FInt S8; FInt S16; FInt S32; FInt S64;
     FInt U8] (λ j, ex_intro _ j eq_refl)
    ltac:(repeat constructor)).
Defined.

Lemma serdes_roundtrip_witness :
  ∃ buf1 buf2,
    ahttpd_buffer_from_json empty (JArray (JInt <$> [300; -5; -1]))
      (Some (fmt_of (FInt <$> [U8; S8; U64]))) = Ok (0, buf1) ∧
    ahttpd_buffer_to_json (aura_buffer_rewind buf1) (Some (fmt_of (FInt <$> [U8; S8; U64]))) =
      Ok (Some (JArray (JInt <$> [44; -5; -1])), buf2) ∧
    (∀ i t z, [U8; S8; U64] !! i = Some t → [300; -5; -1] !! i = Some z →
       seen t z mod 2 ^ width t = z mod 2 ^ width t ∧
       (in_range t z ∨ t = U64 → seen t z = z)).
Proof.
  apply (@serdes_roundtrip ref_json ref_json_laws ref_alloc ref_urpc wire ref_wire ref_wire_laws
    [U8; S8; U64] [300; -5; -1] empty).
  - intros j. exists j. reflexivity.
  - reflexivity.
  - repeat constructor; vm_compute; discriminate.
  - reflexivity.
Defined.

Lemma buffer_from_json_correct_witness :
  ∃ buf', ahttpd_buffer_from_json empty (JArray [JInt 7; JString (str "hi"); JBool true])
      (Some (fmt_of [FInt U8; FBin 3; FInt U16])) = Ok (-1, buf') ∧
    wr buf' = [DInt U8 7; DBin [x22; "h"%byte; "i"%byte]].
Proof.
  apply (@buffer_from_json_correct ref_json ref_json_laws ref_urpc wire ref_wire ref_wire_laws
    empty [JInt 7; JString (str "hi"); JBool true] [FInt U8; FBin 3; FInt U16]).
  - repeat constructor.
  - intros Hin. repeat (apply elem_of_cons in Hin as [Hin|Hin]; [discriminate|]).
    by apply not_elem_of_nil in Hin.
  - repeat constructor; vm_compute; discriminate.
Defined.

Lemma buffer_argument_aborts_witness :
  ahttpd_buffer_from_json empty (JArray [JInt 7]) (Some (fmt_of ((FInt <$> [U8]) ++ [FBuf]))) =
    Fault BugAbort.
Proof.
  apply (@buffer_argument_aborts ref_json ref_json_laws ref_urpc wire ref_wire ref_wire_laws
    empty [JInt 7] [U8] []).
  - repeat constructor; vm_compute; discriminate.
  - reflexivity.
Defined.
