(* ===== verification/CallResource.v ===== *)
(** * call_resource.c: calls in progress and their temporary resources

    A call of a method of the node lives in a [struct ahttpd_pending_call]:
    it is created by a request, completed by aura, read through a temporary
    path (/pending/<id>) and freed when a connection that saw its result
    closes.  The state is explicit: the heap of blocks (an address that is
    not in the map is free), the two lists of [struct nodefs_data], the
    callback table, the callback each connection runs when it closes (libevent
    keeps one, setting it again replaces it), the open connections, the calls
    aura has accepted and not completed, and the replies sent on each
    connection.

    [step] is one event of the event loop; [run] a sequence of them.  The
    invariant [calls_ok] ties the paths, the lists and the heap together in
    every reachable state; [resources_ok] adds that every call has an id and a
    path of its own, which holds until the [int] that counts the calls wraps
    around.  The lifetime errors of the code are theorems
    about sequences of events. *)

From S2P Require Import Prelude CLib Json Evhttp Upload Serdes.
From Stdlib Require Import Strings.Byte.

(** ** Data *)

(** The fields of [struct aura_object] the program reads. *)
Record aura_object := {
  o_name : bytes;
  o_id : Z;
  object_is_event : bool;
  object_is_method : bool;
  arg_fmt : option bytes;
  ret_fmt : option bytes;
  arglen : Z
}.

(** The callbacks of a node mountpoint and their arguments. *)
Inductive node_cb :=
  | CbReadout (res : nat)
  | CbCallSync
  | CbCallAsync
  | CbExports
  | CbEvents
  | CbStatus
  | CbOther (tag : nat).

#[export] Instance node_cb_eq_decision : EqDecision node_cb.
Proof. solve_decision. Defined.

(** [request] is the connection of the request the call was made by. *)
Record pending_call := {
  pc_callid : Z;
  pc_o : aura_object;
  pc_path : bytes;
  pc_is_async : bool;
  pc_request : nat;
  pc_retbuf : option json;
  pc_status : bytes
}.

(** The part of [struct nodefs_data] and of the server the calls live in. *)
Record node_state (tab : Type) := {
  calls_heap : gmap nat pending_call;
  next_addr : nat;
  pending_call_list : list nat;
  gc_call_list : list nat;
  callid : Z;
  table : tab;
  closecb : gmap nat nat;
  conns : gset nat;
  in_flight : gset nat;
  out : list (nat * http_call)
}.
Arguments calls_heap {tab} _.
Arguments next_addr {tab} _.
Arguments pending_call_list {tab} _.
Arguments gc_call_list {tab} _.
Arguments callid {tab} _.
Arguments table {tab} _.
Arguments closecb {tab} _.
Arguments conns {tab} _.
Arguments in_flight {tab} _.
Arguments out {tab} _.

(** What aura does for a call: a buffer for the arguments, and whether the
    call is accepted (0) or refused. *)
Class AuraCalls (ab : Type) := {
  aura_buffer_request : Z → ab;
  aura_core_start_call : aura_object → ab → Z
}.

(** [list_del] of an entry that is in one of the lists. *)
Definition list_del (a : nat) (l : list nat) : list nat := List.filter (λ x, negb (x =? a)%nat) l.

Section calls.
Context `{JsonC} `{JsonAlloc} `{Malloc} `{Urpc} `{AuraBuffer ab} `{AuraCalls ab}.
Context `{CbTable tab node_cb}.
(** [mpoint->mountpoint] and [mpoint->fs->name]. *)
Context (mountpoint fs_name : bytes).
Notation state := (node_state tab).
Implicit Types (st : state).

Definition set_heap (m : gmap nat pending_call) st : state := {|
  calls_heap := m; next_addr := next_addr st; pending_call_list := pending_call_list st;
  gc_call_list := gc_call_list st; callid := callid st; table := table st;
  closecb := closecb st; conns := conns st; in_flight := in_flight st; out := out st |}.

Definition set_lists (p g : list nat) st : state := {|
  calls_heap := calls_heap st; next_addr := next_addr st; pending_call_list := p;
  gc_call_list := g; callid := callid st; table := table st;
  closecb := closecb st; conns := conns st; in_flight := in_flight st; out := out st |}.

Definition set_table (t : tab) st : state := {|
  calls_heap := calls_heap st; next_addr := next_addr st;
  pending_call_list := pending_call_list st; gc_call_list := gc_call_list st;
  callid := callid st; table := t;
  closecb := closecb st; conns := conns st; in_flight := in_flight st; out := out st |}.

Definition set_closecb (c : gmap nat nat) st : state := {|
  calls_heap := calls_heap st; next_addr := next_addr st;
  pending_call_list := pending_call_list st; gc_call_list := gc_call_list st;
  callid := callid st; table := table st;
  closecb := c; conns := conns st; in_flight := in_flight st; out := out st |}.

Definition set_conns (c : gset nat) st : state := {|
  calls_heap := calls_heap st; next_addr := next_addr st;
  pending_call_list := pending_call_list st; gc_call_list := gc_call_list st;
  callid := callid st; table := table st;
  closecb := closecb st; conns := c; in_flight := in_flight st; out := out st |}.

Definition set_in_flight (f : gset nat) st : state := {|
  calls_heap := calls_heap st; next_addr := next_addr st;
  pending_call_list := pending_call_list st; gc_call_list := gc_call_list st;
  callid := callid st; table := table st;
  closecb := closecb st; conns := conns st; in_flight := f; out := out st |}.

Definition set_callid (i : Z) st : state := {|
  calls_heap := calls_heap st; next_addr := next_addr st;
  pending_call_list := pending_call_list st; gc_call_list := gc_call_list st;
  callid := i; table := table st;
  closecb := closecb st; conns := conns st; in_flight := in_flight st; out := out st |}.

(** The calls a helper of utils.c makes on the request of a connection. *)
Definition reply (con : nat) (f : list http_call → list http_call) st : state := {|
  calls_heap := calls_heap st; next_addr := next_addr st;
  pending_call_list := pending_call_list st; gc_call_list := gc_call_list st;
  callid := callid st; table := table st;
  closecb := closecb st; conns := conns st; in_flight := in_flight st;
  out := out st ++ (pair con <$> f []) |}.

Definition get_call st (a : nat) : outcome pending_call :=
  deref UseAfterFree (calls_heap st !! a).

Definition set_retbuf (j : option json) (res : pending_call) : pending_call := {|
  pc_callid := pc_callid res; pc_o := pc_o res; pc_path := pc_path res;
  pc_is_async := pc_is_async res; pc_request := pc_request res;
  pc_retbuf := j; pc_status := pc_status res |}.

Definition set_status (s : bytes) (res : pending_call) : pending_call := {|
  pc_callid := pc_callid res; pc_o := pc_o res; pc_path := pc_path res;
  pc_is_async := pc_is_async res; pc_request := pc_request res;
  pc_retbuf := pc_retbuf res; pc_status := s |}.

Definition ahttpd_call_delete st (a : nat) : outcome state :=
  res ← get_call st a;
  let st := set_lists (list_del a (pending_call_list st)) (list_del a (gc_call_list st)) st in
  let st := set_table (evhttp_del_cb (table st) (pc_path res)) st in
  Ok (set_heap (delete a (calls_heap st)) st).

(** The message it logs reads the block too. *)
Definition conn_close_cb st (a : nat) : outcome state :=
  _ ← get_call st a;
  ahttpd_call_delete st a.

Definition resource_readout st (con : nat) (a : nat) : outcome state :=
  res ← get_call st a;
  match pc_retbuf res with
  | Some j =>
      let st := reply con (ahttpd_reply_with_json j) st in
      let st := set_lists (list_del a (pending_call_list st))
                          (list_del a (gc_call_list st) ++ [a]) st in
      let st := set_heap (<[a := set_status (str "dead") res]> (calls_heap st)) st in
      Ok (set_closecb (<[con := a]> (closecb st)) st)
  | None =>
      let tmp := JObject (json_object_object_add [] (str "status") (JString (pc_status res))) in
      Ok (reply con (ahttpd_reply_with_json tmp) st)
  end.

(** The result is not looked at; a NULL [retbuf] leaves out the data. *)
Definition call_result_to_json (result : Z) (o : aura_object) (retbuf : option ab)
    : outcome json :=
  match json_new (JObject []) with
  | None => Fault BugAbort
  | Some _ =>
      let ret := json_object_object_add [] (str "status") (JString (str "completed")) in
      match retbuf with
      | None => Ok (JObject ret)
      | Some buf =>
          r ← ahttpd_buffer_to_json buf (ret_fmt o);
          Ok (JObject (json_object_object_add ret (str "data") (default JNull r.1)))
      end
  end.

(** The request of a connection that is gone has been freed by libevent. *)
Definition call_completed_cb st (result : Z) (retbuf : option ab) (a : nat) : outcome state :=
  res ← get_call st a;
  j ← call_result_to_json result (pc_o res) retbuf;
  let res := set_retbuf (Some j) res in
  let st := set_heap (<[a:=res]> (calls_heap st)) st in
  if pc_is_async res then Ok st
  else if decide (pc_request res ∈ conns st) then
    let st := reply (pc_request res) (ahttpd_reply_with_json j) st in
    Ok (set_closecb (<[pc_request res := a]> (closecb st)) st)
  else Fault UseAfterFree.

(** [list_for_each_entry_safe] over both lists. *)
Fixpoint delete_calls (l : list nat) st : outcome state :=
  match l with
  | [] => Ok st
  | pos :: l => st ← ahttpd_call_delete st pos; delete_calls l st
  end.

Definition ahttpd_callresource_cleanup st : outcome state :=
  st ← delete_calls (pending_call_list st) st;
  delete_calls (gc_call_list st) st.

Definition pending_path (id : Z) : bytes := mountpoint ++ str "/pending/" ++ fmt_int id.

(** [callid] is an [int] that is incremented without a bound; past the largest
    [int] it wraps around, as it does on the platforms the server runs on. *)
Definition ahttpd_call_create st (con : nat) (o : aura_object) (args : json) (is_async : bool)
    : outcome state :=
  if negb (bool_decide (fs_name = str "node")) then Fault BugAbort
  else
    match malloc 80 with
    | None => Fault BugAbort
    | Some _ =>
        let buf := aura_buffer_request (arglen o) in
        r ← ahttpd_buffer_from_json buf args (arg_fmt o);
        let '(ret, buf) := r in
        if negb (ret =? 0) then
          Ok (reply con (λ l, l ++ [SendError 400 (str "Problem marshalling data")]) st)
        else
          let res := {| pc_callid := callid st; pc_o := o; pc_path := pending_path (callid st);
                        pc_is_async := is_async; pc_request := con;
                        pc_retbuf := None; pc_status := str "pending" |} in
          let st := set_callid (wrap S32 (callid st + 1)) st in
          if negb (aura_core_start_call o buf =? 0) then
            Ok (reply con (λ l, l ++ [SendError 500 (str "Failed to start aura call")]) st)
          else
            let a := next_addr st in
            let st := {| calls_heap := <[a:=res]> (calls_heap st); next_addr := S a;
                         pending_call_list := pending_call_list st ++ [a];
                         gc_call_list := gc_call_list st; callid := callid st;
                         table := (evhttp_set_cb (table st) (pc_path res) (CbReadout a)).2;
                         closecb := closecb st; conns := conns st;
                         in_flight := {[a]} ∪ in_flight st; out := out st |} in
            Ok (if is_async then reply con (ahttpd_reply_accepted (pc_path res)) st else st)
    end.

(** ** The event loop *)

(** A client connects, asks for a call (its arguments parsed already), asks
    for a path, or goes away; aura completes a call. *)
Inductive event :=
  | Connect (con : nat)
  | Call (con : nat) (o : aura_object) (args : json) (is_async : bool)
  | Get (con : nat) (path : bytes)
  | Close (con : nat)
  | Complete (a : nat) (result : Z) (retbuf : option ab).

(** Events that cannot happen (a request on a connection that is not open, the
    completion of a call that is not in flight) change nothing. *)
Definition step (e : event) st : outcome state :=
  match e with
  | Connect con => Ok (set_conns ({[con]} ∪ conns st) st)
  | Call con o args is_async =>
      if decide (con ∈ conns st) then ahttpd_call_create st con o args is_async else Ok st
  | Get con path =>
      if decide (con ∈ conns st) then
        match cb_find (table st) path with
        | Some (CbReadout a) => resource_readout st con a
        | _ => Ok st
        end
      else Ok st
  | Close con =>
      if decide (con ∈ conns st) then
        let cb := closecb st !! con in
        let st := set_closecb (delete con (closecb st)) (set_conns (conns st ∖ {[con]}) st) in
        match cb with Some a => conn_close_cb st a | None => Ok st end
      else Ok st
  | Complete a result retbuf =>
      if decide (a ∈ in_flight st)
      then call_completed_cb (set_in_flight (in_flight st ∖ {[a]}) st) result retbuf a
      else Ok st
  end.

Fixpoint run (es : list event) st : outcome state :=
  match es with [] => Ok st | e :: es => st ← step e st; run es st end.

(** How many calls the clients ask for. *)
Definition is_call (e : event) : bool := match e with Call _ _ _ _ => true | _ => false end.

Definition calls_in (es : list event) : Z := Z.of_nat (length (List.filter is_call es)).
End calls.

(** ** Paths, lists and heap agree *)

Lemma elem_of_list_del x a l : x ∈ list_del a l ↔ x ∈ l ∧ x ≠ a.
Proof.
  unfold list_del. rewrite !list_elem_of_In, filter_In, negb_true_iff, Nat.eqb_neq. done.
Qed.

Lemma list_del_app a l1 l2 : list_del a (l1 ++ l2) = list_del a l1 ++ list_del a l2.
Proof. apply List.filter_app. Qed.

Lemma NoDup_list_del a l : NoDup l → NoDup (list_del a l).
Proof.
  induction 1 as [|x l Hx _ IH]; simpl; [constructor|].
  destruct (negb (x =? a)%nat); [|done]. constructor; [|done].
  rewrite elem_of_list_del. tauto.
Qed.

Lemma list_del_not_in a l : a ∉ l → list_del a l = l.
Proof.
  induction l as [|x l IH]; intros Ha; [done|]. apply not_elem_of_cons in Ha as [? Ha].
  simpl. destruct (Nat.eqb_spec x a); [congruence|]. simpl. by rewrite IH.
Qed.

Section invariant.
Context `{JsonC} `{JsonAlloc} `{Malloc} `{Urpc} `{AuraBuffer ab} `{AuraCalls ab}.
Context `{CbTable tab node_cb} `{!CbTableLaws tab node_cb}.
Context (mountpoint fs_name : bytes).
Notation state := (node_state tab).
Notation ppath := (pending_path mountpoint).
Implicit Types (st : state).

Definition lists st : list nat := pending_call_list st ++ gc_call_list st.

(** In every state: the blocks are those in the lists, and a path leads to a
    block of that path. *)
Record calls_ok st : Prop := {
  heap_ok a res :
    calls_heap st !! a = Some res →
    (a < next_addr st)%nat ∧ pc_path res = ppath (pc_callid res) ∧ a ∈ lists st;
  table_ok p a :
    cb_find (table st) p = Some (CbReadout a) →
    ∃ res, calls_heap st !! a = Some res ∧ pc_path res = p;
  lists_ok a : a ∈ lists st → is_Some (calls_heap st !! a);
  lists_NoDup : NoDup (lists st)
}.

(** As long as the counter has not wrapped around: the path of every block
    leads to it, and the ids to come are free. *)
Record ids_ok st : Prop := {
  reach_ok a res :
    calls_heap st !! a = Some res →
    pc_callid res < callid st ∧ cb_find (table st) (pc_path res) = Some (CbReadout a);
  fresh_ok id : callid st <= id → cb_find (table st) (ppath id) = None
}.

Definition resources_ok st : Prop := calls_ok st ∧ ids_ok st.

Lemma pending_path_inj i j : ppath i = ppath j → i = j.
Proof.
  unfold pending_path. intros Hp. apply app_inv_head, app_inv_head in Hp.
  by apply fmt_int_inj.
Qed.

(** The parts of the state the invariants do not look at. *)
Lemma calls_ok_frame st st' :
  calls_ok st → calls_heap st' = calls_heap st → next_addr st' = next_addr st →
  pending_call_list st' = pending_call_list st → gc_call_list st' = gc_call_list st →
  table st' = table st → calls_ok st'.
Proof.
  intros [Hh Ht Hl Hn] Eh En Ep Eg Et.
  assert (lists st' = lists st) as El by (unfold lists; congruence).
  split; rewrite ?Eh, ?Et, ?En, ?El; done.
Qed.

Lemma ids_ok_frame st st' :
  ids_ok st → calls_heap st' = calls_heap st → callid st <= callid st' → table st' = table st →
  ids_ok st'.
Proof.
  intros [Hr Hf] Eh Ec Et. split; rewrite ?Eh, ?Et.
  - intros a res Ha. destruct (Hr a res Ha). split; [lia|done].
  - intros id Hid. apply Hf. lia.
Qed.

(** Changing what a block holds besides its id and path. *)
Lemma update_calls st a res res' :
  calls_ok st → calls_heap st !! a = Some res →
  pc_callid res' = pc_callid res → pc_path res' = pc_path res →
  calls_ok (set_heap (<[a:=res']> (calls_heap st)) st).
Proof.
  intros [Hh Ht Hl Hn] Ha Hid Hp. destruct (Hh a res Ha) as (? & ? & ?).
  split; simpl; try done.
  - intros x rx [[<- <-]|[Hx Hrx]]%lookup_insert_Some; [|by apply Hh].
    rewrite Hid, Hp. by split_and!.
  - intros p x Hpx. destruct (Ht p x Hpx) as (rx & Hrx & <-). destruct (decide (x = a)) as [->|Hne].
    + simplify_eq. exists res'. by rewrite lookup_insert_eq.
    + exists rx. by rewrite lookup_insert_ne.
  - intros x Hx. destruct (decide (x = a)) as [->|Hne].
    + rewrite lookup_insert_eq. by eexists.
    + rewrite lookup_insert_ne by done. by apply Hl.
Qed.

Lemma update_ids st a res res' :
  ids_ok st → calls_heap st !! a = Some res →
  pc_callid res' = pc_callid res → pc_path res' = pc_path res →
  ids_ok (set_heap (<[a:=res']> (calls_heap st)) st).
Proof.
  intros [Hr Hf] Ha Hid Hp. split; [|done]. simpl.
  intros x rx [[<- <-]|[Hx Hrx]]%lookup_insert_Some; [|by apply Hr].
  rewrite Hid, Hp. by apply Hr.
Qed.

Lemma delete_result st a st' :
  ahttpd_call_delete st a = Ok st' →
  ∃ res, calls_heap st !! a = Some res ∧
    st' = set_heap (delete a (calls_heap st))
            (set_table (evhttp_del_cb (table st) (pc_path res))
               (set_lists (list_del a (pending_call_list st)) (list_del a (gc_call_list st)) st)).
Proof.
  unfold ahttpd_call_delete, get_call. destruct (calls_heap st !! a) as [res|]; [|done].
  intros [= <-]. by exists res.
Qed.

Lemma delete_calls_inv st a st' :
  ahttpd_call_delete st a = Ok st' → calls_ok st → calls_ok st'.
Proof.
  intros (res & Ha & ->)%delete_result [Hh Ht Hl Hn]. split; simpl.
  - intros x rx [Hne Hx]%lookup_delete_Some. destruct (Hh x rx Hx) as (? & ? & Hin).
    split_and!; try done.
    unfold lists. simpl. rewrite <-list_del_app. apply elem_of_list_del. by split.
  - intros p x. rewrite del_cb_find. case_decide; [done|]. intros Hp.
    destruct (Ht p x Hp) as (rx & Hx & Hpx). exists rx. split; [|done].
    rewrite lookup_delete_ne; [done|]. intros ->. congruence.
  - unfold lists. simpl. rewrite <-list_del_app. intros x [Hin Hne]%elem_of_list_del.
    rewrite lookup_delete_ne by done. by apply Hl.
  - unfold lists. simpl. rewrite <-list_del_app. by apply NoDup_list_del.
Qed.

Lemma delete_ids st a st' :
  ahttpd_call_delete st a = Ok st' → ids_ok st → ids_ok st'.
Proof.
  intros (res & Ha & ->)%delete_result [Hr Hf]. destruct (Hr a res Ha) as [_ Hcb]. split; simpl.
  - intros x rx [Hne Hx]%lookup_delete_Some. destruct (Hr x rx Hx) as [? Hcx]. split; [done|].
    rewrite del_cb_find, decide_False; [done|]. intros Heq. rewrite Heq in Hcb. congruence.
  - intros id Hid. rewrite del_cb_find. case_decide; [done|]. by apply Hf.
Qed.

(** Moving a block to the end of the second list. *)
Lemma move_calls st a :
  calls_ok st → a ∈ lists st →
  calls_ok (set_lists (list_del a (pending_call_list st))
                      (list_del a (gc_call_list st) ++ [a]) st).
Proof.
  intros [Hh Ht Hl Hn] Ha.
  assert (∀ x, x ∈ list_del a (pending_call_list st) ++ list_del a (gc_call_list st) ++ [a] ↔
    x ∈ lists st) as Hiff.
  { intros x. rewrite app_assoc, <-list_del_app, elem_of_app, elem_of_list_del,
      list_elem_of_singleton. fold (lists st). destruct (decide (x = a)) as [->|]; tauto. }
  split; simpl; try done.
  - intros x rx Hx. destruct (Hh x rx Hx) as (? & ? & ?). split_and!; try done.
    by apply Hiff.
  - intros x Hx%Hiff. by apply Hl.
  - unfold lists. simpl. rewrite app_assoc, <-list_del_app. apply NoDup_app. split_and!.
    + by apply NoDup_list_del.
    + intros x [_ Hne]%elem_of_list_del. by rewrite list_elem_of_singleton.
    + apply NoDup_singleton.
Qed.

(** Taking in a new block; its path may be taken. *)
Definition with_call (res : pending_call) (i : Z) st : state := {|
  calls_heap := <[next_addr st := res]> (calls_heap st); next_addr := S (next_addr st);
  pending_call_list := pending_call_list st ++ [next_addr st];
  gc_call_list := gc_call_list st; callid := i;
  table := (evhttp_set_cb (table st) (pc_path res) (CbReadout (next_addr st))).2;
  closecb := closecb st; conns := conns st;
  in_flight := {[next_addr st]} ∪ in_flight st; out := out st |}.

Lemma with_call_calls st res i :
  pc_path res = ppath (pc_callid res) → calls_ok st → calls_ok (with_call res i st).
Proof.
  intros Hpath [Hh Ht Hl Hn].
  assert (calls_heap st !! next_addr st = None) as Hnew.
  { destruct (calls_heap st !! next_addr st) as [rx|] eqn:Hx; [|done].
    apply Hh in Hx as [? _]. lia. }
  split; simpl.
  - intros x rx [[<- <-]|[Hne Hx]]%lookup_insert_Some.
    + split_and!; [lia|done|]. unfold lists. simpl.
      rewrite !elem_of_app, list_elem_of_singleton. tauto.
    + destruct (Hh x rx Hx) as (? & Hp & Hin). split_and!; [lia|done|].
      unfold lists in *. simpl. rewrite !elem_of_app in *. tauto.
  - intros p x Hpx. assert (cb_find (table st) p = Some (CbReadout x) ∨
      (x = next_addr st ∧ pc_path res = p)) as [Hold|[-> Hp]].
    { destruct (cb_find (table st) (pc_path res)) eqn:E.
      - rewrite set_cb_taken in Hpx by (by rewrite E). by left.
      - rewrite set_cb_find in Hpx by done. case_decide; [right; by simplify_eq|by left]. }
    + destruct (Ht p x Hold) as (rx & Hx & ?). exists rx. split; [|done].
      rewrite lookup_insert_ne; [done|]. intros <-. congruence.
    + eexists. split; [apply lookup_insert_eq|done].
  - intros x Hx. destruct (decide (x = next_addr st)) as [->|Hne].
    + rewrite lookup_insert_eq. by eexists.
    + rewrite lookup_insert_ne by done. apply Hl. unfold lists in *. simpl in Hx.
      rewrite !elem_of_app, list_elem_of_singleton in *. tauto.
  - unfold lists. simpl. rewrite (Permutation_app_comm (pending_call_list st) [next_addr st]).
    simpl. apply NoDup_cons. split; [|done]. intros Hin. apply Hl in Hin as [rx Hx]. congruence.
Qed.

Lemma with_call_ids st res :
  pc_callid res = callid st → pc_path res = ppath (callid st) → resources_ok st →
  ids_ok (with_call res (callid st + 1) st).
Proof.
  intros Hid Hpath [[Hh _ _ _] [Hr Hf]].
  assert (cb_find (table st) (pc_path res) = None) as Hfree by (rewrite Hpath; apply Hf; lia).
  split; simpl.
  - intros x rx [[<- <-]|[Hne Hx]]%lookup_insert_Some.
    + split; [lia|]. by rewrite set_cb_find, decide_True.
    + destruct (Hr x rx Hx) as [? Hcb]. destruct (Hh x rx Hx) as (_ & Hp & _). split; [lia|].
      rewrite set_cb_find, decide_False; [done| |done]. rewrite Hp, Hpath.
      intros Heq%pending_path_inj. lia.
  - intros id Hid'. rewrite set_cb_find by done. rewrite decide_False; [apply Hf; lia|].
    rewrite Hpath. intros ?%pending_path_inj. lia.
Qed.

(** How the request for a call ends. *)
Lemma create_result st con o args is_async st' :
  ahttpd_call_create mountpoint fs_name st con o args is_async = Ok st' →
  ∃ f, st' = reply con f st ∨ st' = reply con f (set_callid (wrap S32 (callid st + 1)) st) ∨
    ∃ res, pc_callid res = callid st ∧ pc_path res = ppath (callid st) ∧
      (st' = with_call res (wrap S32 (callid st + 1)) st ∨
       st' = reply con f (with_call res (wrap S32 (callid st + 1)) st)).
Proof.
  unfold ahttpd_call_create. intros Hc. case_match; [done|]. destruct (malloc 80); [|done].
  apply bind_Ok_inv in Hc as ([ret buf] & _ & Hc). cbv zeta in Hc.
  case_match; [injection Hc as <-; eexists; by left|].
  case_match; [injection Hc as <-; eexists; right; by left|].
  set (res := {| pc_callid := callid st; pc_o := o; pc_path := ppath (callid st);
                 pc_is_async := is_async; pc_request := con;
                 pc_retbuf := None; pc_status := str "pending" |}) in *.
  exists (ahttpd_reply_accepted (pc_path res)). do 2 right. exists res.
  split_and!; [done|done|]. destruct is_async; injection Hc as <-; [by right|by left].
Qed.

Lemma create_calls st con o args is_async st' :
  ahttpd_call_create mountpoint fs_name st con o args is_async = Ok st' →
  calls_ok st → calls_ok st'.
Proof.
  intros (f & [-> |[-> |(res & Hid & Hp & Hst)]])%create_result Hok; [by apply (calls_ok_frame st)..|].
  assert (calls_ok (with_call res (wrap S32 (callid st + 1)) st)) as Hok1
    by (apply with_call_calls; congruence).
  destruct Hst as [-> | ->]; [done|by eapply calls_ok_frame].
Qed.

Lemma create_ids st con o args is_async st' :
  ahttpd_call_create mountpoint fs_name st con o args is_async = Ok st' →
  0 <= callid st < 2 ^ 31 - 1 → resources_ok st → ids_ok st'.
Proof.
  intros (f & Hst)%create_result Hc Hok.
  assert (wrap S32 (callid st + 1) = callid st + 1) as Hw
    by (apply wrap_id; unfold in_range; cbn [is_signed width]; lia).
  rewrite Hw in Hst. destruct Hst as [-> |[-> |(res & Hid & Hp & Hst)]].
  - apply (ids_ok_frame st); [apply Hok|done|simpl; lia|done].
  - apply (ids_ok_frame st); [apply Hok|done|simpl; lia|done].
  - pose proof (with_call_ids st res Hid Hp Hok) as Hok1.
    destruct Hst as [-> | ->]; [done|]. by eapply ids_ok_frame.
Qed.

Lemma readout_ok (P : state → Prop) st con a st' :
  (∀ con f st, P st → P (reply con f st)) →
  (∀ c st, P st → P (set_closecb c st)) →
  (∀ st a, P st → a ∈ lists st →
     P (set_lists (list_del a (pending_call_list st)) (list_del a (gc_call_list st) ++ [a]) st)) →
  (∀ st a res res', P st → calls_heap st !! a = Some res → pc_callid res' = pc_callid res →
     pc_path res' = pc_path res → P (set_heap (<[a:=res']> (calls_heap st)) st)) →
  resource_readout st con a = Ok st' → calls_ok st → P st → P st'.
Proof.
  unfold resource_readout, get_call. intros Hrep Hclose Hmove Hupd.
  destruct (calls_heap st !! a) as [res|] eqn:Ha; [|done].
  cbn [deref]. rewrite bind_Ok. intros Hr Hok HP. destruct (pc_retbuf res) as [j|];
    injection Hr as <-; [|by apply Hrep].
  apply Hclose, (Hupd (set_lists _ _ (reply con (ahttpd_reply_with_json j) st)) a res);
    [|done|done|done].
  apply (Hmove (reply con (ahttpd_reply_with_json j) st)); [by apply Hrep|].
  by eapply (heap_ok _ Hok).
Qed.

Lemma completed_ok (P : state → Prop) st result retbuf a st' :
  (∀ con f st, P st → P (reply con f st)) →
  (∀ c st, P st → P (set_closecb c st)) →
  (∀ st a res res', P st → calls_heap st !! a = Some res → pc_callid res' = pc_callid res →
     pc_path res' = pc_path res → P (set_heap (<[a:=res']> (calls_heap st)) st)) →
  call_completed_cb st result retbuf a = Ok st' → P st → P st'.
Proof.
  unfold call_completed_cb, get_call. intros Hrep Hclose Hupd.
  destruct (calls_heap st !! a) as [res|] eqn:Ha; [|done].
  cbn [deref]. rewrite bind_Ok. intros Hc HP. apply bind_Ok_inv in Hc as (j & _ & Hc).
  assert (P (set_heap (<[a:=set_retbuf (Some j) res]> (calls_heap st)) st)) as HP1
    by (by eapply Hupd).
  cbv zeta in Hc. case_match; [by injection Hc as <-|]. case_decide; [|done].
  injection Hc as <-. by apply Hclose, Hrep.
Qed.

(** What every event preserves, in terms of the operations on the state. *)
Lemma step_preserves (P : state → Prop) (e : event) st st' :
  (∀ con f st, P st → P (reply con f st)) →
  (∀ c st, P st → P (set_closecb c st)) →
  (∀ c st, P st → P (set_conns c st)) →
  (∀ f st, P st → P (set_in_flight f st)) →
  (∀ st a, P st → a ∈ lists st →
     P (set_lists (list_del a (pending_call_list st)) (list_del a (gc_call_list st) ++ [a]) st)) →
  (∀ st a res res', P st → calls_heap st !! a = Some res → pc_callid res' = pc_callid res →
     pc_path res' = pc_path res → P (set_heap (<[a:=res']> (calls_heap st)) st)) →
  (∀ st a st', ahttpd_call_delete st a = Ok st' → P st → P st') →
  (∀ con o args asy st', e = Call con o args asy →
     ahttpd_call_create mountpoint fs_name st con o args asy = Ok st' → P st → P st') →
  step mountpoint fs_name e st = Ok st' → calls_ok st → P st → P st'.
Proof.
  intros Hrep Hclose Hconns Hfl Hmove Hupd Hdel Hcreate Hs Hok HP.
  destruct e as [con|con o args asy|con path|con|a result retbuf]; cbn [step] in Hs.
  - injection Hs as <-. by apply Hconns.
  - case_decide; [by eapply Hcreate|by injection Hs as <-].
  - case_decide; [|by injection Hs as <-].
    destruct (cb_find (table st) path) as [[]|]; try (by injection Hs as <-).
    by eapply readout_ok.
  - case_decide; [|by injection Hs as <-]. cbv zeta in Hs.
    destruct (closecb st !! con); [|injection Hs as <-; by apply Hclose, Hconns].
    apply bind_Ok_inv in Hs as (_ & _ & Hs). eapply Hdel; [exact Hs|]. by apply Hclose, Hconns.
  - case_decide; [|by injection Hs as <-].
    eapply (completed_ok P); [exact Hrep|exact Hclose|exact Hupd|exact Hs|]. by apply Hfl.
Qed.

Lemma step_calls (e : event) st st' :
  step mountpoint fs_name e st = Ok st' → calls_ok st → calls_ok st'.
Proof.
  intros Hs Hok. eapply (step_preserves calls_ok e st); try done; intros;
    try (by eapply calls_ok_frame).
  - by apply move_calls.
  - by eapply update_calls.
  - by eapply delete_calls_inv.
  - by eapply create_calls.
Qed.

Lemma step_ids (e : event) st st' :
  step mountpoint fs_name e st = Ok st' →
  (is_call e = true → 0 <= callid st < 2 ^ 31 - 1) → resources_ok st → ids_ok st'.
Proof.
  intros Hs Hc [Hok Hids]. eapply (step_preserves ids_ok e st); try done; intros;
    try (by eapply ids_ok_frame).
  - by eapply update_ids.
  - by eapply delete_ids.
  - subst e. by eapply create_ids; [|apply Hc|].
Qed.

Lemma step_callid (e : event) st st' :
  step mountpoint fs_name e st = Ok st' → calls_ok st → is_call e = false →
  callid st' = callid st.
Proof.
  intros Hs Hok Hc.
  eapply (step_preserves (λ st', callid st' = callid st) e st); try done; intros; subst.
  - by match goal with H : ahttpd_call_delete _ _ = _ |- _ =>
      apply delete_result in H as (? & _ & ->) end.
  - done.
Qed.

Lemma run_calls (es : list event) st st' :
  run mountpoint fs_name es st = Ok st' → calls_ok st → calls_ok st'.
Proof.
  revert st. induction es as [|e es IH]; intros st Hr Hok; cbn [run] in Hr; [by injection Hr as <-|].
  apply bind_Ok_inv in Hr as (st1 & Hs & Hr). eapply IH; [exact Hr|]. by eapply step_calls.
Qed.

Lemma run_ok (es : list event) st st' :
  run mountpoint fs_name es st = Ok st' →
  0 <= callid st → callid st + calls_in es < 2 ^ 31 → resources_ok st → resources_ok st'.
Proof.
  revert st. induction es as [|e es IH]; intros st Hr Hc0 Hc Hok; cbn [run] in Hr;
    [by injection Hr as <-|].
  apply bind_Ok_inv in Hr as (st1 & Hs & Hr).
  assert (0 <= callid st1 ∧ callid st1 <= callid st + (if is_call e then 1 else 0)) as Hc1.
  { destruct (is_call e) eqn:He; [|rewrite (step_callid e st st1); [lia|done|apply Hok|done]].
    destruct e as [|con o args asy| | |]; try done. cbn [step] in Hs.
    case_decide; [|injection Hs as <-; lia].
    unfold calls_in in Hc. cbn [List.filter is_call length] in Hc.
    assert (wrap S32 (callid st + 1) = callid st + 1) as Hw
      by (apply wrap_id; unfold in_range; cbn [is_signed width]; lia).
    apply create_result in Hs as (f & [-> |[-> |(res & _ & _ & [-> | ->])]]); simpl; lia. }
  unfold calls_in in *. cbn [List.filter] in Hc.
  eapply IH; [exact Hr|lia|destruct (is_call e); cbn [length] in Hc; lia|]. split.
  - eapply step_calls; [exact Hs|apply Hok].
  - eapply step_ids; [exact Hs| |done]. intros He. rewrite He in Hc. cbn [length] in Hc. lia.
Qed.

(** *** Cleanup *)

Lemma delete_calls_ok l st :
  calls_ok st → NoDup l → (∀ a, a ∈ l → a ∈ lists st) →
  ∃ st', delete_calls l st = Ok st' ∧ calls_ok st' ∧
    (∀ a, is_Some (calls_heap st' !! a) ↔ is_Some (calls_heap st !! a) ∧ a ∉ l) ∧
    ∀ a, a ∈ pending_call_list st' → a ∈ pending_call_list st.
Proof.
  revert st. induction l as [|a l IH]; intros st Hok Hnd Hin.
  { exists st. split_and!; [done|done| |done]. intros a. split; [|tauto].
    intros ?. split; [done|apply not_elem_of_nil]. }
  apply NoDup_cons in Hnd as [Hal Hnd].
  destruct (lists_ok _ Hok a) as [res Ha]; [apply Hin; by left|]. cbn [delete_calls].
  destruct (ahttpd_call_delete st a) as [st1|f] eqn:Hd.
  2:{ unfold ahttpd_call_delete, get_call in Hd. by rewrite Ha in Hd. }
  rewrite bind_Ok. pose proof (delete_calls_inv _ _ _ Hd Hok) as Hok1.
  apply delete_result in Hd as (res' & _ & ->).
  edestruct IH as (st' & Hr & Hok' & Hdom & Hpend); [exact Hok1|done| |].
  { intros x Hx. unfold lists. simpl. rewrite <-list_del_app. apply elem_of_list_del.
    split; [apply Hin; by right|]. by intros ->. }
  exists st'. split_and!; [done|done| |].
  - intros x. rewrite Hdom. simpl.
    rewrite lookup_delete_is_Some, not_elem_of_cons. naive_solver.
  - intros x Hx%Hpend. by apply elem_of_list_del in Hx as [? _].
Qed.
End invariant.

(** ** Single events *)

Section events.
Context `{JsonC} `{JsonAlloc} `{Malloc} `{Urpc} `{AuraBuffer ab} `{AuraCalls ab}.
Context `{CbTable tab node_cb} `{!CbTableLaws tab node_cb}.
Context (mountpoint fs_name : bytes).
Notation state := (node_state tab).
Notation ppath := (pending_path mountpoint).
Notation step := (step mountpoint fs_name).
Implicit Types (st : state).

(** A path that leads to a block. *)
Definition resource st (p : bytes) (a : nat) (res : pending_call) : Prop :=
  cb_find (table st) p = Some (CbReadout a) ∧ calls_heap st !! a = Some res.

Definition pending_json (res : pending_call) : json :=
  JObject (json_object_object_add [] (str "status") (JString (pc_status res))).

Lemma get_pending st con p a res :
  con ∈ conns st → resource st p a res → pc_retbuf res = None →
  step (Get con p) st = Ok (reply con (ahttpd_reply_with_json (pending_json res)) st).
Proof.
  intros Hcon [Hp Ha] Hr. cbn [CallResource.step]. rewrite decide_True, Hp by done.
  unfold resource_readout, get_call. rewrite Ha. cbn [deref]. by rewrite bind_Ok, Hr.
Qed.

(** What reading a result does. *)
Definition read_result st (con a : nat) (j : json) (res : pending_call) : state :=
  set_closecb (<[con := a]> (closecb st))
    (set_heap (<[a := set_status (str "dead") res]> (calls_heap st))
      (set_lists (list_del a (pending_call_list st)) (list_del a (gc_call_list st) ++ [a])
        (reply con (ahttpd_reply_with_json j) st))).

Lemma get_completed st con p a res j :
  con ∈ conns st → resource st p a res → pc_retbuf res = Some j →
  step (Get con p) st = Ok (read_result st con a j res).
Proof.
  intros Hcon [Hp Ha] Hr. cbn [CallResource.step]. rewrite decide_True, Hp by done.
  unfold resource_readout, get_call. rewrite Ha. cbn [deref]. by rewrite bind_Ok, Hr.
Qed.

Lemma complete_async st a res result retbuf j :
  a ∈ in_flight st → calls_heap st !! a = Some res → pc_is_async res = true →
  call_result_to_json result (pc_o res) retbuf = Ok j →
  step (Complete a result retbuf) st =
    Ok (set_heap (<[a := set_retbuf (Some j) res]> (calls_heap st))
          (set_in_flight (in_flight st ∖ {[a]}) st)).
Proof.
  intros Hf Ha Has Hj. cbn [CallResource.step]. rewrite decide_True by done.
  unfold call_completed_cb, get_call. cbn [set_in_flight calls_heap]. rewrite Ha. cbn [deref].
  rewrite bind_Ok, Hj, bind_Ok. cbn [set_retbuf pc_is_async]. by rewrite Has.
Qed.

Lemma complete_sync st a res result retbuf j :
  a ∈ in_flight st → calls_heap st !! a = Some res → pc_is_async res = false →
  call_result_to_json result (pc_o res) retbuf = Ok j →
  step (Complete a result retbuf) st =
    if decide (pc_request res ∈ conns st) then
      Ok (set_closecb (<[pc_request res := a]> (closecb st))
           (reply (pc_request res) (ahttpd_reply_with_json j)
             (set_heap (<[a := set_retbuf (Some j) res]> (calls_heap st))
               (set_in_flight (in_flight st ∖ {[a]}) st))))
    else Fault UseAfterFree.
Proof.
  intros Hf Ha Has Hj. cbn [CallResource.step]. rewrite decide_True by done.
  unfold call_completed_cb, get_call. cbn [set_in_flight calls_heap]. rewrite Ha. cbn [deref].
  rewrite bind_Ok, Hj, bind_Ok. cbn [set_retbuf pc_is_async]. by rewrite Has.
Qed.

(** A connection that goes away. *)
Definition hang_up st (con : nat) : state :=
  set_closecb (delete con (closecb st)) (set_conns (conns st ∖ {[con]}) st).

Lemma close_plain st con :
  con ∈ conns st → closecb st !! con = None → step (Close con) st = Ok (hang_up st con).
Proof. intros Hcon Hc. cbn [CallResource.step]. by rewrite decide_True, Hc. Qed.

Lemma close_frees st con a res :
  con ∈ conns st → closecb st !! con = Some a → calls_heap st !! a = Some res →
  step (Close con) st =
    Ok (set_heap (delete a (calls_heap st))
          (set_table (evhttp_del_cb (table st) (pc_path res))
             (set_lists (list_del a (pending_call_list st)) (list_del a (gc_call_list st))
                (hang_up st con)))).
Proof.
  intros Hcon Hc Ha. cbn [CallResource.step]. rewrite decide_True, Hc by done.
  unfold conn_close_cb, ahttpd_call_delete, get_call. cbn [hang_up set_closecb set_conns calls_heap].
  rewrite Ha. cbn [deref]. by rewrite !bind_Ok.
Qed.

Lemma close_dangling st con a :
  con ∈ conns st → closecb st !! con = Some a → calls_heap st !! a = None →
  step (Close con) st = Fault UseAfterFree.
Proof.
  intros Hcon Hc Ha. cbn [CallResource.step]. rewrite decide_True, Hc by done.
  unfold conn_close_cb, get_call. cbn [set_closecb set_conns calls_heap]. by rewrite Ha.
Qed.

(** A call that aura takes. *)
Definition new_call st (con : nat) (o : aura_object) (is_async : bool) : pending_call :=
  {| pc_callid := callid st; pc_o := o; pc_path := ppath (callid st);
     pc_is_async := is_async; pc_request := con;
     pc_retbuf := None; pc_status := str "pending" |}.

Definition accepted st (con : nat) (o : aura_object) (is_async : bool) : state :=
  let st' := {|
    calls_heap := <[next_addr st := new_call st con o is_async]> (calls_heap st);
    next_addr := S (next_addr st);
    pending_call_list := pending_call_list st ++ [next_addr st];
    gc_call_list := gc_call_list st; callid := wrap S32 (callid st + 1);
    table := (evhttp_set_cb (table st) (ppath (callid st)) (CbReadout (next_addr st))).2;
    closecb := closecb st; conns := conns st;
    in_flight := {[next_addr st]} ∪ in_flight st; out := out st |} in
  if is_async then reply con (ahttpd_reply_accepted (ppath (callid st))) st' else st'.

(** What a call needs to be taken. *)
Record can_call (con : nat) (o : aura_object) (args : json) st : Prop := {
  cc_open : con ∈ conns st;
  cc_node : fs_name = str "node";
  cc_malloc : is_Some (malloc 80);
  cc_args : ∃ buf, ahttpd_buffer_from_json (aura_buffer_request (arglen o)) args (arg_fmt o) =
    Ok (0, buf) ∧ aura_core_start_call o buf = 0
}.

Lemma call_accepted st con o args is_async :
  can_call con o args st → step (Call con o args is_async) st = Ok (accepted st con o is_async).
Proof.
  intros [Hcon Hfs [blk Hm] (buf & Hargs & Hstart)]. cbn [CallResource.step].
  rewrite decide_True by done. unfold ahttpd_call_create. rewrite bool_decide_eq_true_2 by done.
  cbn [negb]. rewrite Hm, Hargs, bind_Ok. cbn [Z.eqb negb]. rewrite Hstart. cbn [Z.eqb negb].
  by destruct is_async.
Qed.

Lemma accepted_resource st con o is_async :
  resources_ok mountpoint st →
  resource (accepted st con o is_async) (ppath (callid st)) (next_addr st)
    (new_call st con o is_async).
Proof.
  intros Hok. assert (cb_find (table st) (ppath (callid st)) = None) as Hf
    by (apply (fresh_ok _ _ (proj2 Hok)); lia).
  split; destruct is_async; simpl; rewrite ?set_cb_find by done;
    try (by rewrite decide_True); apply lookup_insert_eq.
Qed.

Lemma accepted_in_flight st con o is_async : next_addr st ∈ in_flight (accepted st con o is_async).
Proof. destruct is_async; simpl; set_solver. Qed.

Lemma accepted_conns st con o is_async : conns (accepted st con o is_async) = conns st.
Proof. by destruct is_async. Qed.
End events.

(** ** Theorems *)

Section theorems.
Context `{JsonC} `{JsonAlloc} `{Malloc} `{Urpc} `{AuraBuffer ab} `{AuraCalls ab}.
Context `{CbTable tab node_cb} `{!CbTableLaws tab node_cb}.
Context (mountpoint fs_name : bytes).
Notation state := (node_state tab).
Notation ppath := (pending_path mountpoint).
Notation step := (step mountpoint fs_name).
Notation run := (run mountpoint fs_name).
Implicit Types (st : state).

(** A mountpoint without calls. *)
Definition no_calls st : Prop :=
  calls_heap st = ∅ ∧ pending_call_list st = [] ∧ gc_call_list st = [] ∧
  (∀ p a, cb_find (table st) p ≠ Some (CbReadout a)) ∧
  (∀ id, cb_find (table st) (ppath id) = None).

Lemma no_calls_ok st : no_calls st → resources_ok mountpoint st.
Proof.
  intros (Hh & Hp & Hg & Ht & Hf).
  assert (lists st = []) as Hl by (unfold lists; by rewrite Hp, Hg).
  split; split; rewrite ?Hh, ?Hl.
  - intros a res. by rewrite lookup_empty.
  - intros p a Hpa. by apply Ht in Hpa.
  - intros a Ha. by apply not_elem_of_nil in Ha.
  - constructor.
  - intros a res. by rewrite lookup_empty.
  - intros id _. apply Hf.
Qed.

(** C3: In every state the event loop can reach (until it crashes) from a
    fresh mountpoint, whose call counter is 0, in fewer than 2^31 calls, the
    temporary paths and the calls are in one-to-one correspondence: each path
    leads to a live call with that very path, each live call can be reached
    and is in exactly one place of the two lists, and no two calls have the
    same id.  After that many calls the counter, an [int], wraps around. *)
Theorem resources_match_calls (es : list event) st0 st :
  no_calls st0 → callid st0 = 0 → calls_in es < 2 ^ 31 → run es st0 = Ok st →
  (∀ p a, cb_find (table st) p = Some (CbReadout a) ↔
     ∃ res, calls_heap st !! a = Some res ∧ pc_path res = p) ∧
  (∀ a, is_Some (calls_heap st !! a) ↔ a ∈ pending_call_list st ++ gc_call_list st) ∧
  NoDup (pending_call_list st ++ gc_call_list st) ∧
  (∀ a1 a2 r1 r2, calls_heap st !! a1 = Some r1 → calls_heap st !! a2 = Some r2 →
     pc_callid r1 = pc_callid r2 → a1 = a2).
Proof.
  intros Hinit%no_calls_ok Hid Hn Hr.
  destruct (run_ok _ _ _ _ _ Hr ltac:(lia) ltac:(lia) Hinit) as [[Hh Ht Hl Hnd] [Hreach _]].
  split_and!; [| |done|].
  - intros p a. split; [apply Ht|]. intros (res & Ha & <-). by apply Hreach in Ha as [_ ?].
  - intros a. split; [|apply Hl]. intros [res Ha]. by apply Hh in Ha as (_ & _ & ?).
  - intros a1 a2 r1 r2 Hr1 Hr2 Heq.
    destruct (Hh _ _ Hr1) as (_ & Hp1 & _), (Hh _ _ Hr2) as (_ & Hp2 & _).
    apply Hreach in Hr1 as [_ Hc1]. apply Hreach in Hr2 as [_ Hc2]. congruence.
Qed.

(** The id of a call is not looked for among the live ones.  A mountpoint
    that has served 2^32 calls hands out the ids of the first ones again: a
    call that is made while another of the same id is alive has no path of its
    own (evhttp_set_cb refuses it, which is not looked at), and the path the
    client is sent to leads to the other call. *)
Theorem wrapped_id_reads_other_call st con con2 o args a res j :
  con ∈ conns st → con2 ∈ conns st → can_call fs_name con o args st →
  resource st (ppath (callid st)) a res → a ≠ next_addr st → pc_retbuf res = Some j →
  ∃ st', run [Call con o args true; Get con2 (ppath (callid st))] st = Ok st' ∧
    out st' = out st ++
      (pair con <$> ahttpd_reply_accepted (ppath (callid st)) []) ++
      (pair con2 <$> ahttpd_reply_with_json j []).
Proof.
  intros Hcon Hcon2 Hcan [Hp Ha] Hne Hj. cbn [CallResource.run].
  rewrite (call_accepted _ _ _ _ _ _ _ Hcan), bind_Ok.
  set (st1 := accepted mountpoint st con o true).
  rewrite (get_completed _ _ st1 con2 (ppath (callid st)) a res j), bind_Ok; [|done| |done].
  - eexists. split; [reflexivity|]. simpl. by rewrite <-app_assoc.
  - split; simpl; [|by rewrite lookup_insert_ne].
    rewrite set_cb_taken by (by rewrite Hp). done.
Qed.

(** C11: The life of an asynchronous call that aura takes: the client is
    redirected to a fresh temporary path; before the call completes the path
    reports that it is pending; after that it reports the status and the data
    of the result; when the connection that read it closes, the call is freed
    and its path and list entry are gone, leaving the state of all other calls
    as it was. *)
Theorem async_call_lifecycle st con con2 o args result rbuf data rbuf' :
  resources_ok mountpoint st → can_call fs_name con o args st → con2 ∈ conns st →
  is_Some (json_new (JObject [])) →
  ahttpd_buffer_to_json rbuf (ret_fmt o) = Ok (Some data, rbuf') →
  let p := ppath (callid st) in
  let a := next_addr st in
  let status s := json_object_object_add [] (str "status") (JString s) in
  ∃ st',
    run [Call con o args true; Get con2 p; Complete a result (Some rbuf); Get con2 p; Close con2] st
      = Ok st' ∧
    out st' = out st ++
      (pair con <$> ahttpd_reply_accepted p []) ++
      (pair con2 <$> ahttpd_reply_with_json (JObject (status (str "pending"))) []) ++
      (pair con2 <$> ahttpd_reply_with_json
         (JObject (json_object_object_add (status (str "completed")) (str "data") data)) []) ∧
    calls_heap st' = calls_heap st ∧
    (∀ q, cb_find (table st') q = cb_find (table st) q) ∧
    pending_call_list st' = pending_call_list st ∧ gc_call_list st' = gc_call_list st.
Proof.
  intros Hok Hcan Hcon2 [o' Hnew] Hdata p a status.
  set (j := JObject (json_object_object_add (status (str "completed")) (str "data") data)).
  assert (call_result_to_json result o (Some rbuf) = Ok j) as Hj.
  { unfold call_result_to_json. rewrite Hnew, Hdata. done. }
  assert (calls_heap st !! a = None) as Hfree.
  { destruct (calls_heap st !! a) as [r|] eqn:E; [|done]. apply (heap_ok _ _ (proj1 Hok)) in E as [? _]. lia. }
  assert (a ∉ lists st) as Hnl by (intros [r Hr]%(lists_ok _ _ (proj1 Hok)); congruence).
  unfold lists in Hnl. apply not_elem_of_app in Hnl as [Hnp Hng].
  pose proof (accepted_resource mountpoint st con o true Hok) as Hr1. fold p a in Hr1.
  set (st1 := accepted mountpoint st con o true) in *.
  set (res := new_call mountpoint st con o true) in *.
  cbn [CallResource.run]. rewrite (call_accepted _ _ _ _ _ _ _ Hcan), bind_Ok. fold st1.
  rewrite (get_pending _ _ st1 con2 p a res) by done. rewrite bind_Ok. destruct Hr1 as [Hp1 Ha1].
  set (st2 := reply con2 _ st1).
  rewrite (complete_async _ _ st2 a res result (Some rbuf) j); [|by apply accepted_in_flight|done|done|done].
  rewrite bind_Ok. set (st3 := set_heap _ _).
  rewrite (get_completed _ _ st3 con2 p a (set_retbuf (Some j) res) j);
    [|done|split; [done|apply lookup_insert_eq]|done]. rewrite bind_Ok.
  set (st4 := read_result st3 con2 a j _).
  rewrite (close_frees _ _ st4 con2 a (set_status (str "dead") (set_retbuf (Some j) res)));
    [|done|apply lookup_insert_eq|apply lookup_insert_eq]. rewrite bind_Ok.
  eexists. split; [reflexivity|]. simpl. split_and!.
  - by rewrite <-!app_assoc.
  - rewrite !insert_insert_eq, delete_insert_id by done. done.
  - intros q. rewrite del_cb_find. case_decide as Hq.
    + subst q. symmetry. apply (fresh_ok _ _ (proj2 Hok)). lia.
    + rewrite set_cb_find by (apply (fresh_ok _ _ (proj2 Hok)); lia). by rewrite decide_False.
  - rewrite !list_del_app, !(list_del_not_in a (pending_call_list st)) by done.
    simpl. rewrite Nat.eqb_refl. simpl. by rewrite app_nil_r.
  - rewrite !list_del_app, !(list_del_not_in a (gc_call_list st)) by done.
    simpl. rewrite Nat.eqb_refl. simpl. by rewrite app_nil_r.
Qed.

(** Two clients that read the same result crash the server when both have
    gone: each connection has been told to free the call. *)
Theorem two_readers_free_twice st p a res j con1 con2 :
  con1 ∈ conns st → con2 ∈ conns st → con1 ≠ con2 →
  resource st p a res → pc_retbuf res = Some j →
  run [Get con1 p; Get con2 p; Close con1; Close con2] st = Fault UseAfterFree.
Proof.
  intros Hc1 Hc2 Hne [Hp Ha] Hj. cbn [CallResource.run].
  rewrite (get_completed _ _ st con1 p a res j), bind_Ok by done.
  set (st1 := read_result st con1 a j res).
  rewrite (get_completed _ _ st1 con2 p a (set_status (str "dead") res) j), bind_Ok;
    [|done|split; [done|apply lookup_insert_eq]|done].
  set (st2 := read_result st1 con2 a j _).
  rewrite (close_frees _ _ st2 con1 a (set_status (str "dead") (set_status (str "dead") res))), bind_Ok;
    [|done| |apply lookup_insert_eq].
  2:{ simpl. by rewrite lookup_insert_ne, lookup_insert_eq. }
  rewrite (close_dangling _ _ _ con2 a); [done| | |].
  - simpl. set_solver.
  - simpl. by rewrite lookup_delete_ne, lookup_insert_eq.
  - simpl. apply lookup_delete_eq.
Qed.

(** A client that does not wait for its synchronous call makes the server
    reply on a request that is gone. *)
Theorem impatient_sync_client_crashes st a res result retbuf j :
  calls_heap st !! a = Some res → pc_is_async res = false → a ∈ in_flight st →
  pc_request res ∈ conns st → closecb st !! pc_request res = None →
  call_result_to_json result (pc_o res) retbuf = Ok j →
  run [Close (pc_request res); Complete a result retbuf] st = Fault UseAfterFree.
Proof.
  intros Ha Has Hf Hcon Hcb Hj. cbn [CallResource.run].
  rewrite close_plain, bind_Ok by done.
  rewrite (complete_sync _ _ _ a res result retbuf j), decide_False by (done || simpl; set_solver).
  done.
Qed.

(** A connection that reads the results of two calls frees only the
    second: the first stays in the heap, in the list and in the callback table,
    and no connection is left that would free it. *)
Theorem keepalive_reader_leaks st p1 p2 a1 a2 r1 r2 j1 j2 con :
  con ∈ conns st → resource st p1 a1 r1 → resource st p2 a2 r2 → a1 ≠ a2 →
  pc_path r2 = p2 → p1 ≠ p2 →
  pc_retbuf r1 = Some j1 → pc_retbuf r2 = Some j2 →
  (∀ c, closecb st !! c ≠ Some a1) →
  ∃ st', run [Get con p1; Get con p2; Close con] st = Ok st' ∧
    resource st' p1 a1 (set_status (str "dead") r1) ∧ a1 ∈ gc_call_list st' ∧
    calls_heap st' !! a2 = None ∧
    ∀ c, closecb st' !! c ≠ Some a1.
Proof.
  intros Hcon [Hp1 Ha1] [Hp2 Ha2] Hne Hpath Hpne Hj1 Hj2 Hcb. cbn [CallResource.run].
  rewrite (get_completed _ _ st con p1 a1 r1 j1), bind_Ok by done.
  set (st1 := read_result st con a1 j1 r1).
  rewrite (get_completed _ _ st1 con p2 a2 r2 j2), bind_Ok;
    [|done|split; [done|by simpl; rewrite lookup_insert_ne]|done].
  set (st2 := read_result st1 con a2 j2 r2).
  rewrite (close_frees _ _ st2 con a2 (set_status (str "dead") r2)), bind_Ok;
    [|done|apply lookup_insert_eq|apply lookup_insert_eq].
  eexists. split; [reflexivity|]. split; [split|]; simpl.
  { rewrite del_cb_find, Hpath. by rewrite decide_False. }
  { rewrite lookup_delete_ne, lookup_insert_ne by done. apply lookup_insert_eq. }
  split_and!.
  - apply elem_of_list_del. split; [|done]. apply elem_of_app. left.
    apply elem_of_list_del. split; [|done]. apply elem_of_app. right. by apply list_elem_of_singleton.
  - apply lookup_delete_eq.
  - intros c. destruct (decide (c = con)) as [->|Hc]; [by rewrite lookup_delete_eq|].
    rewrite lookup_delete_ne, !lookup_insert_ne by done. apply Hcb.
Qed.

(** C31: Unmounting frees every call: the cleanup of the two lists does not
    fault, and leaves no block, no list entry and no temporary path. *)
Theorem cleanup_frees_all (es : list event) st0 st :
  no_calls st0 → run es st0 = Ok st →
  ∃ st', ahttpd_callresource_cleanup st = Ok st' ∧ calls_heap st' = ∅ ∧
    pending_call_list st' = [] ∧ gc_call_list st' = [] ∧
    ∀ p a, cb_find (table st') p ≠ Some (CbReadout a).
Proof.
  intros [Hinit _]%no_calls_ok Hr. pose proof (run_calls _ _ _ _ _ Hr Hinit) as Hok.
  pose proof (lists_NoDup _ _ Hok) as Hnd. apply NoDup_app in Hnd as (Hn1 & _ & _).
  unfold ahttpd_callresource_cleanup.
  destruct (delete_calls_ok mountpoint (pending_call_list st) st Hok Hn1)
    as (st1 & -> & Hok1 & Hdom1 & Hp1); [intros a Ha; apply elem_of_app; by left|].
  rewrite bind_Ok. pose proof (lists_NoDup _ _ Hok1) as Hnd. apply NoDup_app in Hnd as (_ & _ & Hn2).
  destruct (delete_calls_ok mountpoint (gc_call_list st1) st1 Hok1 Hn2)
    as (st2 & -> & Hok2 & Hdom2 & _); [intros a Ha; apply elem_of_app; by right|].
  exists st2. assert (∀ a, calls_heap st2 !! a = None) as Hempty.
  { intros a. destruct (calls_heap st2 !! a) eqn:E; [exfalso|done].
    destruct (proj1 (Hdom2 a)) as [[r Hr1] Hng]; [by rewrite E|].
    pose proof (heap_ok _ _ Hok1 a r Hr1) as (_ & _ & Hin).
    apply elem_of_app in Hin as [Hin|Hin]; [|done]. apply Hp1 in Hin.
    by destruct (proj1 (Hdom1 a)) as [_ ?]; [rewrite Hr1|]. }
  assert (∀ a, a ∉ lists st2) as Hnil
    by (intros a Ha; apply (lists_ok _ _ Hok2) in Ha; rewrite Hempty in Ha; by destruct Ha).
  apply elem_of_nil_inv, app_eq_nil in Hnil as [-> ->]. split_and!; try done.
  - apply map_empty, Hempty.
  - intros p a Hp. apply (table_ok _ _ Hok2) in Hp as (r & Hr2 & _). by rewrite Hempty in Hr2.
Qed.
End theorems.

(** ** Witnesses *)

Module CallRun.
#[export] Instance ref_calls : AuraCalls SerdesRun.wire := {
  aura_buffer_request _ := SerdesRun.empty;
  aura_core_start_call _ _ := 0
}.

Definition tab : Type := gmap bytes node_cb.

Definition ping : aura_object := {|
  o_name := str "ping"; o_id := 0; object_is_event := false; object_is_method := true;
  arg_fmt := Some (str "1"); ret_fmt := Some (str "1"); arglen := 1 |}.

Definition answer : SerdesRun.wire := {| SerdesRun.wr := []; SerdesRun.rd := [DInt U8 42] |}.

Definition idle : node_state tab := {|
  calls_heap := ∅; next_addr := 0; pending_call_list := []; gc_call_list := [];
  callid := 0; table := ∅; closecb := ∅; conns := {[1%nat; 2%nat]}; in_flight := ∅; out := [] |}.

Definition args : json := JArray [JInt 7].

Notation node_run := (@run RefJson.ref_json RefJson.ref_alloc Recorder.ref_malloc SerdesRun.ref_urpc
  SerdesRun.wire SerdesRun.ref_wire ref_calls tab RefCb.ref_table (str "/node") (str "node")).

Definition after (es : list (@event SerdesRun.wire)) : node_state tab :=
  match node_run es idle with Ok st => st | Fault _ => idle end.

Definition two_calls : node_state tab :=
  after [Call 1 ping args true; Call 1 ping args true;
         Complete 0 0 (Some answer); Complete 1 0 (Some answer)].

Definition sync_call : node_state tab := after [Call 1 ping args false].

Definition done_call (id : Z) : pending_call := {|
  pc_callid := id; pc_o := ping; pc_path := pending_path (str "/node") id;
  pc_is_async := true; pc_request := 1;
  pc_retbuf := Some (JObject [(str "status", JString (str "completed"));
                              (str "data", JArray [JInt 42])]);
  pc_status := str "pending" |}.
End CallRun.

Import RefJson RefCb Recorder SerdesRun CallRun.

Lemma after_ok es : is_ok (node_run es idle) = true → node_run es idle = Ok (after es).
Proof. unfold after. by destruct (node_run es idle). Qed.

Lemma idle_no_calls : no_calls (str "/node") idle.
Proof.
  by split_and!.
Qed.

Lemma resources_match_calls_witness :
  (∀ p a, cb_find (table two_calls) p = Some (CbReadout a) ↔
     ∃ res, calls_heap two_calls !! a = Some res ∧ pc_path res = p) ∧
  (∀ a, is_Some (calls_heap two_calls !! a) ↔
     a ∈ pending_call_list two_calls ++ gc_call_list two_calls) ∧
  NoDup (pending_call_list two_calls ++ gc_call_list two_calls) ∧
  (∀ a1 a2 r1 r2, calls_heap two_calls !! a1 = Some r1 → calls_heap two_calls !! a2 = Some r2 →
     pc_callid r1 = pc_callid r2 → a1 = a2).
Proof.
  apply (@resources_match_calls ref_json ref_alloc ref_malloc ref_urpc wire ref_wire ref_calls tab
    ref_table ref_table_laws (str "/node") (str "node")
    [Call 1 ping CallRun.args true; Call 1 ping CallRun.args true;
     Complete 0 0 (Some answer); Complete 1 0 (Some answer)] idle two_calls).
  - exact idle_no_calls.
  - reflexivity.
  - vm_compute. reflexivity.
  - apply after_ok. vm_compute. reflexivity.
Defined.

(** A server whose next call gets the id 0 again. *)
Lemma wrapped_id_reads_other_call_witness :
  let st := set_callid 0 two_calls in
  ∃ st', node_run [Call 1 ping CallRun.args true; Get 2 (str "/node/pending/0")] st = Ok st' ∧
    out st' = out two_calls ++
      (pair 1%nat <$> ahttpd_reply_accepted (str "/node/pending/0") []) ++
      (pair 2%nat <$> ahttpd_reply_with_json
        (JObject [(str "status", JString (str "completed")); (str "data", JArray [JInt 42])]) []).
Proof.
  apply (@wrapped_id_reads_other_call ref_json ref_alloc ref_malloc ref_urpc wire ref_wire
    ref_calls tab ref_table ref_table_laws (str "/node") (str "node") (set_callid 0 two_calls) 1 2
    ping CallRun.args 0 (done_call 0)
    (JObject [(str "status", JString (str "completed")); (str "data", JArray [JInt 42])])).
  - decide_vm.
  - decide_vm.
  - split.
    + decide_vm.
    + reflexivity.
    + exists (repeat x00 80). reflexivity.
    + eexists. split; reflexivity.
  - split; vm_compute; reflexivity.
  - discriminate.
  - reflexivity.
Defined.

Lemma async_call_lifecycle_witness :
  ∃ st', node_run [Call 1 ping CallRun.args true; Get 2 (str "/node/pending/0");
                   Complete 0 0 (Some answer); Get 2 (str "/node/pending/0"); Close 2] idle = Ok st' ∧
    out st' =
      (pair 1%nat <$> ahttpd_reply_accepted (str "/node/pending/0") []) ++
      (pair 2%nat <$> ahttpd_reply_with_json
         (JObject [(str "status", JString (str "pending"))]) []) ++
      (pair 2%nat <$> ahttpd_reply_with_json
         (JObject [(str "status", JString (str "completed")); (str "data", JArray [JInt 42])]) []) ∧
    calls_heap st' = ∅ ∧
    (∀ q, cb_find (table st') q = cb_find (table idle) q) ∧
    pending_call_list st' = [] ∧ gc_call_list st' = [].
Proof.
  apply (@async_call_lifecycle ref_json ref_alloc ref_malloc ref_urpc wire ref_wire ref_calls tab
    ref_table ref_table_laws (str "/node") (str "node") idle 1 2 ping CallRun.args 0 answer
    (JArray [JInt 42]) {| wr := []; rd := [] |}).
  - exact (no_calls_ok _ _ idle_no_calls).
  - split.
    + decide_vm.
    + reflexivity.
    + exists (repeat x00 80). reflexivity.
    + eexists. split; reflexivity.
  - decide_vm.
  - eexists. reflexivity.
  - reflexivity.
Defined.

Lemma two_readers_free_twice_witness :
  node_run [Get 1 (str "/node/pending/0"); Get 2 (str "/node/pending/0"); Close 1; Close 2]
    two_calls = Fault UseAfterFree.
Proof.
  apply (@two_readers_free_twice ref_json ref_alloc ref_malloc ref_urpc wire ref_wire ref_calls tab
    ref_table ref_table_laws (str "/node") (str "node") two_calls (str "/node/pending/0") 0 (done_call 0)
    (JObject [(str "status", JString (str "completed")); (str "data", JArray [JInt 42])]) 1 2).
  - decide_vm.
  - decide_vm.
  - discriminate.
  - split; vm_compute; reflexivity.
  - reflexivity.
Defined.

Lemma impatient_sync_client_crashes_witness :
  node_run [Close 1; Complete 0 0 None] sync_call = Fault UseAfterFree.
Proof.
  apply (@impatient_sync_client_crashes ref_json ref_alloc ref_malloc ref_urpc wire ref_wire
    ref_calls tab ref_table ref_table_laws (str "/node") (str "node") sync_call 0
    {| pc_callid := 0; pc_o := ping; pc_path := pending_path (str "/node") 0;
       pc_is_async := false; pc_request := 1; pc_retbuf := None; pc_status := str "pending" |}
    0 None (JObject [(str "status", JString (str "completed"))])).
  - vm_compute. reflexivity.
  - reflexivity.
  - decide_vm.
  - decide_vm.
  - reflexivity.
  - reflexivity.
Defined.

Lemma keepalive_reader_leaks_witness :
  ∃ st', node_run [Get 1 (str "/node/pending/0"); Get 1 (str "/node/pending/1"); Close 1] two_calls
      = Ok st' ∧
    resource st' (str "/node/pending/0") 0 (set_status (str "dead") (done_call 0)) ∧
    0%nat ∈ gc_call_list st' ∧ calls_heap st' !! 1%nat = None ∧
    ∀ c, closecb st' !! c ≠ Some 0%nat.
Proof.
  apply (@keepalive_reader_leaks ref_json ref_alloc ref_malloc ref_urpc wire ref_wire ref_calls tab
    ref_table ref_table_laws (str "/node") (str "node") two_calls
    (str "/node/pending/0") (str "/node/pending/1") 0 1 (done_call 0) (done_call 1)
    (JObject [(str "status", JString (str "completed")); (str "data", JArray [JInt 42])])
    (JObject [(str "status", JString (str "completed")); (str "data", JArray [JInt 42])]) 1).
  - decide_vm.
  - split; vm_compute; reflexivity.
  - split; vm_compute; reflexivity.
  - discriminate.
  - reflexivity.
  - discriminate.
  - reflexivity.
  - reflexivity.
  - intros c. change ((∅ : gmap nat nat) !! c ≠ Some 0%nat). by rewrite lookup_empty.
Defined.

Lemma cleanup_frees_all_witness :
  ∃ st', ahttpd_callresource_cleanup two_calls = Ok st' ∧ calls_heap st' = ∅ ∧
    pending_call_list st' = [] ∧ gc_call_list st' = [] ∧
    ∀ p a, cb_find (table st') p ≠ Some (CbReadout a).
Proof.
  apply (@cleanup_frees_all ref_json ref_alloc ref_malloc ref_urpc wire ref_wire ref_calls tab
    ref_table ref_table_laws (str "/node") (str "node")
    [Call 1 ping CallRun.args true; Call 1 ping CallRun.args true;
     Complete 0 0 (Some answer); Complete 1 0 (Some answer)] idle two_calls).
  - exact idle_no_calls.
  - apply after_ok. vm_compute. reflexivity.
Defined.
