(* ===== verification/NodeFs.v ===== *)
(** * fs_node.c: a node of aura as a file system

    The handlers of a node mountpoint: the description of its methods and
    events (/exports), its status, its pending events, and the paths
    /call/<name> and /acall/<name> that follow aura's export table.  Calls
    themselves are in CallResource.

    [etable_ptr] keeps apart a pointer that is NULL, one to a live json
    object and one that dangles.  The node is aura's: class [AuraNode]. *)

From S2P Require Import Prelude CLib Json Evhttp Upload Serdes CallResource.
From Stdlib Require Import Strings.Byte.

(** ** Data *)

Class AuraNode (node ab : Type) := {
  (** NULL when the transport cannot be opened. *)
  aura_open : bytes → bytes → option node;
  aura_get_status : node → Z;
  AURA_STATUS_ONLINE : Z;
  aura_get_pending_events : node → Z;
  aura_get_next_event : node → aura_object * ab * node;
  (** [node->tbl]: the objects of the export table, and the lookup by name. *)
  aura_table : node → list aura_object;
  aura_etable_find : list aura_object → bytes → option aura_object
}.

(** [evhttp_uridecode] as a parameter; NULL on failure. *)
Class UriDecode := { evhttp_uridecode : bytes → option bytes }.

Inductive etable_ptr :=
  | ENull
  | ELive (j : json)
  | EFreed.

(** [struct nodefs_data]: the calls are a [node_state]; [nd_node] is NULL until
    the mount succeeds. *)
Record nodefs_data (tab node : Type) := {
  nd_calls : node_state tab;
  nd_node : option node;
  nd_etable : etable_ptr
}.
Arguments nd_calls {tab node} _.
Arguments nd_node {tab node} _.
Arguments nd_etable {tab node} _.

(** A request for a call: its method, the path and the query of its URI, and
    the body. *)
Record call_request := {
  cr_command : Z;
  cr_path : bytes;
  cr_query : option bytes;
  cr_body : bytes
}.

Section node.
Context `{JsonC} `{JsonAlloc} `{Malloc} `{Urpc} `{AuraBuffer ab} `{AuraCalls ab}.
Context {node : Type} `{AuraNode node ab} `{UriDecode}.
Context `{CbTable tab node_cb}.
Context (mountpoint fs_name : bytes).
Notation state := (nodefs_data tab node).
Implicit Types (nd : state).

Definition on_calls (f : node_state tab → node_state tab) nd : state :=
  {| nd_calls := f (nd_calls nd); nd_node := nd_node nd; nd_etable := nd_etable nd |}.

Definition set_etable (e : etable_ptr) nd : state :=
  {| nd_calls := nd_calls nd; nd_node := nd_node nd; nd_etable := e |}.

Definition set_node (n : option node) nd : state :=
  {| nd_calls := nd_calls nd; nd_node := n; nd_etable := nd_etable nd |}.

Definition get_node nd : outcome node := deref NullDeref (nd_node nd).

(** ** Describing the exports *)

Definition object_to_json (o : aura_object) : outcome (option json) :=
  match json_new (JObject []), json_new (JString (o_name o)), json_new (JInt (o_id o)),
        json_new (JString (if object_is_event o then str "event" else str "method")) with
  | Some _, Some name, Some id, Some type =>
      let ret := json_object_object_add [] (str "name") name in
      let ret := json_object_object_add ret (str "id") id in
      let ret := json_object_object_add ret (str "type") type in
      ret ← (if object_is_method o then
               afmt ← ahttpd_format_to_json (arg_fmt o);
               Ok match afmt with
                  | Some afmt => Some (json_object_object_add ret (str "afmt") afmt)
                  | None => None
                  end
             else Ok (Some ret));
      match ret with
      | None => Ok None
      | Some ret =>
          rfmt ← ahttpd_format_to_json (ret_fmt o);
          Ok match rfmt with
             | Some rfmt => Some (JObject (json_object_object_add ret (str "rfmt") rfmt))
             | None => None
             end
      end
  | _, _, _, _ => Ok None
  end.

(** ** Calls *)

(** NULL is [None]; a JSON null is NULL too. *)
Definition extract_json_from_request (rq : call_request) : outcome (option json) :=
  jsonargs ← (if cr_command rq =? EVHTTP_REQ_GET then
                Ok match cr_query rq with Some q => evhttp_uridecode q | None => None end
              else if cr_command rq =? EVHTTP_REQ_PUT then
                match malloc (length (cr_body rq) + 1) with
                | None => Fault BugAbort
                | Some _ => Ok (c_string (cr_body rq ++ [x00]))
                end
              else Ok None);
  match jsonargs with
  | None => Ok None
  | Some jsonargs =>
      let '(ret, ok) := json_tokener_parse_verbose jsonargs in
      Ok (if (ok : bool) then match ret with JNull => None | _ => Some ret end else None)
  end.

Definition issue_call nd (con : nat) (rq : call_request) (name : bytes) (is_async : bool)
    : outcome state :=
  let '(allowed, l) := ahttpd_method_allowed (cr_command rq)
                         (Z.lor EVHTTP_REQ_GET EVHTTP_REQ_PUT) [] in
  let answer l := on_calls (reply con (λ _, l)) nd in
  if allowed =? 0 then Ok (answer l)
  else
    args ← extract_json_from_request rq;
    match args with
    | None => Ok (answer [SendError 400 (str "Failed to extract request data")])
    | Some args =>
        n ← get_node nd;
        match aura_etable_find (aura_table n) name with
        | None => Ok (answer [SendError 400 (str "Failed to locate find method in etable")])
        | Some o =>
            st ← ahttpd_call_create mountpoint fs_name (nd_calls nd) con o args is_async;
            Ok (on_calls (λ _, st) nd)
        end
    end.

(** A pointer into the path, which must not go past its end. *)
Definition get_call_methodname (rq : call_request) (basepath : bytes) : outcome bytes :=
  let n := (length mountpoint + length basepath)%nat in
  if decide (n <= length (cr_path rq))%nat then Ok (drop n (cr_path rq)) else Fault OutOfBounds.

Definition issue_call_async_cb nd (con : nat) (rq : call_request) : outcome state :=
  name ← get_call_methodname rq (str "/acall/");
  issue_call nd con rq name true.

Definition issue_call_sync_cb nd (con : nat) (rq : call_request) : outcome state :=
  name ← get_call_methodname rq (str "/call/");
  issue_call nd con rq name false.

(** ** The export table *)

Definition callpath_add (o : aura_object) (t : tab) : tab :=
  let t := ahttpd_add_path mountpoint (str "/call/" ++ o_name o) CbCallSync t in
  ahttpd_add_path mountpoint (str "/acall/" ++ o_name o) CbCallAsync t.

Definition callpath_delete (o : aura_object) (t : tab) : tab :=
  let t := ahttpd_del_path mountpoint (str "/call/" ++ o_name o) t in
  ahttpd_del_path mountpoint (str "/acall/" ++ o_name o) t.

Definition on_table (f : tab → tab) nd : state :=
  on_calls (λ st, set_table (f (table st)) st) nd.

(** The pointer is put and left as it is. *)
Definition etable_delete_callpaths nd (old : option (list aura_object)) : outcome state :=
  nd ← match nd_etable nd with
       | ENull => Ok nd
       | ELive _ => Ok (set_etable EFreed nd)
       | EFreed => Fault UseAfterFree
       end;
  match old with
  | None => Ok nd
  | Some old => Ok (on_table (fold_left (λ t o, callpath_delete o t) old) nd)
  end.

(** The objects described and their paths added, in order. *)
Fixpoint create_loop (l : list aura_object) (arr : json) (t : tab) : outcome (json * tab) :=
  match l with
  | [] => Ok (arr, t)
  | o :: l =>
      obj ← object_to_json o;
      create_loop l (json_object_array_add arr (default JNull obj)) (callpath_add o t)
  end.

Definition etable_create_callpaths nd (new : option (list aura_object)) : outcome state :=
  match new with
  | None => Ok nd
  | Some new =>
      match json_new (JArray []), new with
      | None, [] => Ok (set_etable ENull nd)
      | None, _ => Fault NullDeref
      | Some arr, _ =>
          r ← create_loop new arr (table (nd_calls nd));
          Ok (set_etable (ELive r.1) (on_table (λ _, r.2) nd))
      end
  end.

Definition etbl_changed_cb nd (old new : option (list aura_object)) : outcome state :=
  nd ← etable_delete_callpaths nd old;
  etable_create_callpaths nd new.

(** ** The other paths *)

Definition exports nd (con : nat) : outcome state :=
  match nd_etable nd with
  | ENull => Ok (on_calls (reply con (ahttpd_reply_with_json JNull)) nd)
  | ELive j => Ok (on_calls (reply con (ahttpd_reply_with_json j)) nd)
  | EFreed => Fault UseAfterFree
  end.

Definition status nd (con : nat) : outcome state :=
  n ← get_node nd;
  let jstatus := if aura_get_status n =? AURA_STATUS_ONLINE
                 then str "online" else str "offline" in
  Ok (on_calls (reply con (ahttpd_reply_with_json
        (JObject (json_object_object_add [] (str "status") (JString jstatus))))) nd).

Definition event_json (o : aura_object) (data : json) : json :=
  let evt := json_object_object_add [] (str "id") (JInt (o_id o)) in
  let evt := json_object_object_add evt (str "name") (JString (o_name o)) in
  JObject (json_object_object_add evt (str "data") data).

(** [for (i = 0; i < aura_get_pending_events(nd->node); i++)]: the bound is
    read again in every round. *)
Fixpoint events_loop (fuel : nat) (i : Z) (n : node) (l : list json)
    : outcome (list json * node) :=
  match fuel with
  | O => Fault OutOfFuel
  | S fuel =>
      if i <? aura_get_pending_events n then
        let '(o, buf, n) := aura_get_next_event n in
        r ← ahttpd_buffer_to_json buf (ret_fmt o);
        events_loop fuel (i + 1) n (l ++ [event_json o (default JNull r.1)])
      else Ok (l, n)
  end.

Definition events nd (con : nat) : outcome state :=
  n ← get_node nd;
  r ← events_loop (S (Z.to_nat (aura_get_pending_events n))) 0 n [];
  Ok (set_node (Some r.2) (on_calls (reply con (ahttpd_reply_with_json (JArray r.1))) nd)).

(** ** Mounting *)

Definition node_mount (props : json) nd : outcome (Z * state) :=
  tr ← json_array_find_string props (str "transport");
  options ← json_array_find_string props (str "options");
  match tr, options with
  | Some tr, Some options =>
      match aura_open tr options with
      | None => Ok (-1, set_node None nd)
      | Some n =>
          let nd := set_etable ENull (set_node (Some n) nd) in
          let nd := on_table (λ t,
            let t := ahttpd_add_path mountpoint (str "/exports") CbExports t in
            let t := ahttpd_add_path mountpoint (str "/events") CbEvents t in
            ahttpd_add_path mountpoint (str "/status") CbStatus t) nd in
          Ok (0, on_calls (set_lists [] []) nd)
      end
  | _, _ => Ok (-1, nd)
  end.

(** [aura_close] ends the life of the node. *)
Definition node_unmount nd : outcome state :=
  st ← ahttpd_callresource_cleanup (nd_calls nd);
  let nd := on_table (λ t,
    let t := ahttpd_del_path mountpoint (str "/exports") t in
    let t := ahttpd_del_path mountpoint (str "/events") t in
    ahttpd_del_path mountpoint (str "/status") t) (on_calls (λ _, st) nd) in
  Ok (set_node None nd).
End node.

(** ** The export table and the paths *)

(** The number of pending events goes down by one with each event taken. *)
Class AuraNodeLaws (node ab : Type) `{AuraNode node ab} := {
  pending_nonneg n : 0 <= aura_get_pending_events n;
  next_event_pending n :
    0 < aura_get_pending_events n →
    aura_get_pending_events (aura_get_next_event n).2 = aura_get_pending_events n - 1
}.

Section describe.
Context `{JsonC} `{!JsonCLaws} `{JsonAlloc} `{Urpc}.

(** A format string and its fields; NULL is a format without fields. *)
Definition fmt_is (fmt : option bytes) (fs : list field) : Prop :=
  Forall wf_field fs ∧ (fmt = Some (fmt_of fs) ∨ (fmt = None ∧ fs = [])).

Definition fields_json (fs : list field) : json := JArray (field_json <$> fs).

(** What /exports says about an object. *)
Definition describes (o : aura_object) (j : json) : Prop :=
  ∃ a r, (object_is_method o = true → fmt_is (arg_fmt o) a) ∧ fmt_is (ret_fmt o) r ∧
    j = JObject ([(str "name", JString (o_name o)); (str "id", JInt (o_id o));
                  (str "type", JString (if object_is_event o then str "event" else str "method"))]
                 ++ (if object_is_method o then [(str "afmt", fields_json a)] else [])
                 ++ [(str "rfmt", fields_json r)]).

Lemma format_described fmt fs :
  (∀ j, is_Some (json_new j)) → fmt_is fmt fs →
  ahttpd_format_to_json fmt = Ok (Some (fields_json fs)).
Proof.
  intros Ha [Hwf [->|[-> ->]]]; unfold ahttpd_format_to_json; rewrite json_new_eq by done.
  - by rewrite format_loop_spec by (done || lia).
  - done.
Qed.

Lemma object_described o j :
  (∀ j, is_Some (json_new j)) → describes o j → object_to_json o = Ok (Some j).
Proof.
  intros Ha (a & r & Hargs & Hret & ->). unfold object_to_json.
  rewrite !json_new_eq by done. cbv zeta.
  rewrite (object_add_fresh []) by decide_vm. cbn [app].
  rewrite (object_add_fresh [_]) by decide_vm. cbn [app].
  rewrite (object_add_fresh [_; _]) by decide_vm. cbn [app].
  destruct (object_is_method o).
  - rewrite (format_described _ _ Ha (Hargs eq_refl)), !bind_Ok.
    rewrite (format_described _ _ Ha Hret), bind_Ok.
    rewrite (object_add_fresh [_; _; _]) by decide_vm. cbn [app].
    by rewrite (object_add_fresh [_; _; _; _]) by decide_vm.
  - rewrite bind_Ok, (format_described _ _ Ha Hret), bind_Ok.
    by rewrite (object_add_fresh [_; _; _]) by decide_vm.
Qed.
End describe.

Section paths.
Context `{CbTable tab node_cb} `{!CbTableLaws tab node_cb}.
Context (mountpoint : bytes).
Implicit Types (t : tab) (o : aura_object) (n : bytes).

Definition call_path n : bytes := mountpoint ++ str "/call/" ++ n.
Definition acall_path n : bytes := mountpoint ++ str "/acall/" ++ n.

(** The call paths are those of a list of names. *)
Definition paths_match (names : list bytes) t : Prop :=
  ∀ n, cb_find t (call_path n) = (if decide (n ∈ names) then Some CbCallSync else None) ∧
       cb_find t (acall_path n) = (if decide (n ∈ names) then Some CbCallAsync else None).

Definition other_path (p : bytes) : Prop := ∀ n, p ≠ call_path n ∧ p ≠ acall_path n.

Lemma call_path_inj n n' : call_path n = call_path n' ↔ n = n'.
Proof. split; [|by intros ->]. by intros ?%app_inv_head%app_inv_head. Qed.

Lemma acall_path_inj n n' : acall_path n = acall_path n' ↔ n = n'.
Proof. split; [|by intros ->]. by intros ?%app_inv_head%app_inv_head. Qed.

Lemma call_acall n n' : call_path n ≠ acall_path n'.
Proof. intros Hp%app_inv_head. discriminate. Qed.

Lemma add_names_match t names o :
  paths_match names t → paths_match (o_name o :: names) (callpath_add mountpoint o t).
Proof.
  intros Ht n. unfold callpath_add.
  rewrite !add_path_find. fold (call_path (o_name o)) (acall_path (o_name o)).
  destruct (Ht (o_name o)) as [-> ->]. destruct (Ht n) as [-> ->].
  pose proof (call_acall n (o_name o)). pose proof (call_acall (o_name o) n).
  assert (n ∈ o_name o :: names ↔ n = o_name o ∨ n ∈ names) as E by apply elem_of_cons.
  pose proof (call_path_inj (o_name o) n). pose proof (acall_path_inj (o_name o) n).
  split; repeat case_decide; naive_solver.
Qed.

Lemma del_names_match t names o :
  paths_match names t →
  paths_match (filter (λ n, n ≠ o_name o) names) (callpath_delete mountpoint o t).
Proof.
  intros Ht n. unfold callpath_delete.
  rewrite !del_path_find. fold (call_path (o_name o)) (acall_path (o_name o)).
  destruct (Ht n) as [-> ->].
  pose proof (call_acall n (o_name o)). pose proof (call_acall (o_name o) n).
  assert (n ∈ filter (λ n, n ≠ o_name o) names ↔ n ≠ o_name o ∧ n ∈ names) as E
    by (rewrite list_elem_of_filter; tauto).
  pose proof (call_path_inj (o_name o) n). pose proof (acall_path_inj (o_name o) n).
  split; repeat case_decide; naive_solver.
Qed.

Lemma paths_match_ext names names' t :
  (∀ n, n ∈ names ↔ n ∈ names') → paths_match names t → paths_match names' t.
Proof.
  intros E Ht n. destruct (Ht n) as [-> ->]. specialize (E n).
  split; repeat case_decide; naive_solver.
Qed.

Lemma del_all_match (l : list aura_object) t names :
  paths_match names t →
  paths_match (filter (λ n, n ∉ o_name <$> l) names)
    (fold_left (λ t o, callpath_delete mountpoint o t) l t).
Proof.
  revert t names. induction l as [|o l IH]; intros t names Ht; simpl.
  - eapply paths_match_ext; [|done]. intros n. rewrite list_elem_of_filter.
    split; [intros Hn|by intros [_ ?]]. split; [apply not_elem_of_nil|done].
  - eapply paths_match_ext; [|apply IH, del_names_match, Ht].
    intros n. rewrite !list_elem_of_filter, not_elem_of_cons. tauto.
Qed.

Lemma other_add o t p :
  other_path p → cb_find (callpath_add mountpoint o t) p = cb_find t p.
Proof.
  intros Hp. unfold callpath_add. destruct (Hp (o_name o)) as [H1 H2].
  rewrite !add_path_find. fold (call_path (o_name o)) (acall_path (o_name o)).
  destruct (cb_find t (call_path (o_name o))), (cb_find t (acall_path (o_name o)));
    repeat case_decide; congruence.
Qed.

Lemma other_del o t p :
  other_path p → cb_find (callpath_delete mountpoint o t) p = cb_find t p.
Proof.
  intros Hp. unfold callpath_delete. destruct (Hp (o_name o)) as [H1 H2].
  rewrite !del_path_find. fold (call_path (o_name o)) (acall_path (o_name o)).
  by rewrite !decide_False by congruence.
Qed.

Lemma other_del_all (l : list aura_object) t p :
  other_path p →
  cb_find (fold_left (λ t o, callpath_delete mountpoint o t) l t) p = cb_find t p.
Proof.
  intros Hp. revert t. induction l as [|o l IH]; intros t; simpl; [done|].
  by rewrite IH, other_del.
Qed.
End paths.

Section changes.
Context `{JsonC} `{!JsonCLaws} `{JsonAlloc} `{Malloc} `{Urpc} `{AuraBuffer ab} `{AuraCalls ab}.
Context {node : Type} `{AuraNode node ab} `{UriDecode}.
Context `{CbTable tab node_cb} `{!CbTableLaws tab node_cb}.
Context (mountpoint : bytes).
Notation state := (nodefs_data tab node).
Implicit Types (nd : state) (l new : list aura_object) (old : option (list aura_object)).

Definition node_table nd : tab := table (nd_calls nd).

Definition names_of old : list bytes := o_name <$> default [] old.

Lemma create_loop_spec l js arr names (t : tab) :
  (∀ j, is_Some (json_new j)) → Forall2 describes l js → paths_match mountpoint names t →
  ∃ t', create_loop mountpoint l (JArray arr) t = Ok (JArray (arr ++ js), t') ∧
    paths_match mountpoint ((o_name <$> l) ++ names) t' ∧
    (∀ p, other_path mountpoint p → cb_find t' p = cb_find t p).
Proof.
  intros Ha Hl. revert arr names t. induction Hl as [|o j l js Ho _ IH]; intros arr names t Ht.
  - exists t. by rewrite app_nil_r.
  - cbn [create_loop]. rewrite (object_described o j) by done.
    cbn [mbind outcome_bind default from_option json_object_array_add id].
    destruct (IH (arr ++ [j]) (o_name o :: names) (callpath_add mountpoint o t))
      as (t' & -> & Hm & Ho'); [by apply add_names_match|].
    exists t'. rewrite <-app_assoc. split_and!; [done| |].
    + eapply paths_match_ext; [|apply Hm]. intros n. simpl.
      rewrite !elem_of_app, !elem_of_cons, elem_of_app. tauto.
    + intros p Hp. by rewrite Ho', other_add.
Qed.

(** One change of the table. *)
Lemma etable_changed nd old new js :
  (∀ j, is_Some (json_new j)) → Forall2 describes new js → nd_etable nd ≠ EFreed →
  paths_match mountpoint (names_of old) (node_table nd) →
  ∃ t', etbl_changed_cb mountpoint nd old (Some new) =
      Ok (set_etable (ELive (JArray js)) (on_table (λ _, t') nd)) ∧
    paths_match mountpoint (o_name <$> new) t' ∧
    (∀ p, other_path mountpoint p → cb_find t' p = cb_find (node_table nd) p).
Proof.
  intros Ha Hnew He Ht.
  set (t1 := match old with Some l => fold_left (λ t o, callpath_delete mountpoint o t) l
                                       (node_table nd) | None => node_table nd end).
  assert (paths_match mountpoint [] t1 ∧
          ∀ p, other_path mountpoint p → cb_find t1 p = cb_find (node_table nd) p) as [Ht1 Hp1].
  { subst t1. destruct old as [l|]; [|done]. split; [|by apply other_del_all].
    eapply paths_match_ext; [|apply del_all_match, Ht]. intros n.
    rewrite list_elem_of_filter. unfold names_of. simpl.
    split; [tauto|by intros ?%not_elem_of_nil]. }
  destruct (create_loop_spec new js [] [] t1 Ha Hnew Ht1) as (t' & Hloop & Hm & Hp').
  exists t'. split_and!.
  - unfold etbl_changed_cb, etable_delete_callpaths.
    destruct nd as [calls n e]. cbn in He.
    destruct e; [| |done]; cbn; destruct old as [l|]; cbn; rewrite ?json_new_eq by done;
      unfold t1, node_table in Hloop; cbn in Hloop; rewrite ?Hloop; done.
  - by rewrite app_nil_r in Hm.
  - intros p Hp. by rewrite Hp', Hp1.
Qed.

(** aura replaces its table by each of [news] in turn. *)
Fixpoint etable_changes nd old (news : list (list aura_object)) : outcome state :=
  match news with
  | [] => Ok nd
  | new :: news =>
      nd ← etbl_changed_cb mountpoint nd old (Some new);
      etable_changes nd (Some new) news
  end.
End changes.

(** ** Events *)

Section pop.
Context `{JsonC} `{JsonAlloc} `{Malloc} `{Urpc} `{AuraBuffer ab}.
Context {node : Type} `{AuraNode node ab} `{!AuraNodeLaws node ab}.

(** The first [k] events of the queue, and the node after them. *)
Fixpoint pop_events (k : nat) (n : node) : list (aura_object * ab) * node :=
  match k with
  | O => ([], n)
  | S k =>
      let '(o, buf, n) := aura_get_next_event n in
      let r := pop_events k n in
      ((o, buf) :: r.1, r.2)
  end.

(** What aura reports with an event. *)
Definition event_data (e : aura_object * ab) (d : json) : Prop :=
  ∃ buf', ahttpd_buffer_to_json e.2 (ret_fmt e.1) = Ok (Some d, buf').

Lemma half_bounds x : x - 1 <= 2 * (x / 2) <= x.
Proof. pose proof (Z.div_mod x 2 ltac:(lia)). pose proof (Z.mod_pos_bound x 2). lia. Qed.

Lemma events_loop_spec k fuel i (n : node) l ds :
  0 <= i <= aura_get_pending_events n + 1 →
  Z.of_nat k = (aura_get_pending_events n - i + 1) / 2 → (k < fuel)%nat →
  Forall2 event_data (pop_events k n).1 ds →
  events_loop fuel i n l =
    Ok (l ++ zip_with (λ e d, event_json e.1 d) (pop_events k n).1 ds, (pop_events k n).2).
Proof.
  revert fuel i n l ds. induction k as [|k IH]; intros fuel i n l ds Hi Hk Hf Hds;
    pose proof (half_bounds (aura_get_pending_events n - i + 1)) as Hb;
    destruct fuel as [|fuel]; try lia; cbn [events_loop].
  - rewrite (proj2 (Z.ltb_ge _ _)) by lia. inversion Hds; subst. by rewrite app_nil_r.
  - rewrite (proj2 (Z.ltb_lt _ _)) by lia.
    assert (0 < aura_get_pending_events n) as Hn%next_event_pending by lia.
    cbn [pop_events] in *. destruct (aura_get_next_event n) as [[o buf] n1]. cbn [fst snd] in *.
    inversion Hds as [|? d ? ds' (buf' & Hd) Hds' E1 E2]; subst. cbn [fst snd] in Hd.
    rewrite Hd, bind_Ok. cbn [fst default from_option id].
    pose proof (half_bounds (aura_get_pending_events n1 - (i + 1) + 1)).
    rewrite (IH fuel (i + 1) n1 _ ds') by (done || lia).
    cbn [zip_with fst]. by rewrite <-app_assoc.
Qed.

Lemma pop_events_pending k (n : node) :
  Z.of_nat k <= aura_get_pending_events n →
  aura_get_pending_events (pop_events k n).2 = aura_get_pending_events n - Z.of_nat k.
Proof.
  revert n. induction k as [|k IH]; intros n Hk; cbn [pop_events].
  - cbn. lia.
  - assert (0 < aura_get_pending_events n) as Hn%next_event_pending by lia.
    destruct (aura_get_next_event n) as [[o buf] n1]. cbn [fst snd] in *.
    rewrite IH by lia. lia.
Qed.
End pop.

(** ** Theorems *)

Section call_theorem.
Context `{JsonC} `{Malloc} `{Urpc} `{AuraBuffer ab} `{AuraCalls ab}.
Context {node : Type} `{AuraNode node ab} `{UriDecode} `{CbTable tab node_cb}.
Context (mountpoint fs_name : bytes).
Implicit Types nd : nodefs_data tab node.

(** C21: The handling of a request of one of the call paths, when it does not
    abort (buffer arguments and a failing malloc do), ends in exactly one of
    three ways.  The request is answered, once, with the error 405 (exactly when
    its method is neither GET nor PUT) or 400, and nothing else changes.  Or aura does not take the call: the request is
    answered, once, with the error 500, and nothing else changes but for the
    id, which is used up.  Or it becomes a pending call of the method the path
    names, with the next id and a fresh block, and a client of /acall is
    redirected to its temporary path while a client of /call waits. *)
Theorem call_request_answered nd con rq name (is_async : bool) nd' :
  cr_path rq = (if is_async then acall_path mountpoint name else call_path mountpoint name) →
  (if is_async then issue_call_async_cb mountpoint fs_name nd con rq
   else issue_call_sync_cb mountpoint fs_name nd con rq) = Ok nd' →
  let error code reason := reply con (λ l, l ++ [SendError code reason]) in
  let allowed := Z.land (Z.lor EVHTTP_REQ_GET EVHTTP_REQ_PUT) (cr_command rq) in
  (∃ reason, nd' = on_calls (error (if allowed =? 0 then 405 else 400) reason) nd) ∨
  (∃ reason, nd' = on_calls (λ st,
     error 500 reason (set_callid (wrap S32 (callid st + 1)) st)) nd) ∨
  (∃ n o, nd_node nd = Some n ∧ aura_etable_find (aura_table n) name = Some o ∧
     nd' = on_calls (λ st, accepted mountpoint st con o is_async) nd).
Proof.
  intros Hpath Hcb error allowed.
  assert (issue_call mountpoint fs_name nd con rq name is_async = Ok nd') as Hi.
  { unfold issue_call_async_cb, issue_call_sync_cb, get_call_methodname in Hcb.
    destruct is_async; rewrite Hpath in Hcb; unfold acall_path, call_path in Hcb;
      rewrite decide_True, app_assoc, <-length_app, drop_app_length in Hcb
        by (rewrite !length_app; lia); exact Hcb. }
  clear Hcb. unfold issue_call, ahttpd_method_allowed in Hi.
  fold allowed in Hi. destruct (allowed =? 0).
  { left. injection Hi as <-. by eexists. }
  apply bind_Ok_inv in Hi as (args & _ & Hi). destruct args as [args|].
  2: { left. injection Hi as <-. by eexists. }
  apply bind_Ok_inv in Hi as (n & Hn & Hi). unfold get_node in Hn.
  destruct (nd_node nd) as [n'|] eqn:En; [injection Hn as <-|done].
  destruct (aura_etable_find (aura_table n') name) as [o|] eqn:Eo.
  2: { left. injection Hi as <-. by eexists. }
  apply bind_Ok_inv in Hi as (st & Hst & Hi). injection Hi as <-.
  unfold ahttpd_call_create in Hst. case_match; [done|]. case_match; [|done].
  apply bind_Ok_inv in Hst as ([ret buf] & _ & Hst). case_match.
  { left. injection Hst as <-. by eexists. }
  right. case_match; injection Hst as <-.
  - left. by eexists.
  - right. exists n', o. split_and!; [done|done|]. by destruct is_async.
Qed.
End call_theorem.

Section theorems.
Context `{JsonC} `{!JsonCLaws} `{JsonAlloc} `{Malloc} `{Urpc} `{AuraBuffer ab} `{AuraCalls ab}.
Context {node : Type} `{AuraNode node ab} `{!AuraNodeLaws node ab} `{UriDecode}.
Context `{CbTable tab node_cb} `{!CbTableLaws tab node_cb}.
Context (mountpoint fs_name : bytes).
Notation state := (nodefs_data tab node).
Implicit Types (nd : state) (old : option (list aura_object)).

(** C6: However often aura replaces its export table, after each change the
    call paths of the mountpoint are exactly those of the methods and events
    of the last table, every other path leads where it did, the calls in
    progress are untouched, and /exports answers with the description of the
    last table, object by object. *)
Theorem call_paths_follow_etable nd old news new js con :
  (∀ j, is_Some (json_new j)) →
  Forall (λ l, ∃ js, Forall2 describes l js) news → Forall2 describes new js →
  nd_etable nd ≠ EFreed → paths_match mountpoint (names_of old) (node_table nd) →
  ∃ nd', etable_changes mountpoint nd old (news ++ [new]) = Ok nd' ∧
    paths_match mountpoint (o_name <$> new) (node_table nd') ∧
    (∀ p, other_path mountpoint p → cb_find (node_table nd') p = cb_find (node_table nd) p) ∧
    nd_calls nd' = set_table (node_table nd') (nd_calls nd) ∧ nd_node nd' = nd_node nd ∧
    exports nd' con = Ok (on_calls (reply con (ahttpd_reply_with_json (JArray js))) nd').
Proof.
  intros Ha Hnews Hnew. revert nd old.
  induction Hnews as [|l news [jl Hl] _ IH]; intros nd old He Ht; cbn [etable_changes app].
  - destruct (etable_changed mountpoint nd old new js Ha Hnew He Ht) as (t' & -> & Hm & Hp).
    rewrite bind_Ok. eexists. split_and!; done.
  - destruct (etable_changed mountpoint nd old l jl Ha Hl He Ht) as (t' & -> & Hm & Hp).
    rewrite bind_Ok. edestruct IH as (nd' & Hc & Hm' & Hp' & Hcalls & Hn & He');
      [| |exists nd'; split_and!; [exact Hc|done| | | |done]]; try done.
    intros p Hother. rewrite Hp' by done. by apply Hp.
Qed.

(** C39: /events takes only half of the pending events, rounded up: they are
    taken from the queue and reported in order with their id, name and data,
    and the other half stays pending. *)
Theorem events_reports_half nd con n ds :
  nd_node nd = Some n →
  let k := Z.to_nat ((aura_get_pending_events n + 1) / 2) in
  Forall2 event_data (pop_events k n).1 ds →
  ∃ nd', events nd con = Ok nd' ∧
    nd_calls nd' = reply con (ahttpd_reply_with_json
      (JArray (zip_with (λ e d, event_json e.1 d) (pop_events k n).1 ds))) (nd_calls nd) ∧
    ∃ n', nd_node nd' = Some n' ∧ n' = (pop_events k n).2 ∧
      aura_get_pending_events n' = aura_get_pending_events n / 2.
Proof.
  intros En k Hds. unfold events, get_node. rewrite En. cbn [deref]. rewrite bind_Ok.
  pose proof (pending_nonneg n) as Hp.
  pose proof (half_bounds (aura_get_pending_events n + 1)) as Hb.
  pose proof (half_bounds (aura_get_pending_events n)) as Hb'.
  rewrite (events_loop_spec k _ _ _ _ ds); [|lia| |lia|done].
  - rewrite bind_Ok. eexists. split_and!; [done|done|]. eexists. split_and!; [done|done|].
    cbn [snd]. rewrite pop_events_pending by lia. lia.
  - rewrite Z.sub_0_r. lia.
Qed.

(** When aura drops the table of a node, the call paths go, and the
    description of the exports is freed; the node keeps pointing at it, so
    that the next request of /exports uses it after it is freed, and so does
    the next change of the table, whatever it is. *)
Theorem offline_node_uses_freed_exports nd j l con :
  nd_etable nd = ELive j → paths_match mountpoint (o_name <$> l) (node_table nd) →
  ∃ nd', etbl_changed_cb mountpoint nd (Some l) None = Ok nd' ∧
    paths_match mountpoint [] (node_table nd') ∧
    exports nd' con = Fault UseAfterFree ∧
    (∀ old' new', etbl_changed_cb mountpoint nd' old' new' = Fault UseAfterFree).
Proof.
  intros Ej Ht. destruct nd as [calls n e]. cbn in Ej. subst e.
  eexists. split_and!; [reflexivity| |reflexivity|reflexivity].
  eapply paths_match_ext; [|apply (del_all_match _ _ _ _ Ht)]. intros m.
  rewrite list_elem_of_filter. split; [tauto|by intros ?%not_elem_of_nil].
Qed.
End theorems.

(** ** Witnesses *)

Module NodeRun.
(** A node with a table and a queue of events. *)
Record node := { nd_table : list aura_object; nd_queue : list (aura_object * SerdesRun.wire) }.

#[export] Instance ref_node : AuraNode node SerdesRun.wire := {
  aura_open _ _ := Some {| nd_table := []; nd_queue := [] |};
  aura_get_status _ := 1;
  AURA_STATUS_ONLINE := 1;
  aura_get_pending_events n := Z.of_nat (length (nd_queue n));
  aura_get_next_event n :=
    match nd_queue n with
    | (o, b) :: q => (o, b, {| nd_table := nd_table n; nd_queue := q |})
    | [] => (CallRun.ping, SerdesRun.empty, n)
    end;
  aura_table := nd_table;
  aura_etable_find l name := List.find (λ o, bool_decide (o_name o = name)) l
}.

#[export] Program Instance ref_node_laws : AuraNodeLaws node SerdesRun.wire.
Next Obligation. intros n. simpl. lia. Qed.
Next Obligation.
  intros [t [|[o b] q]] Hn; cbn [aura_get_pending_events ref_node nd_queue length] in *; [lia|].
  cbn. lia.
Qed.

#[export] Instance ref_uridecode : UriDecode := { evhttp_uridecode s := Some s }.

Definition tick : aura_object := {|
  o_name := str "tick"; o_id := 1; object_is_event := true; object_is_method := false;
  arg_fmt := None; ret_fmt := Some (str "1"); arglen := 0 |}.

Definition ticks (l : list Z) : list (aura_object * SerdesRun.wire) :=
  (λ z, (tick, {| SerdesRun.wr := []; SerdesRun.rd := [DInt U8 z] |})) <$> l.

Definition mounted : nodefs_data CallRun.tab node := {|
  nd_calls := CallRun.idle;
  nd_node := Some {| nd_table := [CallRun.ping; tick]; nd_queue := ticks [1; 2; 3] |};
  nd_etable := ENull |}.

Definition ping_json : json :=
  JObject [(str "name", JString (str "ping")); (str "id", JInt 0);
           (str "type", JString (str "method")); (str "afmt", JArray [JString (str "uint8_t")]);
           (str "rfmt", JArray [JString (str "uint8_t")])].

Definition tick_json : json :=
  JObject [(str "name", JString (str "tick")); (str "id", JInt 1);
           (str "type", JString (str "event")); (str "rfmt", JArray [JString (str "uint8_t")])].

Definition online : nodefs_data CallRun.tab node := {|
  nd_calls := set_table (@callpath_add CallRun.tab RefCb.ref_table (str "/node") CallRun.ping ∅) CallRun.idle;
  nd_node := Some {| nd_table := [CallRun.ping]; nd_queue := [] |};
  nd_etable := ELive (JArray [ping_json]) |}.

Definition call_ping : call_request := {|
  cr_command := EVHTTP_REQ_GET; cr_path := str "/node/acall/ping";
  cr_query := Some (str "[7]"); cr_body := [] |}.

(** The parser of the reference reads everything as a string, which is not an
    array of arguments: this one reads [7]. *)
#[export] Instance seven_json : JsonC := {
  json_object_object_add := @json_object_object_add RefJson.ref_json;
  json_object_get_string := @json_object_get_string RefJson.ref_json;
  json_object_get_int64 := @json_object_get_int64 RefJson.ref_json;
  json_object_get_int := @json_object_get_int RefJson.ref_json;
  json_object_get_boolean := @json_object_get_boolean RefJson.ref_json;
  json_object_to_json_string := @json_object_to_json_string RefJson.ref_json;
  json_tokener_parse_verbose s := (JArray [JInt 7], true)
}.
End NodeRun.

Import RefJson RefCb Recorder SerdesRun CallRun NodeRun.

Lemma ping_described : describes ping ping_json.
Proof.
  exists [FInt U8], [FInt U8]. split_and!; [intros _| |reflexivity];
    (split; [repeat constructor|by left]).
Qed.

Lemma tick_described : describes tick tick_json.
Proof.
  exists [], [FInt U8]. split_and!; [intros [=]| |reflexivity].
  split; [repeat constructor|by left].
Qed.

Lemma call_paths_follow_etable_witness :
  ∃ nd', etable_changes (str "/node") mounted None [[ping]; [ping; tick]] = Ok nd' ∧
    paths_match (str "/node") [str "ping"; str "tick"] (node_table nd') ∧
    (∀ p, other_path (str "/node") p →
       cb_find (node_table nd') p = cb_find (node_table mounted) p) ∧
    nd_calls nd' = set_table (node_table nd') (nd_calls mounted) ∧
    nd_node nd' = nd_node mounted ∧
    exports nd' 1 =
      Ok (on_calls (reply 1 (ahttpd_reply_with_json (JArray [ping_json; tick_json]))) nd').
Proof.
  apply (@call_paths_follow_etable ref_json ref_json_laws ref_alloc ref_urpc
    node tab ref_table ref_table_laws (str "/node")
    mounted None [[ping]] [ping; tick] [ping_json; tick_json] 1).
  - intros j. eexists. reflexivity.
  - repeat constructor. eexists. constructor; [exact ping_described|constructor].
  - constructor; [exact ping_described|constructor; [exact tick_described|constructor]].
  - discriminate.
  - intros n. split; reflexivity.
Defined.

(** A call of ping and what the node does with it. *)
Definition called : outcome (nodefs_data tab node) :=
  @issue_call_async_cb seven_json ref_malloc ref_urpc wire ref_wire ref_calls node ref_node
    ref_uridecode tab ref_table (str "/node") (str "node") online 1 call_ping.

Definition after_call : nodefs_data tab node := match called with Ok nd => nd | Fault _ => online end.

Lemma called_ok : is_ok called = true → called = Ok after_call.
Proof. unfold after_call. by destruct called. Qed.

Lemma call_request_answered_witness :
  called = Ok after_call ∧
  (let error code reason := reply 1 (λ l, l ++ [SendError code reason]) in
   let allowed := Z.land (Z.lor EVHTTP_REQ_GET EVHTTP_REQ_PUT) (cr_command call_ping) in
   (∃ reason, after_call = on_calls (error (if allowed =? 0 then 405 else 400) reason) online) ∨
   (∃ reason, after_call = on_calls (λ st,
      error 500 reason (set_callid (wrap S32 (callid st + 1)) st)) online) ∨
   (∃ n o, nd_node online = Some n ∧ aura_etable_find (aura_table n) (str "ping") = Some o ∧
      after_call = on_calls (λ st, accepted (str "/node") st 1 o true) online)).
Proof.
  assert (called = Ok after_call) as Hcall by (apply called_ok; vm_compute; reflexivity).
  split; [exact Hcall|].
  apply (@call_request_answered seven_json ref_malloc ref_urpc wire ref_wire ref_calls
    node ref_node ref_uridecode tab ref_table (str "/node") (str "node") online 1 call_ping
    (str "ping") true after_call).
  - reflexivity.
  - exact Hcall.
Defined.

Lemma events_reports_half_witness :
  ∃ nd', events mounted 1 = Ok nd' ∧
    nd_calls nd' = reply 1 (ahttpd_reply_with_json
      (JArray [event_json tick (JArray [JInt 1]); event_json tick (JArray [JInt 2])]))
      (nd_calls mounted) ∧
    ∃ n', nd_node nd' = Some n' ∧ n' = {| nd_table := [ping; tick]; nd_queue := ticks [3] |} ∧
      aura_get_pending_events n' = 1.
Proof.
  apply (@events_reports_half ref_json ref_alloc ref_urpc wire ref_wire
    node ref_node ref_node_laws tab mounted 1
    {| nd_table := [ping; tick]; nd_queue := ticks [1; 2; 3] |} [JArray [JInt 1]; JArray [JInt 2]]).
  - reflexivity.
  - repeat constructor; eexists; reflexivity.
Defined.

Lemma offline_node_uses_freed_exports_witness :
  ∃ nd', etbl_changed_cb (str "/node") online (Some [ping]) None = Ok nd' ∧
    paths_match (str "/node") [] (node_table nd') ∧
    exports nd' 1 = Fault UseAfterFree ∧
    (∀ old' new', etbl_changed_cb (str "/node") nd' old' new' = Fault UseAfterFree).
Proof.
  apply (@offline_node_uses_freed_exports ref_json ref_alloc ref_urpc node tab ref_table
    ref_table_laws (str "/node") online (JArray [ping_json]) [ping] 1).
  - reflexivity.
  - apply (add_names_match (str "/node") ∅ [] ping). intros n. split; reflexivity.
Defined.
