(* ===== verification/Mime.v ===== *)
(** * mime.c: MIME types by file extension

    The table of types goes into one of the C library's hash tables at
    startup; a type is guessed from the part of the name after the last dot.
    The hash table is modelled by what hsearch_r promises: [ENTER] keeps an
    entry that is there already and fails when the table is full, [FIND]
    looks a key up. *)

From S2P Require Import Prelude CLib Evhttp Upload.
From Stdlib Require Import Strings.Byte.

(** A key and its data. *)
Abbreviation ENTRY := (bytes * bytes)%type.

(** [struct hsearch_data]: the entries and how many were asked for. *)
Record hsearch_data := { htab_size : nat; htab : list ENTRY }.

(** Its failure for lack of memory is never looked at, and taken not to
    happen. *)
Definition hcreate_r (nel : nat) : hsearch_data := {| htab_size := nel; htab := [] |}.

(** [hsearch_r] with [ENTER]; [None] is the return value 0. *)
Definition hsearch_enter (e : ENTRY) (hs : hsearch_data) : option hsearch_data :=
  match assoc e.1 (htab hs) with
  | Some _ => Some hs
  | None =>
      if (length (htab hs) <? htab_size hs)%nat
      then Some {| htab_size := htab_size hs; htab := htab hs ++ [e] |}
      else None
  end.

Definition hsearch_find (key : bytes) (hs : hsearch_data) : option bytes := assoc key (htab hs).

(** Up to the sentinel. *)
Definition mimedb : list ENTRY := [
  (str ".pdf", str "application/pdf");
  (str ".sig", str "application/pgp-signature");
  (str ".spl", str "application/futuresplash");
  (str ".class", str "application/octet-stream");
  (str ".ps", str "application/postscript");
  (str ".torrent", str "application/x-bittorrent");
  (str ".dvi", str "application/x-dvi");
  (str ".gz", str "application/x-gzip");
  (str ".pac", str "application/x-ns-proxy-autoconfig");
  (str ".swf", str "application/x-shockwave-flash");
  (str ".tar.gz", str "application/x-tgz");
  (str ".tgz", str "application/x-tgz");
  (str ".tar", str "application/x-tar");
  (str ".zip", str "application/zip");
  (str ".mp3", str "audio/mpeg");
  (str ".m3u", str "audio/x-mpegurl");
  (str ".wma", str "audio/x-ms-wma");
  (str ".wax", str "audio/x-ms-wax");
  (str ".ogg", str "application/ogg");
  (str ".wav", str "audio/x-wav");
  (str ".gif", str "image/gif");
  (str ".jpg", str "image/jpeg");
  (str ".jpeg", str "image/jpeg");
  (str ".png", str "image/png");
  (str ".xbm", str "image/x-xbitmap");
  (str ".xpm", str "image/x-xpixmap");
  (str ".xwd", str "image/x-xwindowdump");
  (str ".css", str "text/css");
  (str ".html", str "text/html");
  (str ".htm", str "text/html");
  (str ".js", str "text/javascript");
  (str ".asc", str "text/plain");
  (str ".c", str "text/plain");
  (str ".cpp", str "text/plain");
  (str ".log", str "text/plain");
  (str ".conf", str "text/plain");
  (str ".text", str "text/plain");
  (str ".txt", str "text/plain");
  (str ".spec", str "text/plain");
  (str ".dtd", str "text/xml");
  (str ".xml", str "text/xml");
  (str ".mpeg", str "video/mpeg");
  (str ".mpg", str "video/mpeg");
  (str ".mov", str "video/quicktime");
  (str ".qt", str "video/quicktime");
  (str ".avi", str "video/x-msvideo");
  (str ".asf", str "video/x-ms-asf");
  (str ".asx", str "video/x-ms-asf");
  (str ".wmv", str "video/x-ms-wmv");
  (str ".bz2", str "application/x-bzip");
  (str ".tbz", str "application/x-bzip-compressed-tar");
  (str ".tar.bz2", str "application/x-bzip-compressed-tar");
  (str ".odt", str "application/vnd.oasis.opendocument.text");
  (str ".ods", str "application/vnd.oasis.opendocument.spreadsheet");
  (str ".odp", str "application/vnd.oasis.opendocument.presentation");
  (str ".odg", str "application/vnd.oasis.opendocument.graphics");
  (str ".odc", str "application/vnd.oasis.opendocument.chart");
  (str ".odf", str "application/vnd.oasis.opendocument.formula");
  (str ".odi", str "application/vnd.oasis.opendocument.image");
  (str ".odm", str "application/vnd.oasis.opendocument.text-master");
  (str ".ott", str "application/vnd.oasis.opendocument.text-template");
  (str ".ots", str "application/vnd.oasis.opendocument.spreadsheet-template");
  (str ".otp", str "application/vnd.oasis.opendocument.presentation-template");
  (str ".otg", str "application/vnd.oasis.opendocument.graphics-template");
  (str ".otc", str "application/vnd.oasis.opendocument.chart-template");
  (str ".otf", str "application/vnd.oasis.opendocument.formula-template");
  (str ".oti", str "application/vnd.oasis.opendocument.image-template");
  (str ".oth", str "application/vnd.oasis.opendocument.text-web")
].

Definition octet_stream : bytes := str "application/octet-stream".

(** [while (mimedb[i].key)]. *)
Fixpoint enter_all (l : list ENTRY) (hs : hsearch_data) : outcome hsearch_data :=
  match l with
  | [] => Ok hs
  | e :: l => hs ← deref BugAbort (hsearch_enter e hs); enter_all l hs
  end.

Section mime.
Context `{Malloc}.

(** The number of entries counts the sentinel. *)
Definition ahttpd_mime_init : outcome hsearch_data :=
  match malloc 16 with
  | None => Fault BugAbort
  | Some _ =>
      let n := S (length mimedb) in
      enter_all mimedb (hcreate_r (n + n / 4)%nat)
  end.

Definition file_get_extension (filename : bytes) : option bytes :=
  match strrchr filename "."%byte with
  | Some i => Some (drop i filename)
  | None => None
  end.

Definition ahttpd_mime_guess (instance : hsearch_data) (filename : bytes) : bytes :=
  match file_get_extension filename with
  | None => octet_stream
  | Some ext =>
      match hsearch_find ext instance with
      | Some data => data
      | None => octet_stream
      end
  end.
End mime.

(** ** The table *)

Lemma mimedb_keys : NoDup mimedb.*1.
Proof. decide_vm. Qed.

(** Entries with distinct keys are entered in order when they fit. *)
Lemma enter_all_spec l n l0 :
  NoDup (l0 ++ l).*1 → (length (l0 ++ l) <= n)%nat →
  enter_all l {| htab_size := n; htab := l0 |} = Ok {| htab_size := n; htab := l0 ++ l |}.
Proof.
  revert l0. induction l as [|[k v] l IH]; intros l0 Hnd Hn; simpl.
  - by rewrite app_nil_r.
  - unfold hsearch_enter. cbn [htab htab_size fst].
    replace (l0 ++ (k, v) :: l) with ((l0 ++ [(k, v)]) ++ l) in * by by rewrite <-app_assoc.
    assert (assoc k l0 = None) as ->.
    { apply assoc_None. rewrite fmap_app, fmap_app in Hnd.
      apply NoDup_app in Hnd as (Hnd & _ & _). apply NoDup_app in Hnd as (_ & Hnd & _).
      intros Hk. apply (Hnd k Hk). simpl. set_solver. }
    rewrite (proj2 (Nat.ltb_lt _ _)) by (rewrite !length_app in Hn; simpl in Hn; lia).
    cbn [deref]. rewrite bind_Ok. by apply IH.
Qed.

Section theorems.
Context `{Malloc}.

(** C40: The server starts with a complete table, and the type of a file is
    the one the table has for the last dot of the name and what follows: the
    entry's type for every entry whose key has a single dot and every name
    that ends with it, and the octet-stream type for a name without a dot or
    with an unknown ending.  An entry with two dots is never the answer: the
    types of .tar.gz and .tar.bz2 files are those of .gz and .bz2. *)
Theorem mime_guess_by_extension :
  is_Some (malloc 16) →
  ∃ hs, ahttpd_mime_init = Ok hs ∧
    (∀ name ext ty, "."%byte ∉ ext → ("."%byte :: ext, ty) ∈ mimedb →
       ahttpd_mime_guess hs (name ++ "."%byte :: ext) = ty) ∧
    (∀ name ext, "."%byte ∉ ext → "."%byte :: ext ∉ mimedb.*1 →
       ahttpd_mime_guess hs (name ++ "."%byte :: ext) = octet_stream) ∧
    (∀ name, "."%byte ∉ name → ahttpd_mime_guess hs name = octet_stream) ∧
    (∀ name, ahttpd_mime_guess hs (name ++ str ".tar.gz") = str "application/x-gzip" ∧
       ahttpd_mime_guess hs (name ++ str ".tar.bz2") = str "application/x-bzip").
Proof.
  intros [blk Hm]. unfold ahttpd_mime_init. rewrite Hm. unfold hcreate_r.
  rewrite enter_all_spec by (exact mimedb_keys || (vm_compute; lia)).
  eexists. split; [done|]. unfold ahttpd_mime_guess, hsearch_find, file_get_extension.
  cbn [htab app].
  assert (∀ name ext, "."%byte ∉ ext →
    strrchr (name ++ "."%byte :: ext) "."%byte = Some (length name)) as Hlast
    by (intros; by apply strrchr_app_mid).
  split_and!.
  - intros name ext ty Hext Hin. rewrite Hlast, drop_app_length by done.
    by rewrite (assoc_elem _ _ _ mimedb_keys Hin).
  - intros name ext Hext Hin%assoc_None. rewrite Hlast, drop_app_length by done. by rewrite Hin.
  - intros name Hn%strrchr_None. by rewrite Hn.
  - intros name. split.
    + change (str ".tar.gz") with (str ".tar" ++ str ".gz"). rewrite app_assoc.
      change (str ".gz") with ("."%byte :: str "gz"). rewrite Hlast, drop_app_length by decide_vm.
      reflexivity.
    + change (str ".tar.bz2") with (str ".tar" ++ str ".bz2"). rewrite app_assoc.
      change (str ".bz2") with ("."%byte :: str "bz2"). rewrite Hlast, drop_app_length by decide_vm.
      reflexivity.
Qed.
End theorems.

Import Recorder.

Lemma mime_guess_by_extension_witness :
  ∃ hs, ahttpd_mime_init = Ok hs ∧
    (∀ name ext ty, "."%byte ∉ ext → ("."%byte :: ext, ty) ∈ mimedb →
       ahttpd_mime_guess hs (name ++ "."%byte :: ext) = ty) ∧
    (∀ name ext, "."%byte ∉ ext → "."%byte :: ext ∉ mimedb.*1 →
       ahttpd_mime_guess hs (name ++ "."%byte :: ext) = octet_stream) ∧
    (∀ name, "."%byte ∉ name → ahttpd_mime_guess hs name = octet_stream) ∧
    (∀ name, ahttpd_mime_guess hs (name ++ str ".tar.gz") = str "application/x-gzip" ∧
       ahttpd_mime_guess hs (name ++ str ".tar.bz2") = str "application/x-bzip").
Proof.
  apply (@mime_guess_by_extension ref_malloc). eexists. reflexivity.
Defined.
