(* ===== verification/Server.v ===== *)
(** * vfs.c and server.c: filesystems, mountpoints and the server

    A filesystem is a record of operations ([struct ahttpd_fs]); the ones that
    register with the two operations they must have can be mounted by the
    configuration.  A mountpoint points at its filesystem by its place in the
    registry and owns the filesystem's data, whose type is a parameter.

    What the server relies on is the class [FsLocal]: mounting a
    filesystem changes nothing in libevent's table but paths under its
    mountpoint.  The theorems about the server's paths are proved from it. *)

From S2P Require Import Prelude CLib Json Evhttp Upload Mime.
From Stdlib Require Import Strings.Byte.

(** ** Data *)

(** [struct ahttpd_fs].  The operations get the mountpoint's path, its
    configuration and its data (NULL when the filesystem has none), and work
    on the callback table of the server. *)
Record ahttpd_fs (tab fsd : Type) := {
  fs_name : bytes;
  usage : Z;
  fsdatalen : Z;
  fs_mount : option (bytes → json → option fsd → tab → outcome (Z * option fsd * tab));
  fs_unmount : option (bytes → json → option fsd → tab → outcome tab);
  fs_route : option (hsearch_data → bytes → bytes → option fsd → list http_call →
                     outcome (list http_call))
}.
Arguments fs_name {tab fsd} _.
Arguments usage {tab fsd} _.
Arguments fsdatalen {tab fsd} _.
Arguments fs_mount {tab fsd} _.
Arguments fs_unmount {tab fsd} _.
Arguments fs_route {tab fsd} _.

(** [struct ahttpd_mountpoint]. *)
Record ahttpd_mountpoint (fsd : Type) := {
  mountpoint : bytes;
  props : json;
  mp_fs : nat;
  fsdata : option fsd
}.
Arguments mountpoint {fsd} _.
Arguments props {fsd} _.
Arguments mp_fs {fsd} _.
Arguments fsdata {fsd} _.

(** [char *host]: a string literal of the program or a block of its own. *)
Inductive char_ptr :=
  | Literal (s : bytes)
  | Heap (s : bytes).

Definition char_ptr_string (p : char_ptr) : bytes := match p with Literal s | Heap s => s end.

(** [struct ahttpd_server]; [eserver] is libevent's callback table. *)
Record ahttpd_server (tab fsd : Type) := {
  eserver : tab;
  host : char_ptr;
  port : Z;
  mountpoints : list (ahttpd_mountpoint fsd);
  index : option bytes;
  mimedb : hsearch_data;
  max_body_size : Z;
  max_headers_size : Z
}.
Arguments eserver {tab fsd} _.
Arguments host {tab fsd} _.
Arguments port {tab fsd} _.
Arguments mountpoints {tab fsd} _.
Arguments index {tab fsd} _.
Arguments mimedb {tab fsd} _.
Arguments max_body_size {tab fsd} _.
Arguments max_headers_size {tab fsd} _.

(** The blocks of a filesystem's data as [calloc] returns them. *)
Class FsData (fsd : Type) := { fs_calloc : Z → option fsd }.

(** What the server needs of aura's event loop and of libevent at start. *)
Class ServerEnv := {
  aura_eventloop_create_empty : bool;
  aura_eventloop_moduledata_get : bool;
  evhttp_new : bool;
  evhttp_bind_socket : bytes → Z → Z
}.

(** The callback that redirects "/" to a place. *)
Class RedirectCb (cb : Type) := { ahttpd_redirect : bytes → cb }.

Definition EVHTTP_NOTFOUND : Z := 404.

(** [strdup]: the string ends at its first NUL. *)
Definition strdup `{Malloc} (s : bytes) : option bytes :=
  match c_string (s ++ [x00]) with
  | Some s => match malloc (length s + 1) with Some _ => Some s | None => None end
  | None => None
  end.

Section server.
Context `{JsonC} `{Malloc} {tab cb fsd : Type} `{CbTable tab cb} `{FsData fsd} `{RedirectCb cb}.
Context `{ServerEnv}.
Notation fs := (ahttpd_fs tab fsd).
Notation server := (ahttpd_server tab fsd).
Notation mpoint := (ahttpd_mountpoint fsd).
Implicit Types (srv : server) (mp : mpoint).

Definition set_eserver (t : tab) srv : server := {|
  eserver := t; host := host srv; port := port srv; mountpoints := mountpoints srv;
  index := index srv; mimedb := mimedb srv; max_body_size := max_body_size srv;
  max_headers_size := max_headers_size srv |}.

Definition set_host (h : char_ptr) srv : server := {|
  eserver := eserver srv; host := h; port := port srv; mountpoints := mountpoints srv;
  index := index srv; mimedb := mimedb srv; max_body_size := max_body_size srv;
  max_headers_size := max_headers_size srv |}.

Definition set_port (p : Z) srv : server := {|
  eserver := eserver srv; host := host srv; port := p; mountpoints := mountpoints srv;
  index := index srv; mimedb := mimedb srv; max_body_size := max_body_size srv;
  max_headers_size := max_headers_size srv |}.

Definition set_mountpoints (l : list mpoint) srv : server := {|
  eserver := eserver srv; host := host srv; port := port srv; mountpoints := l;
  index := index srv; mimedb := mimedb srv; max_body_size := max_body_size srv;
  max_headers_size := max_headers_size srv |}.

Definition set_index (i : option bytes) srv : server := {|
  eserver := eserver srv; host := host srv; port := port srv; mountpoints := mountpoints srv;
  index := i; mimedb := mimedb srv; max_body_size := max_body_size srv;
  max_headers_size := max_headers_size srv |}.

Definition set_max_body_size (n : Z) srv : server := {|
  eserver := eserver srv; host := host srv; port := port srv; mountpoints := mountpoints srv;
  index := index srv; mimedb := mimedb srv; max_body_size := n;
  max_headers_size := max_headers_size srv |}.

Definition set_max_headers_size (n : Z) srv : server := {|
  eserver := eserver srv; host := host srv; port := port srv; mountpoints := mountpoints srv;
  index := index srv; mimedb := mimedb srv; max_body_size := max_body_size srv;
  max_headers_size := n |}.

(** ** vfs.c *)

(** Both operations are required. *)
Definition ahttpd_filesystem_register (f : fs) (fslist : list fs) : list fs :=
  match fs_mount f with
  | None => fslist
  | Some _ => match fs_unmount f with None => fslist | Some _ => fslist ++ [f] end
  end.

Definition use (f : fs) : fs := {|
  fs_name := fs_name f; usage := usage f + 1; fsdatalen := fsdatalen f;
  fs_mount := fs_mount f; fs_unmount := fs_unmount f; fs_route := fs_route f |}.

(** The first of that name, by its place; its use count goes up. *)
Fixpoint ahttpd_filesystem_lookup (fslist : list fs) (name : bytes) : option nat * list fs :=
  match fslist with
  | [] => (None, [])
  | pos :: r =>
      if decide (fs_name pos = name) then (Some O, use pos :: r)
      else
        let '(i, r) := ahttpd_filesystem_lookup r name in
        (S <$> i, pos :: r)
  end.

Definition ahttpd_mount (fslist : list fs) srv (opts : json) : outcome (Z * list fs * server) :=
  mp ← json_array_find_string opts (str "mountpoint");
  tp ← json_array_find_string opts (str "type");
  match tp, mp with
  | Some tp, Some mp =>
      let '(i, fslist) := ahttpd_filesystem_lookup fslist tp in
      match i with
      | None => Ok (-1, fslist, srv)
      | Some i =>
          f ← deref OutOfBounds (fslist !! i);
          _ ← deref BugAbort (malloc 56);
          data ← (if fsdatalen f =? 0 then Ok None
                  else d ← deref BugAbort (fs_calloc (fsdatalen f)); Ok (Some d));
          mount ← deref NullCall (fs_mount f);
          r ← mount mp opts data (eserver srv);
          let '(ret, data, t) := r in
          let srv := set_eserver t srv in
          if negb (ret =? 0) then Ok (-1, fslist, srv)
          else
            let m := {| mountpoint := mp; props := opts; mp_fs := i; fsdata := data |} in
            Ok (0, fslist, set_mountpoints (mountpoints srv ++ [m]) srv)
      end
  | _, _ => Fault BugAbort
  end.

(** The mountpoint is given by its place in the list of its server. *)
Definition ahttpd_unmount (fslist : list fs) (i : nat) srv : outcome server :=
  mp ← deref UseAfterFree (mountpoints srv !! i);
  f ← deref OutOfBounds (fslist !! mp_fs mp);
  unmount ← deref NullCall (fs_unmount f);
  t ← unmount (mountpoint mp) (props mp) (fsdata mp) (eserver srv);
  Ok (set_mountpoints (delete i (mountpoints srv)) (set_eserver t srv)).

Fixpoint mountpoint_find (l : list mpoint) (path : bytes) : option mpoint :=
  match l with
  | [] => None
  | pos :: l => if decide (mountpoint pos = path) then Some pos else mountpoint_find l path
  end.

Definition ahttpd_mountpoint_lookup srv (path : bytes) : option mpoint :=
  mountpoint_find (mountpoints srv) path.

Definition ahttpd_redirect_cb (arg : bytes) (calls : list http_call) : list http_call :=
  calls ++ [AddHeader (str "Location") arg;
            SendReply 302 (str "Redirect") (str "Redirecting to " ++ arg)].

(** ** server.c *)

Fixpoint mount_loop (n : nat) (i : Z) (fstab : json) (fslist : list fs) srv
    : outcome (list fs * server) :=
  match n with
  | O => Ok (fslist, srv)
  | S n =>
      let j := json_object_array_get_idx fstab i in
      r ← ahttpd_mount fslist srv j;
      mount_loop n (i + 1) fstab r.1.2 r.2
  end.

Definition load_mountpoints (fslist : list fs) srv (fstab : json) : outcome (list fs * server) :=
  mount_loop (Z.to_nat (json_object_array_length fstab)) 0 fstab fslist srv.

(** One member of the configuration. *)
Definition parse_member (key : bytes) (val : json) (fslist : list fs) srv
    : outcome (list fs * server) :=
  match json_object_get_type val with
  | json_type_string =>
      s ← deref NullDeref (json_object_get_string val);
      tmp ← deref BugAbort (strdup s);
      Ok (fslist,
          if decide (key = str "host") then set_host (Heap tmp) srv
          else if decide (key = str "index") then set_index (Some tmp) srv
          else srv)
  | json_type_int =>
      Ok (fslist,
          if decide (key = str "port") then set_port (json_object_get_int val) srv
          else if decide (key = str "max_body_size")
          then set_max_body_size (json_object_get_int val) srv
          else if decide (key = str "max_headers_size")
          then set_max_headers_size (json_object_get_int val) srv
          else srv)
  | json_type_array =>
      if decide (key = str "mountpoints") then load_mountpoints fslist srv val
      else Ok (fslist, srv)
  | _ => Ok (fslist, srv)
  end.

Fixpoint parse_members (l : list (bytes * json)) (fslist : list fs) srv
    : outcome (list fs * server) :=
  match l with
  | [] => Ok (fslist, srv)
  | (key, val) :: l => r ← parse_member key val fslist srv; parse_members l r.1 r.2
  end.

(** [json_object_object_foreach] needs an object. *)
Definition parse_config (fslist : list fs) srv (conf : json) : outcome (list fs * server) :=
  match conf with JObject l => parse_members l fslist srv | _ => Fault NullDeref end.

Fixpoint route_loop (fslist : list fs) (db : hsearch_data) (l : list mpoint) (uri : bytes)
    (calls : list http_call) : outcome (list http_call) :=
  match l with
  | [] => Ok (calls ++ [SendError EVHTTP_NOTFOUND (str "Not Found")])
  | pos :: l =>
      if starts_with (mountpoint pos) uri then
        f ← deref OutOfBounds (fslist !! mp_fs pos);
        match fs_route f with
        | Some route => route db uri (mountpoint pos) (fsdata pos) calls
        | None => route_loop fslist db l uri calls
        end
      else route_loop fslist db l uri calls
  end.

Definition generic_route (fslist : list fs) srv (uri : bytes) (calls : list http_call)
    : outcome (list http_call) :=
  route_loop fslist (mimedb srv) (mountpoints srv) uri calls.

Definition defaults (db : hsearch_data) : server := {|
  eserver := cb_empty; host := Literal (str "127.0.0.1"); port := 32001; mountpoints := [];
  index := None; mimedb := db; max_body_size := 8 * 1024 * 1024;
  max_headers_size := 1 * 1024 * 1024 |}.

Definition ahttpd_server_create (fslist : list fs) (config : json) : outcome (list fs * server) :=
  _ ← deref BugAbort (malloc 96);
  if negb aura_eventloop_create_empty then Fault BugAbort
  else if negb aura_eventloop_moduledata_get then Fault BugAbort
  else
    db ← ahttpd_mime_init;
    if negb evhttp_new then Fault BugAbort
    else
      r ← parse_config fslist (defaults db) config;
      let '(fslist, srv) := r in
      let srv := match index srv with
                 | Some i => set_eserver (evhttp_set_cb (eserver srv) (str "/")
                                            (ahttpd_redirect i)).2 srv
                 | None => srv
                 end in
      if negb (evhttp_bind_socket (char_ptr_string (host srv)) (port srv) =? 0)
      then Fault BugAbort
      else Ok (fslist, srv).

(** [list_for_each_entry_safe]: each round takes the first entry off. *)
Fixpoint unmount_all (fslist : list fs) (n : nat) srv : outcome server :=
  match n with
  | O => Ok srv
  | S n => srv ← ahttpd_unmount fslist 0 srv; unmount_all fslist n srv
  end.

(** The server at the end of its life. *)
Definition ahttpd_server_destroy (fslist : list fs) srv : outcome server :=
  srv ← unmount_all fslist (length (mountpoints srv)) srv;
  match host srv with
  | Literal _ => Fault BadFree
  | Heap _ => Ok srv
  end.
End server.

(** ** The interface of a filesystem *)

(** Mounting changes only paths under the mountpoint. *)
Class FsLocal {tab cb fsd} `{CbTable tab cb} (f : ahttpd_fs tab fsd) := {
  mount_local mount mp props d t ret d' t' p :
    fs_mount f = Some mount → mount mp props d t = Ok (ret, d', t') →
    ¬ mp `prefix_of` p → cb_find t' p = cb_find t p
}.

Section lemmas.
Context `{JsonC} `{!JsonCLaws} `{Malloc} {tab cb fsd : Type} `{CbTable tab cb} `{!CbTableLaws tab cb}.
Context `{FsData fsd} `{RedirectCb cb} `{ServerEnv}.
Notation fs := (ahttpd_fs tab fsd).
Notation server := (ahttpd_server tab fsd).
Notation mpoint := (ahttpd_mountpoint fsd).
Implicit Types (srv : server) (m : mpoint) (fl : list fs).

(** The same filesystems, whatever their use counts. *)
Definition same_ops (f g : fs) : Prop :=
  fs_name f = fs_name g ∧ fsdatalen f = fsdatalen g ∧ fs_mount f = fs_mount g ∧
  fs_unmount f = fs_unmount g ∧ fs_route f = fs_route g.

#[export] Instance same_ops_equiv : Equivalence same_ops.
Proof.
  split; unfold same_ops.
  - done.
  - intros f g. naive_solver.
  - intros f g h. naive_solver congruence.
Qed.

Lemma lookup_same_ops fl name i fl' :
  ahttpd_filesystem_lookup fl name = (i, fl') → Forall2 same_ops fl fl'.
Proof.
  revert i fl'. induction fl as [|f fl IH]; intros i fl' Hl; simpl in Hl; [by simplify_eq|].
  case_decide; [|destruct (ahttpd_filesystem_lookup fl name) as [j r] eqn:E]; simplify_eq.
  - constructor; [done|]. apply (reflexivity (R := Forall2 same_ops)).
  - constructor; [reflexivity|]. by eapply IH.
Qed.

Lemma lookup_finds fl name i fl' :
  ahttpd_filesystem_lookup fl name = (Some i, fl') →
  ∃ f, fl !! i = Some f ∧ fs_name f = name ∧
    ∀ j g, (j < i)%nat → fl !! j = Some g → fs_name g ≠ name.
Proof.
  revert i fl'. induction fl as [|f fl IH]; intros i fl' Hl; simpl in Hl; [by simplify_eq|].
  case_decide as Hf; [|destruct (ahttpd_filesystem_lookup fl name) as [[j|] r] eqn:E];
    simplify_eq/=.
  - exists f. split_and!; [done|done|]. intros j g ?. lia.
  - destruct (IH j r eq_refl) as (g & Hg & Hn & Hmin). exists g. split_and!; [done|done|].
    intros [|k] h Hk Hh; simpl in *; [by simplify_eq|]. apply (Hmin k h); [lia|done].
Qed.

Lemma same_ops_local f g : same_ops f g → FsLocal f → FsLocal g.
Proof.
  intros (_ & _ & Em & _) [Hm]. split. intros mount mp j d t ret d' t' p. rewrite <-Em. apply Hm.
Qed.

Lemma same_ops_all_local fl fl' : Forall2 same_ops fl fl' → Forall FsLocal fl → Forall FsLocal fl'.
Proof.
  induction 1; intros Hl; [done|]. apply Forall_cons in Hl as [? ?].
  constructor; [by eapply same_ops_local|auto].
Qed.

(** The path an entry of the configuration asks for, and what a mountpoint
    has to do with its entry. *)
Definition entry_path (e : json) (mp : bytes) : Prop :=
  json_array_find_string e (str "mountpoint") = Ok (Some mp).

Definition entry_ok fl m : Prop :=
  entry_path (props m) (mountpoint m) ∧
  ∃ tp f, json_array_find_string (props m) (str "type") = Ok (Some tp) ∧
    fl !! mp_fs m = Some f ∧ fs_name f = tp.

Definition outside (es : list json) (p : bytes) : Prop :=
  ∀ e mp, e ∈ es → entry_path e mp → ¬ mp `prefix_of` p.

Lemma outside_dec es p :
  outside es p ∨ ∃ e mp, e ∈ es ∧ entry_path e mp ∧ mp `prefix_of` p.
Proof.
  induction es as [|e es [IH|(e' & mp & He & Hp)]].
  - left. by intros e mp ?%not_elem_of_nil.
  - destruct (json_array_find_string e (str "mountpoint")) as [[mp|]|f] eqn:E.
    + destruct (decide (mp `prefix_of` p)); [right; exists e, mp; split_and!; [by left|done|done]|].
      left. intros e' mp' [->|?]%elem_of_cons Hp; [|by eapply IH].
      unfold entry_path in Hp. rewrite E in Hp. by simplify_eq.
    + left. intros e' mp' [->|?]%elem_of_cons Hp; [|by eapply IH].
      unfold entry_path in Hp. rewrite E in Hp. by simplify_eq.
    + left. intros e' mp' [->|?]%elem_of_cons Hp; [|by eapply IH].
      unfold entry_path in Hp. rewrite E in Hp. by simplify_eq.
  - right. exists e', mp. split; [by right|done].
Qed.

(** What mounting the entries [es] does to the registry and the server. *)
Definition mounts fl srv (es : list json) fl' srv' : Prop :=
  Forall2 same_ops fl fl' ∧
  ∃ ms, mountpoints srv' = mountpoints srv ++ ms ∧
    props <$> ms `sublist_of` es ∧ Forall (entry_ok fl) ms ∧
    (Forall FsLocal fl → ∀ p, outside es p → cb_find (eserver srv') p = cb_find (eserver srv) p).

(** What the configuration sets besides. *)
Definition settings srv := (host srv, port srv, index srv, max_body_size srv, max_headers_size srv).

Lemma mount_spec fl srv opts ret fl' srv' :
  ahttpd_mount fl srv opts = Ok (ret, fl', srv') →
  mounts fl srv [opts] fl' srv' ∧ settings srv' = settings srv.
Proof.
  intros Hm. unfold ahttpd_mount in Hm.
  apply bind_Ok_inv in Hm as (mp & Hmp & Hm). apply bind_Ok_inv in Hm as (tp & Htp & Hm).
  destruct tp as [tp|], mp as [mp|]; try done.
  destruct (ahttpd_filesystem_lookup fl tp) as [i fl1] eqn:El.
  pose proof (lookup_same_ops _ _ _ _ El) as Hsame.
  destruct i as [i|]; simplify_eq/=.
  2: { split; [|done]. split; [done|]. exists []. rewrite app_nil_r.
       split_and!; [done|apply sublist_nil_l|done|done]. }
  destruct (lookup_finds _ _ _ _ El) as (f & Hf & Hname & _).
  destruct (Forall2_lookup_l _ _ _ _ _ Hsame Hf) as (g & Hg & Hfg).
  rewrite Hg in Hm. cbn [deref] in Hm. rewrite bind_Ok in Hm.
  apply bind_Ok_inv in Hm as (_ & _ & Hm). apply bind_Ok_inv in Hm as (data & _ & Hm).
  apply bind_Ok_inv in Hm as (mount & Hmount & Hm).
  apply bind_Ok_inv in Hm as ([[ret' data'] t] & Hr & Hm).
  destruct (fs_mount g) as [mount'|] eqn:Eg; simplify_eq/=.
  assert (Forall FsLocal fl → ∀ p, outside [opts] p → cb_find t p = cb_find (eserver srv) p) as Hlocal.
  { intros Hl p Hp. pose proof (same_ops_all_local _ _ Hsame Hl) as Hl'.
    pose proof (Forall_lookup_1 _ _ _ _ Hl' Hg) as [Hloc].
    eapply Hloc; [done|done|]. eapply Hp; [by left|done]. }
  case_match; simplify_eq.
  - split; [|done]. split; [done|]. exists []. rewrite app_nil_r. split_and!; try done.
    apply sublist_nil_l.
  - split; [|done]. split; [done|]. eexists [_]. split_and!; [done|done| |done].
    constructor; [|done]. split; [done|]. exists (fs_name f), f. split_and!; done.
Qed.

Lemma mounts_trans fl srv es1 fl1 srv1 es2 fl2 srv2 :
  mounts fl srv es1 fl1 srv1 → mounts fl1 srv1 es2 fl2 srv2 → mounts fl srv (es1 ++ es2) fl2 srv2.
Proof.
  intros (Hs1 & ms1 & E1 & Hsub1 & Hok1 & Hl1) (Hs2 & ms2 & E2 & Hsub2 & Hok2 & Hl2).
  split; [by etrans|]. exists (ms1 ++ ms2). split_and!.
  - by rewrite E2, E1, app_assoc.
  - rewrite fmap_app. by apply sublist_app.
  - apply Forall_app. split; [done|]. eapply Forall_impl; [done|].
    intros m (Hp & tp & g & Htp & Hg & Hn). split; [done|].
    destruct (Forall2_lookup_r _ _ _ _ _ Hs1 Hg) as (f & Hf & Hfg).
    exists tp, f. split_and!; [done|done|]. by rewrite (proj1 Hfg).
  - intros Hloc p Hp. rewrite Hl2; [|by eapply same_ops_all_local|].
    + apply Hl1; [done|]. intros e mp He. apply Hp. set_solver.
    + intros e mp He. apply Hp. set_solver.
Qed.

Lemma mounts_nil fl srv srv' :
  mountpoints srv' = mountpoints srv → eserver srv' = eserver srv → mounts fl srv [] fl srv'.
Proof.
  intros Em Ee. split; [reflexivity|]. exists []. rewrite app_nil_r, Ee. by split_and!.
Qed.

Lemma mount_loop_spec pre es fl srv fl' srv' :
  mount_loop (length es) (Z.of_nat (length pre)) (JArray (pre ++ es)) fl srv = Ok (fl', srv') →
  mounts fl srv es fl' srv' ∧ settings srv' = settings srv.
Proof.
  revert pre fl srv. induction es as [|e es IH]; intros pre fl srv Hm; cbn [mount_loop length] in Hm.
  - simplify_eq. split; [by apply mounts_nil|done].
  - unfold json_object_array_get_idx in Hm. rewrite (proj2 (Z.ltb_ge _ _)) in Hm by lia.
    rewrite Nat2Z.id, list_lookup_middle in Hm by done.
    apply bind_Ok_inv in Hm as ([[ret fl1] srv1] & [He Hset1]%mount_spec & Hm). cbn in Hm.
    destruct (IH (pre ++ [e]) fl1 srv1) as [Hes Hset2].
    + rewrite length_app, <-app_assoc. cbn. by rewrite Nat2Z.inj_add.
    + split; [by eapply (mounts_trans _ _ [e])|congruence].
Qed.

(** ** The configuration *)

(** What a member says about a setting. *)
Definition string_of (j : json) : option bytes :=
  match j with JString s => c_string (s ++ [x00]) | _ => None end.

Definition int_of_json (j : json) : option Z :=
  match j with JInt _ => Some (json_object_get_int j) | _ => None end.

Definition array_of (j : json) : list json := match j with JArray l => l | _ => [] end.

Definition conf_string (l : list (bytes * json)) (k : string) : option bytes :=
  assoc (str k) l ≫= string_of.

Definition conf_int (l : list (bytes * json)) (k : string) : option Z :=
  assoc (str k) l ≫= int_of_json.

Definition fstab (l : list (bytes * json)) : list json :=
  default [] (array_of <$> assoc (str "mountpoints") l).

(** One member sets what its key names. *)
Definition keyed {A B} (key k : bytes) (g : B) (x : A) (f : B → option A) : A :=
  if decide (key = k) then default x (f g) else x.

Lemma strdup_Some s r : strdup s = Some r → c_string (s ++ [x00]) = Some r.
Proof. unfold strdup. repeat case_match; intros; by simplify_eq. Qed.

Lemma parse_member_spec key val fl srv fl' srv' :
  parse_member key val fl srv = Ok (fl', srv') →
  mounts fl srv (if decide (key = str "mountpoints") then array_of val else []) fl' srv' ∧
  settings srv' =
    (keyed key (str "host") val (host srv) (λ v, Heap <$> string_of v),
     keyed key (str "port") val (port srv) int_of_json,
     keyed key (str "index") val (index srv) (λ v, Some <$> string_of v),
     keyed key (str "max_body_size") val (max_body_size srv) int_of_json,
     keyed key (str "max_headers_size") val (max_headers_size srv) int_of_json).
Proof.
  unfold keyed. intros Hp.
  assert (∀ x, mountpoints x = mountpoints srv → eserver x = eserver srv →
    mounts fl srv (if decide (key = str "mountpoints") then [] else []) fl x) as Hnil
    by (intros x ??; case_decide; by apply mounts_nil).
  destruct val; cbn [parse_member json_object_get_type array_of string_of int_of_json] in *.
  all: try (simplify_eq/=; split; [by apply Hnil|]; unfold settings; repeat case_decide; done).
  - simplify_eq/=. unfold settings.
    repeat case_decide; simplify_eq/=; split; (by apply mounts_nil) || done.
  - unfold load_mountpoints in Hp. cbn [json_object_array_length] in Hp. rewrite Nat2Z.id in Hp.
    case_decide as Hk.
    + destruct (mount_loop_spec [] elems fl srv fl' srv' Hp) as [Hm Hs]. split; [done|].
      rewrite Hs. subst key. unfold settings. by repeat case_decide.
    + simplify_eq/=. split; [by apply mounts_nil|]. unfold settings. by repeat case_decide.
  - rewrite get_string_string in Hp. cbn [deref] in Hp. rewrite bind_Ok in Hp.
    apply bind_Ok_inv in Hp as (tmp & Htmp & Hp).
    destruct (strdup s) as [tmp'|] eqn:Es; simplify_eq/=. apply strdup_Some in Es. rewrite Es.
    unfold settings.
    repeat case_decide; simplify_eq/=; split; (by apply mounts_nil) || done.
Qed.

Lemma keyed_assoc {A} (key k : bytes) (val : json) (l : list (bytes * json)) (x : A) f :
  key ∉ l.*1 →
  default (keyed key k val x f) (assoc k l ≫= f) = default x (assoc k ((key, val) :: l) ≫= f).
Proof.
  intros Hk%assoc_None. unfold keyed. cbn [assoc]. case_decide as E; [|done].
  subst k. by rewrite Hk.
Qed.

Lemma parse_members_spec (l : list (bytes * json)) fl srv fl' srv' :
  NoDup l.*1 → parse_members l fl srv = Ok (fl', srv') →
  mounts fl srv (fstab l) fl' srv' ∧
  settings srv' =
    (default (host srv) (assoc (str "host") l ≫= λ v, Heap <$> string_of v),
     default (port srv) (conf_int l "port"),
     default (index srv) (assoc (str "index") l ≫= λ v, Some <$> string_of v),
     default (max_body_size srv) (conf_int l "max_body_size"),
     default (max_headers_size srv) (conf_int l "max_headers_size")).
Proof.
  revert fl srv. induction l as [|[key val] l IH]; intros fl srv Hnd Hp; cbn [parse_members] in Hp.
  - simplify_eq. split; [by apply mounts_nil|done].
  - apply NoDup_cons in Hnd as [Hk Hnd]. cbn [fst] in Hk.
    apply bind_Ok_inv in Hp as ([fl1 srv1] & [Hm1 Hs1]%parse_member_spec & Hp). cbn in Hp.
    destruct (IH fl1 srv1 Hnd Hp) as [Hm2 Hs2]. split.
    + pose proof (mounts_trans _ _ _ _ _ _ _ _ Hm1 Hm2) as Hm.
      replace (fstab ((key, val) :: l)) with
        ((if decide (key = str "mountpoints") then array_of val else []) ++ fstab l); [done|].
      unfold fstab. cbn [assoc]. case_decide as E; [|done]. rewrite <-E.
      apply assoc_None in Hk. rewrite Hk. apply app_nil_r.
    + rewrite Hs2. unfold settings in Hs1. injection Hs1 as -> -> -> -> ->.
      unfold conf_int. by rewrite !keyed_assoc.
Qed.

Lemma create_spec (l : list (bytes * json)) fl fl' srv :
  NoDup l.*1 → ahttpd_server_create fl (JObject l) = Ok (fl', srv) →
  ∃ db srv1, mounts fl (defaults db) (fstab l) fl' srv1 ∧
    eserver srv = match index srv with
                  | Some i => (evhttp_set_cb (eserver srv1) (str "/") (ahttpd_redirect i)).2
                  | None => eserver srv1
                  end ∧
    mountpoints srv = mountpoints srv1 ∧
    settings srv =
      (default (Literal (str "127.0.0.1")) (Heap <$> conf_string l "host"),
       default 32001 (conf_int l "port"), conf_string l "index",
       default 8388608 (conf_int l "max_body_size"),
       default 1048576 (conf_int l "max_headers_size")).
Proof.
  intros Hnd Hc. unfold ahttpd_server_create in Hc.
  apply bind_Ok_inv in Hc as (_ & _ & Hc). do 2 (case_match; [done|]).
  apply bind_Ok_inv in Hc as (db & _ & Hc). case_match; [done|].
  apply bind_Ok_inv in Hc as ([fl1 srv1] & Hp & Hc). cbn [parse_config] in Hp.
  destruct (parse_members_spec _ _ _ _ _ Hnd Hp) as [Hm Hs].
  exists db, srv1. case_match; [done|]. simplify_eq. split; [done|].
  assert (default None (assoc (str "index") l ≫= λ v, Some <$> string_of v) =
          conf_string l "index") as Ei.
  { unfold conf_string. destruct (assoc (str "index") l) as [v|]; [|reflexivity].
    cbn [mbind option_bind]. by destruct (string_of v). }
  assert ((assoc (str "host") l ≫= λ v, Heap <$> string_of v) = Heap <$> conf_string l "host") as Eh.
  { unfold conf_string. destruct (assoc (str "host") l); reflexivity. }
  assert (index srv1 = conf_string l "index") as Ei1.
  { rewrite <-Ei. unfold settings in Hs. by injection Hs as _ _ -> _ _. }
  rewrite Eh in Hs. cbn [index defaults] in Hs. rewrite Ei in Hs.
  destruct (index srv1) as [i|] eqn:E.
  - split_and!; [|done|].
    + cbn [set_eserver index eserver]. by rewrite E.
    + exact Hs.
  - rewrite E. split_and!; [done|done|exact Hs].
Qed.
End lemmas.

(** ** Theorems *)

Section theorems.
Context `{JsonC} `{!JsonCLaws} `{Malloc} {tab cb fsd : Type} `{CbTable tab cb} `{!CbTableLaws tab cb}.
Context `{FsData fsd} `{RedirectCb cb} `{ServerEnv}.
Notation fs := (ahttpd_fs tab fsd).
Notation server := (ahttpd_server tab fsd).
Notation mpoint := (ahttpd_mountpoint fsd).
Implicit Types (srv : server) (m : mpoint) (fl : list fs).

(** C26: A server that starts is the one its configuration describes: host,
    port, index and limits are those given with the right type, or the
    defaults; its mountpoints are entries of the table of mountpoints, in
    their order, each at the path and of the type its entry names. *)
Theorem server_configured (l : list (bytes * json)) fl fl' srv :
  NoDup l.*1 → ahttpd_server_create fl (JObject l) = Ok (fl', srv) →
  char_ptr_string (host srv) = default (str "127.0.0.1") (conf_string l "host") ∧
  port srv = default 32001 (conf_int l "port") ∧
  index srv = conf_string l "index" ∧
  max_body_size srv = default 8388608 (conf_int l "max_body_size") ∧
  max_headers_size srv = default 1048576 (conf_int l "max_headers_size") ∧
  props <$> mountpoints srv `sublist_of` fstab l ∧
  Forall (entry_ok fl) (mountpoints srv).
Proof.
  intros Hnd Hc. destruct (create_spec _ _ _ _ Hnd Hc)
    as (db & srv1 & (_ & ms & Em & Hsub & Hok & _) & _ & Em' & Hs).
  unfold settings in Hs. injection Hs as Hh -> -> -> ->.
  rewrite Em', Em, Hh. cbn [defaults mountpoints app]. split_and!; try done.
  by destruct (conf_string l "host").
Qed.

(** C8: If every filesystem stays within its mountpoints, every path a
    server answers by itself is the index redirection or lies under the
    mountpoint of an entry of the configuration; and when there is an index
    and no entry is mounted at "/" or at the empty path, "/" redirects to it. *)
Theorem server_paths_owned (l : list (bytes * json)) fl fl' srv :
  Forall FsLocal fl → NoDup l.*1 → ahttpd_server_create fl (JObject l) = Ok (fl', srv) →
  (∀ p, is_Some (cb_find (eserver srv) p) →
     (p = str "/" ∧ is_Some (index srv)) ∨
     ∃ e mp, e ∈ fstab l ∧ entry_path e mp ∧ mp `prefix_of` p) ∧
  (∀ i, conf_string l "index" = Some i → outside (fstab l) (str "/") →
     cb_find (eserver srv) (str "/") = Some (ahttpd_redirect i)).
Proof.
  intros Hloc Hnd Hc. destruct (create_spec _ _ _ _ Hnd Hc)
    as (db & srv1 & (_ & ms & Em & Hsub & Hok & Hl) & He & _ & Hs).
  specialize (Hl Hloc). cbn [defaults eserver] in Hl.
  assert (index srv = conf_string l "index") as Hi by (by injection Hs as _ _ -> _ _).
  assert (∀ p, is_Some (cb_find (eserver srv1) p) →
    ∃ e mp, e ∈ fstab l ∧ entry_path e mp ∧ mp `prefix_of` p) as Hown.
  { intros p Hp. destruct (outside_dec (fstab l) p) as [Hout|?]; [|done].
    rewrite Hl, cb_find_empty in Hp by done. by destruct Hp. }
  rewrite <-Hi. split.
  - intros p Hp. rewrite He in Hp. destruct (index srv) as [i|]; [|by right; apply Hown].
    destruct (cb_find (eserver srv1) (str "/")) as [c|] eqn:Ec.
    + rewrite set_cb_taken in Hp by eauto. right. by apply Hown.
    + rewrite set_cb_find in Hp by done. case_decide; [left; eauto|]. right. by apply Hown.
  - intros i Ei Hout. rewrite He, Ei.
    rewrite set_cb_find by (rewrite Hl by done; apply cb_find_empty). by rewrite decide_True.
Qed.

(** A mountpoint takes a URI when it is a prefix of it and its filesystem
    routes. *)
Definition takes fl (uri : bytes) m : Prop :=
  mountpoint m `prefix_of` uri ∧ ∃ f, fl !! mp_fs m = Some f ∧ is_Some (fs_route f).

(** C30: A request no callback answers goes to the first mountpoint, in the
    order of mounting, that is a prefix of the URI and whose filesystem
    routes requests (not to the longest one), and to that one only; when
    there is none, the answer is one 404. *)
Theorem generic_route_first_match fl srv (uri : bytes) (calls : list http_call) :
  Forall (λ m, is_Some (fl !! mp_fs m)) (mountpoints srv) →
  (∃ pre m post f route, mountpoints srv = pre ++ m :: post ∧ Forall (λ m, ¬ takes fl uri m) pre ∧
     mountpoint m `prefix_of` uri ∧ fl !! mp_fs m = Some f ∧ fs_route f = Some route ∧
     generic_route fl srv uri calls = route (mimedb srv) uri (mountpoint m) (fsdata m) calls) ∨
  (Forall (λ m, ¬ takes fl uri m) (mountpoints srv) ∧
     generic_route fl srv uri calls = Ok (calls ++ [SendError 404 (str "Not Found")])).
Proof.
  unfold generic_route. induction (mountpoints srv) as [|m l IH]; intros Hl; [by right|].
  apply Forall_cons in Hl as [[f Hf] Hl]. cbn [route_loop].
  assert ((∃ route, mountpoint m `prefix_of` uri ∧ fs_route f = Some route ∧
             route_loop fl (mimedb srv) (m :: l) uri calls =
               route (mimedb srv) uri (mountpoint m) (fsdata m) calls) ∨
          (¬ takes fl uri m ∧ route_loop fl (mimedb srv) (m :: l) uri calls =
             route_loop fl (mimedb srv) l uri calls)) as [(route & Hpre & Er & E)|[Hn E]].
  { cbn [route_loop]. destruct (starts_with (mountpoint m) uri) eqn:Es.
    - apply starts_with_spec in Es. rewrite Hf. cbn [deref]. rewrite bind_Ok.
      destruct (fs_route f) as [route|] eqn:Er; [left; eauto|]. right. split; [|done].
      intros [_ (g & Hg & [r Hr])]. by simplify_eq.
    - right. split; [|done]. intros [Hpre%starts_with_spec _]. congruence. }
  - left. exists [], m, l, f, route. split_and!; try done.
  - cbn [route_loop] in E. rewrite E.
    destruct (IH Hl) as [(pre & m' & post & g & route & -> & Hpre & ?)|[Hall ->]].
    + left. exists (m :: pre), m', post, g, route. split_and!; try done; try tauto. by constructor.
    + right. split; [by constructor|done].
Qed.

(** The host a server has, and that unmounting keeps it. *)
Lemma create_host (l : list (bytes * json)) fl fl' srv :
  NoDup l.*1 → ahttpd_server_create fl (JObject l) = Ok (fl', srv) →
  host srv = default (Literal (str "127.0.0.1")) (Heap <$> conf_string l "host").
Proof.
  intros Hnd Hc. destruct (create_spec _ _ _ _ Hnd Hc) as (db & srv1 & _ & _ & _ & Hs).
  by injection Hs as -> _ _ _ _.
Qed.

Lemma unmount_all_host fl n s s' :
  unmount_all fl n s = Ok s' →
  host s' = host s ∧ (n = length (mountpoints s) → mountpoints s' = []).
Proof.
  revert s. induction n as [|n IH]; intros s Hu; cbn [unmount_all] in Hu.
  - simplify_eq. split; [done|]. intros E. symmetry in E. by apply nil_length_inv in E.
  - apply bind_Ok_inv in Hu as (s1 & Hu1 & Hu). apply IH in Hu as [Hh' Hm].
    unfold ahttpd_unmount in Hu1. apply bind_Ok_inv in Hu1 as (m & Hm1 & Hu1).
    do 3 (apply bind_Ok_inv in Hu1 as (? & _ & Hu1)). simplify_eq. split; [done|].
    intros En. apply Hm. cbn. destruct (mountpoints s); [done|]. cbn in *. lia.
Qed.

(** The end of a server that was started from a configuration: the
    mountpoints are unmounted one by one until none is left, and then the
    host is freed.  That is right when the configuration gives the host as a
    string; without it the server frees a string literal, and there is no way
    it ends well. *)
Theorem server_destroyed (l : list (bytes * json)) fl fl' srv :
  NoDup l.*1 → ahttpd_server_create fl (JObject l) = Ok (fl', srv) →
  (∀ h srv', conf_string l "host" = Some h →
     unmount_all fl' (length (mountpoints srv)) srv = Ok srv' →
     ahttpd_server_destroy fl' srv = Ok srv' ∧ mountpoints srv' = []) ∧
  (conf_string l "host" = None → ∀ srv', ahttpd_server_destroy fl' srv ≠ Ok srv').
Proof.
  intros Hnd Hc. pose proof (create_host _ _ _ _ Hnd Hc) as Hh.
  unfold ahttpd_server_destroy. split.
  - intros h srv' Eh Hu. rewrite Hu, bind_Ok. destruct (unmount_all_host _ _ _ _ Hu) as [Hh' Hm].
    rewrite Hh', Hh, Eh. split; [done|]. by apply Hm.
  - intros Eh srv' Hd. apply bind_Ok_inv in Hd as (srv2 & Hu & Hd).
    destruct (unmount_all_host _ _ _ _ Hu) as [Hh' _]. by rewrite Hh', Hh, Eh in Hd.
Qed.
End theorems.

(** ** Witnesses *)

Module ServerRun.
#[export] Instance ref_fsdata : FsData unit := { fs_calloc _ := Some tt }.

#[export] Instance ref_env : ServerEnv := {
  aura_eventloop_create_empty := true;
  aura_eventloop_moduledata_get := true;
  evhttp_new := true;
  evhttp_bind_socket _ _ := 0
}.

(** The callbacks of the table: what they say. *)
Definition tab : Type := gmap bytes bytes.

#[export] Instance ref_redirect : RedirectCb bytes := { ahttpd_redirect i := i }.

(** A filesystem with one page of its own that also routes. *)
Definition blog : ahttpd_fs tab unit := {|
  fs_name := str "blog"; usage := 0; fsdatalen := 8;
  fs_mount := Some (λ mp _ d t,
    Ok (0, d, @ahttpd_add_path tab bytes RefCb.ref_table mp (str "/hello") (str "hi") t));
  fs_unmount := Some (λ mp _ _ t,
    Ok (@ahttpd_del_path tab bytes RefCb.ref_table mp (str "/hello") t));
  fs_route := Some (λ _ _ _ _ calls, Ok (calls ++ [SendReply 200 (str "OK") (str "post")]))
|}.

#[export] Instance blog_local : @FsLocal tab bytes unit RefCb.ref_table blog.
Proof.
  split. intros mount mp props d t ret d' t' p [= <-] [= <- <- <-] Hp.
  by apply (@add_path_local tab bytes RefCb.ref_table RefCb.ref_table_laws).
Qed.

Definition entry (mp tp : string) : json :=
  JObject [(str "mountpoint", JString (str mp)); (str "type", JString (str tp))].

Definition conf : list (bytes * json) := [
  (str "host", JString (str "0.0.0.0")); (str "port", JInt 8080);
  (str "mountpoints", JArray [entry "/b" "blog"; entry "/x" "unknown"]);
  (str "index", JString (str "/b/hello"))].

Definition created (l : list (bytes * json))
    : outcome (list (ahttpd_fs tab unit) * ahttpd_server tab unit) :=
  @ahttpd_server_create RefJson.ref_json Recorder.ref_malloc tab bytes unit RefCb.ref_table
    ref_fsdata ref_redirect ref_env [blog] (JObject l).

Definition the_server (l : list (bytes * json))
    : list (ahttpd_fs tab unit) * ahttpd_server tab unit :=
  match created l with Ok r => r | Fault _ => ([], @defaults tab bytes unit RefCb.ref_table (hcreate_r 0)) end.

Lemma created_ok l :
  is_ok (created l) = true → created l = Ok ((the_server l).1, (the_server l).2).
Proof. unfold the_server. by destruct (created l) as [[fl srv]|]. Qed.

Lemma conf_ok : created conf = Ok ((the_server conf).1, (the_server conf).2).
Proof. apply created_ok. vm_compute. reflexivity. Qed.
End ServerRun.

Import RefJson RefCb Recorder ServerRun.

Lemma server_configured_witness :
  let srv := (the_server conf).2 in
  char_ptr_string (host srv) = str "0.0.0.0" ∧ port srv = 8080 ∧
  index srv = Some (str "/b/hello") ∧ max_body_size srv = 8388608 ∧
  max_headers_size srv = 1048576 ∧
  props <$> mountpoints srv `sublist_of` [entry "/b" "blog"; entry "/x" "unknown"] ∧
  Forall (entry_ok [blog]) (mountpoints srv).
Proof.
  apply (@server_configured ref_json ref_json_laws ref_malloc tab bytes unit ref_table
    ref_table_laws ref_fsdata ref_redirect ref_env conf [blog] (the_server conf).1).
  - decide_vm.
  - exact conf_ok.
Defined.

Lemma server_paths_owned_witness :
  let srv := (the_server conf).2 in
  (∀ p, is_Some (cb_find (eserver srv) p) →
     (p = str "/" ∧ is_Some (index srv)) ∨
     ∃ e mp, e ∈ fstab conf ∧ entry_path e mp ∧ mp `prefix_of` p) ∧
  (∀ i, conf_string conf "index" = Some i → outside (fstab conf) (str "/") →
     cb_find (eserver srv) (str "/") = Some (ahttpd_redirect i)).
Proof.
  apply (@server_paths_owned ref_json ref_json_laws ref_malloc tab bytes unit ref_table
    ref_table_laws ref_fsdata ref_redirect ref_env conf [blog] (the_server conf).1).
  - constructor; [exact blog_local|constructor].
  - decide_vm.
  - exact conf_ok.
Defined.

Lemma generic_route_first_match_witness :
  let m := {| mountpoint := str "/b"; props := entry "/b" "blog"; mp_fs := 0; fsdata := Some tt |} in
  let srv := set_mountpoints [m] (defaults (hcreate_r 0)) : ahttpd_server tab unit in
  (∃ pre m' post f route, mountpoints srv = pre ++ m' :: post ∧
     Forall (λ m, ¬ takes [blog] (str "/b/x") m) pre ∧ mountpoint m' `prefix_of` str "/b/x" ∧
     [blog] !! mp_fs m' = Some f ∧ fs_route f = Some route ∧
     generic_route [blog] srv (str "/b/x") [] =
       route (mimedb srv) (str "/b/x") (mountpoint m') (fsdata m') []) ∨
  (Forall (λ m, ¬ takes [blog] (str "/b/x") m) (mountpoints srv) ∧
     generic_route [blog] srv (str "/b/x") [] = Ok ([] ++ [SendError 404 (str "Not Found")])).
Proof.
  intros m srv. apply (@generic_route_first_match tab unit [blog] srv (str "/b/x") []).
  constructor; [by eexists|constructor].
Defined.

Lemma server_destroyed_witness :
  let srv := (the_server conf).2 in
  (∀ h srv', conf_string conf "host" = Some h →
     unmount_all (the_server conf).1 (length (mountpoints srv)) srv = Ok srv' →
     ahttpd_server_destroy (the_server conf).1 srv = Ok srv' ∧ mountpoints srv' = []) ∧
  (conf_string conf "host" = None → ∀ srv', ahttpd_server_destroy (the_server conf).1 srv ≠ Ok srv').
Proof.
  apply (@server_destroyed ref_json ref_json_laws ref_malloc tab bytes unit ref_table
    ref_table_laws ref_fsdata ref_redirect ref_env conf [blog]).
  - decide_vm.
  - exact conf_ok.
Defined.
