(* ===== verification/Control.v ===== *)
(** * fs_control.c: the control filesystem

    Three paths: the version of aura, the table of mountpoints as configured,
    and the request to terminate, which takes effect when the connection that
    made it closes. *)

From S2P Require Import Prelude CLib Json Evhttp Upload Mime Server.
From Stdlib Require Import Strings.Byte.

Class AuraVersion := {
  aura_get_version : bytes;
  aura_get_version_code : Z
}.

(** The callbacks of this filesystem; their argument is the mountpoint. *)
Class ControlCb (cb : Type) := { version_cb : cb; fstab_cb : cb; terminate_cb : cb }.

Section control.
Context `{JsonC} `{AuraVersion} {tab cb fsd : Type} `{CbTable tab cb} `{ControlCb cb}.

Definition version (calls : list http_call) : list http_call :=
  let root := json_object_object_add [] (str "aura_version") (JString aura_get_version) in
  let root := json_object_object_add root (str "aura_versioncode") (JInt aura_get_version_code) in
  ahttpd_reply_with_json (JObject root) calls.

(** The event loop exits so many seconds after the close callback has run. *)
Definition terminate_rq_close_cb : Z := 5.

(** The reply, and what runs when the connection closes. *)
Definition terminate (calls : list http_call) : list http_call * Z :=
  (calls ++ [SendError 503 (str "Shutting down")], terminate_rq_close_cb).

Definition fstab (srv : ahttpd_server tab fsd) (calls : list http_call) : list http_call :=
  let arr := fold_left (λ arr pos, json_object_array_add arr (props pos)) (mountpoints srv)
                       (JArray []) in
  ahttpd_reply_with_json (JObject (json_object_object_add [] (str "fstab") arr)) calls.

Definition cfs_mount (mp : bytes) (t : tab) : outcome (Z * tab) :=
  let t := ahttpd_add_path mp (str "/version") version_cb t in
  let t := ahttpd_add_path mp (str "/fstab") fstab_cb t in
  Ok (0, ahttpd_add_path mp (str "/terminate") terminate_cb t).

Definition cfs_unmount (mp : bytes) (t : tab) : outcome tab :=
  let t := ahttpd_del_path mp (str "/version") t in
  Ok (ahttpd_del_path mp (str "/fstab") t).

Definition controlfs : ahttpd_fs tab fsd := {|
  fs_name := str "control"; usage := 0; fsdatalen := 0;
  fs_mount := Some (λ mp _ d t, r ← cfs_mount mp t; Ok (r.1, d, r.2));
  fs_unmount := Some (λ mp _ _ t, cfs_unmount mp t);
  fs_route := None
|}.
End control.

(** ** Theorems *)

Section theorems.
Context `{JsonC} `{!JsonCLaws} {tab cb fsd : Type} `{CbTable tab cb} `{!CbTableLaws tab cb}.
Context `{ControlCb cb}.

#[export] Instance controlfs_local : FsLocal (controlfs (tab := tab) (fsd := fsd)).
Proof.
  split. intros mount mp props d t ret d' t' p [= <-] E Hp.
  unfold cfs_mount in E. cbn in E. simplify_eq. by rewrite !add_path_local.
Qed.

(** The three paths of the filesystem. *)
Definition control_path (mp : bytes) (c : cb) (p : bytes) : Prop :=
  (p = mp ++ str "/version" ∧ c = version_cb) ∨ (p = mp ++ str "/fstab" ∧ c = fstab_cb) ∨
  (p = mp ++ str "/terminate" ∧ c = terminate_cb).

(** Mounting the control filesystem where its paths are free makes
    exactly its three paths answer; unmounting it takes two of them back and
    leaves /terminate, which still refers to the mountpoint that is gone. *)
Theorem control_unmount_leaves_terminate (mp : bytes) (t : tab) :
  (∀ c p, control_path mp c p → cb_find t p = None) →
  ∃ t1 t2, cfs_mount mp t = Ok (0, t1) ∧ cfs_unmount mp t1 = Ok t2 ∧
    (∀ c p, control_path mp c p → cb_find t1 p = Some c) ∧
    (∀ p, (∀ c, ¬ control_path mp c p) → cb_find t1 p = cb_find t p) ∧
    (∀ p, p ≠ mp ++ str "/terminate" → cb_find t2 p = cb_find t p) ∧
    cb_find t2 (mp ++ str "/terminate") = Some terminate_cb.
Proof.
  intros Hfree.
  assert (cb_find t (mp ++ str "/version") = None) as Hv by (apply (Hfree version_cb); by left).
  assert (cb_find t (mp ++ str "/fstab") = None) as Hf
    by (apply (Hfree fstab_cb); right; by left).
  assert (cb_find t (mp ++ str "/terminate") = None) as Ht
    by (apply (Hfree terminate_cb); right; by right).
  assert (mp ++ str "/version" ≠ mp ++ str "/fstab" ∧ mp ++ str "/version" ≠ mp ++ str "/terminate" ∧
          mp ++ str "/fstab" ≠ mp ++ str "/terminate") as (D1 & D2 & D3)
    by (split_and!; intros E%(inj (app mp)); discriminate E).
  clear Hfree. eexists _, _. split_and!; [reflexivity|reflexivity| | | |].
  - intros c p [[-> ->]|[[-> ->]|[-> ->]]]; rewrite !add_path_find;
      rewrite ?Hv, ?Hf, ?Ht; repeat case_decide; congruence.
  - intros p Hp. rewrite !add_path_find, Hv, Hf, Ht.
    assert (p ≠ mp ++ str "/version") by (intros ->; apply (Hp version_cb); by left).
    assert (p ≠ mp ++ str "/fstab") by (intros ->; apply (Hp fstab_cb); right; by left).
    assert (p ≠ mp ++ str "/terminate") by (intros ->; apply (Hp terminate_cb); right; by right).
    repeat case_decide; congruence.
  - intros p Hp. rewrite !del_path_find, !add_path_find, Hv, Hf, Ht.
    repeat case_decide; congruence.
  - rewrite !del_path_find, !add_path_find, Hv, Hf, Ht. repeat case_decide; congruence.
Qed.

Lemma fold_add_props (l : list (ahttpd_mountpoint fsd)) (arr : list json) :
  fold_left (λ arr pos, json_object_array_add arr (props pos)) l (JArray arr) =
    JArray (arr ++ (props <$> l)).
Proof.
  revert arr. induction l as [|m l IH]; intros arr; simpl; [by rewrite app_nil_r|].
  by rewrite IH, <-app_assoc.
Qed.

(** /fstab reports the configuration of every mountpoint, in the order
    of mounting. *)
Theorem fstab_reports_mountpoints (srv : ahttpd_server tab fsd) (calls : list http_call) :
  fstab srv calls =
    calls ++ ahttpd_reply_with_json
      (JObject [(str "fstab", JArray (props <$> mountpoints srv))]) [].
Proof.
  unfold fstab. rewrite fold_add_props, object_add_fresh by apply not_elem_of_nil. done.
Qed.
End theorems.

(** ** Witnesses *)

Module ControlRun.
#[export] Instance ref_control : ControlCb nat := {
  version_cb := 0%nat; fstab_cb := 1%nat; terminate_cb := 2%nat
}.
End ControlRun.

Import RefCb ControlRun.

Lemma control_unmount_leaves_terminate_witness :
  ∃ t1 t2 : gmap bytes nat, cfs_mount (str "/c") ∅ = Ok (0, t1) ∧ cfs_unmount (str "/c") t1 = Ok t2 ∧
    (∀ c p, control_path (str "/c") c p → cb_find t1 p = Some c) ∧
    (∀ p, (∀ c, ¬ control_path (str "/c") c p) → cb_find t1 p = cb_find ∅ p) ∧
    (∀ p, p ≠ str "/c" ++ str "/terminate" → cb_find t2 p = cb_find ∅ p) ∧
    cb_find t2 (str "/c" ++ str "/terminate") = Some terminate_cb.
Proof.
  apply (@control_unmount_leaves_terminate (gmap bytes nat) nat ref_table ref_table_laws
    ref_control (str "/c") ∅).
  intros c p _. apply lookup_empty.
Defined.
