(* ===== verification/Static.v ===== *)
(** * fs_static.c: files of a directory

    The file system of the machine is a parameter: class [Posix] says what
    [stat], [fopen], [open] and [opendir] answer while a request is served.
    [router] is the code's: the path it looks at is the configured directory
    followed by what the URI has after the mountpoint, as it is. *)

From S2P Require Import Prelude CLib Json Evhttp Upload Mime Server Control.
From Stdlib Require Import Strings.Byte.

(** ** Data *)

(** A directory entry and its type. *)
Record dirent := { d_name : bytes; d_type : Z }.

Definition DT_DIR : Z := 4.

Class Posix := {
  (** Whether the path is a directory, or failure. *)
  stat : bytes → option bool;
  (** The offset of the end, when the file can be opened with [fopen]. *)
  fopen_size : bytes → option Z;
  (** What [open] gives to read. *)
  open_rdonly : bytes → option bytes;
  opendir : bytes → option (list dirent)
}.

(** The functions of the table [dirindextypes]. *)
Inductive dirindex := IndexNone | IndexJson | IndexHtml.

#[export] Instance dirindex_eq_decision : EqDecision dirindex.
Proof. solve_decision. Defined.

Record staticfs_data := {
  htdocs : bytes;
  index : option bytes;
  dirindexfunc : dirindex
}.

Definition dirindextypes : list (bytes * dirindex) :=
  [(str "none", IndexNone); (str "json", IndexJson); (str "html", IndexHtml)].

Section static.
Context `{JsonC} `{Malloc} `{Posix} `{AuraVersion}.
Implicit Types (calls : list http_call).

Definition index_none calls : list http_call := calls ++ [SendError 403 (str "GTFO")].

(** One round of the loop of [index_json]. *)
Definition json_entry (root : list (bytes * json)) (ent : dirent) : list (bytes * json) :=
  let is_dir := JBool (negb (Z.land (d_type ent) DT_DIR =? 0)) in
  let dio := json_object_object_add [] (str "is_dir") is_dir in
  json_object_object_add root (d_name ent) (JObject dio).

Definition index_json (dpath : bytes) calls : list http_call :=
  match opendir dpath with
  | None => calls
  | Some ents => ahttpd_reply_with_json (JObject (fold_left json_entry ents [])) calls
  end.

(** One round of the loop of [index_html]: dotfiles are hidden. *)
Definition html_entry (ent : dirent) : bytes :=
  if starts_with (str ".") (d_name ent) then []
  else str "&middot; <a href=" ++ [x22] ++ d_name ent ++ [x22] ++ str ">" ++ d_name ent
         ++ str "</a><br>".

Definition index_html (dpath rdir : bytes) calls : list http_call :=
  match opendir dpath with
  | None => calls
  | Some ents =>
      calls ++ [SendReply 200 (str "OK")
        (str "<h3>Directory listing for " ++ rdir ++ str "</h3><hr>"
           ++ concat (html_entry <$> ents)
           ++ str "<hr>Powered by aura-httpd " ++ aura_get_version)]
  end.

Definition run_dirindex (f : dirindex) (dpath rdir : bytes) calls : list http_call :=
  match f with
  | IndexNone => index_none calls
  | IndexJson => index_json dpath calls
  | IndexHtml => index_html dpath rdir calls
  end.

(** The result and the calls. *)
Definition serve_file (dpath mimetype : bytes) calls : Z * list http_call :=
  match fopen_size dpath with
  | None => (-1, calls)
  | Some sz =>
      match open_rdonly dpath with
      | None => (-1, calls)
      | Some content =>
          (0, calls ++ [AddHeader (str "Content-Type") mimetype;
                        SendReply 200 (str "OK") (take (Z.to_nat sz) content)])
      end
  end.

Definition router (db : hsearch_data) (request_uri mp : bytes) (fsd : staticfs_data) calls
    : outcome (list http_call) :=
  uri ← (if decide (length mp <= length request_uri)%nat
         then Ok (drop (length mp) request_uri) else Fault OutOfBounds);
  let path := htdocs fsd ++ str "/" ++ uri in
  match stat path with
  | None => Ok (calls ++ [SendError 404 (str "We searched hard but never found love")])
  | Some true =>
      let '(ret, calls) :=
        match index fsd with
        | Some index => serve_file (path ++ str "/" ++ index) (str "text/html; charset=UTF-8") calls
        | None => (-1, calls)
        end in
      if ret =? 0 then Ok calls else Ok (run_dirindex (dirindexfunc fsd) path request_uri calls)
  | Some false => Ok (serve_file path (ahttpd_mime_guess db path) calls).2
  end.

(** [while (dirindex && dirindextypes[i].name != NULL)]. *)
Definition select_dirindex (dirlist : option bytes) : dirindex :=
  match dirlist with
  | Some name => default IndexNone (assoc name dirindextypes)
  | None => IndexNone
  end.

(** A trailing slash is cut off; the empty string has no last character. *)
Definition cut_slash (s : bytes) : outcome bytes :=
  match last s with
  | None => Fault OutOfBounds
  | Some c => Ok (if decide (c = "/"%byte) then take (pred (length s)) s else s)
  end.

Definition cfs_mount (props : json) : outcome (Z * staticfs_data) :=
  dir ← json_array_find_string props (str "dir");
  dir ← deref NullDeref dir;
  htdocs ← deref NullDeref (strdup dir);
  index ← json_array_find_string props (str "index");
  dirlist ← json_array_find_string props (str "dirlist");
  htdocs ← cut_slash htdocs;
  Ok (0, {| htdocs := htdocs; index := index; dirindexfunc := select_dirindex dirlist |}).

(** [free(fsd->htdocs)] is all there is to do. *)
Definition cfs_unmount : outcome unit := Ok tt.

Definition staticfs {tab} : ahttpd_fs tab staticfs_data := {|
  fs_name := str "static"; usage := 0; fsdatalen := 24;
  fs_mount := Some (λ _ props _ t, r ← cfs_mount props; Ok (r.1, Some r.2, t));
  fs_unmount := Some (λ _ _ _ t, _ ← cfs_unmount; Ok t);
  fs_route := Some (λ db uri mp d calls, fsd ← deref NullDeref d; router db uri mp fsd calls)
|}.
End static.

(** ** Theorems *)

Section theorems.
Context `{JsonC} `{Malloc} `{Posix} `{AuraVersion}.
Implicit Types (calls : list http_call) (fsd : staticfs_data).

#[export] Instance staticfs_local `{CbTable tab cb} : FsLocal (staticfs (tab := tab)).
Proof.
  split. intros mount mp props d t ret d' t' p [= <-] E _.
  apply bind_Ok_inv in E as (r & _ & E). by simplify_eq.
Qed.

(** The path a request is about. *)
Definition request_path fsd (rel : bytes) : bytes := htdocs fsd ++ str "/" ++ rel.

Definition readable (path : bytes) : Prop := is_Some (fopen_size path) ∧ is_Some (open_rdonly path).

(** The index page of a directory is there. *)
Definition has_index fsd (path : bytes) : Prop :=
  ∃ i, index fsd = Some i ∧ readable (path ++ str "/" ++ i).

Lemma serve_file_spec path ty calls :
  (readable path ∧ ∃ body, serve_file path ty calls =
     (0, calls ++ [AddHeader (str "Content-Type") ty; SendReply 200 (str "OK") body])) ∨
  (¬ readable path ∧ serve_file path ty calls = (-1, calls)).
Proof.
  unfold serve_file, readable.
  destruct (fopen_size path), (open_rdonly path); [left; eauto 10|right..];
    (split; [|done]); by intros [[? [=]] [? [=]]].
Qed.

Lemma router_at db mp rel fsd calls :
  router db (mp ++ rel) mp fsd calls =
    match stat (request_path fsd rel) with
    | None => Ok (calls ++ [SendError 404 (str "We searched hard but never found love")])
    | Some true =>
        let '(ret, calls) :=
          match index fsd with
          | Some i => serve_file (request_path fsd rel ++ str "/" ++ i)
                                 (str "text/html; charset=UTF-8") calls
          | None => (-1, calls)
          end in
        if ret =? 0 then Ok calls
        else Ok (run_dirindex (dirindexfunc fsd) (request_path fsd rel) (mp ++ rel) calls)
    | Some false => Ok (serve_file (request_path fsd rel)
                          (ahttpd_mime_guess db (request_path fsd rel)) calls).2
    end.
Proof.
  unfold router. rewrite decide_True by (rewrite length_app; lia).
  by rewrite bind_Ok, drop_app_length.
Qed.

(** When there is nothing to send: a file that cannot be read, or a directory
    that is to be listed and cannot be. *)
Definition no_answer fsd (path : bytes) : Prop :=
  (stat path = Some false ∧ ¬ readable path) ∨
  (stat path = Some true ∧ ¬ has_index fsd path ∧ dirindexfunc fsd ≠ IndexNone ∧
     opendir path = None).

(** C29: A request that reaches a static mountpoint never faults and is
    answered at most once; the cases without any answer are exactly those of
    a file that exists and cannot be read and of a directory, without an
    index page, that is to be listed and cannot be opened. *)
Theorem static_answers_at_most_once db mp uri fsd calls :
  mp `prefix_of` uri →
  ∃ new, router db uri mp fsd calls = Ok (calls ++ new) ∧ (length (answers new) <= 1)%nat ∧
    (answers new = [] ↔ no_answer fsd (request_path fsd (drop (length mp) uri))).
Proof.
  intros [rel ->]. rewrite drop_app_length, router_at. unfold no_answer.
  set (path := request_path fsd rel). destruct (stat path) as [[]|].
  - assert ((has_index fsd path ∧ ∃ ty body,
        match index fsd with
        | Some i => serve_file (path ++ str "/" ++ i) (str "text/html; charset=UTF-8") calls
        | None => (-1, calls)
        end = (0, calls ++ [AddHeader (str "Content-Type") ty; SendReply 200 (str "OK") body])) ∨
      (¬ has_index fsd path ∧
        match index fsd with
        | Some i => serve_file (path ++ str "/" ++ i) (str "text/html; charset=UTF-8") calls
        | None => (-1, calls)
        end = (-1, calls))) as [[Hi (ty & body & ->)]|[Hi ->]].
    { unfold has_index. destruct (index fsd) as [i|].
      - destruct (serve_file_spec (path ++ str "/" ++ i) (str "text/html; charset=UTF-8") calls)
          as [[Hr [body ->]]|[Hr ->]]; [left; eauto 10|right]. split; [|done].
        by intros (? & [= <-] & ?).
      - right. split; [|done]. by intros (? & [=] & ?). }
    + eexists. split_and!; [reflexivity|done|]. split; [done|]. naive_solver.
    + cbn [Z.eqb]. destruct (dirindexfunc fsd) eqn:Ed; cbn [run_dirindex].
      * eexists. split_and!; [reflexivity|done|]. split; [done|]. naive_solver.
      * unfold index_json. destruct (opendir path) as [ents|].
        -- eexists. split_and!; [reflexivity|done|]. split; [done|]. naive_solver.
        -- exists []. rewrite app_nil_r. split_and!; [done|simpl; lia|]. naive_solver.
      * unfold index_html. destruct (opendir path) as [ents|].
        -- eexists. split_and!; [reflexivity|done|]. split; [done|]. naive_solver.
        -- exists []. rewrite app_nil_r. split_and!; [done|simpl; lia|]. naive_solver.
  - destruct (serve_file_spec path (ahttpd_mime_guess db path) calls) as [[Hr [body ->]]|[Hr ->]].
    + eexists. split_and!; [reflexivity|done|]. split; [done|]. naive_solver.
    + exists []. rewrite app_nil_r. split_and!; [done|simpl; lia|]. naive_solver.
  - eexists. split_and!; [reflexivity|done|]. split; [done|]. naive_solver.
Qed.

(** What follows the mountpoint in the URI is looked up below the
    directory as it is, parent directories included: whatever regular file
    that path reaches is sent, whole, with the type of its name.  Nothing
    keeps a request within the directory. *)
Theorem static_serves_any_path db mp rel fsd content calls :
  stat (request_path fsd rel) = Some false →
  fopen_size (request_path fsd rel) = Some (Z.of_nat (length content)) →
  open_rdonly (request_path fsd rel) = Some content →
  router db (mp ++ rel) mp fsd calls =
    Ok (calls ++ [AddHeader (str "Content-Type") (ahttpd_mime_guess db (request_path fsd rel));
                  SendReply 200 (str "OK") content]).
Proof.
  intros Hs Hf Ho. rewrite router_at, Hs. unfold serve_file. rewrite Hf, Ho.
  by rewrite Nat2Z.id, firstn_all.
Qed.
End theorems.

(** ** Witnesses *)

Module StaticRun.
#[export] Instance ref_posix : Posix := {
  stat p := if decide (p = str "/srv/../etc/passwd") then Some false else None;
  fopen_size p := if decide (p = str "/srv/../etc/passwd") then Some 4 else None;
  open_rdonly p := if decide (p = str "/srv/../etc/passwd") then Some (str "root") else None;
  opendir _ := None
}.

#[export] Instance ref_name : AuraVersion := {
  aura_get_version := str "0.1"; aura_get_version_code := 1 }.

Definition site : staticfs_data := {|
  htdocs := str "/srv"; index := Some (str "index.html"); dirindexfunc := IndexHtml |}.
End StaticRun.

Import RefJson StaticRun.

Lemma static_answers_at_most_once_witness :
  ∃ new, router (hcreate_r 0) (str "/www/../etc/passwd") (str "/www") site [] = Ok ([] ++ new) ∧
    (length (answers new) <= 1)%nat ∧
    (answers new = [] ↔ no_answer site (request_path site (str "/../etc/passwd"))).
Proof.
  apply (@static_answers_at_most_once ref_json ref_posix ref_name (hcreate_r 0) (str "/www")
    (str "/www/../etc/passwd") site []).
  exists (str "/../etc/passwd"). reflexivity.
Defined.

Lemma static_serves_any_path_witness :
  router (hcreate_r 0) (str "/www/" ++ str "../etc/passwd") (str "/www/") site [] =
    Ok ([] ++ [AddHeader (str "Content-Type") (str "application/octet-stream");
               SendReply 200 (str "OK") (str "root")]).
Proof.
  apply (@static_serves_any_path ref_json ref_posix ref_name (hcreate_r 0) (str "/www/")
    (str "../etc/passwd") site (str "root") []).
  - decide_vm.
  - decide_vm.
  - decide_vm.
Defined.
