(* ===== verification/Daemon.v ===== *)
(** * The filesystems of the daemon

    The filesystems control, node, static and upload as they register with
    the server, each with its own data, put together over the sum of their
    data.  Each of them keeps to its mountpoint, which is what the theorems
    of Server need of a filesystem. *)

From S2P Require Import Prelude CLib Json Evhttp Upload Serdes CallResource.
From S2P Require Import NodeFs Mime Server Control Static.
From Stdlib Require Import Strings.Byte.

(** The data of an upload mountpoint: the module with its state and the
    number of extents there is room for. *)
Record upload_mount (D : Type) := {
  um_data : upfs_data D;
  um_mod : option (uploadfs_module D);
  um_num_iovec : nat
}.
Arguments um_data {D} _.
Arguments um_mod {D} _.
Arguments um_num_iovec {D} _.

(** [void *fsdata]. *)
Inductive fs_data (tab node D : Type) :=
  | NodeData (d : nodefs_data tab node)
  | StaticData (d : staticfs_data)
  | UploadData (d : upload_mount D).
Arguments NodeData {tab node D} d.
Arguments StaticData {tab node D} d.
Arguments UploadData {tab node D} d.

(** A filesystem over its own data as one over [void *]. *)
Definition lift_fs {tab A fsd} (inj : A → fsd) (proj : fsd → option A) (f : ahttpd_fs tab A)
    : ahttpd_fs tab fsd := {|
  fs_name := fs_name f; usage := usage f; fsdatalen := fsdatalen f;
  fs_mount :=
    match fs_mount f with
    | Some mount => Some (λ (mp : bytes) (props : json) (d : option fsd) (t : tab),
        r ← mount mp props (d ≫= proj) t;
        let '(ret, d', t') := (r : Z * option A * tab) in
        Ok (ret, option_map inj d', t'))
    | None => None
    end;
  fs_unmount :=
    match fs_unmount f with
    | Some unmount => Some (λ (mp : bytes) (props : json) (d : option fsd) (t : tab),
        unmount mp props (d ≫= proj) t)
    | None => None
    end;
  fs_route :=
    match fs_route f with
    | Some route => Some (λ db (uri mp : bytes) (d : option fsd) calls,
        route db uri mp (d ≫= proj) calls)
    | None => None
    end
|}.

Lemma lift_local {tab cb A fsd} `{CbTable tab cb} (inj : A → fsd) proj (f : ahttpd_fs tab A) :
  FsLocal f → FsLocal (lift_fs inj proj f).
Proof.
  intros [Hm]. split. intros mount mp props d t ret d' t' p Emount E Hp. cbn in Emount.
  destruct (fs_mount f) as [mount'|] eqn:Ef; [|done]. injection Emount as <-.
  apply bind_Ok_inv in E as ([[ret1 d1] t1] & E1 & E). simplify_eq. by eapply Hm.
Qed.

Section daemon.
Context `{JsonC} `{JsonAlloc} `{Malloc} `{Urpc} `{AuraBuffer ab} `{AuraCalls ab}.
Context {node D : Type} `{AuraNode node ab} `{UriDecode} `{Posix} `{AuraVersion}.
Context `{CbTable tab node_cb} `{!CbTableLaws tab node_cb} `{ControlCb node_cb}.
Context (mod_registry : list (uploadfs_module D)) (post_cb : node_cb).

Definition nodefs : ahttpd_fs tab (nodefs_data tab node) := {|
  fs_name := str "node"; usage := 0; fsdatalen := 56;
  fs_mount := Some (λ mp props d t,
    nd ← deref NullDeref d;
    r ← node_mount mp props (on_table (λ _, t) nd);
    Ok (r.1, Some r.2, node_table r.2));
  fs_unmount := Some (λ mp _ d t,
    nd ← deref NullDeref d;
    nd ← node_unmount mp (on_table (λ _, t) nd);
    Ok (node_table nd));
  fs_route := None
|}.

(** A module is selected before anything uses it. *)
Definition uploadfs : ahttpd_fs tab (upload_mount D) := {|
  fs_name := str "upload"; usage := 0; fsdatalen := 64;
  fs_mount := Some (λ mp props d t,
    um ← deref NullDeref d;
    r ← up_mount mod_registry props mp post_cb (um_data um) t;
    let '(ret, (t, fsd, md, n)) := r in
    Ok (ret, Some {| um_data := fsd; um_mod := md; um_num_iovec := n |}, t));
  fs_unmount := Some (λ mp _ d t,
    um ← deref NullDeref d;
    md ← deref NullDeref (um_mod um);
    r ← up_unmount md mp (um_data um) t;
    Ok r.2);
  fs_route := None
|}.

#[export] Instance nodefs_local : FsLocal nodefs.
Proof.
  split. intros mount mp props d t ret d' t' p Emount E Hp. injection Emount as <-.
  apply bind_Ok_inv in E as (nd & _ & E). apply bind_Ok_inv in E as ([z nd'] & E1 & E).
  injection E as _ _ <-. unfold node_mount in E1.
  apply bind_Ok_inv in E1 as (tr & _ & E1). apply bind_Ok_inv in E1 as (options & _ & E1).
  destruct tr as [tr|], options as [options|]; try by injection E1 as _ <-.
  destruct (aura_open tr options); injection E1 as _ <-; [|done].
  cbn. by rewrite !add_path_local.
Qed.

#[export] Instance uploadfs_local : FsLocal uploadfs.
Proof.
  split. intros mount mp props d t ret d' t' p Emount E Hp. injection Emount as <-.
  apply bind_Ok_inv in E as (um & _ & E).
  apply bind_Ok_inv in E as ([ret1 [[[t1 fsd1] md] n]] & E1 & E). injection E as _ _ <-.
  unfold up_mount in E1. apply bind_Ok_inv in E1 as (o & _ & E1).
  apply bind_Ok_inv in E1 as (modname & _ & E1).
  destruct (uploadfs_module_select mod_registry modname) as [m|]; [|by simplify_eq].
  apply bind_Ok_inv in E1 as ([r fsd2] & _ & E1).
  case_match; [by simplify_eq|]. case_match; simplify_eq; [|done]. by apply add_path_local.
Qed.

Notation data := (fs_data tab node D).

Definition daemon_filesystems : list (ahttpd_fs tab data) := [
  controlfs;
  lift_fs NodeData (λ d, match d with NodeData d => Some d | _ => None end) nodefs;
  lift_fs StaticData (λ d, match d with StaticData d => Some d | _ => None end) staticfs;
  lift_fs UploadData (λ d, match d with UploadData d => Some d | _ => None end) uploadfs
].

(** The filesystems of the daemon, in whatever order their constructors
    run, all register, keep to their mountpoints when they are mounted, and
    are found by their names. *)
Theorem daemon_filesystems_registered (l : list (ahttpd_fs tab data)) :
  l ≡ₚ daemon_filesystems →
  fold_left (λ fl f, ahttpd_filesystem_register f fl) l [] = l ∧ Forall FsLocal l ∧
  ∀ f, f ∈ daemon_filesystems → ∃ i fl, ahttpd_filesystem_lookup l (fs_name f) = (Some i, fl) ∧
    l !! i = Some f.
Proof.
  intros Hl.
  assert (Forall FsLocal daemon_filesystems) as Hloc.
  { repeat constructor; [apply controlfs_local|..]; apply lift_local; apply _. }
  assert (Forall (λ f, is_Some (fs_mount f) ∧ is_Some (fs_unmount f)) l) as Hreg.
  { rewrite Hl. repeat constructor; by eexists. }
  assert (NoDup (fs_name <$> l)) as Hnames by (rewrite Hl; decide_vm).
  split_and!.
  - assert (∀ pre, fold_left (λ fl f, ahttpd_filesystem_register f fl) l pre = pre ++ l) as ->;
      [|done].
    clear -Hreg. induction Hreg as [|f l [[m Hm] [u Hu]] _ IH]; intros pre; simpl;
      [by rewrite app_nil_r|].
    unfold ahttpd_filesystem_register at 2. by rewrite Hm, Hu, IH, <-app_assoc.
  - by rewrite Hl.
  - intros f Hf. rewrite <-Hl in Hf. clear -Hnames Hf.
    induction l as [|g l IH]; [by apply not_elem_of_nil in Hf|]. cbn.
    apply NoDup_cons in Hnames as [Hg Hnames]. case_decide as Hn.
    + eexists O, _. split; [done|]. apply elem_of_cons in Hf as [->|Hf]; [done|].
      destruct Hg. rewrite Hn. by apply list_elem_of_fmap_2.
    + apply elem_of_cons in Hf as [->|Hf]; [done|].
      destruct (IH Hnames Hf) as (i & fl & -> & Hi). by eexists (S i), _.
Qed.
End daemon.

(** ** Witnesses *)

Module DaemonRun.
#[export] Instance node_control : ControlCb node_cb := {
  version_cb := CbOther 0; fstab_cb := CbOther 1; terminate_cb := CbOther 2
}.

Definition filesystems : list (ahttpd_fs CallRun.tab (fs_data CallRun.tab NodeRun.node unit)) :=
  @daemon_filesystems RefJson.ref_json Recorder.ref_malloc SerdesRun.wire
    NodeRun.node unit NodeRun.ref_node StaticRun.ref_posix
    StaticRun.ref_name CallRun.tab RefCb.ref_table node_control [] (CbOther 3).
End DaemonRun.

Import RefJson RefCb Recorder SerdesRun CallRun NodeRun StaticRun DaemonRun.

Lemma daemon_filesystems_registered_witness :
  fold_left (λ fl f, ahttpd_filesystem_register f fl) (reverse filesystems) [] = reverse filesystems ∧
  Forall (@FsLocal _ _ _ ref_table) (reverse filesystems) ∧
  ∀ f, f ∈ filesystems → ∃ i fl, ahttpd_filesystem_lookup (reverse filesystems) (fs_name f) =
    (Some i, fl) ∧ reverse filesystems !! i = Some f.
Proof.
  apply (@daemon_filesystems_registered ref_json ref_malloc wire node unit
    ref_node ref_posix ref_name tab ref_table ref_table_laws node_control [] (CbOther 3)
    (reverse filesystems)).
  apply reverse_Permutation.
Defined.
