(* ===== verification/V4l2.v ===== *)
(** * v4l2_read.c: capture devices

    Three ways of getting frames from a video device: read(2), buffers of the
    driver mapped into memory, and buffers of the program.  The kernel is a
    parameter: class [V4l2Kernel] answers system calls and keeps a state of
    its own; an ioctl is a [request], typed by what it returns.

    The state has the kernel, the memory the grabbers allocate and the array
    of instances; an instance is its place in that array.  [xioctl] repeats
    what a signal interrupts: its fuel is the number of interruptions the
    kernel still has in store. *)

From S2P Require Import Prelude CLib Json Evhttp Upload Serdes.
From Stdlib Require Import Strings.Byte.

(** ** The kernel *)

Definition EINTR : Z := 4.
Definition EAGAIN : Z := 11.
Definition ETIMEDOUT : Z := 110.

Definition V4L2_CAP_VIDEO_CAPTURE : Z := 0x1.
Definition V4L2_CAP_READWRITE : Z := 0x01000000.
Definition V4L2_CAP_STREAMING : Z := 0x04000000.

(** A pointer to a frame: NULL, a block of the program, or a mapping. *)
Inductive vptr :=
  | VNull
  | VHeap (a : nat)
  | VMap (a : nat).

#[export] Instance vptr_eq_decision : EqDecision vptr.
Proof. solve_decision. Defined.

Inductive v4l2_memory := V4L2_MEMORY_MMAP | V4L2_MEMORY_USERPTR.

Record v4l2_buffer := {
  vb_memory : v4l2_memory;
  vb_index : Z;
  vb_userptr : vptr;
  vb_length : Z
}.

(** [struct v4l2_pix_format], the fields that are looked at. *)
Record v4l2_pix := {
  pix_width : Z;
  pix_height : Z;
  pix_bytesperline : Z;
  pix_sizeimage : Z
}.

(** The ioctls of the program and their results; a crop rectangle is handed
    on as it is. *)
Inductive request : Type → Type :=
  | VIDIOC_QUERYCAP : request Z
  | VIDIOC_CROPCAP : request (Z * Z * Z * Z)
  | VIDIOC_S_CROP (c : Z * Z * Z * Z) : request unit
  | VIDIOC_S_FMT (width height : Z) : request v4l2_pix
  | VIDIOC_REQBUFS (count : Z) (m : v4l2_memory) : request Z
  | VIDIOC_QUERYBUF (index : Z) (m : v4l2_memory) : request (Z * Z)
  | VIDIOC_QBUF (b : v4l2_buffer) : request unit
  | VIDIOC_DQBUF (m : v4l2_memory) : request v4l2_buffer
  | VIDIOC_STREAMON : request unit
  | VIDIOC_G_INPUT : request Z
  | VIDIOC_ENUMINPUT (index : Z) : request bytes
  | VIDIOC_S_INPUT (index : Z) : request unit.

Class V4l2Kernel (K : Type) := {
  (** Whether the path is a character device, or failure. *)
  k_stat : K → bytes → option bool;
  k_open : bytes → K → option Z * K;
  k_close : Z → K → K;
  (** [errno], or the result. *)
  k_ioctl {R} : Z → request R → K → (Z + R) * K;
  (** The mapping, or MAP_FAILED. *)
  k_mmap : Z → Z → Z → K → option nat * K;
  (** At most so many bytes, or failure. *)
  k_read : Z → Z → K → option bytes * K;
  k_select : Z → K → Z * K;
  (** The signals that interrupt system calls before one gets through. *)
  k_interrupts : K → nat
}.

(** What the system calls promise: descriptors are opened and closed one by
    one, nothing else opens or closes any; a call that is interrupted uses
    up an interruption. *)
Class V4l2KernelLaws (K : Type) `{V4l2Kernel K} := {
  open_fds : K → gset Z;
  open_fresh dev k fd k' :
    k_open dev k = (Some fd, k') → 0 <= fd ∧ fd ∉ open_fds k ∧ open_fds k' = {[fd]} ∪ open_fds k;
  open_failed dev k k' : k_open dev k = (None, k') → open_fds k' = open_fds k;
  close_fds fd k : open_fds (k_close fd k) = open_fds k ∖ {[fd]};
  ioctl_fds {R} fd (r : request R) k : open_fds (k_ioctl fd r k).2 = open_fds k;
  mmap_fds fd len off k : open_fds (k_mmap fd len off k).2 = open_fds k;
  read_length fd n k s k' : k_read fd n k = (Some s, k') → Z.of_nat (length s) <= Z.max 0 n;
  interrupted {R} fd (r : request R) k k' :
    k_ioctl fd r k = (inl EINTR, k') → (k_interrupts k' < k_interrupts k)%nat
}.

(** Whether the [n]-th allocation of the program, of so many bytes, succeeds. *)
Class Allocator := { can_alloc : nat → Z → bool }.

(** ** Data *)

(** [struct v4l2fs_buffer]. *)
Record v4l2fs_buffer := { start : vptr; buf_length : Z }.

(** An entry of the table [grabbers]. *)
Inductive grabber := GrabRead | GrabMmap | GrabUserptr.

#[export] Instance grabber_eq_decision : EqDecision grabber.
Proof. solve_decision. Defined.

(** [struct v4l2fs_grabber_instance]; the parent is its place in the array. *)
Record v4l2fs_grabber_instance := {
  device : option bytes;
  input : Z;
  width : Z;
  height : Z;
  grb : option grabber;
  fd : Z;
  buffers : option nat;
  frame_count : Z;
  frame_size : Z;
  initialized : bool;
  parent : option nat
}.

(** The kernel, the arrays of frames and the frames, the next address, the
    instances and the count in [struct v4l2fs_data]. *)
Record vstate (K : Type) := {
  kern : K;
  frames : gmap nat (list v4l2fs_buffer);
  blocks : gmap nat bytes;
  next_block : nat;
  instances : list v4l2fs_grabber_instance;
  num_instances : Z
}.
Arguments kern {K} _.
Arguments frames {K} _.
Arguments blocks {K} _.
Arguments next_block {K} _.
Arguments instances {K} _.
Arguments num_instances {K} _.

Section v4l2.
Context {K : Type} `{V4l2Kernel K} `{Allocator}.
Notation state := (vstate K).
Implicit Types (st : state) (d : v4l2fs_grabber_instance).

Definition set_kern (k : K) st : state := {|
  kern := k; frames := frames st; blocks := blocks st; next_block := next_block st;
  instances := instances st; num_instances := num_instances st |}.

Definition set_frames (m : gmap nat (list v4l2fs_buffer)) st : state := {|
  kern := kern st; frames := m; blocks := blocks st; next_block := next_block st;
  instances := instances st; num_instances := num_instances st |}.

Definition set_blocks (m : gmap nat bytes) st : state := {|
  kern := kern st; frames := frames st; blocks := m; next_block := next_block st;
  instances := instances st; num_instances := num_instances st |}.

Definition set_instances (l : list v4l2fs_grabber_instance) st : state := {|
  kern := kern st; frames := frames st; blocks := blocks st; next_block := next_block st;
  instances := l; num_instances := num_instances st |}.

Definition set_next (n : nat) st : state := {|
  kern := kern st; frames := frames st; blocks := blocks st; next_block := n;
  instances := instances st; num_instances := num_instances st |}.

Definition get_inst st (i : nat) : outcome v4l2fs_grabber_instance :=
  deref OutOfBounds (instances st !! i).

Definition put_inst (i : nat) d st : state := set_instances (<[i:=d]> (instances st)) st.

Definition set_fd (f : Z) d : v4l2fs_grabber_instance := {|
  device := device d; input := input d; width := width d; height := height d; grb := grb d;
  fd := f; buffers := buffers d; frame_count := frame_count d; frame_size := frame_size d;
  initialized := initialized d; parent := parent d |}.

Definition set_buffers (b : option nat) d : v4l2fs_grabber_instance := {|
  device := device d; input := input d; width := width d; height := height d; grb := grb d;
  fd := fd d; buffers := b; frame_count := frame_count d; frame_size := frame_size d;
  initialized := initialized d; parent := parent d |}.

Definition set_frame_count (n : Z) d : v4l2fs_grabber_instance := {|
  device := device d; input := input d; width := width d; height := height d; grb := grb d;
  fd := fd d; buffers := buffers d; frame_count := n; frame_size := frame_size d;
  initialized := initialized d; parent := parent d |}.

Definition set_frame_size (n : Z) d : v4l2fs_grabber_instance := {|
  device := device d; input := input d; width := width d; height := height d; grb := grb d;
  fd := fd d; buffers := buffers d; frame_count := frame_count d; frame_size := n;
  initialized := initialized d; parent := parent d |}.

(** What a virtual device takes from its parent. *)
Definition inherit (p d : v4l2fs_grabber_instance) : v4l2fs_grabber_instance := {|
  device := device d; input := input d; width := width p; height := height p; grb := grb d;
  fd := fd p; buffers := buffers p; frame_count := frame_count p; frame_size := frame_size p;
  initialized := initialized d; parent := parent d |}.

(** ** System calls *)

Definition ioctl {R} st (fh : Z) (r : request R) : (Z + R) * state :=
  let '(a, k) := k_ioctl fh r (kern st) in (a, set_kern k st).

Fixpoint xioctl_loop {R} (fuel : nat) (fh : Z) (r : request R) st : outcome ((Z + R) * state) :=
  match fuel with
  | O => Fault OutOfFuel
  | S fuel =>
      let '(a, st) := ioctl st fh r in
      match a with
      | inl e => if e =? EINTR then xioctl_loop fuel fh r st else Ok (a, st)
      | inr _ => Ok (a, st)
      end
  end.

Definition xioctl {R} st (fh : Z) (r : request R) : outcome ((Z + R) * state) :=
  xioctl_loop (S (k_interrupts (kern st))) fh r st.

(** ** Frames *)

(** The arguments of [calloc] for the array; a negative count is a huge
    [size_t], which it refuses. *)
Definition calloc_frames (count : Z) st : option nat * state :=
  let a := next_block st in
  let st' := set_next (S a) st in
  if (0 <=? count) && can_alloc a (count * 16)
  then (Some a, set_frames (<[a := replicate (Z.to_nat count) {| start := VNull; buf_length := 0 |}]>
                              (frames st')) st')
  else (None, st').

Definition calloc_block (size : Z) st : option nat * state :=
  let a := next_block st in
  let st' := set_next (S a) st in
  if (0 <=? size) && can_alloc a size
  then (Some a, set_blocks (<[a := replicate (Z.to_nat size) x00]> (blocks st')) st')
  else (None, st').

Definition free_block (p : vptr) st : outcome state :=
  match p with
  | VNull => Ok st
  | VHeap a => _ ← deref UseAfterFree (blocks st !! a); Ok (set_blocks (delete a (blocks st)) st)
  | VMap _ => Fault BadFree
  end.

(** [while (frames[i].start)], over what is left of the array. *)
Fixpoint free_loop (l : list v4l2fs_buffer) st : outcome state :=
  match l with
  | [] => Fault OutOfBounds
  | b :: l =>
      if decide (start b = VNull) then Ok st
      else st ← free_block (start b) st; free_loop l st
  end.

Definition free_frames st (a : nat) : outcome state :=
  l ← deref UseAfterFree (frames st !! a);
  st ← free_loop l st;
  Ok (set_frames (delete a (frames st)) st).

(** [for (i = 0; i < count; i++)], with the rounds that are left. *)
Fixpoint allocate_loop (n : nat) (i : nat) (a : nat) (size : Z) st : outcome (option nat * state) :=
  match n with
  | O => Ok (Some a, st)
  | S n =>
      l ← deref UseAfterFree (frames st !! a);
      let '(b, st) := calloc_block size st in
      match b with
      | None => st ← free_frames st a; Ok (None, st)
      | Some b =>
          _ ← deref OutOfBounds (l !! i);
          let l := <[i := {| start := VHeap b; buf_length := size |}]> l in
          allocate_loop n (S i) a size (set_frames (<[a := l]> (frames st)) st)
      end
  end.

Definition allocate_frames (count : Z) (size : Z) st : outcome (option nat * state) :=
  let '(a, st) := calloc_frames (count + 1) st in
  match a with
  | None => Ok (None, st)
  | Some a => allocate_loop (Z.to_nat count) 0 a size st
  end.

(** The entry [i] of the array an instance points at. *)
Definition frame_at st d (i : Z) : outcome v4l2fs_buffer :=
  a ← deref NullDeref (buffers d);
  l ← deref UseAfterFree (frames st !! a);
  deref OutOfBounds (l !! Z.to_nat i).

(** ** Devices *)

(** -1 for failure; a NULL name is no path. *)
Definition open_device (dev_name : option bytes) st : Z * state :=
  match dev_name with
  | None => (-1, st)
  | Some dev =>
      match k_stat (kern st) dev with
      | Some true =>
          let '(f, k) := k_open dev (kern st) in
          (default (-1) f, set_kern k st)
      | _ => (-1, st)
      end
  end.

Definition close st (f : Z) : state := set_kern (k_close f (kern st)) st.

Definition device_common_cleanup st (i : nat) : outcome state :=
  d ← get_inst st i;
  let st := close st (fd d) in
  let st := put_inst i (set_fd (-1) d) st in
  match buffers d with
  | None => Ok st
  | Some a =>
      g ← deref NullDeref (grb d);
      st ← (if decide (g = GrabMmap) then Ok st else free_frames st a);
      Ok (put_inst i (set_buffers None (set_fd (-1) d)) st)
  end.

(** The index, or -1, and the name of the input. *)
Definition device_get_input st (i : nat) : outcome (Z * option bytes * state) :=
  d ← get_inst st i;
  let '(index, st) := ioctl st (fd d) VIDIOC_G_INPUT in
  match index with
  | inl _ => Ok (-1, None, st)
  | inr index =>
      let '(name, st) := ioctl st (fd d) (VIDIOC_ENUMINPUT (wrap U32 index)) in
      match name with
      | inl _ => Ok (-1, None, st)
      | inr name => Ok (index, Some name, st)
      end
  end.

Definition device_set_input st (i : nat) (index : Z) : outcome (Z * state) :=
  d ← get_inst st i;
  let '(r, st) := ioctl st (fd d) (VIDIOC_S_INPUT index) in
  Ok (match r with inl _ => -1 | inr _ => 0 end, st).

(** The size of a frame from the driver's answer, in [unsigned int]. *)
Definition paranoid_size (p : v4l2_pix) : Z :=
  let min := wrap U32 (pix_width p * 2) in
  let bytesperline := if pix_bytesperline p <? min then min else pix_bytesperline p in
  let min := wrap U32 (bytesperline * pix_height p) in
  if pix_sizeimage p <? min then min else pix_sizeimage p.

(** [bailout]: the descriptor is closed here and in the cleanup. *)
Definition common_bailout st (i : nat) : outcome (Z * Z * state) :=
  d ← get_inst st i;
  st ← device_common_cleanup (close st (fd d)) i;
  Ok (-1, 0, st).

(** Cropping is reset when the driver knows it; errors are ignored. *)
Definition reset_crop st (f : Z) : outcome state :=
  r ← xioctl st f VIDIOC_CROPCAP;
  match r with
  | (inr defrect, st) => r ← xioctl st f (VIDIOC_S_CROP defrect); Ok r.2
  | (inl _, st) => Ok st
  end.

(** The result (1 for a virtual device), the capabilities and the state. *)
Definition device_common_init st (i : nat) : outcome (Z * Z * state) :=
  d ← get_inst st i;
  match parent d with
  | Some p =>
      pd ← get_inst st p;
      Ok (1, 0, put_inst i (inherit pd d) st)
  | None =>
      let '(f, st) := open_device (device d) st in
      let st := put_inst i (set_fd f d) st in
      if f <? 0 then Ok (-1, 0, st)
      else
        r ← xioctl st f VIDIOC_QUERYCAP;
        match r with
        | (inl _, st) => common_bailout st i
        | (inr cap, st) =>
            if Z.land cap V4L2_CAP_VIDEO_CAPTURE =? 0 then common_bailout st i
            else
              st ← reset_crop st f;
              r ← xioctl st f (VIDIOC_S_FMT (wrap U32 (width d)) (wrap U32 (height d)));
              match r with
              | (inl _, st) => common_bailout st i
              | (inr pix, st) =>
                  Ok (0, cap, put_inst i (set_frame_size (paranoid_size pix) (set_fd f d)) st)
              end
        end
  end.

Definition init_bailout st (i : nat) : outcome (Z * state) :=
  st ← device_common_cleanup st i; Ok (-1, st).

(** The common part of the three initialisations. *)
Definition with_common (cap_needed : Z) st (i : nat) (f : state → outcome (Z * state))
    : outcome (Z * state) :=
  r ← device_common_init st i;
  let '(ret, cap, st) := r in
  if ret <? 0 then Ok (ret, st)
  else if 0 <? ret then Ok (0, st)
  else if Z.land cap cap_needed =? 0 then init_bailout st i
  else f st.

(** [data->buffers = allocate_frames(...)] and the test of the result. *)
Definition get_frames (count : Z) st (i : nat) : outcome (Z * state) :=
  d ← get_inst st i;
  r ← allocate_frames count (frame_size d) st;
  let '(b, st) := r in
  let st := put_inst i (set_buffers b d) st in
  match b with
  | None => init_bailout st i
  | Some _ => Ok (0, st)
  end.

Definition device_read_init st (i : nat) : outcome (Z * state) :=
  with_common V4L2_CAP_READWRITE st i (λ st, get_frames 1 st i).

(** One round of the loop that maps the buffers; [false] is [goto bailout]. *)
Definition map_buffer st (i : nat) : outcome (bool * state) :=
  d ← get_inst st i;
  r ← xioctl st (fd d) (VIDIOC_QUERYBUF (frame_count d) V4L2_MEMORY_MMAP);
  match r with
  | (inl _, st) => Ok (false, st)
  | (inr (len, offset), st) =>
      let '(m, k) := k_mmap (fd d) len offset (kern st) in
      let st := set_kern k st in
      a ← deref NullDeref (buffers d);
      l ← deref UseAfterFree (frames st !! a);
      _ ← deref OutOfBounds (l !! Z.to_nat (frame_count d));
      match m with
      | None => Ok (false, st)
      | Some m =>
          let l := <[Z.to_nat (frame_count d) := {| start := VMap m; buf_length := len |}]> l in
          Ok (true, put_inst i (set_frame_count (frame_count d + 1) d)
                             (set_frames (<[a := l]> (frames st)) st))
      end
  end.

(** [for (data->frame_count = 0; data->frame_count < req.count; ...)], with
    the rounds that are left. *)
Fixpoint map_loop (n : nat) st (i : nat) : outcome (Z * state) :=
  match n with
  | O => Ok (0, st)
  | S n =>
      r ← map_buffer st i;
      let '(ok, st) := r in
      if (ok : bool) then map_loop n st i else init_bailout st i
  end.

Definition device_mmap_init st (i : nat) : outcome (Z * state) :=
  with_common V4L2_CAP_STREAMING st i (λ st,
    d ← get_inst st i;
    r ← xioctl st (fd d) (VIDIOC_REQBUFS 4 V4L2_MEMORY_MMAP);
    match r with
    | (inl _, st) => init_bailout st i
    | (inr count, st) =>
        if count <? 2 then init_bailout st i
        else
          let '(b, st) := calloc_frames count st in
          let st := put_inst i (set_buffers b d) st in
          match b with
          | None => init_bailout st i
          | Some _ =>
              map_loop (Z.to_nat count) (put_inst i (set_frame_count 0 (set_buffers b d)) st) i
          end
    end).

(** [frame_count] is left as it is. *)
Definition device_userptr_init st (i : nat) : outcome (Z * state) :=
  with_common V4L2_CAP_STREAMING st i (λ st,
    d ← get_inst st i;
    r ← xioctl st (fd d) (VIDIOC_REQBUFS 4 V4L2_MEMORY_USERPTR);
    match r with
    | (inl _, st) => init_bailout st i
    | (inr count, st) => get_frames (wrap S32 count) st i
    end).

(** ** Capturing *)

Definition start_read st (i : nat) : outcome (Z * state) := Ok (0, st).

Definition stream_on st (f : Z) : outcome (Z * state) :=
  r ← xioctl st f VIDIOC_STREAMON;
  Ok (match r.1 with inl _ => -1 | inr _ => 0 end, r.2).

(** [for (i = 0; i < data->frame_count; ++i)] around VIDIOC_QBUF. *)
Fixpoint queue_loop (mk : state → Z → outcome v4l2_buffer) (n : nat) (j : Z) (f : Z) st
    : outcome (Z * state) :=
  match n with
  | O => stream_on st f
  | S n =>
      buf ← mk st j;
      r ← xioctl st f (VIDIOC_QBUF buf);
      match r with
      | (inl _, st) => Ok (-1, st)
      | (inr _, st) => queue_loop mk n (j + 1) f st
      end
  end.

Definition start_mmap st (i : nat) : outcome (Z * state) :=
  d ← get_inst st i;
  queue_loop (λ _ j, Ok {| vb_memory := V4L2_MEMORY_MMAP; vb_index := j; vb_userptr := VNull;
                           vb_length := 0 |})
    (Z.to_nat (frame_count d)) 0 (fd d) st.

Definition start_userptr st (i : nat) : outcome (Z * state) :=
  d ← get_inst st i;
  queue_loop (λ st j,
      b ← frame_at st d j;
      Ok {| vb_memory := V4L2_MEMORY_USERPTR; vb_index := j; vb_userptr := start b;
            vb_length := buf_length b |})
    (Z.to_nat (frame_count d)) 0 (fd d) st.

Definition wait_for_frame st (i : nat) : outcome (Z * state) :=
  d ← get_inst st i;
  let '(r, k) := k_select (fd d) (kern st) in
  Ok (if r =? -1 then - EAGAIN else if r =? 0 then - ETIMEDOUT else 0, set_kern k st).

(** read(2) into the first frame; what does not fit in its block is a write
    out of bounds. *)
Definition read_frame_read st (i : nat) : outcome (Z * state) :=
  d ← get_inst st i;
  b ← frame_at st d 0;
  let '(s, k) := k_read (fd d) (buf_length b) (kern st) in
  let st := set_kern k st in
  match s with
  | None => Ok (-1, st)
  | Some s =>
      match start b with
      | VNull => Ok (-1, st)
      | VMap _ => Ok (0, st)
      | VHeap a =>
          m ← deref UseAfterFree (blocks st !! a);
          if decide (length s <= length m)%nat
          then Ok (0, set_blocks (<[a := splice 0 s m]> (blocks st)) st)
          else Fault OutOfBounds
      end
  end.

(** The buffer goes back to the driver. *)
Definition requeue st (f : Z) (buf : v4l2_buffer) : outcome (Z * state) :=
  r ← xioctl st f (VIDIOC_QBUF buf);
  Ok (match r.1 with inl _ => -1 | inr _ => 0 end, r.2).

Definition read_frame_mmap st (i : nat) : outcome (Z * state) :=
  d ← get_inst st i;
  r ← xioctl st (fd d) (VIDIOC_DQBUF V4L2_MEMORY_MMAP);
  match r with
  | (inl _, st) => Ok (-1, st)
  | (inr buf, st) =>
      if wrap U32 (vb_index buf) <? wrap U32 (frame_count d) then Ok (-1, st)
      else requeue st (fd d) buf
  end.

(** The loop that looks for the frame; where it stops is not used. *)
Fixpoint find_frame (n : nat) (j : Z) st d (buf : v4l2_buffer) : outcome unit :=
  match n with
  | O => Ok tt
  | S n =>
      b ← frame_at st d j;
      if decide (vb_userptr buf = start b ∧ vb_length buf = buf_length b) then Ok tt
      else find_frame n (j + 1) st d buf
  end.

Definition read_frame_userptr st (i : nat) : outcome (Z * state) :=
  d ← get_inst st i;
  r ← xioctl st (fd d) (VIDIOC_DQBUF V4L2_MEMORY_USERPTR);
  match r with
  | (inl _, st) => Ok (-1, st)
  | (inr buf, st) =>
      _ ← find_frame (Z.to_nat (frame_count d)) 0 st d buf;
      if wrap U32 (vb_index buf) <? wrap U32 (frame_count d) then Ok (-1, st)
      else requeue st (fd d) buf
  end.

(** ** The table of grabbers *)

(** [struct v4l2fs_grabber]. *)
Record v4l2fs_grabber := {
  grb_name : bytes;
  grb_init : state → nat → outcome (Z * state);
  grb_deinit : option (state → nat → outcome (Z * state));
  grb_start : state → nat → outcome (Z * state);
  grb_wait_for_frame : state → nat → outcome (Z * state);
  grb_read_frame : state → nat → outcome (Z * state);
  grb_stop : option (state → nat → outcome (Z * state));
  grb_get_input : state → nat → outcome (Z * option bytes * state);
  grb_set_input : state → nat → Z → outcome (Z * state)
}.

Definition grabbers (g : grabber) : v4l2fs_grabber :=
  match g with
  | GrabRead => {|
      grb_name := str "read"; grb_init := device_read_init; grb_deinit := None;
      grb_start := start_read; grb_wait_for_frame := wait_for_frame;
      grb_read_frame := read_frame_read; grb_stop := None;
      grb_get_input := device_get_input; grb_set_input := device_set_input |}
  | GrabMmap => {|
      grb_name := str "mmap"; grb_init := device_mmap_init; grb_deinit := None;
      grb_start := start_mmap; grb_wait_for_frame := wait_for_frame;
      grb_read_frame := read_frame_mmap; grb_stop := None;
      grb_get_input := device_get_input; grb_set_input := device_set_input |}
  | GrabUserptr => {|
      grb_name := str "userptr"; grb_init := device_userptr_init; grb_deinit := None;
      grb_start := start_userptr; grb_wait_for_frame := wait_for_frame;
      grb_read_frame := read_frame_userptr; grb_stop := None;
      grb_get_input := device_get_input; grb_set_input := device_set_input |}
  end.

Fixpoint find_grabber (l : list grabber) (name : bytes) : option grabber :=
  match l with
  | [] => None
  | pos :: l => if decide (grb_name (grabbers pos) = name) then Some pos else find_grabber l name
  end.

Definition v4l2fs_get_grabber_by_name (name : bytes) : option grabber :=
  find_grabber [GrabRead; GrabMmap; GrabUserptr] name.
End v4l2.

(** ** System calls that are interrupted *)

Section kernel.
Context {K : Type} `{V4l2Kernel K} `{!V4l2KernelLaws K} `{Allocator}.
Notation state := (vstate K).
Implicit Types (st : state) (k : K).

(** The kernel after some interrupted attempts of an ioctl. *)
Inductive interrupted_run {R} (fh : Z) (r : request R) : K → K → Prop :=
  | not_interrupted k : interrupted_run fh r k k
  | interrupted_again k k1 k2 :
      k_ioctl fh r k = (inl EINTR, k1) → interrupted_run fh r k1 k2 → interrupted_run fh r k k2.

Lemma xioctl_loop_spec {R} fuel fh (r : request R) st :
  (k_interrupts (kern st) < fuel)%nat →
  ∃ a k1 k2, xioctl_loop fuel fh r st = Ok (a, set_kern k2 st) ∧ a ≠ inl EINTR ∧
    interrupted_run fh r (kern st) k1 ∧ k_ioctl fh r k1 = (a, k2) ∧
    open_fds k2 = open_fds (kern st).
Proof.
  revert st. induction fuel as [|fuel IH]; intros st Hf; [lia|].
  cbn [xioctl_loop]. unfold ioctl. destruct (k_ioctl fh r (kern st)) as [a k'] eqn:E.
  pose proof (ioctl_fds fh r (kern st)) as Hfds. rewrite E in Hfds. cbn in Hfds.
  destruct a as [e|x]; [|by exists (inr x), (kern st), k'; repeat split; try constructor].
  destruct (Z.eqb_spec e EINTR) as [->|He].
  - pose proof (interrupted _ _ _ _ E).
    destruct (IH (set_kern k' st)) as (a & k1 & k2 & -> & Ha & Hrun & Hk & Hfds2); [cbn; lia|].
    exists a, k1, k2. cbn [kern set_kern] in *. split_and!; [done|done| |done|congruence].
    by eapply interrupted_again.
  - exists (inl e), (kern st), k'. repeat split; try constructor; congruence.
Qed.

(** What an ioctl leaves of the state. *)
Lemma xioctl_kern {R} st fh (r : request R) a st' :
  xioctl st fh r = Ok (a, st') → ∃ k, st' = set_kern k st ∧ open_fds k = open_fds (kern st).
Proof.
  intros E. destruct (xioctl_loop_spec (S (k_interrupts (kern st))) fh r st)
    as (a' & k1 & k2 & E' & _ & _ & _ & Hfds); [lia|].
  unfold xioctl in E. rewrite E' in E. simplify_eq. eauto.
Qed.

(** The answer is that of one system call, after the interrupted ones. *)
Lemma xioctl_answer {R} st fh (r : request R) a st' :
  xioctl st fh r = Ok (a, st') →
  ∃ k0 k, st' = set_kern k st ∧ interrupted_run fh r (kern st) k0 ∧ k_ioctl fh r k0 = (a, k).
Proof.
  intros E. destruct (xioctl_loop_spec (S (k_interrupts (kern st))) fh r st)
    as (a' & k1 & k2 & E' & _ & Hr & Hk & _); [lia|].
  unfold xioctl in E. rewrite E' in E. simplify_eq. eauto.
Qed.

(** ** Allocating and freeing frames *)

(** No address in use is to come. *)
Definition mem_ok st : Prop :=
  ∀ a, is_Some (frames st !! a) ∨ is_Some (blocks st !! a) → (a < next_block st)%nat.

(** [bs] are the blocks that [B] has and [B0] has not. *)
Definition owned (z : bytes) (bs : list nat) (B0 B : gmap nat bytes) : Prop :=
  NoDup bs ∧ (∀ b, b ∈ bs → B0 !! b = None ∧ B !! b = Some z) ∧ (∀ b, b ∉ bs → B !! b = B0 !! b).

Definition frames_of (size : Z) (bs : list nat) : list v4l2fs_buffer :=
  (λ b, {| start := VHeap b; buf_length := size |}) <$> bs.

Definition null_frame : v4l2fs_buffer := {| start := VNull; buf_length := 0 |}.

Lemma owned_nil z B0 B : owned z [] B0 B → B = B0.
Proof. intros (_ & _ & Ho). apply map_eq. intros b. apply Ho, not_elem_of_nil. Qed.

Lemma owned_cons z b bs B0 B : owned z (b :: bs) B0 B → owned z bs B0 (delete b B).
Proof.
  intros ([Hb Hnd]%NoDup_cons & Hin & Hout). split_and!; [done| |].
  - intros c Hc. rewrite lookup_delete_ne by congruence. apply Hin. by right.
  - intros c Hc. destruct (decide (b = c)) as [<-|Hne].
    + rewrite lookup_delete_eq. symmetry. apply Hin. by left.
    + rewrite lookup_delete_ne by done. apply Hout. rewrite not_elem_of_cons. by split.
Qed.

Lemma owned_snoc z b bs B0 B :
  owned z bs B0 B → B !! b = None → owned z (bs ++ [b]) B0 (<[b:=z]> B).
Proof.
  intros (Hnd & Hin & Hout) Hb. assert (b ∉ bs) as Hnb by (intros [_ ?]%Hin; congruence).
  split_and!.
  - apply NoDup_app. split_and!; [done| |apply NoDup_singleton].
    intros c Hc ->%list_elem_of_singleton. done.
  - intros c [Hc| ->%list_elem_of_singleton]%elem_of_app.
    + rewrite lookup_insert_ne by congruence. by apply Hin.
    + rewrite lookup_insert_eq. split; [|done]. by rewrite <-Hout.
  - intros c Hc. rewrite not_elem_of_app, list_elem_of_singleton in Hc.
    rewrite lookup_insert_ne by naive_solver. apply Hout. tauto.
Qed.

Lemma free_loop_spec z size bs rest st B0 :
  owned z bs B0 (blocks st) →
  free_loop (frames_of size bs ++ null_frame :: rest) st = Ok (set_blocks B0 st).
Proof.
  revert st. induction bs as [|b bs IH]; intros st Ho; cbn.
  - apply owned_nil in Ho as <-. by destruct st.
  - destruct Ho as (Hnd & Hin & Hout) eqn:E. clear E.
    destruct (Hin b ltac:(by left)) as [_ ->]. cbn.
    rewrite (IH (set_blocks (delete b (blocks st)) st)); [done|].
    apply (owned_cons z). by split_and!.
Qed.

Lemma insert_frame size bs b n :
  <[length bs := {| start := VHeap b; buf_length := size |}]> (frames_of size bs ++ replicate (S n) null_frame) =
    frames_of size (bs ++ [b]) ++ replicate n null_frame.
Proof.
  unfold frames_of. rewrite insert_app_r_alt by (by rewrite length_fmap).
  rewrite length_fmap, Nat.sub_diag, fmap_app, <-app_assoc. done.
Qed.

Lemma next_frame size bs n :
  (frames_of size bs ++ replicate (S n) null_frame) !! length bs = Some null_frame.
Proof.
  unfold frames_of. rewrite lookup_app_r by (by rewrite length_fmap).
  by rewrite length_fmap, Nat.sub_diag.
Qed.

(** After [length bs] rounds of the loop. *)
Record allocating st0 (a : nat) (size : Z) (bs : list nat) (n : nat) st : Prop := {
  al_frames : frames st = <[a := frames_of size bs ++ replicate (S n) null_frame]> (frames st0);
  al_blocks : owned (replicate (Z.to_nat size) x00) bs (blocks st0) (blocks st);
  al_ok : mem_ok st;
  al_fresh : frames st0 !! a = None;
  al_rest : kern st = kern st0 ∧ instances st = instances st0 ∧ num_instances st = num_instances st0
}.

(** The array is freed with the frames it has so far. *)
Lemma free_allocating st0 a size bs n st :
  allocating st0 a size bs n st →
  ∃ st', free_frames st a = Ok st' ∧ frames st' = frames st0 ∧ blocks st' = blocks st0 ∧
    mem_ok st' ∧ kern st' = kern st0 ∧ instances st' = instances st0 ∧
    num_instances st' = num_instances st0.
Proof.
  intros [Hf Hb Hok Hn (Hk & Hi & Hnum)]. unfold free_frames.
  assert (frames st !! a = Some (frames_of size bs ++ replicate (S n) null_frame)) as ->
    by (rewrite Hf; apply lookup_insert_eq).
  cbn [deref]. rewrite bind_Ok.
  change (replicate (S n) null_frame) with (null_frame :: replicate n null_frame).
  rewrite (free_loop_spec _ _ _ _ _ _ Hb), bind_Ok. eexists. split; [done|].
  assert (delete a (frames st) = frames st0) as Hdel by (rewrite Hf; by rewrite delete_insert_id).
  cbn [set_frames set_blocks frames blocks kern instances num_instances next_block].
  split_and!; try done. intros c Hc. cbn [frames blocks set_frames set_blocks next_block] in *.
  rewrite Hdel in Hc. apply Hok. destruct Hc as [Hc|Hc].
  - left. rewrite Hf. destruct (decide (a = c)) as [<-|]; [by rewrite lookup_insert_eq|].
    by rewrite lookup_insert_ne.
  - right. destruct Hb as (_ & Hin & Hout). destruct (decide (c ∈ bs)) as [Hc'|Hc'].
    + destruct (Hin c Hc') as [_ ->]. done.
    + by rewrite Hout.
Qed.

Lemma allocate_loop_spec st0 a size n bs st :
  allocating st0 a size bs n st →
  ∃ r st', allocate_loop n (length bs) a size st = Ok (r, st') ∧
    (match r with
     | None => frames st' = frames st0 ∧ blocks st' = blocks st0 ∧ mem_ok st' ∧
         kern st' = kern st0 ∧ instances st' = instances st0 ∧ num_instances st' = num_instances st0
     | Some a' => a' = a ∧ ∃ bs', length bs' = n ∧ allocating st0 a size (bs ++ bs') 0 st'
     end).
Proof.
  revert bs st. induction n as [|n IH]; intros bs st Hal; cbn [allocate_loop].
  - exists (Some a), st. split; [done|]. split; [done|]. exists []. by rewrite app_nil_r.
  - pose proof Hal as [Hf Hb Hok Hn (Hk & Hi & Hnum)].
    assert (frames st !! a = Some (frames_of size bs ++ replicate (S (S n)) null_frame)) as ->
      by (rewrite Hf; apply lookup_insert_eq).
    cbn [deref]. rewrite bind_Ok. unfold calloc_block.
    assert (frames st !! next_block st = None ∧ blocks st !! next_block st = None) as [Hfn Hbn].
    { split; apply eq_None_not_Some; intros Hs.
      - pose proof (Hok (next_block st) (or_introl Hs)). lia.
      - pose proof (Hok (next_block st) (or_intror Hs)). lia. }
    assert (a ≠ next_block st) as Hne
      by (intros Heq; rewrite <-Heq, Hf, lookup_insert_eq in Hfn; done).
    destruct ((0 <=? size) && can_alloc (next_block st) size).
    + rewrite next_frame. cbn [deref]. rewrite bind_Ok.
      rewrite insert_frame. rewrite <-(Nat.add_1_r (length bs)).
      change 1%nat with (length [next_block st]). rewrite <-length_app.
      destruct (IH (bs ++ [next_block st])
        (set_frames (<[a := frames_of size (bs ++ [next_block st]) ++ replicate (S n) null_frame]>
                       (frames st))
          (set_blocks (<[next_block st := replicate (Z.to_nat size) x00]> (blocks st))
             (set_next (S (next_block st)) st)))) as (r & st' & E & Hr).
      { split; cbn [set_frames set_blocks set_next frames blocks next_block kern instances num_instances].
        - by rewrite Hf, insert_insert_eq.
        - by apply owned_snoc.
        - intros c Hc. cbn [set_frames set_blocks set_next frames blocks next_block] in *.
          destruct (decide (c = next_block st)) as [->|Hc']; [lia|].
          apply Nat.lt_lt_succ_r, Hok. destruct Hc as [Hc|Hc].
          + left. rewrite Hf in Hc |- *. rewrite insert_insert_eq in Hc.
            destruct (decide (a = c)) as [<-|]; [by rewrite lookup_insert_eq|].
            by rewrite !lookup_insert_ne in * by done.
          + right. by rewrite lookup_insert_ne in Hc by done.
        - done.
        - done. }
      exists r, st'. split; [exact E|]. destruct r as [a'|]; [|done].
      destruct Hr as (-> & bs' & Hlen & Hal'). split; [done|].
      exists (next_block st :: bs'). split; [by cbn; rewrite Hlen|].
      rewrite <-app_assoc in Hal'. exact Hal'.
    + destruct (free_allocating st0 a size bs (S n) (set_next (S (next_block st)) st))
        as (st' & -> & Hf' & Hb' & Hok' & ? & ? & ?).
      { split; try done. intros c Hc. apply Nat.lt_lt_succ_r. by apply Hok. }
      rewrite bind_Ok. exists None, st'. split; [done|]. by split_and!.
Qed.

Lemma allocate_frames_spec count size st :
  mem_ok st → 0 <= count →
  ∃ r st', allocate_frames count size st = Ok (r, st') ∧
    (match r with
     | None => frames st' = frames st ∧ blocks st' = blocks st ∧ mem_ok st' ∧
         kern st' = kern st ∧ instances st' = instances st ∧ num_instances st' = num_instances st
     | Some a => ∃ bs, length bs = Z.to_nat count ∧ allocating st a size bs 0 st'
     end).
Proof.
  intros Hok Hc. unfold allocate_frames, calloc_frames.
  assert (frames st !! next_block st = None) as Hfn.
  { apply eq_None_not_Some. intros Hs. pose proof (Hok (next_block st) (or_introl Hs)). lia. }
  assert (∀ st', frames st' = frames st → blocks st' = blocks st → next_block st' = S (next_block st) →
            mem_ok st') as Hok'.
  { intros st' Ef Eb En c Hs. rewrite Ef, Eb in Hs. rewrite En. apply Nat.lt_lt_succ_r, Hok, Hs. }
  destruct ((0 <=? count + 1) && can_alloc (next_block st) ((count + 1) * 16)).
  - destruct (allocate_loop_spec st (next_block st) size (Z.to_nat count) []
      (set_frames (<[next_block st := replicate (S (Z.to_nat count)) null_frame]> (frames st))
         (set_next (S (next_block st)) st))) as (r & st' & E & Hr).
    { split; cbn [set_frames set_next frames blocks next_block kern instances num_instances]; try done.
      - split_and!; [constructor| |done]. by intros b ?%not_elem_of_nil.
      - intros c Hs. cbn [set_frames set_next frames blocks next_block] in *.
        destruct (decide (c = next_block st)) as [->|Hne]; [lia|].
        apply Nat.lt_lt_succ_r, Hok. by rewrite lookup_insert_ne in Hs by done. }
    exists r, st'. split.
    + rewrite <-E. replace (Z.to_nat (count + 1)) with (S (Z.to_nat count)) by lia. done.
    + destruct r as [a'|]; [|done]. destruct Hr as (-> & bs & ? & ?). by exists bs.
  - exists None, (set_next (S (next_block st)) st). split; [done|]. split_and!; try done.
    by apply Hok'.
Qed.
End kernel.

(** ** What an initialisation does to descriptors and instances *)

Section devices.
Context {K : Type} `{V4l2Kernel K} `{!V4l2KernelLaws K} `{Allocator}.
Notation state := (vstate K).
Implicit Types (st : state) (k : K) (d : v4l2fs_grabber_instance).

Definition fds st : gset Z := open_fds (kern st).

(** Only memory changes. *)
Definition mem_only st st' : Prop :=
  kern st' = kern st ∧ instances st' = instances st ∧ num_instances st' = num_instances st.

Lemma mem_only_trans st1 st2 st3 : mem_only st1 st2 → mem_only st2 st3 → mem_only st1 st3.
Proof. unfold mem_only. naive_solver congruence. Qed.

Lemma free_block_mem p st st' : free_block p st = Ok st' → mem_only st st'.
Proof. destruct p; simpl; intros E; inv_ok; by split_and!. Qed.

Lemma free_frames_mem a st st' : free_frames st a = Ok st' → mem_only st st'.
Proof.
  unfold free_frames. intros E. apply bind_Ok_inv in E as (l & _ & E).
  apply bind_Ok_inv in E as (st1 & El & E). simplify_eq.
  assert (mem_only st st1); [|done]. revert st El.
  induction l as [|b l IH]; intros st El; simpl in El; [done|].
  case_decide; [by simplify_eq|]. apply bind_Ok_inv in El as (st2 & Eb & El).
  eapply mem_only_trans; [by eapply free_block_mem|by apply IH].
Qed.

Lemma allocate_frames_mem count size st r st' :
  allocate_frames count size st = Ok (r, st') → mem_only st st'.
Proof.
  unfold allocate_frames, calloc_frames. intros E.
  assert (∀ n i a st1, allocate_loop n i a size st1 = Ok (r, st') → mem_only st1 st') as Hloop.
  { induction n as [|n IH]; intros i a st1 E1; cbn [allocate_loop] in E1; [by simplify_eq|].
    apply bind_Ok_inv in E1 as (l & _ & E1). unfold calloc_block in E1.
    destruct ((0 <=? size) && can_alloc (next_block st1) size).
    - apply bind_Ok_inv in E1 as (? & _ & E1). apply IH in E1.
      by eapply (mem_only_trans st1); [|exact E1].
    - apply bind_Ok_inv in E1 as (st2 & Ef%free_frames_mem & E1). simplify_eq.
      by eapply (mem_only_trans st1); [|exact Ef]. }
  destruct ((0 <=? count + 1) && can_alloc (next_block st) ((count + 1) * 16)); [|by simplify_eq].
  apply Hloop in E. by eapply (mem_only_trans st); [|exact E].
Qed.

(** What the configuration gave an instance. *)
Definition same_config d d' : Prop :=
  device d' = device d ∧ grb d' = grb d ∧ parent d' = parent d ∧
  initialized d' = initialized d ∧ input d' = input d.

(** Since [st0] only instance [i], configured as [d0], has changed: its
    descriptor is [f], the open ones are [fs]. *)
Record dev_at st0 d0 (i : nat) (f : Z) (fs : gset Z) st : Prop := {
  da_inst : ∃ d, instances st !! i = Some d ∧ fd d = f ∧ same_config d0 d;
  da_others j : j ≠ i → instances st !! j = instances st0 !! j;
  da_length : length (instances st) = length (instances st0);
  da_num : num_instances st = num_instances st0;
  da_fds : fds st = fs
}.

Lemma dev_at_start st d i :
  instances st !! i = Some d → dev_at st d i (fd d) (fds st) st.
Proof. intros Hd. split; try done. exists d. by split_and!. Qed.

Lemma dev_at_mem st0 d0 i f fs st st' :
  mem_only st st' → dev_at st0 d0 i f fs st → dev_at st0 d0 i f fs st'.
Proof. intros (Ek & Ei & En) [????]. split; unfold fds in *; rewrite ?Ek, ?Ei, ?En; done. Qed.

Lemma dev_at_kern st0 d0 i f fs st k :
  dev_at st0 d0 i f fs st → dev_at st0 d0 i f (open_fds k) (set_kern k st).
Proof. intros [????]. by split. Qed.

Lemma dev_at_xioctl {R} st0 d0 i f fs st fh (r : request R) a st' :
  xioctl st fh r = Ok (a, st') → dev_at st0 d0 i f fs st → dev_at st0 d0 i f fs st'.
Proof.
  intros (k & -> & Ek)%xioctl_kern Hd. apply (dev_at_kern _ _ _ _ _ _ k) in Hd as Hd'.
  rewrite Ek in Hd'. by rewrite <-(da_fds _ _ _ _ _ _ Hd).
Qed.

Lemma dev_at_put st0 d0 i f fs st d d' :
  get_inst st i = Ok d → same_config d d' → dev_at st0 d0 i f fs st →
  dev_at st0 d0 i (fd d') fs (put_inst i d' st).
Proof.
  intros Hd Hc [(d1 & Hd1 & _ & Hc1) Ho Hl Hn Hf]. unfold get_inst in Hd. rewrite Hd1 in Hd.
  simplify_eq/=. split; cbn [put_inst set_instances instances num_instances]; try done.
  - exists d'. split_and!; [|done|].
    + apply list_lookup_insert_eq. by eapply lookup_lt_Some.
    + unfold same_config in *. naive_solver congruence.
  - intros j Hj. rewrite list_lookup_insert_ne by done. by apply Ho.
  - by rewrite length_insert.
Qed.

Lemma dev_at_fd st0 d0 i f fs st d : dev_at st0 d0 i f fs st → get_inst st i = Ok d → fd d = f.
Proof.
  intros [(d1 & Hd1 & Hf & _) _ _ _ _]. unfold get_inst. rewrite Hd1. intros E. by simplify_eq/=.
Qed.

Lemma dev_at_close st0 d0 i f fs st g :
  dev_at st0 d0 i f fs st → dev_at st0 d0 i f (fs ∖ {[g]}) (close st g).
Proof.
  intros Hd. unfold close. rewrite <-(da_fds _ _ _ _ _ _ Hd). unfold fds.
  rewrite <-close_fds. by eapply dev_at_kern.
Qed.

Lemma put_get st i d d' : get_inst st i = Ok d → get_inst (put_inst i d' st) i = Ok d'.
Proof.
  unfold get_inst. intros E. cbn. destruct (instances st !! i) eqn:Ei; [|done].
  by rewrite list_lookup_insert_eq by (by eapply lookup_lt_Some).
Qed.

Lemma mem_only_get st st' i : mem_only st st' → get_inst st' i = get_inst st i.
Proof. unfold get_inst. by intros (_ & -> & _). Qed.

Lemma cleanup_at st0 d0 i f fs st st' :
  dev_at st0 d0 i f fs st → device_common_cleanup st i = Ok st' →
  dev_at st0 d0 i (-1) (fs ∖ {[f]}) st'.
Proof.
  intros Hd E. unfold device_common_cleanup in E. apply bind_Ok_inv in E as (d & Hget & E).
  rewrite (dev_at_fd _ _ _ _ _ _ _ Hd Hget) in E.
  pose proof (dev_at_close _ _ _ _ _ _ f Hd) as Hc.
  assert (dev_at st0 d0 i (-1) (fs ∖ {[f]}) (put_inst i (set_fd (-1) d) (close st f))) as Hp.
  { refine (dev_at_put _ _ _ _ _ _ d (set_fd (-1) d) _ _ Hc); [exact Hget|by split_and!]. }
  destruct (buffers d) as [a|]; [|by simplify_eq].
  apply bind_Ok_inv in E as (g & _ & E). apply bind_Ok_inv in E as (st1 & Ef & E). simplify_eq.
  assert (mem_only (put_inst i (set_fd (-1) d) (close st f)) st1) as Hm.
  { case_decide; [by simplify_eq|by eapply free_frames_mem]. }
  refine (dev_at_put _ _ _ (-1) _ _ (set_fd (-1) d)
    (set_buffers None (set_fd (-1) d)) _ _ (dev_at_mem _ _ _ _ _ _ _ Hm Hp)).
  - rewrite (mem_only_get _ _ _ Hm). by apply (put_get _ _ d).
  - by split_and!.
Qed.

Lemma init_bailout_at st0 d0 i f fs st ret st' :
  dev_at st0 d0 i f fs st → init_bailout st i = Ok (ret, st') →
  ret = -1 ∧ dev_at st0 d0 i (-1) (fs ∖ {[f]}) st'.
Proof.
  intros Hd E. unfold init_bailout in E. apply bind_Ok_inv in E as (st1 & E1 & E). simplify_eq.
  split; [done|]. by eapply cleanup_at.
Qed.

Lemma common_bailout_at st0 d0 i f fs st ret cap st' :
  dev_at st0 d0 i f fs st → common_bailout st i = Ok (ret, cap, st') →
  ret = -1 ∧ dev_at st0 d0 i (-1) (fs ∖ {[f]}) st'.
Proof.
  intros Hd E. unfold common_bailout in E. apply bind_Ok_inv in E as (d & Hget & E).
  rewrite (dev_at_fd _ _ _ _ _ _ _ Hd Hget) in E.
  apply bind_Ok_inv in E as (st1 & E1 & E). simplify_eq. split; [done|].
  replace (fs ∖ {[f]}) with ((fs ∖ {[f]}) ∖ {[f]}) by set_solver.
  eapply cleanup_at; [|exact E1]. by apply dev_at_close.
Qed.

Lemma reset_crop_at st0 d0 i f fs st g st' :
  dev_at st0 d0 i f fs st → reset_crop st g = Ok st' → dev_at st0 d0 i f fs st'.
Proof.
  intros Hd E. unfold reset_crop in E. apply bind_Ok_inv in E as ([[e|c] st1] & E1 & E);
    pose proof (dev_at_xioctl _ _ _ _ _ _ _ _ _ _ E1 Hd); [by simplify_eq|].
  apply bind_Ok_inv in E as ([a st2] & E2 & E). simplify_eq. by eapply dev_at_xioctl.
Qed.

(** What the initialisation of an instance that is no virtual device ends in:
    a descriptor of its own, or none. *)
Definition opened st0 d0 (i : nat) (ret : Z) st : Prop :=
  (ret = 0 ∧ ∃ f, 0 <= f ∧ f ∉ fds st0 ∧ dev_at st0 d0 i f ({[f]} ∪ fds st0) st) ∨
  (ret = -1 ∧ dev_at st0 d0 i (-1) (fds st0) st).

(** Closing a descriptor that was not open before. *)
Lemma closed_again st0 d0 i f st :
  f ∉ fds st0 → dev_at st0 d0 i (-1) (({[f]} ∪ fds st0) ∖ {[f]}) st →
  dev_at st0 d0 i (-1) (fds st0) st.
Proof. intros Hf Hd. by replace (fds st0) with (({[f]} ∪ fds st0) ∖ {[f]}) by set_solver. Qed.

Lemma common_init_opened st d i ret cap st' :
  get_inst st i = Ok d → parent d = None →
  device_common_init st i = Ok (ret, cap, st') → opened st d i ret st'.
Proof.
  intros Hget Hp E. unfold device_common_init in E. rewrite Hget, bind_Ok, Hp in E.
  assert (instances st !! i = Some d) as Hi.
  { unfold get_inst in Hget. destruct (instances st !! i); [|done]. by simplify_eq/=. }
  pose proof (dev_at_start _ _ _ Hi) as Hd.
  destruct (open_device (device d) st) as [f st1] eqn:Eo.
  assert ((f = -1 ∧ fds st1 = fds st ∨ (0 <= f ∧ f ∉ fds st ∧ fds st1 = {[f]} ∪ fds st)) ∧
          ∃ k, st1 = set_kern k st) as [Hopen [k1 Hk1]].
  { assert (st = set_kern (kern st) st) as Hst by (by destruct st).
    unfold open_device in Eo. destruct (device d) as [dev|]; [|by simplify_eq; eauto].
    destruct (k_stat (kern st) dev) as [[]|]; [|by simplify_eq; eauto..].
    destruct (k_open dev (kern st)) as [[g|] k] eqn:Ek; simplify_eq/=; (split; [|by eauto]).
    - right. by apply open_fresh in Ek.
    - left. by apply open_failed in Ek. }
  assert (dev_at st d i f (fds st1) (put_inst i (set_fd f d) st1)) as Hd1.
  { refine (dev_at_put _ _ _ (fd d) _ _ d (set_fd f d) _ _ _); [by rewrite Hk1|by split_and!|].
    rewrite Hk1. by eapply dev_at_kern. }
  destruct (Z.ltb_spec f 0) as [Hlt|Hge].
  - simplify_eq. right. destruct Hopen as [[-> <-]|]; [done|lia].
  - destruct Hopen as [[-> _]|(_ & Hf & Hfds)]; [lia|]. rewrite Hfds in Hd1.
    assert (∀ st2, dev_at st d i f ({[f]} ∪ fds st) st2 → common_bailout st2 i = Ok (ret, cap, st') →
              opened st d i ret st') as Hbail.
    { intros st2 Hd2 [-> Hd3]%(common_bailout_at _ _ _ _ _ _ _ _ _ Hd2).
      right. split; [done|]. by eapply closed_again. }
    apply bind_Ok_inv in E as ([[e|cap1] st2] & E2 & E);
      pose proof (dev_at_xioctl _ _ _ _ _ _ _ _ _ _ E2 Hd1) as Hd2; [by eapply Hbail|].
    case_match; [by eapply Hbail|].
    apply bind_Ok_inv in E as (st3 & E3 & E).
    pose proof (reset_crop_at _ _ _ _ _ _ _ _ Hd2 E3) as Hd3.
    apply bind_Ok_inv in E as ([[e|pix] st4] & E4 & E);
      pose proof (dev_at_xioctl _ _ _ _ _ _ _ _ _ _ E4 Hd3) as Hd4; [by eapply Hbail|].
    simplify_eq. left. split; [done|]. exists f. split_and!; [done|done|].
    destruct (da_inst _ _ _ _ _ _ Hd4) as (d4 & Hd4' & Hf4 & Hc4).
    refine (dev_at_put _ _ _ f _ _ d4 (set_frame_size _ (set_fd f d)) _ _ Hd4).
    + unfold get_inst. by rewrite Hd4'.
    + unfold same_config in *. naive_solver congruence.
Qed.

(** The three initialisations after the common part: [f] keeps the device or
    bails out. *)
Lemma with_common_opened cap_needed st d i f ret st' :
  get_inst st i = Ok d → parent d = None →
  (∀ g fs st1 ret st2, dev_at st d i g fs st1 → f st1 = Ok (ret, st2) →
     (ret = 0 ∧ dev_at st d i g fs st2) ∨ (ret = -1 ∧ dev_at st d i (-1) (fs ∖ {[g]}) st2)) →
  with_common cap_needed st i f = Ok (ret, st') → opened st d i ret st'.
Proof.
  intros Hget Hp Hf E. unfold with_common in E.
  apply bind_Ok_inv in E as ([[ret1 cap] st1] & E1 & E).
  destruct (common_init_opened _ _ _ _ _ _ Hget Hp E1) as [(-> & g & Hg & Hn & Hd)|(-> & Hd)].
  - assert (∀ ret, (ret = 0 ∧ dev_at st d i g ({[g]} ∪ fds st) st' ∨
              ret = -1 ∧ dev_at st d i (-1) (({[g]} ∪ fds st) ∖ {[g]}) st') →
              opened st d i ret st') as Hend.
    { intros r [[-> Hd2]|[-> Hd2]]; [left; eauto|right]. split; [done|]. by eapply closed_again. }
    cbn [Z.ltb Z.compare] in E. case_match; apply Hend.
    + right. by eapply init_bailout_at.
    + by eapply Hf.
  - cbn in E. injection E as <- <-. right. by split.
Qed.

Lemma virtual_init cap_needed st d p pd i f :
  get_inst st i = Ok d → parent d = Some p → get_inst st p = Ok pd →
  with_common cap_needed st i f = Ok (0, put_inst i (inherit pd d) st).
Proof.
  intros Hget Hp Hpd. unfold with_common, device_common_init.
  by rewrite Hget, bind_Ok, Hp, Hpd, !bind_Ok.
Qed.

Lemma get_frames_at st0 d0 i g fs count st ret st' :
  dev_at st0 d0 i g fs st → get_frames count st i = Ok (ret, st') →
  (ret = 0 ∧ dev_at st0 d0 i g fs st') ∨ (ret = -1 ∧ dev_at st0 d0 i (-1) (fs ∖ {[g]}) st').
Proof.
  intros Hd E. unfold get_frames in E. apply bind_Ok_inv in E as (d & Hget & E).
  apply bind_Ok_inv in E as ([b st1] & E1 & E). apply allocate_frames_mem in E1 as Hm.
  assert (dev_at st0 d0 i g fs (put_inst i (set_buffers b d) st1)) as Hd1.
  { rewrite <-(dev_at_fd _ _ _ _ _ _ _ Hd Hget).
    refine (dev_at_put _ _ _ g _ _ d (set_buffers b d) _ _ (dev_at_mem _ _ _ _ _ _ _ Hm Hd));
      [by rewrite (mem_only_get _ _ _ Hm)|by split_and!]. }
  destruct b; [simplify_eq; by left|right]. by eapply init_bailout_at.
Qed.

Lemma map_loop_at st0 d0 i g fs n st ret st' :
  dev_at st0 d0 i g fs st → map_loop n st i = Ok (ret, st') →
  (ret = 0 ∧ dev_at st0 d0 i g fs st') ∨ (ret = -1 ∧ dev_at st0 d0 i (-1) (fs ∖ {[g]}) st').
Proof.
  revert st. induction n as [|n IH]; intros st Hd E; cbn [map_loop] in E;
    [simplify_eq; by left|].
  apply bind_Ok_inv in E as ([ok st1] & E1 & E).
  assert (dev_at st0 d0 i g fs st1) as Hd1.
  { clear E IH. unfold map_buffer in E1. apply bind_Ok_inv in E1 as (d & Hget & E).
    apply bind_Ok_inv in E as ([[e|[len off]] st2] & E2 & E);
      pose proof (dev_at_xioctl _ _ _ _ _ _ _ _ _ _ E2 Hd) as Hd2; [by simplify_eq|].
    destruct (k_mmap (fd d) len off (kern st2)) as [m k] eqn:Em.
    assert (dev_at st0 d0 i g fs (set_kern k st2)) as Hd3.
    { pose proof (mmap_fds (fd d) len off (kern st2)) as Hk. rewrite Em in Hk. cbn in Hk.
      apply (dev_at_kern _ _ _ _ _ _ k) in Hd2 as Hd3. rewrite Hk in Hd3.
      by rewrite <-(da_fds _ _ _ _ _ _ Hd2). }
    apply bind_Ok_inv in E as (a & _ & E). apply bind_Ok_inv in E as (l & _ & E).
    apply bind_Ok_inv in E as (? & _ & E). destruct m as [m|]; [|by simplify_eq].
    simplify_eq. rewrite <-(dev_at_fd _ _ _ _ _ _ _ Hd Hget).
    refine (dev_at_put _ _ _ g _ _ d (set_frame_count _ d) _ _ (dev_at_mem _ _ _ _ _ _ _ _ Hd3));
      [|by split_and!|by split_and!].
    apply xioctl_kern in E2 as (k2 & -> & _). exact Hget. }
  destruct ok; [by eapply IH|right]. by eapply init_bailout_at.
Qed.

Lemma read_init_opened st d i ret st' :
  get_inst st i = Ok d → parent d = None →
  device_read_init st i = Ok (ret, st') → opened st d i ret st'.
Proof.
  intros Hget Hp. apply with_common_opened; [done|done|]. intros. by eapply get_frames_at.
Qed.

Lemma mmap_init_opened st d i ret st' :
  get_inst st i = Ok d → parent d = None →
  device_mmap_init st i = Ok (ret, st') → opened st d i ret st'.
Proof.
  intros Hget Hp. apply with_common_opened; [done|done|]. intros g fs st1 r st2 Hd E.
  apply bind_Ok_inv in E as (d1 & Hget1 & E).
  apply bind_Ok_inv in E as ([[e|count] st3] & E3 & E);
    pose proof (dev_at_xioctl _ _ _ _ _ _ _ _ _ _ E3 Hd) as Hd3;
    [right; by eapply init_bailout_at|].
  case_match; [right; by eapply init_bailout_at|].
  destruct (calloc_frames count st3) as [b st4] eqn:Ec.
  assert (mem_only st3 st4) as Hm.
  { unfold calloc_frames in Ec. by destruct ((0 <=? count) && _); simplify_eq. }
  pose proof (dev_at_mem _ _ _ _ _ _ _ Hm Hd3) as Hd4.
  assert (get_inst st4 i = Ok d1) as Hget4.
  { rewrite (mem_only_get _ _ _ Hm). apply xioctl_kern in E3 as (k & -> & _). exact Hget1. }
  pose proof (dev_at_fd _ _ _ _ _ _ _ Hd Hget1) as <-.
  assert (dev_at st d i (fd d1) fs (put_inst i (set_buffers b d1) st4)) as Hd5.
  { by refine (dev_at_put _ _ _ _ _ _ d1 (set_buffers b d1) Hget4 _ Hd4); split_and!. }
  destruct b as [a|]; [|right; by eapply init_bailout_at].
  eapply map_loop_at; [|exact E].
  refine (dev_at_put _ _ _ _ _ _ (set_buffers (Some a) d1)
            (set_frame_count 0 (set_buffers (Some a) d1)) _ _ Hd5).
  - by apply (put_get _ _ d1).
  - by split_and!.
Qed.

Lemma userptr_init_opened st d i ret st' :
  get_inst st i = Ok d → parent d = None →
  device_userptr_init st i = Ok (ret, st') → opened st d i ret st'.
Proof.
  intros Hget Hp. apply with_common_opened; [done|done|]. intros g fs st1 r st2 Hd E.
  apply bind_Ok_inv in E as (d1 & Hget1 & E).
  apply bind_Ok_inv in E as ([[e|count] st3] & E3 & E);
    pose proof (dev_at_xioctl _ _ _ _ _ _ _ _ _ _ E3 Hd) as Hd3;
    [right; by eapply init_bailout_at|by eapply get_frames_at].
Qed.

(** The initialisation of any grabber. *)
Lemma grb_init_opened g st d i ret st' :
  get_inst st i = Ok d → parent d = None →
  grb_init (grabbers g) st i = Ok (ret, st') → opened st d i ret st'.
Proof.
  destruct g; [apply read_init_opened|apply mmap_init_opened|apply userptr_init_opened].
Qed.

Lemma grb_init_virtual g st d p pd i :
  get_inst st i = Ok d → parent d = Some p → get_inst st p = Ok pd →
  grb_init (grabbers g) st i = Ok (0, put_inst i (inherit pd d) st).
Proof. destruct g; apply virtual_init. Qed.
End devices.

(** ** Theorems *)

(** The driver's queue of buffers of a device, for the mapped ones: taking a
    buffer takes the first, a failed attempt takes none. *)
Class V4l2Queue (K : Type) `{V4l2Kernel K} := {
  queued : Z → K → list Z;
  dequeue fd k a k' :
    k_ioctl fd (VIDIOC_DQBUF V4L2_MEMORY_MMAP) k = (a, k') →
    match a with
    | inl _ => queued fd k' = queued fd k
    | inr buf => queued fd k = vb_index buf :: queued fd k'
    end
}.

Section theorems.
Context {K : Type} `{V4l2Kernel K} `{!V4l2KernelLaws K} `{!V4l2Queue K} `{Allocator}.
Notation state := (vstate K).
Implicit Types (st : state) (k : K) (d : v4l2fs_grabber_instance).

(** C20: An ioctl that signals interrupt only so many times gets through: the
    loop ends, with the answer to the first attempt that was not interrupted,
    and it changes nothing but the kernel, which has the same descriptors
    open. *)
Theorem xioctl_gets_through {R} st fh (r : request R) :
  ∃ a k1 k2, xioctl st fh r = Ok (a, set_kern k2 st) ∧ a ≠ inl EINTR ∧
    interrupted_run fh r (kern st) k1 ∧ k_ioctl fh r k1 = (a, k2) ∧
    open_fds k2 = open_fds (kern st).
Proof. apply xioctl_loop_spec. lia. Qed.

(** C13: Allocating frames either gives an array of as many fresh blocks of
    the size asked for, and freeing the array gives the memory back as it
    was; or it fails and has given everything back already. *)
Theorem frames_roundtrip count size st :
  mem_ok st → 0 <= count →
  ∃ r st', allocate_frames count size st = Ok (r, st') ∧
    match r with
    | None => frames st' = frames st ∧ blocks st' = blocks st
    | Some a => frames st !! a = None ∧
        ∃ bs, length bs = Z.to_nat count ∧ NoDup bs ∧
          frames st' !! a = Some (frames_of size bs ++ [null_frame]) ∧
          (∀ b, b ∈ bs → blocks st !! b = None ∧
             blocks st' !! b = Some (replicate (Z.to_nat size) x00)) ∧
          ∃ st'', free_frames st' a = Ok st'' ∧ frames st'' = frames st ∧ blocks st'' = blocks st
    end.
Proof.
  intros Hok Hc. destruct (allocate_frames_spec count size st Hok Hc) as (r & st' & -> & Hr).
  exists r, st'. split; [done|]. destruct r as [a|]; [|by destruct Hr as (? & ? & _)].
  destruct Hr as (bs & Hlen & Hal). pose proof Hal as [Hf (Hnd & Hin & _) _ Hn _].
  split; [done|]. exists bs. split_and!; try done.
  - by rewrite Hf, lookup_insert_eq.
  - destruct (free_allocating _ _ _ _ _ _ Hal) as (st'' & -> & ? & ? & _). by exists st''.
Qed.

(** The driver's numbers are unsigned and 32 bits wide. *)
Definition u32_pix (p : v4l2_pix) : Prop :=
  in_range U32 (pix_width p) ∧ in_range U32 (pix_height p) ∧
  in_range U32 (pix_bytesperline p) ∧ in_range U32 (pix_sizeimage p).

(** The numbers the size is computed from fit 32 bits. *)
Definition sizes_fit (p : v4l2_pix) : Prop :=
  u32_pix p ∧ 2 * pix_width p < 2 ^ 32 ∧
  Z.max (pix_bytesperline p) (2 * pix_width p) * pix_height p < 2 ^ 32.

Lemma paranoid_size_covers p :
  sizes_fit p →
  paranoid_size p = Z.max (pix_sizeimage p)
    (Z.max (pix_bytesperline p) (2 * pix_width p) * pix_height p).
Proof.
  intros (Hp & H1 & H2). revert Hp.
  unfold u32_pix, in_range, paranoid_size, wrap. cbn [is_signed Serdes.width].
  intros (Hw & Hh & Hb & Hs). cbn in Hw, Hh, Hb, Hs.
  rewrite (Z.mod_small (pix_width p * 2)) by lia.
  destruct (Z.ltb_spec (pix_bytesperline p) (pix_width p * 2));
    rewrite Z.mod_small by nia;
    match goal with |- context [pix_sizeimage p <? ?m] => destruct (Z.ltb_spec (pix_sizeimage p) m) end;
    nia.
Qed.

Lemma common_init_frame st d i cap st' :
  get_inst st i = Ok d → parent d = None → device_common_init st i = Ok (0, cap, st') →
  frames st' = frames st ∧ blocks st' = blocks st ∧ next_block st' = next_block st ∧
  ∃ d' pix k0 k1, get_inst st' i = Ok d' ∧ frame_size d' = paranoid_size pix ∧
    let fmt := VIDIOC_S_FMT (wrap U32 (width d)) (wrap U32 (height d)) in
    interrupted_run (fd d') fmt k0 k1 ∧ k_ioctl (fd d') fmt k1 = (inr pix, kern st').
Proof.
  intros Hget Hp E. unfold device_common_init in E. rewrite Hget, bind_Ok, Hp in E.
  assert (∀ st1 r, common_bailout st1 i = Ok r → r.1.1 = -1) as Hbail.
  { intros st1 r Hb. unfold common_bailout in Hb. apply bind_Ok_inv in Hb as (? & _ & Hb).
    apply bind_Ok_inv in Hb as (? & _ & Hb). by simplify_eq. }
  destruct (open_device (device d) st) as [f st1] eqn:Eo.
  assert (∃ k, st1 = set_kern k st) as [k ->].
  { assert (st = set_kern (kern st) st) as Hst by (by destruct st).
    unfold open_device in Eo. destruct (device d) as [dev|]; [|by simplify_eq; eauto].
    destruct (k_stat (kern st) dev) as [[]|]; [|by simplify_eq; eauto..].
    destruct (k_open dev (kern st)); simplify_eq; eauto. }
  case_match; [done|].
  apply bind_Ok_inv in E as ([[e|cap1] st2] & (k2 & -> & _)%xioctl_kern & E);
    [by apply Hbail in E|].
  case_match; [by apply Hbail in E|].
  apply bind_Ok_inv in E as (st3 & E3 & E). unfold reset_crop in E3.
  assert (∃ k3, st3 = set_kern k3 (put_inst i (set_fd f d) st)) as [k3 ->].
  { apply bind_Ok_inv in E3 as ([[e|c] st4] & (k4 & -> & _)%xioctl_kern & E3);
      [simplify_eq; by exists k4|].
    apply bind_Ok_inv in E3 as ([a st5] & (k5 & -> & _)%xioctl_kern & E3). simplify_eq.
    by exists k5. }
  apply bind_Ok_inv in E as ([[e|pix] st4] & (k4 & k5 & -> & Hrun & Hk)%xioctl_answer & E);
    [by apply Hbail in E|].
  simplify_eq. split_and!; try done.
  exists (set_frame_size (paranoid_size pix) (set_fd f d)), pix, k3, k4.
  split; [|by split_and!].
  apply (put_get _ _ (set_fd f d)). exact (put_get st i d (set_fd f d) Hget).
Qed.

(** C14: A device that is read with read(2) has, once it is initialised, one
    frame, a block of exactly the frame size; reading a frame stays within
    it, whatever the device sends.  The frame size is made from the driver's
    answer to VIDIOC_S_FMT, the last system call of the initialisation, for the
    configured picture size: as long as the sizes fit 32 bits it is the image
    size the driver said, or the size of all the lines where that is more, a
    line having the bytes the driver said and at least two for each pixel. *)
Theorem read_frame_fits st d i st' :
  mem_ok st → get_inst st i = Ok d → parent d = None → device_read_init st i = Ok (0, st') →
  ∃ d' b pix k0 k1 r st2, get_inst st' i = Ok d' ∧
    frame_at st' d' 0 = Ok {| start := VHeap b; buf_length := frame_size d' |} ∧
    blocks st' !! b = Some (replicate (Z.to_nat (frame_size d')) x00) ∧
    (let fmt := VIDIOC_S_FMT (wrap U32 (width d)) (wrap U32 (height d)) in
     interrupted_run (fd d') fmt k0 k1 ∧ k_ioctl (fd d') fmt k1 = (inr pix, kern st')) ∧
    frame_size d' = paranoid_size pix ∧
    (sizes_fit pix →
     frame_size d' = Z.max (pix_sizeimage pix)
       (Z.max (pix_bytesperline pix) (2 * pix_width pix) * pix_height pix)) ∧
    read_frame_read st' i = Ok (r, st2) ∧ r ∈ [0; -1].
Proof.
  intros Hok Hget Hp E. unfold device_read_init, with_common in E.
  apply bind_Ok_inv in E as ([[ret cap] st1] & E1 & E).
  assert (ret = 0) as ->.
  { destruct (common_init_opened _ _ _ _ _ _ Hget Hp E1) as [[-> _]|[-> _]]; [done|].
    cbn in E. by simplify_eq. }
  destruct (common_init_frame _ _ _ _ _ Hget Hp E1) as (Hf & Hb & Hn & d1 & pix & k0 & k1 & Hget1 & Hpix & Hrun & Hk).
  cbn [Z.ltb Z.compare] in E. case_match.
  { unfold init_bailout in E. apply bind_Ok_inv in E as (? & _ & E). by simplify_eq. }
  assert (mem_ok st1) as Hok1 by (intros a; rewrite Hf, Hb, Hn; apply Hok).
  unfold get_frames in E. rewrite Hget1, bind_Ok in E.
  destruct (allocate_frames_spec 1 (frame_size d1) st1 Hok1 ltac:(lia)) as (r & st2 & Ea & Hr).
  rewrite Ea, bind_Ok in E. destruct r as [a|].
  2: { unfold init_bailout in E. apply bind_Ok_inv in E as (? & _ & E). by simplify_eq. }
  destruct Hr as ([|b [|]] & Hlen & [Hfr (_ & Hin & _) _ _ (Hkern & Hi & _)]); try done.
  simplify_eq. destruct (Hin b ltac:(by left)) as [_ Hblock].
  assert (get_inst (put_inst i (set_buffers (Some a) d1) st2) i = Ok (set_buffers (Some a) d1)) as Hg.
  { apply (put_get _ _ d1). unfold get_inst. by rewrite Hi. }
  assert (frame_at (put_inst i (set_buffers (Some a) d1) st2) (set_buffers (Some a) d1) 0 =
          Ok {| start := VHeap b; buf_length := frame_size d1 |}) as Hframe.
  { unfold frame_at. cbn. by rewrite Hfr, lookup_insert_eq. }
  assert (∃ r st3, read_frame_read (put_inst i (set_buffers (Some a) d1) st2) i = Ok (r, st3) ∧
            r ∈ [0; -1]) as (r & st3 & Hread & Hr).
  { unfold read_frame_read. rewrite Hg, bind_Ok, Hframe, bind_Ok.
    destruct (k_read _ _ _) as [[s|] k] eqn:Ek; [|do 2 eexists; split; [reflexivity|set_solver]].
    apply read_length in Ek. cbn in Ek |- *. rewrite Hblock. cbn.
    rewrite decide_True by (rewrite length_replicate; lia).
    do 2 eexists. split; [reflexivity|set_solver]. }
  exists (set_buffers (Some a) d1), b, pix, k0, k1, r, st3. split_and!; try done.
  - cbn. by rewrite Hkern.
  - cbn [set_buffers frame_size]. rewrite Hpix. apply paranoid_size_covers.
Qed.

(** Reading frames over and over: the results. *)
Fixpoint capture_mmap (n : nat) st (i : nat) : outcome (list Z * state) :=
  match n with
  | O => Ok ([], st)
  | S n =>
      r ← read_frame_mmap st i;
      rs ← capture_mmap n r.2 i;
      Ok (r.1 :: rs.1, rs.2)
  end.

(** C25: With mapped buffers no frame is ever delivered: the test of the
    index is the wrong way round, so that every attempt to read a frame fails
    when the driver reports one of the buffers it was given, and the buffer
    is not given back: the queue of the driver runs empty. *)
Theorem mmap_delivers_nothing n st d i :
  get_inst st i = Ok d → 0 <= frame_count d < 2 ^ 32 →
  Forall (λ j, 0 <= j < frame_count d) (queued (fd d) (kern st)) →
  ∃ st' lost, capture_mmap n st i = Ok (replicate n (-1), st') ∧ (lost <= n)%nat ∧
    queued (fd d) (kern st') = drop lost (queued (fd d) (kern st)).
Proof.
  intros Hget Hn. revert st Hget. induction n as [|n IH]; intros st Hget Hq.
  - exists st, O. by split_and!.
  - destruct (xioctl_loop_spec (S (k_interrupts (kern st))) (fd d) (VIDIOC_DQBUF V4L2_MEMORY_MMAP) st)
      as (a & k1 & k2 & E & _ & Hrun & Hk & _); [lia|].
    assert (queued (fd d) k1 = queued (fd d) (kern st)) as Hk1.
    { clear -Hrun. induction Hrun as [|k k1 k2 E _ IH]; [done|]. apply dequeue in E. congruence. }
    apply dequeue in Hk. rewrite Hk1 in Hk.
    assert (∃ one, (one <= 1)%nat ∧ queued (fd d) k2 = drop one (queued (fd d) (kern st)))
      as (one & Hone & Hk2).
    { destruct a as [e|buf]; [exists O|exists 1%nat; rewrite Hk]; by split; [lia|]. }
    assert (read_frame_mmap st i = Ok (-1, set_kern k2 st)) as Hread.
    { unfold read_frame_mmap, xioctl. rewrite Hget, bind_Ok, E, bind_Ok.
      destruct a as [e|buf]; [done|]. rewrite Hk in Hq. apply Forall_cons in Hq as [Hj _].
      unfold wrap. cbn [is_signed Serdes.width]. rewrite !Z.mod_small by lia.
      by rewrite (proj2 (Z.ltb_lt _ _)) by lia. }
    destruct (IH (set_kern k2 st) Hget) as (st' & lost & Hc & Hlost & Hq').
    { cbn [kern set_kern]. rewrite Hk2. by apply Forall_drop. }
    exists st', (one + lost)%nat. cbn [capture_mmap replicate]. split_and!; [|lia|].
    + rewrite Hread, bind_Ok. cbn [fst snd]. by rewrite Hc.
    + rewrite Hq'. cbn [kern set_kern]. by rewrite Hk2, drop_drop.
Qed.
End theorems.

(** ** Witnesses *)

Module V4l2Run.
(** A machine with one camera, /dev/video0: signals that are still to come,
    the open descriptors and the buffers the driver has. *)
Record machine := { signals : nat; opened_fds : gset Z; next_fd : nat; queue : list Z }.

Definition set_signals (n : nat) (k : machine) : machine := {|
  signals := n; opened_fds := opened_fds k; next_fd := next_fd k; queue := queue k |}.

Definition set_queue (q : list Z) (k : machine) : machine := {|
  signals := signals k; opened_fds := opened_fds k; next_fd := next_fd k; queue := q |}.

Definition set_opened (s : gset Z) (k : machine) : machine := {|
  signals := signals k; opened_fds := s; next_fd := S (next_fd k); queue := queue k |}.

(** A picture of 8 by 4 pixels; the driver leaves the sizes to the program. *)
Definition answer {R} (r : request R) (k : machine) : (Z + R) * machine :=
  match r in request R return (Z + R) * machine with
  | VIDIOC_QUERYCAP =>
      (inr (Z.lor V4L2_CAP_VIDEO_CAPTURE (Z.lor V4L2_CAP_READWRITE V4L2_CAP_STREAMING)), k)
  | VIDIOC_CROPCAP => (inr (0, 0, 8, 4), k)
  | VIDIOC_S_CROP _ => (inl 22, k)
  | VIDIOC_S_FMT w h =>
      (inr {| pix_width := w; pix_height := h; pix_bytesperline := 0; pix_sizeimage := 0 |}, k)
  | VIDIOC_REQBUFS count _ => (inr count, k)
  | VIDIOC_QUERYBUF i _ => (inr (64, 64 * i), k)
  | VIDIOC_QBUF b => (inr tt, set_queue (queue k ++ [vb_index b]) k)
  | VIDIOC_DQBUF m =>
      match queue k with
      | [] => (inl EAGAIN, k)
      | j :: q => (inr {| vb_memory := m; vb_index := j; vb_userptr := VNull; vb_length := 64 |},
                   set_queue q k)
      end
  | VIDIOC_STREAMON => (inr tt, k)
  | VIDIOC_G_INPUT => (inr 0, k)
  | VIDIOC_ENUMINPUT _ => (inr (str "camera"), k)
  | VIDIOC_S_INPUT i => (if i =? 0 then inr tt else inl 22, k)
  end.

#[export] Instance ref_kernel : V4l2Kernel machine := {
  k_stat _ dev := if decide (dev = str "/dev/null") then None else Some true;
  k_open _ k :=
    let fd := 3 + Z.of_nat (next_fd k) in
    if decide (fd ∈ opened_fds k) then (None, k)
    else (Some fd, set_opened ({[fd]} ∪ opened_fds k) k);
  k_close fd k := {| signals := signals k; opened_fds := opened_fds k ∖ {[fd]};
                     next_fd := next_fd k; queue := queue k |};
  k_ioctl R fd r k :=
    match signals k with
    | S n => (inl EINTR, set_signals n k)
    | O => answer r k
    end;
  k_mmap _ _ off k := (Some (Z.to_nat off), k);
  k_read _ n k := (Some (take (Z.to_nat n) (str "JPEG")), k);
  k_select _ k := (1, k);
  k_interrupts := signals
}.

#[export] Instance ref_kernel_laws : V4l2KernelLaws machine.
Proof.
  refine {| open_fds := opened_fds |}.
  - intros dev k fd k' E. cbn in E. case_decide; simplify_eq/=. split_and!; [lia|done|done].
  - intros dev k k' E. cbn in E. by case_decide; simplify_eq/=.
  - done.
  - intros R fd r k. cbn. destruct (signals k); [|done]. destruct r; try done.
    cbn. by destruct (queue k).
  - done.
  - intros fd n k s k' E. cbn in E. simplify_eq. rewrite length_take. lia.
  - intros R fd r k k' E. cbn in E |- *. destruct (signals k) eqn:Es; simplify_eq/=; [|lia].
    exfalso. revert E. destruct r; cbn; try done.
    + by destruct (queue k).
    + by destruct (index =? 0).
Defined.

#[export] Instance ref_queue : V4l2Queue machine.
Proof.
  refine {| queued _ k := queue k |}. intros fd k a k' E. cbn in E.
  destruct (signals k); [|by simplify_eq/=]. cbn in E.
  destruct (queue k) eqn:Eq; simplify_eq/=; [by rewrite Eq|done].
Defined.

(** Allocations of less than a mebibyte succeed. *)
Instance small_alloc : Allocator := { can_alloc _ n := n <? 2 ^ 20 }.

Definition boot : machine := {| signals := 2; opened_fds := ∅; next_fd := 0; queue := [] |}.

Definition camera (g : grabber) : v4l2fs_grabber_instance := {|
  device := Some (str "/dev/video0"); input := 0; width := 8; height := 4; grb := Some g;
  fd := 0; buffers := None; frame_count := 0; frame_size := 0; initialized := false;
  parent := None |}.

Definition fresh (g : grabber) : vstate machine := {|
  kern := boot; frames := ∅; blocks := ∅; next_block := 0; instances := [camera g];
  num_instances := 0 |}.

Definition after (o : outcome (Z * vstate machine)) (st : vstate machine) : vstate machine :=
  match o with Ok (_, st) => st | Fault _ => st end.

Definition streaming : vstate machine :=
  let st := after (device_mmap_init (fresh GrabMmap) 0) (fresh GrabMmap) in
  after (start_mmap st 0) st.
End V4l2Run.

Import V4l2Run.
#[local] Existing Instance small_alloc.

Lemma xioctl_gets_through_witness :
  ∃ a k1 k2, xioctl (fresh GrabRead) 3 VIDIOC_G_INPUT = Ok (a, set_kern k2 (fresh GrabRead)) ∧
    a ≠ inl EINTR ∧ interrupted_run 3 VIDIOC_G_INPUT boot k1 ∧
    k_ioctl 3 VIDIOC_G_INPUT k1 = (a, k2) ∧ open_fds k2 = open_fds boot.
Proof.
  apply (@xioctl_gets_through machine ref_kernel ref_kernel_laws Z (fresh GrabRead) 3 VIDIOC_G_INPUT).
Defined.

Lemma frames_roundtrip_witness :
  ∃ r st', allocate_frames 2 64 (fresh GrabUserptr) = Ok (r, st') ∧
    match r with
    | None => frames st' = ∅ ∧ blocks st' = ∅
    | Some a => frames (fresh GrabUserptr) !! a = None ∧
        ∃ bs, length bs = Z.to_nat 2 ∧ NoDup bs ∧
          frames st' !! a = Some (frames_of 64 bs ++ [null_frame]) ∧
          (∀ b, b ∈ bs → blocks (fresh GrabUserptr) !! b = None ∧
             blocks st' !! b = Some (replicate (Z.to_nat 64) x00)) ∧
          ∃ st'', free_frames st' a = Ok st'' ∧ frames st'' = ∅ ∧ blocks st'' = ∅
    end.
Proof.
  apply (@frames_roundtrip machine small_alloc 2 64 (fresh GrabUserptr)).
  - intros a [[? E]|[? E]]; cbn in E; by rewrite lookup_empty in E.
  - lia.
Defined.

Lemma read_frame_fits_witness :
  let st' := after (device_read_init (fresh GrabRead) 0) (fresh GrabRead) in
  ∃ d' b pix k0 k1 r st2, get_inst st' 0 = Ok d' ∧
    frame_at st' d' 0 = Ok {| start := VHeap b; buf_length := frame_size d' |} ∧
    blocks st' !! b = Some (replicate (Z.to_nat (frame_size d')) x00) ∧
    (let fmt := VIDIOC_S_FMT 8 4 in
     interrupted_run (fd d') fmt k0 k1 ∧ k_ioctl (fd d') fmt k1 = (inr pix, kern st')) ∧
    frame_size d' = paranoid_size pix ∧
    (sizes_fit pix →
     frame_size d' = Z.max (pix_sizeimage pix)
       (Z.max (pix_bytesperline pix) (2 * pix_width pix) * pix_height pix)) ∧
    read_frame_read st' 0 = Ok (r, st2) ∧ r ∈ [0; -1].
Proof.
  apply (@read_frame_fits machine ref_kernel ref_kernel_laws small_alloc (fresh GrabRead)
    (camera GrabRead) 0).
  - intros a [[? E]|[? E]]; cbn in E; by rewrite lookup_empty in E.
  - reflexivity.
  - reflexivity.
  - vm_compute. reflexivity.
Defined.

Lemma mmap_delivers_nothing_witness :
  ∃ d st' lost, get_inst streaming 0 = Ok d ∧ queued (fd d) (kern streaming) = [0; 1; 2; 3] ∧
    capture_mmap 3 streaming 0 = Ok ([-1; -1; -1], st') ∧ (lost <= 3)%nat ∧
    queued (fd d) (kern st') = drop lost [0; 1; 2; 3].
Proof.
  assert (is_ok (get_inst streaming 0) = true) as Hok by (vm_compute; reflexivity).
  apply is_ok_inv in Hok as [d Hd].
  assert (frame_count d = 4) as Hn.
  { assert (match get_inst streaming 0 with Ok d => frame_count d | Fault _ => 0 end = 4) as E
      by (vm_compute; reflexivity). by rewrite Hd in E. }
  assert (queued (fd d) (kern streaming) = [0; 1; 2; 3]) as Hq by (vm_compute; reflexivity).
  destruct (@mmap_delivers_nothing machine ref_kernel ref_kernel_laws ref_queue 3 streaming d 0 Hd)
    as (st' & lost & Hc & Hl & Hq').
  - rewrite Hn. lia.
  - rewrite Hq, Hn. repeat constructor; lia.
  - exists d, st', lost. rewrite Hq in Hq'. split_and!; assumption.
Defined.
