(* ===== verification/V4l2Fs.v ===== *)
(** * fs_v4l2.c: the video filesystem

    Mounting opens the devices of the configuration one after the other; a
    device that is named twice is opened once and shared.  The grabbers and
    the kernel are those of V4l2. *)

From S2P Require Import Prelude CLib Json Evhttp Upload Serdes Mime Server V4l2.
From Stdlib Require Import Strings.Byte.

Section v4l2fs.
Context `{JsonC} {K : Type} `{V4l2Kernel K} `{Allocator}.
Notation state := (vstate K).
Implicit Types (st : state).

(** There is nothing in it. *)
Definition dispatch_frame (calls : list http_call) : list http_call := calls.

(** [for (i = 0; i < data->num_instances; i++)], with the rounds left. *)
Fixpoint cleanup_loop (n : nat) (i : nat) st : outcome state :=
  match n with
  | O => Ok st
  | S n =>
      d ← get_inst st i;
      match device d with
      | None => cleanup_loop n (S i) st
      | Some _ =>
          if initialized d then
            g ← deref NullDeref (grb d);
            deinit ← deref NullCall (grb_deinit (grabbers g));
            r ← deinit st i;
            cleanup_loop n (S i) r.2
          else cleanup_loop n (S i) st
      end
  end.

Definition cleanup_devices st : outcome state :=
  st ← cleanup_loop (Z.to_nat (num_instances st)) 0 st;
  Ok (set_instances [] st).

(** An instance as [calloc] returns it. *)
Definition blank : v4l2fs_grabber_instance := {|
  device := None; input := 0; width := 0; height := 0; grb := None; fd := 0; buffers := None;
  frame_count := 0; frame_size := 0; initialized := false; parent := None |}.

(** What the configuration says of an instance. *)
Definition configure (pos : json) (d : v4l2fs_grabber_instance)
    : outcome v4l2fs_grabber_instance :=
  dev ← json_array_find_string pos (str "device");
  inp ← json_array_find_number pos (str "input");
  h ← json_array_find_number pos (str "height");
  w ← json_array_find_number pos (str "width");
  grb_name ← json_array_find_string pos (str "iomethod");
  Ok {| device := dev; input := wrap S32 inp; width := wrap S32 w; height := wrap S32 h;
        grb := match grb_name with Some n => v4l2fs_get_grabber_by_name n | None => grb d end;
        fd := fd d; buffers := buffers d; frame_count := frame_count d;
        frame_size := frame_size d; initialized := initialized d; parent := parent d |}.

Definition set_parent (p : option nat) (d : v4l2fs_grabber_instance) : v4l2fs_grabber_instance := {|
  device := device d; input := input d; width := width d; height := height d; grb := grb d;
  fd := fd d; buffers := buffers d; frame_count := frame_count d; frame_size := frame_size d;
  initialized := initialized d; parent := p |}.

Definition set_initialized (d : v4l2fs_grabber_instance) : v4l2fs_grabber_instance := {|
  device := device d; input := input d; width := width d; height := height d; grb := grb d;
  fd := fd d; buffers := buffers d; frame_count := frame_count d; frame_size := frame_size d;
  initialized := true; parent := parent d |}.

(** [for (j = 0; j < i; j++)]: the last earlier instance of the same device;
    strcmp reads both names. *)
Fixpoint parent_loop (l : list v4l2fs_grabber_instance) (j : nat) (dev : option bytes)
    (p : option nat) : outcome (option nat) :=
  match l with
  | [] => Ok p
  | e :: l =>
      a ← deref NullDeref (device e);
      b ← deref NullDeref dev;
      parent_loop l (S j) dev (if decide (a = b) then Some j else p)
  end.

(** One round of the loop over the devices; [false] is [goto epic_fail]. *)
Definition mount_device (pos : json) st (i : nat) : outcome (bool * state) :=
  if negb (bool_decide (json_object_get_type pos = json_type_object)) then Ok (false, st)
  else
    d ← get_inst st i;
    d ← configure pos d;
    let st := put_inst i d st in
    match grb d with
    | None => Ok (false, st)
    | Some g =>
        p ← parent_loop (take i (instances st)) 0 (device d) (parent d);
        let st := put_inst i (set_parent p d) st in
        r ← grb_init (grabbers g) st i;
        let '(ret, st) := r in
        if negb (ret =? 0) then Ok (false, st)
        else
          r ← grb_set_input (grabbers g) st i (input d);
          let '(ret, st) := r in
          if negb (ret =? 0) then Ok (false, st)
          else
            r ← grb_get_input (grabbers g) st i;
            let '(ret, _, st) := r in
            if ret <? 0 then Ok (false, st)
            else
              d ← get_inst st i;
              Ok (true, put_inst i (set_initialized d) st)
    end.

Fixpoint devices_loop (l : list json) (i : nat) st : outcome (bool * state) :=
  match l with
  | [] => Ok (true, st)
  | pos :: l =>
      r ← mount_device pos st i;
      let '(ok, st) := r in
      if (ok : bool) then devices_loop l (S i) st else Ok (false, st)
  end.

(** [calloc] of the instances takes 88 bytes each; the address it returns is
    not used for anything else. *)
Definition v4l2_mount (props : json) st : outcome (Z * state) :=
  obj ← json_array_find props (str "devices");
  match obj with
  | JArray l =>
      let a := next_block st in
      let st := set_next (S a) st in
      if negb (can_alloc a (88 * Z.of_nat (length l))) then Ok (-1, set_instances [] st)
      else
        r ← devices_loop l 0 (set_instances (replicate (length l) blank) st);
        let '(ok, st) := r in
        if (ok : bool) then Ok (0, st)
        else st ← cleanup_devices st; Ok (-1, st)
  | _ => Ok (-1, st)
  end.

Definition v4l2_unmount `{CbTable tab cb} (mp : bytes) (t : tab) : tab :=
  ahttpd_del_path mp (str "/frame") t.

(** The state of a mountpoint carries the kernel's with it. *)
Definition v4l2fs `{CbTable tab cb} : ahttpd_fs tab state := {|
  fs_name := str "v4l2"; usage := 0; fsdatalen := 24;
  fs_mount := Some (λ _ props d t,
    st ← deref NullDeref d;
    r ← v4l2_mount props st;
    Ok (r.1, Some r.2, t));
  fs_unmount := Some (λ mp _ _ t, Ok (v4l2_unmount mp t));
  fs_route := None
|}.

(** Mounting adds no path. *)
#[export] Instance v4l2fs_local `{CbTable tab cb} : FsLocal v4l2fs.
Proof.
  split. intros mount mp props d t ret d' t' p [= <-] E Hp.
  apply bind_Ok_inv in E as (st & _ & E). apply bind_Ok_inv in E as (r & _ & E). by simplify_eq.
Qed.
End v4l2fs.

(** ** Devices and descriptors *)

Section lemmas.
Context `{JsonC} {K : Type} `{V4l2Kernel K} `{!V4l2KernelLaws K} `{Allocator}.
Notation state := (vstate K).
Implicit Types (st : state) (d : v4l2fs_grabber_instance).

Lemma get_inst_Ok st i d : get_inst st i = Ok d ↔ instances st !! i = Some d.
Proof. unfold get_inst. destruct (instances st !! i); simpl; split; intros; by simplify_eq. Qed.

Lemma parent_loop_spec l j dev r :
  parent_loop l j dev None = Ok r →
  match r with
  | None => ∀ e, e ∈ l → device e ≠ dev
  | Some p => ∃ e, (j <= p)%nat ∧ l !! (p - j)%nat = Some e ∧ device e = dev
  end.
Proof.
  assert (∀ p0, parent_loop l j dev p0 = Ok r →
    (r = p0 ∧ ∀ e, e ∈ l → device e ≠ dev) ∨
    ∃ p e, r = Some p ∧ (j <= p)%nat ∧ l !! (p - j)%nat = Some e ∧ device e = dev) as Hg.
  { revert j. induction l as [|e l IH]; intros j p0 E; simpl in E.
    - simplify_eq. left. split; [done|]. by intros e ?%not_elem_of_nil.
    - destruct (device e) as [a|] eqn:Ea; [|done]. destruct dev as [b|]; [|done].
      simpl in E. destruct (IH (S j) _ E) as [[-> Hl]|(p & e' & -> & Hj & Hp & He')].
      + case_decide as Hab.
        * right. exists j, e. split_and!; [done|lia|by rewrite Nat.sub_diag|congruence].
        * left. split; [done|]. intros e' [->|He']%elem_of_cons; [congruence|by apply Hl].
      + right. exists p, e'. split_and!; [done|lia| |done].
        replace (p - j)%nat with (S (p - S j)) by lia. done. }
  intros E. destruct (Hg None E) as [[-> Hl]|(p & e & -> & ?)]; [done|by exists e].
Qed.

Lemma configure_spec pos d d' :
  configure pos d = Ok d' → parent d' = parent d ∧ initialized d' = initialized d.
Proof. unfold configure. intros E. inv_ok. done. Qed.

Lemma set_input_kern g st i x ret st' :
  grb_set_input (grabbers g) st i x = Ok (ret, st') →
  ∃ k, st' = set_kern k st ∧ open_fds k = fds st.
Proof.
  assert (device_set_input st i x = Ok (ret, st') → ∃ k, st' = set_kern k st ∧ open_fds k = fds st)
    as Hg; [|by destruct g].
  unfold device_set_input. intros E. apply bind_Ok_inv in E as (d & _ & E).
  unfold ioctl in E. pose proof (ioctl_fds (fd d) (VIDIOC_S_INPUT x) (kern st)) as Hf.
  destruct (k_ioctl _ _ _) as [a k]. simplify_eq. eauto.
Qed.

Lemma get_input_kern g st i ret name st' :
  grb_get_input (grabbers g) st i = Ok (ret, name, st') →
  ∃ k, st' = set_kern k st ∧ open_fds k = fds st.
Proof.
  assert (device_get_input st i = Ok (ret, name, st') →
          ∃ k, st' = set_kern k st ∧ open_fds k = fds st) as Hg; [|by destruct g].
  unfold device_get_input. intros E. apply bind_Ok_inv in E as (d & _ & E).
  unfold ioctl in E. pose proof (ioctl_fds (fd d) VIDIOC_G_INPUT (kern st)) as Hf.
  destruct (k_ioctl (fd d) VIDIOC_G_INPUT (kern st)) as [[e|x] k]; cbn in Hf; [simplify_eq; eauto|].
  pose proof (ioctl_fds (fd d) (VIDIOC_ENUMINPUT (wrap U32 x)) k) as Hf2. cbn [kern set_kern] in E.
  destruct (k_ioctl (fd d) (VIDIOC_ENUMINPUT (wrap U32 x)) k) as [[e|y] k2]; cbn in Hf2;
    simplify_eq; exists k2; (split; [done|]); unfold fds; congruence.
Qed.

(** What a device that was mounted as [d1] at place [i] has become. *)
Lemma init_result g st i d1 ret st' :
  get_inst st i = Ok d1 → grb_init (grabbers g) st i = Ok (ret, st') →
  fds st ⊆ fds st' ∧ num_instances st' = num_instances st ∧
  (ret = 0 →
   ∃ d2, instances st' = <[i:=d2]> (instances st) ∧ same_config d1 d2 ∧
     match parent d1 with
     | None => 0 <= fd d2 ∧ fd d2 ∉ fds st ∧ fds st' = {[fd d2]} ∪ fds st
     | Some p => ∃ pd, instances st !! p = Some pd ∧ fd d2 = fd pd ∧ fds st' = fds st
     end).
Proof.
  intros Hget E. destruct (parent d1) as [p|] eqn:Hp.
  - destruct (instances st !! p) as [pd|] eqn:Epd.
    + rewrite (grb_init_virtual g st d1 p pd i Hget Hp) in E by (by apply get_inst_Ok).
      simplify_eq. split_and!; [done|done|]. intros _. exists (inherit pd d1).
      split_and!; [done|by split_and!|]. by exists pd.
    + exfalso. assert (∀ c f, with_common c st i f = Fault OutOfBounds) as Hf.
      { intros c f. unfold with_common, device_common_init. rewrite Hget, bind_Ok, Hp.
        unfold get_inst. by rewrite Epd. }
      destruct g; cbn in E; unfold device_read_init, device_mmap_init, device_userptr_init in E;
        by rewrite Hf in E.
  - destruct (grb_init_opened g st d1 i ret st' Hget Hp E)
      as [(-> & f & Hf & Hn & [(d2 & Hd2 & <- & Hc) Ho Hl Hnum Hfds])|(-> & [? ? ? Hnum Hfds])].
    + rewrite Hfds. split_and!; [set_solver|done|]. intros _. exists d2. split_and!; try done.
      apply list_eq. intros j. destruct (decide (i = j)) as [<-|Hne].
      * rewrite list_lookup_insert_eq; [done|]. rewrite <-Hl. by eapply lookup_lt_Some.
      * rewrite list_lookup_insert_ne by done. by apply Ho.
    + rewrite Hfds. split_and!; [done|done|]. intros [=].
Qed.

(** One round of the loop, whether it goes on or not: no descriptor that was
    open is closed; and when it goes on the instance is the one the entry
    describes. *)
Lemma mount_device_result pos st i ok st' :
  mount_device pos st i = Ok (ok, st') →
  fds st ⊆ fds st' ∧ num_instances st' = num_instances st ∧
  (ok = true →
   ∃ d d1 d2 p, instances st !! i = Some d ∧ configure pos d = Ok d1 ∧
     parent_loop (take i (instances st)) 0 (device d1) (parent d) = Ok p ∧
     instances st' = <[i:=d2]> (instances st) ∧ device d2 = device d1 ∧ parent d2 = p ∧
     initialized d2 = true ∧
     match p with
     | None => 0 <= fd d2 ∧ fd d2 ∉ fds st ∧ fds st' = {[fd d2]} ∪ fds st
     | Some p => ∃ pd, <[i := set_parent (Some p) d1]> (instances st) !! p = Some pd ∧
         fd d2 = fd pd ∧ fds st' = fds st
     end).
Proof.
  unfold mount_device. intros E. case_match; [by simplify_eq|].
  apply bind_Ok_inv in E as (d & Hd%get_inst_Ok & E). apply bind_Ok_inv in E as (d1 & Hconf & E).
  destruct (configure_spec _ _ _ Hconf) as [Hpar _].
  destruct (grb d1) as [g|]; [|by simplify_eq].
  apply bind_Ok_inv in E as (p & Hp & E).
  change (instances (put_inst i d1 st)) with (<[i:=d1]> (instances st)) in Hp.
  rewrite take_insert_ge in Hp by lia.
  set (st1 := put_inst i (set_parent p d1) (put_inst i d1 st)) in E.
  assert (instances st1 = <[i := set_parent p d1]> (instances st)) as Hi1.
  { unfold st1. cbn. apply list_insert_insert_eq. }
  apply bind_Ok_inv in E as ([ret st2] & Hinit & E).
  assert (get_inst st1 i = Ok (set_parent p d1)) as Hget1.
  { apply get_inst_Ok. rewrite Hi1. apply list_lookup_insert_eq. by eapply lookup_lt_Some. }
  destruct (init_result g st1 i _ _ _ Hget1 Hinit) as (Hsub & Hnum & Hres).
  change (fds st1) with (fds st) in *. change (num_instances st1) with (num_instances st) in Hnum.
  destruct (Z.eqb_spec ret 0) as [->|]; cbn [negb] in E; [|simplify_eq; by split_and!].
  destruct (Hres eq_refl) as (d2 & Hi2 & (Hdev & _ & Hpar2 & _ & _) & Hfd). clear Hres.
  apply bind_Ok_inv in E as ([ret st3] & (k3 & -> & Hk3)%set_input_kern & E).
  assert (fds (set_kern k3 st2) = fds st2) as Hf3 by exact Hk3.
  destruct (Z.eqb_spec ret 0) as [->|]; cbn [negb] in E;
    [|injection E as <- <-; rewrite Hf3; by split_and!].
  apply bind_Ok_inv in E as ([[ret name] st4] & (k4 & -> & Hk4)%get_input_kern & E).
  assert (fds (set_kern k4 (set_kern k3 st2)) = fds st2) as Hf4 by (exact (eq_trans Hk4 Hk3)).
  destruct (ret <? 0); [injection E as <- <-; rewrite Hf4; by split_and!|].
  apply bind_Ok_inv in E as (d3 & Hget3%get_inst_Ok & E). injection E as <- <-.
  cbn [set_kern instances] in Hget3. rewrite Hi2 in Hget3.
  rewrite list_lookup_insert_eq in Hget3
    by (rewrite Hi1, length_insert; by eapply lookup_lt_Some).
  injection Hget3 as <-. rewrite Hi1 in Hi2.
  change (fds (put_inst i (set_initialized d2) (set_kern k4 (set_kern k3 st2))))
    with (fds (set_kern k4 (set_kern k3 st2))). rewrite Hf4.
  split_and!; [done|done|]. intros _.
  exists d, d1, (set_initialized d2), p. split_and!; try done.
  - by rewrite <-Hpar.
  - cbn. by rewrite Hi2, !list_insert_insert_eq.
  - cbn [set_parent parent] in Hfd. destruct p as [p|]; [|done].
    destruct Hfd as (pd & Hpd & ?). rewrite Hi1 in Hpd. by exists pd.
Qed.

(** The first [n] instances are mounted; the others are blank. *)
Record mounted (fs0 : gset Z) (n : nat) st : Prop := {
  mo_each j d : (j < n)%nat → instances st !! j = Some d →
    initialized d = true ∧
    match parent d with
    | None => 0 <= fd d ∧ fd d ∉ fs0 ∧
        ∀ k e, (k < j)%nat → instances st !! k = Some e → device e ≠ device d
    | Some p => (p < j)%nat ∧
        ∃ pd, instances st !! p = Some pd ∧ device pd = device d ∧ fd pd = fd d
    end;
  mo_own j k d e : (j < k)%nat → (k < n)%nat → instances st !! j = Some d →
    instances st !! k = Some e → parent e = None → fd d ≠ fd e;
  mo_fds f : f ∈ fds st ↔ f ∈ fs0 ∨
    ∃ j d, (j < n)%nat ∧ instances st !! j = Some d ∧ parent d = None ∧ fd d = f;
  mo_blank j d : (n <= j)%nat → instances st !! j = Some d → d = blank
}.

(** The descriptors of instances that are mounted are open. *)
Lemma mounted_open fs0 n st j d :
  mounted fs0 n st → (j < n)%nat → instances st !! j = Some d → fd d ∈ fds st.
Proof.
  intros Hm. revert d. induction (lt_wf j) as [j _ IH]. intros d Hj Hd.
  destruct (mo_each _ _ _ Hm j d Hj Hd) as [_ Hp]. destruct (parent d) as [p|] eqn:Ep.
  - destruct Hp as (Hp & pd & Hpd & _ & <-). apply (IH p); [done|lia|done].
  - apply (mo_fds _ _ _ Hm). right. by exists j, d.
Qed.

(** The next instance is mounted: it has a new descriptor, or the one of the
    last earlier instance of its device. *)
Lemma mount_device_new fs0 pos st n st' :
  mounted fs0 n st → mount_device pos st n = Ok (true, st') →
  (n < length (instances st))%nat ∧
  ∃ d2, instances st' = <[n:=d2]> (instances st) ∧ initialized d2 = true ∧
    match parent d2 with
    | None => (0 <= fd d2 ∧ fd d2 ∉ fds st ∧ fds st' = {[fd d2]} ∪ fds st) ∧
        ∀ k e, (k < n)%nat → instances st !! k = Some e → device e ≠ device d2
    | Some p => (p < n)%nat ∧ ∃ pd, instances st !! p = Some pd ∧ device pd = device d2 ∧
        fd pd = fd d2 ∧ fds st' = fds st
    end.
Proof.
  intros Hm E. destruct (mount_device_result _ _ _ _ _ E) as (_ & _ & Hres).
  destruct (Hres eq_refl) as (d & d1 & d2 & p & Hd & Hconf & Hp & Hi & Hdev & Hpar & Hini & Hfd).
  assert (d = blank) as -> by (by eapply (mo_blank _ _ _ Hm n)).
  apply parent_loop_spec in Hp. split; [by eapply lookup_lt_Some|].
  exists d2. split_and!; [done..|]. rewrite Hpar. destruct p as [p|].
  - destruct Hp as (e & _ & Hpe & Hde). rewrite Nat.sub_0_r in Hpe.
    apply lookup_take_Some in Hpe as [Hpe Hpn]. split; [done|].
    destruct Hfd as (pd & Hpd & Hf & Hfds). rewrite list_lookup_insert_ne in Hpd by lia.
    rewrite Hpe in Hpd. injection Hpd as <-. exists e. split_and!; [done|congruence|done|done].
  - split; [done|]. intros k e Hk He. rewrite Hdev. apply Hp.
    apply list_elem_of_lookup. exists k. by rewrite lookup_take_lt.
Qed.

Lemma mount_device_mounted fs0 pos st n st' :
  mounted fs0 n st → mount_device pos st n = Ok (true, st') →
  mounted fs0 (S n) st' ∧ length (instances st') = length (instances st).
Proof.
  intros Hm E. destruct (mount_device_new _ _ _ _ _ Hm E) as (Hlen & d2 & Hi & Hini & Hnew).
  assert (instances st' !! n = Some d2) as Hn by (rewrite Hi; by apply list_lookup_insert_eq).
  assert (∀ j, j ≠ n → instances st' !! j = instances st !! j) as Hother
    by (intros j Hj; rewrite Hi; by rewrite list_lookup_insert_ne).
  remember (parent d2) as p eqn:Hpar. symmetry in Hpar. split; [|by rewrite Hi, length_insert]. split.
  - intros j e Hj He. destruct (decide (j = n)) as [->|Hne].
    + rewrite Hn in He. injection He as <-. split; [done|]. rewrite Hpar.
      destruct p as [p|].
      * destruct Hnew as (Hpn & pd & Hpd & ? & ? & _). split; [done|]. exists pd.
        rewrite Hother by lia. done.
      * destruct Hnew as [(Hf & Hnot & _) Hdist]. split_and!; [done| |].
        -- intros Hin. apply Hnot, (mo_fds _ _ _ Hm). by left.
        -- intros k e Hk He. rewrite Hother in He by lia. by eapply Hdist.
    + rewrite Hother in He by done. destruct (mo_each _ _ _ Hm j e ltac:(lia) He) as [Hin Hpe].
      split; [done|]. destruct (parent e) as [q|].
      * destruct Hpe as (Hq & pd & Hpd & ?). split; [done|]. exists pd.
        rewrite Hother by lia. done.
      * destruct Hpe as (? & ? & Hdist). split_and!; try done. intros k e' Hk He'.
        rewrite Hother in He' by lia. by eapply Hdist.
  - intros j k e e' Hjk Hk He He' Hnone. rewrite Hother in He by lia.
    destruct (decide (k = n)) as [->|Hne].
    + rewrite Hn in He'. injection He' as <-. rewrite Hpar in Hnone. destruct p as [p|]; [done|].
      destruct Hnew as [(_ & Hnot & _) _]. intros Heq. apply Hnot. rewrite <-Heq.
      by eapply (mounted_open _ _ _ j).
    + rewrite Hother in He' by done. eapply (mo_own _ _ _ Hm j k); eauto. lia.
  - intros f. assert (f ∈ fds st' ↔ f ∈ fds st ∨ (p = None ∧ f = fd d2)) as ->.
    { destruct p as [p|].
      - destruct Hnew as (_ & _ & _ & _ & _ & ->). naive_solver.
      - destruct Hnew as [(_ & _ & ->) _]. set_solver. }
    rewrite (mo_fds _ _ _ Hm). split.
    + intros [[?|(j & e & Hj & He & ? & ?)]|[-> ->]]; [by left| |].
      * right. exists j, e. rewrite Hother by lia. split_and!; [lia|done..].
      * right. exists n, d2. split_and!; [lia|done|done|done].
    + intros [?|(j & e & Hj & He & Hnone & Hf)]; [by left; left|].
      destruct (decide (j = n)) as [->|Hne].
      * rewrite Hn in He. injection He as <-. right. split; congruence.
      * rewrite Hother in He by done. left. right. exists j, e. split_and!; [lia|done..].
  - intros j e Hj He. rewrite Hother in He by lia. eapply (mo_blank _ _ _ Hm); [|done]. lia.
Qed.

Lemma devices_loop_mounted fs0 l st n st' :
  mounted fs0 n st → devices_loop l n st = Ok (true, st') →
  mounted fs0 (n + length l) st' ∧ length (instances st') = length (instances st).
Proof.
  revert st n. induction l as [|pos l IH]; intros st n Hm E; cbn [devices_loop] in E.
  - simplify_eq. cbn. by rewrite Nat.add_0_r.
  - apply bind_Ok_inv in E as ([ok st1] & E1 & E). destruct ok; [|done].
    destruct (mount_device_mounted _ _ _ _ _ Hm E1) as [Hm1 Hl1].
    destruct (IH _ _ Hm1 E) as [Hm2 Hl2]. cbn [length]. rewrite <-Nat.add_succ_comm.
    split; [done|congruence].
Qed.

(** The instances before the loop. *)
Definition blank_devices (n : nat) st : state :=
  set_instances (replicate n blank) (set_next (S (next_block st)) st).

Lemma blank_mounted n st : mounted (fds st) 0 (blank_devices n st).
Proof.
  split.
  - intros j d Hj. lia.
  - intros j k d e Hjk Hk. lia.
  - intros f. split; [by left|]. intros [?|(j & d & Hj & _)]; [done|lia].
  - intros j d _ Hd. cbn in Hd. apply lookup_replicate in Hd as [-> _]. done.
Qed.
End lemmas.

(** ** Theorems *)

Section theorems.
Context `{JsonC} {K : Type} `{V4l2Kernel K} `{!V4l2KernelLaws K} `{Allocator}.
Notation state := (vstate K).
Implicit Types (st : state) (d : v4l2fs_grabber_instance).

(** C9: When a video mountpoint is mounted, it has an instance for each
    device of the configuration, all of them initialised.  An instance either
    has a descriptor of its own, that was not open before and no earlier
    instance has, and is the first of its device; or it shares the descriptor
    of an earlier instance of the same device.  The descriptors that are open
    now are those of the instances and the ones that were open before. *)
Theorem mounted_devices_open props l st st' :
  json_array_find props (str "devices") = Ok (JArray l) → v4l2_mount props st = Ok (0, st') →
  length (instances st') = length l ∧
  (∀ j d, instances st' !! j = Some d →
     initialized d = true ∧ fd d ∈ fds st' ∧
     match parent d with
     | None => 0 <= fd d ∧ fd d ∉ fds st ∧ ∀ k e, (k < j)%nat → instances st' !! k = Some e →
         device e ≠ device d ∧ fd e ≠ fd d
     | Some p => (p < j)%nat ∧
         ∃ pd, instances st' !! p = Some pd ∧ device pd = device d ∧ fd pd = fd d
     end) ∧
  (∀ f, f ∈ fds st' ↔ f ∈ fds st ∨ ∃ j d, instances st' !! j = Some d ∧ fd d = f).
Proof.
  intros Hprops E. unfold v4l2_mount in E. rewrite Hprops, bind_Ok in E.
  case_match; [done|]. apply bind_Ok_inv in E as ([ok st1] & El & E).
  destruct ok; [|by apply bind_Ok_inv in E as (? & _ & E)]. simplify_eq.
  destruct (devices_loop_mounted _ _ _ _ _ (blank_mounted (length l) st) El) as [Hm Hlen].
  cbn in Hlen. rewrite length_replicate in Hlen. cbn [Nat.add] in Hm.
  assert (∀ j d, instances st' !! j = Some d → (j < length l)%nat) as Hlt
    by (intros j d Hj%lookup_lt_Some; by rewrite Hlen in Hj).
  split_and!; [done| |].
  - intros j d Hd. destruct (mo_each _ _ _ Hm j d (Hlt _ _ Hd) Hd) as [Hini Hp].
    split; [done|]. split; [by eapply mounted_open; eauto|].
    destruct (parent d) eqn:Ep; [done|]. destruct Hp as (? & ? & Hdist). split_and!; [done..|].
    intros k e Hk He. split; [by eapply Hdist|]. eapply (mo_own _ _ _ Hm k j); eauto.
  - intros f. rewrite (mo_fds _ _ _ Hm). split.
    + intros [?|(j & d & _ & Hd & _ & Hf)]; [by left|]. right. by exists j, d.
    + intros [?|(j & d & Hd & <-)]; [by left|].
      apply (mo_fds _ _ _ Hm). by eapply mounted_open; eauto.
Qed.

(** C24: When a device cannot be mounted, the ones before it are forgotten
    and not closed: the number of instances is never set, so that the cleanup
    looks at none of them, and every descriptor that was opened stays open
    with no instance left that has it. *)
Theorem failed_mount_leaks_devices props l1 pos l2 st st1 st2 :
  json_array_find props (str "devices") = Ok (JArray (l1 ++ pos :: l2)) → num_instances st = 0 →
  can_alloc (next_block st) (88 * Z.of_nat (length (l1 ++ pos :: l2))) = true →
  devices_loop l1 0 (blank_devices (length (l1 ++ pos :: l2)) st) = Ok (true, st1) →
  mount_device pos st1 (length l1) = Ok (false, st2) →
  ∃ st', v4l2_mount props st = Ok (-1, st') ∧ instances st' = [] ∧
    ∀ j d, (j < length l1)%nat → instances st1 !! j = Some d → fd d ∈ fds st'.
Proof.
  intros Hprops Hnum Ha E1 E2.
  destruct (devices_loop_mounted _ _ _ _ _ (blank_mounted _ st) E1) as [Hm _]. cbn [Nat.add] in Hm.
  destruct (mount_device_result _ _ _ _ _ E2) as (Hsub & Hn2 & _).
  assert (∀ l n s s' ok, devices_loop l n s = Ok (ok, s') → num_instances s' = num_instances s) as Hnl.
  { induction l as [|x l IH]; intros n s s' ok E; cbn [devices_loop] in E; [by simplify_eq|].
    apply bind_Ok_inv in E as ([ok1 s1] & (_ & <- & _)%mount_device_result & E).
    destruct ok1; [by eapply IH|by simplify_eq]. }
  apply Hnl in E1 as Hn1. cbn in Hn1.
  assert (∀ n s, devices_loop l1 n s = Ok (true, st1) → n + length l1 = length l1 →
    devices_loop (l1 ++ pos :: l2) n s = Ok (false, st2))%nat as Hloop.
  { assert (∀ l n s, devices_loop l n s = Ok (true, st1) → (n + length l = length l1)%nat →
      devices_loop (l ++ pos :: l2) n s = Ok (false, st2)) as Hg; [|by apply Hg].
    induction l as [|x l IH]; intros n s E Hlen; cbn [devices_loop app length] in *.
    - simplify_eq. rewrite Nat.add_0_r in Hlen. subst n. by rewrite E2, bind_Ok.
    - apply bind_Ok_inv in E as ([ok s1] & -> & E). rewrite bind_Ok. destruct ok; [|done].
      apply IH; [done|lia]. }
  unfold v4l2_mount. rewrite Hprops, bind_Ok, Ha. cbn [negb].
  change (set_instances (replicate (length (l1 ++ pos :: l2)) blank) (set_next (S (next_block st)) st))
    with (blank_devices (length (l1 ++ pos :: l2)) st).
  rewrite (Hloop _ _ E1 eq_refl), bind_Ok. unfold cleanup_devices.
  rewrite Hn2, Hn1, Hnum. change (Z.to_nat 0) with O. cbn [cleanup_loop]. rewrite !bind_Ok.
  eexists. split_and!; [done|done|]. intros j d Hj Hd.
  change (fd d ∈ fds st2). apply Hsub. by eapply mounted_open.
Qed.
End theorems.

(** ** Witnesses *)

Import V4l2Run.

Module V4l2FsRun.
Definition entry (dev iomethod : string) : json := JObject [
  (str "device", JString (str dev)); (str "input", JInt 0); (str "height", JInt 4);
  (str "width", JInt 8); (str "iomethod", JString (str iomethod))].

Definition good : list json :=
  [entry "/dev/video0" "read"; entry "/dev/video1" "mmap"; entry "/dev/video0" "read"].

Definition config (l : list json) : json := JObject [(str "devices", JArray l)].

Definition nothing : vstate machine := {|
  kern := boot; frames := ∅; blocks := ∅; next_block := 0; instances := []; num_instances := 0 |}.

Definition mount := @v4l2_mount RefJson.ref_json machine ref_kernel V4l2Run.small_alloc.

Definition mounted_state : vstate machine := after (mount (config good) nothing) nothing.

(** The state before the device that fails, and after it. *)
Definition before : vstate machine :=
  match @devices_loop RefJson.ref_json machine ref_kernel V4l2Run.small_alloc
          [entry "/dev/video0" "read"; entry "/dev/video1" "mmap"] 0 (blank_devices 3 nothing) with
  | Ok (_, st) => st
  | Fault _ => nothing
  end.

Definition failed : vstate machine :=
  match @mount_device RefJson.ref_json machine ref_kernel V4l2Run.small_alloc
          (entry "/dev/null" "read") before 2 with
  | Ok (_, st) => st
  | Fault _ => nothing
  end.
End V4l2FsRun.

Import V4l2FsRun.

Lemma mounted_devices_open_witness :
  length (instances mounted_state) = 3%nat ∧
  (∀ j d, instances mounted_state !! j = Some d →
     initialized d = true ∧ fd d ∈ fds mounted_state ∧
     match parent d with
     | None => 0 <= fd d ∧ fd d ∉ fds nothing ∧
         ∀ k e, (k < j)%nat → instances mounted_state !! k = Some e →
         device e ≠ device d ∧ fd e ≠ fd d
     | Some p => (p < j)%nat ∧
         ∃ pd, instances mounted_state !! p = Some pd ∧ device pd = device d ∧ fd pd = fd d
     end) ∧
  (∀ f, f ∈ fds mounted_state ↔ f ∈ fds nothing ∨
     ∃ j d, instances mounted_state !! j = Some d ∧ fd d = f).
Proof.
  apply (@mounted_devices_open RefJson.ref_json machine ref_kernel ref_kernel_laws
    V4l2Run.small_alloc (config good) good nothing mounted_state).
  - reflexivity.
  - vm_compute. reflexivity.
Defined.

Lemma failed_mount_leaks_devices_witness :
  ∃ st', mount (config [entry "/dev/video0" "read"; entry "/dev/video1" "mmap";
                        entry "/dev/null" "read"]) nothing = Ok (-1, st') ∧
    instances st' = [] ∧
    ∀ j d, (j < 2)%nat → instances before !! j = Some d → fd d ∈ fds st'.
Proof.
  apply (@failed_mount_leaks_devices RefJson.ref_json machine ref_kernel ref_kernel_laws
    V4l2Run.small_alloc _ [entry "/dev/video0" "read"; entry "/dev/video1" "mmap"]
    (entry "/dev/null" "read") [] nothing before failed).
  - reflexivity.
  - reflexivity.
  - reflexivity.
  - vm_compute. reflexivity.
  - vm_compute. reflexivity.
Defined.
