(* ===== verification/Config.v ===== *)
(** * Options and the configuration file

    The command line of src/main.c and json_load_from_file of src/utils.c.
    [getopt_long] is the C library's: options may stand between other
    arguments, a long option may be cut short where that is unambiguous, and
    ["--"] ends the options.  [argv] is without the name of the program. *)

From S2P Require Import Prelude CLib Json Evhttp Upload Serdes.
From Stdlib Require Import Strings.Byte.

(** ** getopt_long *)

(** What it returns, with [optarg]; [Unknown] is ['?']. *)
Inductive opt :=
  | Opt (c : byte) (arg : option bytes)
  | Unknown.

#[export] Instance opt_eq_decision : EqDecision opt.
Proof. solve_decision. Defined.

(** [struct option]: the name, [required_argument] or not, the value. *)
Definition long_options : list (bytes * bool * byte) := [
  (str "daemonize", false, x64);
  (str "kill", false, x6b);
  (str "help", false, x68);
  (str "debug", true, x44);
  (str "config", true, x63);
  (str "logfile", true, x6c);
  (str "serverid", true, x69)
].

Definition short_options : bytes := str "dvkhD:c:l:".

(** Whether the string has the option, and whether it takes an argument. *)
Fixpoint find_short (s : bytes) (c : byte) : option bool :=
  match s with
  | [] => None
  | x :: s =>
      if decide (x = c ∧ c ≠ x3a)
      then Some (match s with y :: _ => bool_decide (y = x3a) | [] => false end)
      else find_short s c
  end.

Definition find_long (name : bytes) : option (bool * byte) :=
  match filter (λ o, o.1.1 = name) long_options with
  | o :: _ => Some (o.1.2, o.2)
  | [] =>
      match filter (λ o, name `prefix_of` o.1.1) long_options with
      | [o] => Some (o.1.2, o.2)
      | _ => None
      end
  end.

(** The options in one word, and the one that takes the next word. *)
Fixpoint short_word (s : bytes) : list opt * option byte :=
  match s with
  | [] => ([], None)
  | c :: s =>
      match find_short short_options c with
      | None => let r := short_word s in (Unknown :: r.1, r.2)
      | Some false => let r := short_word s in (Opt c None :: r.1, r.2)
      | Some true => match s with [] => ([], Some c) | _ => ([Opt c (Some s)], None) end
      end
  end.

Definition long_word (s : bytes) : list opt * option byte :=
  let '(name, v) := span (λ b, bool_decide (b ≠ x3d)) s in
  match find_long name with
  | None => ([Unknown], None)
  | Some (has_arg, c) =>
      match v, has_arg with
      | _ :: v, true => ([Opt c (Some v)], None)
      | _ :: _, false => ([Unknown], None)
      | [], true => ([], Some c)
      | [], false => ([Opt c None], None)
      end
  end.

(** [None] for a word that is no option. *)
Definition word (a : bytes) : option (list opt * option byte) :=
  match a with
  | x2d :: x2d :: s => Some (long_word s)
  | x2d :: c :: s => Some (short_word (c :: s))
  | _ => None
  end.

Fixpoint getopt_long (argv : list bytes) : list opt :=
  match argv with
  | [] => []
  | a :: argv =>
      if decide (a = str "--") then []
      else match word a with
           | None => getopt_long argv
           | Some (os, None) => os ++ getopt_long argv
           | Some (os, Some c) =>
               match argv with
               | [] => os ++ [Unknown]
               | b :: argv => os ++ Opt c (Some b) :: getopt_long argv
               end
           end
  end.

(** ** The settings *)

(** The variables that the options set. *)
Record settings := {
  loglevel : Z;
  configfile : bytes;
  logfile : option bytes;
  serverid : bytes;
  do_daemonize : Z;
  do_kill : Z
}.

Definition initial : settings := {|
  loglevel := 0; configfile := str "config.json"; logfile := None; serverid := str "aurahttpd";
  do_daemonize := 0; do_kill := 0 |}.

(** The [switch]; [None] is exit(1), from [usage] or [version].  Of the
    options only those that take an argument look at it. *)
Definition option_step (o : opt) (s : settings) : option settings :=
  match o with
  | Opt x63 (Some a) => Some {| loglevel := loglevel s; configfile := a; logfile := logfile s;
      serverid := serverid s; do_daemonize := do_daemonize s; do_kill := do_kill s |}
  | Opt x44 (Some a) => Some {| loglevel := atoi a; configfile := configfile s;
      logfile := logfile s; serverid := serverid s; do_daemonize := do_daemonize s;
      do_kill := do_kill s |}
  | Opt x6c (Some a) => Some {| loglevel := loglevel s; configfile := configfile s;
      logfile := Some a; serverid := serverid s; do_daemonize := do_daemonize s;
      do_kill := do_kill s |}
  | Opt x69 (Some a) => Some {| loglevel := loglevel s; configfile := configfile s;
      logfile := logfile s; serverid := a; do_daemonize := do_daemonize s;
      do_kill := do_kill s |}
  | Opt x64 _ => Some {| loglevel := loglevel s; configfile := configfile s;
      logfile := logfile s; serverid := serverid s; do_daemonize := do_daemonize s + 1;
      do_kill := do_kill s |}
  | Opt x6b _ => Some {| loglevel := loglevel s; configfile := configfile s;
      logfile := logfile s; serverid := serverid s; do_daemonize := do_daemonize s;
      do_kill := do_kill s + 1 |}
  | Opt x68 _ | Opt x76 _ => None
  | _ => Some s
  end.

(** [while (1)]: until [getopt_long] returns -1. *)
Fixpoint option_loop (os : list opt) (s : settings) : option settings :=
  match os with
  | [] => Some s
  | o :: os => match option_step o s with Some s => option_loop os s | None => None end
  end.

(** ** The configuration file *)

(** An open file: what [ftell] says at its end, and what there is to read. *)
Record open_file := { ftell_end : Z; contents : bytes }.

(** [realpath] and [fopen] take NULL and refuse it. *)
Class Stdio := {
  realpath : bytes → option bytes;
  fopen : option bytes → option open_file
}.

(** [JNull] is NULL.  The object is returned whatever the parser's error. *)
Definition json_load_from_file `{JsonC} `{Malloc} `{Stdio} (filename : option bytes)
    : outcome json :=
  match fopen filename with
  | None => Ok JNull
  | Some f =>
      let file_size := wrap U64 (ftell_end f) in
      let block := Z.to_nat (wrap U64 (file_size + 1)) in
      match malloc block with
      | None => Ok JNull
      | Some _ =>
          let got := take (Z.to_nat file_size) (contents f) in
          if decide (block < length got)%nat then Fault OutOfBounds
          else if decide (file_size = 0 ∨ Z.of_nat (length got) ≠ file_size) then Ok JNull
          else
            buf ← deref OutOfBounds (c_string (got ++ replicate (block - length got) x00));
            Ok (json_tokener_parse_verbose buf).1
      end
  end.

(** ** Command lines *)

(** The ways to write an option. *)
Inductive spelled : list bytes → opt → Prop :=
  | short_flag c :
      find_short short_options c = Some false → spelled [[x2d; c]] (Opt c None)
  | short_next c a :
      find_short short_options c = Some true → spelled [[x2d; c]; a] (Opt c (Some a))
  | short_glued c a :
      find_short short_options c = Some true → a ≠ [] → spelled [x2d :: c :: a] (Opt c (Some a))
  | long_flag n c :
      (n, false, c) ∈ long_options → spelled [str "--" ++ n] (Opt c None)
  | long_next n c a :
      (n, true, c) ∈ long_options → spelled [str "--" ++ n; a] (Opt c (Some a))
  | long_glued n c a :
      (n, true, c) ∈ long_options → spelled [str "--" ++ n ++ str "=" ++ a] (Opt c (Some a)).

Definition is_opt (c : byte) (o : opt) : bool :=
  match o with Opt x _ => bool_decide (x = c) | Unknown => false end.

(** The argument of the last option [c]. *)
Definition last_arg (c : byte) (os : list opt) : option bytes :=
  last (omap (λ o, match o with Opt _ a => if is_opt c o then a else None | _ => None end) os).

(** [n] and one more for each option [c]. *)
Definition count (c : byte) (os : list opt) (n : Z) : Z :=
  foldl (λ n o, if is_opt c o then n + 1 else n) n os.

(** The settings after some options, if none of them ends the program. *)
Definition settings_of (os : list opt) (s : settings) : settings := {|
  loglevel := from_option atoi (loglevel s) (last_arg x44 os);
  configfile := default (configfile s) (last_arg x63 os);
  logfile := match last_arg x6c os with Some a => Some a | None => logfile s end;
  serverid := default (serverid s) (last_arg x69 os);
  do_daemonize := count x64 os (do_daemonize s);
  do_kill := count x6b os (do_kill s) |}.

Lemma last_arg_cons c o os :
  last_arg c (o :: os) =
  match last_arg c os with
  | Some a => Some a
  | None => match o with Opt x a => if decide (x = c) then a else None | Unknown => None end
  end.
Proof.
  unfold last_arg. cbn [omap list_omap]. destruct o as [x a|]; cbn [is_opt].
  - rewrite (bool_decide_decide (x = c)). destruct (decide (x = c)) as [E|E], a as [a|];
      try by destruct (last _). rewrite last_cons. by destruct (last _).
  - by destruct (last _).
Qed.

Lemma option_step_spec o s :
  option_step o s = if is_opt x68 o || is_opt x76 o then None else Some (settings_of [o] s).
Proof.
  destruct s. destruct o as [x [a|]|]; [destruct x; reflexivity..|reflexivity].
Qed.

Lemma settings_of_cons o os s : settings_of os (settings_of [o] s) = settings_of (o :: os) s.
Proof.
  unfold settings_of. cbn [loglevel configfile logfile serverid do_daemonize do_kill].
  rewrite !(last_arg_cons _ o os), !(last_arg_cons _ o []).
  change (last_arg ?c []) with (@None bytes). f_equal; by destruct (last_arg _ os).
Qed.

Lemma option_loop_spec os s :
  option_loop os s =
  if existsb (λ o, is_opt x68 o || is_opt x76 o) os then None else Some (settings_of os s).
Proof.
  revert s. induction os as [|o os IH]; intros s; cbn [option_loop existsb].
  - by destruct s.
  - rewrite option_step_spec. destruct (is_opt x68 o || is_opt x76 o); [done|].
    by rewrite IH, settings_of_cons.
Qed.

(** A word that is an option is not ["--"], and a name of an option is found
    whatever comes after an equals sign. *)
Lemma short_not_end c s o : find_short short_options c = Some o → x2d :: c :: s ≠ str "--".
Proof. intros Hc [= -> _]. vm_compute in Hc. discriminate. Qed.

Lemma short_is_word c s o :
  find_short short_options c = Some o → word (x2d :: c :: s) = Some (short_word (c :: s)).
Proof.
  intros Hc. assert (c ≠ x2d) as Hd by (intros ->; vm_compute in Hc; discriminate).
  destruct c; try reflexivity. done.
Qed.

Lemma long_is_word n has_arg c :
  (n, has_arg, c) ∈ long_options →
  n ≠ [] ∧ find_long n = Some (has_arg, c) ∧ ∀ v, v = [] ∨ head v = Some x3d →
    span (λ b, bool_decide (b ≠ x3d)) (n ++ v) = (n, v).
Proof.
  intros Hin. unfold long_options in Hin. rewrite !elem_of_cons, elem_of_nil in Hin.
  assert (∀ s v, Forall (λ b, b ≠ x3d) s → v = [] ∨ head v = Some x3d →
    span (λ b, bool_decide (b ≠ x3d)) (s ++ v) = (s, v)) as Hspan.
  { intros s v Hs Hv. induction Hs as [|b s Hb Hs IH]; cbn [app span].
    - destruct Hv as [->|Hv]; [done|]. destruct v as [|b v]; [done|]. injection Hv as ->. done.
    - rewrite bool_decide_true by done. by rewrite IH. }
  destruct_or!; injection Hin as -> -> ->; (split; [done|]; split; [by vm_compute|]; intros v Hv;
    apply Hspan; [|done]; repeat constructor; discriminate).
Qed.

Lemma getopt_spelled ws o rest : spelled ws o → getopt_long (ws ++ rest) = o :: getopt_long rest.
Proof.
  assert (∀ n has_arg c, (n, has_arg, c) ∈ long_options → ∀ v, v = [] ∨ head v = Some x3d →
    str "--" ++ n ++ v ≠ str "--" ∧ word (str "--" ++ n ++ v) = Some (long_word (n ++ v)) ∧
    long_word (n ++ v) = match v, has_arg with
      | _ :: v, true => ([Opt c (Some v)], None)
      | _ :: _, false => ([Unknown], None)
      | [], true => ([], Some c)
      | [], false => ([Opt c None], None)
      end) as Hlong.
  { intros n has_arg c (Hn & Hfind & Hspan)%long_is_word v Hv. split_and!.
    - destruct n; [done|]. by intros [=].
    - done.
    - unfold long_word. by rewrite (Hspan v Hv), Hfind. }
  destruct 1 as [c Hc|c a Hc|c a Hc Ha|n c Hn|n c a Hn|n c a Hn]; cbn [app getopt_long].
  - rewrite decide_False, (short_is_word _ _ _ Hc) by (by eapply short_not_end).
    cbn [short_word]. by rewrite Hc.
  - rewrite decide_False, (short_is_word _ _ _ Hc) by (by eapply short_not_end).
    cbn [short_word]. by rewrite Hc.
  - rewrite decide_False, (short_is_word _ _ _ Hc) by (by eapply short_not_end).
    cbn [short_word]. rewrite Hc. by destruct a.
  - destruct (Hlong _ _ _ Hn [] (or_introl eq_refl)) as (Hend & Hw & Hl).
    rewrite app_nil_r in *. by rewrite decide_False, Hw, Hl.
  - destruct (Hlong _ _ _ Hn [] (or_introl eq_refl)) as (Hend & Hw & Hl).
    rewrite app_nil_r in *. by rewrite decide_False, Hw, Hl.
  - destruct (Hlong _ _ _ Hn (str "=" ++ a) (or_intror eq_refl)) as (Hend & Hw & Hl).
    by rewrite decide_False, Hw, Hl.
Qed.

(** ** Theorems *)

Section theorems.
Context `{JsonC} `{Malloc} `{Stdio}.

(** C18: Options come back from a command line in the order they were
    written in, in whichever of their spellings and until the end of the
    options.  Then help or version end the program; otherwise every setting
    is that of the last option that gives it, or its default, and the flags
    count their options. *)
Theorem command_line_roundtrip (l : list (list bytes * opt)) rest :
  Forall (λ x, spelled x.1 x.2) l →
  getopt_long (concat l.*1 ++ str "--" :: rest) = l.*2 ∧
  option_loop l.*2 initial =
    if existsb (λ o, is_opt x68 o || is_opt x76 o) l.*2 then None
    else Some (settings_of l.*2 initial).
Proof.
  intros Hl. split; [|apply option_loop_spec].
  induction Hl as [|[ws o] l Ho _ IH]; cbn [fmap list_fmap fst snd concat] in *; [done|].
  by rewrite <-app_assoc, (getopt_spelled _ _ _ Ho), IH.
Qed.

(** C23: The configuration is what the parser makes of the file up to its
    first NUL; an empty file, or one that is shorter than it says, is no
    configuration.  But a file that cannot be positioned, like a named pipe,
    says that its size is -1: the block gets no bytes and the first byte
    that is read is written behind it. *)
Theorem config_file_loaded (name : option bytes) (f : open_file) :
  fopen name = Some f →
  (0 <= ftell_end f < 2 ^ 63 → is_Some (malloc (Z.to_nat (ftell_end f + 1))) →
   json_load_from_file name = Ok
     (if decide (0 < ftell_end f <= Z.of_nat (length (contents f)))
      then (json_tokener_parse_verbose
              (default [] (c_string (take (Z.to_nat (ftell_end f)) (contents f) ++ [x00])))).1
      else JNull)) ∧
  (ftell_end f = -1 → is_Some (malloc 0) → contents f ≠ [] →
   json_load_from_file name = Fault OutOfBounds).
Proof.
  intros Hopen. unfold json_load_from_file. rewrite Hopen. split.
  - intros Hs [b Hb]. unfold wrap. cbn [is_signed Serdes.width].
    rewrite !(Z.mod_small (ftell_end f)), (Z.mod_small (ftell_end f + 1)) by lia.
    rewrite Hb, length_take. rewrite decide_False by lia.
    destruct (decide (0 < ftell_end f <= _)) as [Hd|Hd]; [|by rewrite decide_True by lia].
    rewrite decide_False by lia. rewrite Nat.min_l by lia.
    replace (Z.to_nat (ftell_end f + 1) - Z.to_nat (ftell_end f))%nat with 1%nat by lia.
    cbn [replicate]. generalize (take (Z.to_nat (ftell_end f)) (contents f)). intros s.
    assert (∃ t, c_string (s ++ [x00]) = Some t) as [t ->]; [|done].
    induction s as [|x s [t IH]]; cbn [app c_string]; [by exists []|].
    case_decide; [by exists []|]. rewrite IH. by eexists.
  - intros Hs [b Hb] Hne. rewrite Hs. change (wrap U64 (-1)) with (2 ^ 64 - 1).
    change (wrap U64 (2 ^ 64 - 1 + 1)) with 0. change (Z.to_nat 0) with O. rewrite Hb.
    rewrite decide_True; [done|]. rewrite length_take.
    destruct (contents f); [done|]. cbn [length]. lia.
Qed.
End theorems.

(** ** Witnesses *)

Module ConfigRun.
(** The parser knows one text, which gives a host, and takes any other that is
    not empty for an empty object. *)
#[export] Instance ref_json : JsonC := {
  json_object_object_add := @json_object_object_add RefJson.ref_json;
  json_object_get_string := @json_object_get_string RefJson.ref_json;
  json_object_get_int64 := @json_object_get_int64 RefJson.ref_json;
  json_object_get_int := @json_object_get_int RefJson.ref_json;
  json_object_get_boolean := @json_object_get_boolean RefJson.ref_json;
  json_object_to_json_string := @json_object_to_json_string RefJson.ref_json;
  json_tokener_parse_verbose s :=
    (if decide (s = str "h") then JObject [(str "host", JString (str "0.0.0.0"))]
     else match s with [] => JNull | _ => JObject [] end, true)
}.

#[export] Instance ref_stdio : Stdio := {
  realpath p := Some (str "/etc/" ++ p);
  fopen p := match p with
             | None => None
             | Some p =>
                 if decide (p = str "/etc/pipe") then Some {| ftell_end := -1; contents := str "{}" |}
                 else if decide (p = str "/etc/hosted") then Some {| ftell_end := 1; contents := str "h" |}
                 else if decide (p = str "/etc/empty") then Some {| ftell_end := 0; contents := [] |}
                 else Some {| ftell_end := 2; contents := str "{}" |}
             end
}.

Definition words : list (list bytes * opt) := [
  ([str "-d"], Opt x64 None);
  ([str "-c"; str "a.json"], Opt x63 (Some (str "a.json")));
  ([str "--serverid=one"], Opt x69 (Some (str "one")));
  ([str "--config"; str "b.json"], Opt x63 (Some (str "b.json")));
  ([str "-D7"], Opt x44 (Some (str "7")))
].
End ConfigRun.

Import ConfigRun Recorder.

Lemma command_line_roundtrip_witness :
  getopt_long (concat words.*1 ++ [str "--"; str "-k"]) = words.*2 ∧
  option_loop words.*2 initial =
    if existsb (λ o, is_opt x68 o || is_opt x76 o) words.*2 then None
    else Some (settings_of words.*2 initial).
Proof.
  apply (command_line_roundtrip words [str "-k"]).
  repeat (apply Forall_cons; split); [| | | | |apply Forall_nil; exact I]; cbn [fst snd].
  - apply short_flag. reflexivity.
  - apply short_next. reflexivity.
  - apply (long_glued (str "serverid") x69 (str "one")). decide_vm.
  - apply (long_next (str "config") x63 (str "b.json")). decide_vm.
  - apply short_glued; [reflexivity|discriminate].
Defined.

Lemma config_file_loaded_witness :
  (json_load_from_file (Some (str "/etc/a")) = Ok
     (if decide (0 < 2 <= 2) then (json_tokener_parse_verbose (str "{}")).1 else JNull)) ∧
  json_load_from_file (Some (str "/etc/pipe")) = Fault OutOfBounds.
Proof.
  split.
  - apply (@config_file_loaded ref_json ref_malloc ref_stdio (Some (str "/etc/a"))
      {| ftell_end := 2; contents := str "{}" |} eq_refl); [split; [discriminate|reflexivity]|by eexists].
  - apply (@config_file_loaded ref_json ref_malloc ref_stdio (Some (str "/etc/pipe"))
      {| ftell_end := -1; contents := str "{}" |} eq_refl); [reflexivity|by eexists|discriminate].
Defined.
