(* ===== verification/Main.v ===== *)
(** * main.c: the life of the processes

    What a process does is a [prog]: the calls of libdaemon it makes, and for
    each answer what it does next; between the calls it reads its
    configuration (Config) and creates and destroys the server (Server).
    Processes that share the machine take turns, one call at a time:
    [step] and [reachable]; [calmly] are the runs in which a user starts one
    daemon after the other.  What a process may do about the PID file depends
    on its [phase], and the program keeps to the phases ([follows]).  The answers of libdaemon are a parameter, class
    [Libdaemon]; [LibdaemonLaws] states what its manual promises.

    Of the log only the lines are kept in which the parent of a daemon
    reports how the start went. *)

From S2P Require Import Prelude CLib Json Evhttp Upload Serdes Mime Server Config.
From Stdlib Require Import Strings.Byte.

(** ** Programs *)

(** [enum daemon_error_codes]. *)
Definition DAEMON_FAIL_TO_CLOSE : Z := 0.
Definition DAEMON_FAIL_PID : Z := 1.
Definition DAEMON_FAIL_CONF : Z := 2.
Definition DAEMON_FAIL_START : Z := 3.

Definition daemon_error_messages : list bytes := [
  str "Daemon failed to close all useless descriptors";
  str "Daemon failed to create PID file (Are you root?)";
  str "Daemon failed to read and parse configuration";
  str "Daemon failed to start the server"
].

Definition up_and_running : bytes := str "AuraHTTPD is now up and running!".
Definition failed_to_start : bytes := str "Failed to start AuraHTTPD: ".

Definition SIGINT : Z := 2.
Definition SIGKILL : Z := 9.

(** The calls whose answers a process waits for.  Those on the PID file go by
    [daemon_pid_file_ident]. *)
Inductive call :=
  | PidFileIsRunning (ident : bytes)
  | PidFileKillWait (ident : bytes) (sig : Z) (seconds : Z)
  | PidFileCreate (ident : bytes)
  | PidFileRemove (ident : bytes)
  | RetvalInit
  | RetvalDone
  | RetvalWait (seconds : Z)
  | RetvalSend (ret : Z)
  | CloseAll
  | Slog (line : bytes)
  | Dispatch.

(** [daemon_fork] answers twice. *)
Inductive prog :=
  | Exit (status : Z)
  | Crash (f : fault)
  | Call (c : call) (k : Z → prog)
  | Fork (k : Z → prog).

(** The server after its event loop has ended: requests have changed it. *)
Class EventLoop (server : Type) := { dispatched : server → server }.

Section main.
Context `{JsonC} `{Malloc} {tab cb fsd : Type} `{CbTable tab cb} `{FsData fsd} `{RedirectCb cb}.
Context `{ServerEnv} `{Stdio} `{EventLoop (ahttpd_server tab fsd)}.
Context (fslist : list (ahttpd_fs tab fsd)).

(** The end of [main], from [bailout]. *)
Definition bailout (s : settings) : prog :=
  Call (PidFileRemove (serverid s)) (λ _, Exit 0).

(** From [aura_eventloop_dispatch] on. *)
Definition run_server (s : settings) (fl : list (ahttpd_fs tab fsd)) (srv : ahttpd_server tab fsd)
    : prog :=
  Call Dispatch (λ _,
    match ahttpd_server_destroy fl (dispatched srv) with
    | Fault f => Crash f
    | Ok _ => bailout s
    end).

(** From the loading of the configuration on; a server that cannot be created
    has ended the process. *)
Definition start_server (s : settings) (configfile : option bytes) : prog :=
  match json_load_from_file configfile with
  | Fault f => Crash f
  | Ok JNull => Call (RetvalSend DAEMON_FAIL_CONF) (λ _, bailout s)
  | Ok conf =>
      match ahttpd_server_create fslist conf with
      | Fault f => Crash f
      | Ok (fl, srv) =>
          if negb (do_daemonize s =? 0)
          then Call (RetvalSend 0) (λ _, run_server s fl srv)
          else run_server s fl srv
      end
  end.

Definition kill_daemon (s : settings) (pid : Z) : prog :=
  if negb (0 <? pid) then Exit 0
  else Call (PidFileKillWait (serverid s) SIGINT 30) (λ r,
    if negb (r =? 0)
    then Call (PidFileKillWait (serverid s) SIGKILL 5) (λ r,
           if negb (r =? 0) then Exit 1 else Exit 0)
    else Exit 0).

(** The process that waits for its daemon. *)
Definition await_daemon : prog :=
  Call (RetvalWait 5) (λ ret,
    if ret <? 0 then Exit 255
    else if ret =? 0 then Call (Slog up_and_running) (λ _, Exit 0)
    else match daemon_error_messages !! Z.to_nat ret with
         | None => Crash OutOfBounds
         | Some m => Call (Slog (failed_to_start ++ m)) (λ _, Exit 0)
         end).

(** After the fork, or without one. *)
Definition forked (s : settings) (configfile : option bytes) (pid : Z) : prog :=
  if pid <? 0 then Call RetvalDone (λ _, Exit 1)
  else if negb (pid =? 0) then await_daemon
  else if negb (do_daemonize s =? 0) then
    Call CloseAll (λ r,
      if r <? 0 then Call (RetvalSend DAEMON_FAIL_TO_CLOSE) (λ _, bailout s)
      else Call (PidFileCreate (serverid s)) (λ r,
        if r <? 0 then Call (RetvalSend DAEMON_FAIL_PID) (λ _, bailout s)
        else start_server s configfile))
  else start_server s configfile.

Definition main (argv : list bytes) : prog :=
  match option_loop (getopt_long argv) initial with
  | None => Exit 1
  | Some s =>
      let configfile := realpath (configfile s) in
      Call (PidFileIsRunning (serverid s)) (λ pid,
        if negb (do_kill s =? 0) then kill_daemon s pid
        else if 0 <=? pid then Exit 1
        else if negb (do_daemonize s =? 0) then
          Call RetvalInit (λ r,
            if r <? 0 then Exit 1 else Fork (forked s configfile))
        else forked s configfile 0)
  end.

End main.

(** ** Processes *)

(** What has happened, by process. *)
Inductive event :=
  | Started (p : Z) (argv : list bytes)
  | Forked (p q : Z)
  | Called (p : Z) (c : call) (answer : Z)
  | Killed (p : Z).

(** The processes, with what they have still to do; what each had to do at
    its start; and the events so far, the last one first.  A process id is
    not used again. *)
Record world := { procs : gmap Z prog; starts : gmap Z prog; history : list event }.

Definition nobody : world := {| procs := ∅; starts := ∅; history := [] |}.

(** The process has not ended. *)
Definition alive (w : world) (p : Z) : Prop :=
  match procs w !! p with None | Some (Exit _) | Some (Crash _) => False | _ => True end.

(** The process that the PID file names. *)
Fixpoint holder (id : bytes) (h : list event) : option Z :=
  match h with
  | [] => None
  | Called p (PidFileCreate i) a :: h => if decide (i = id ∧ 0 <= a) then Some p else holder id h
  | Called p (PidFileRemove i) a :: h => if decide (i = id) then None else holder id h
  | _ :: h => holder id h
  end.

(** Which answers may be given. *)
Class Libdaemon := { answers : world → Z → call → Z → Prop }.

(** A process that the PID file names and that is alive is reported, and its
    PID file is not replaced; what a process waits for, a process that it
    forked has sent. *)
Class LibdaemonLaws `{Libdaemon} := {
  running_sound w p id a q :
    answers w p (PidFileIsRunning id) a → a < 0 → holder id (history w) = Some q → ¬ alive w q;
  create_free w p id a q :
    answers w p (PidFileCreate id) a → 0 <= a → holder id (history w) = Some q → ¬ alive w q;
  wait_sent w p seconds a :
    answers w p (RetvalWait seconds) a → 0 <= a →
    ∃ q r, 0 < q ∧ Forked p q ∈ history w ∧ Called q (RetvalSend a) r ∈ history w
}.

(** The next call or fork of a process, the start of another by a user, or
    the end of one by a signal. *)
Section step.
Context `{JsonC} `{Malloc} {tab cb fsd : Type} `{CbTable tab cb} `{FsData fsd} `{RedirectCb cb}.
Context `{ServerEnv} `{Stdio} `{EventLoop (ahttpd_server tab fsd)} `{Libdaemon}.
Context (fslist : list (ahttpd_fs tab fsd)).

Inductive step : world → world → Prop :=
  | step_start w p argv :
      0 < p → procs w !! p = None →
      step w {| procs := <[p := main fslist argv]> (procs w);
                starts := <[p := main fslist argv]> (starts w);
                history := Started p argv :: history w |}
  | step_call w p c k a :
      procs w !! p = Some (Call c k) → answers w p c a →
      step w {| procs := <[p := k a]> (procs w); starts := starts w;
                history := Called p c a :: history w |}
  | step_fork w p q k :
      procs w !! p = Some (Fork k) → 0 < q → procs w !! q = None →
      step w {| procs := <[q := k 0]> (<[p := k q]> (procs w)); starts := <[q := k 0]> (starts w);
                history := Forked p q :: history w |}
  | step_fork_failed w p k :
      procs w !! p = Some (Fork k) →
      step w {| procs := <[p := k (-1)]> (procs w); starts := starts w;
                history := Forked p (-1) :: history w |}
  | step_killed w p pr :
      procs w !! p = Some pr →
      step w {| procs := <[p := Exit 255]> (procs w); starts := starts w;
                history := Killed p :: history w |}.

Inductive reachable : world → Prop :=
  | reach_nobody : reachable nobody
  | reach_step w w' : reachable w → step w w' → reachable w'.
End step.

(** ** The calls of one process *)

(** A call with its answer, or a fork with the child. *)
Definition local : Type := (call * Z) + Z.

#[export] Instance call_eq_decision : EqDecision call.
Proof. solve_decision. Defined.

(** What a process has still to do after some calls. *)
Fixpoint replay (pr : prog) (es : list local) {struct es} : option prog :=
  match es with
  | [] => Some pr
  | inl (c, a) :: es =>
      match pr with
      | Call c' k => if decide (c = c') then replay (k a) es else None
      | _ => None
      end
  | inr q :: es =>
      match pr with
      | Fork k => if decide (q = 0) then None else replay (k q) es
      | _ => None
      end
  end.

(** The calls of [p], the first one first. *)
Fixpoint own (p : Z) (h : list event) : list local :=
  match h with
  | [] => []
  | Called q c a :: h => own p h ++ (if decide (q = p) then [inl (c, a)] else [])
  | Forked q r :: h => own p h ++ (if decide (q = p) then [inr r] else [])
  | _ :: h => own p h
  end.

Lemma replay_app pr es1 es2 pr' :
  replay pr es1 = Some pr' → replay pr (es1 ++ es2) = replay pr' es2.
Proof.
  revert pr. induction es1 as [|[[c a]|q] es1 IH]; intros pr E; cbn in E |- *; [by simplify_eq|..].
  - destruct pr; try done. case_decide; [|done]. by apply IH.
  - destruct pr; try done. case_decide; [done|]. by apply IH.
Qed.

Section traces.
Context `{JsonC} `{Malloc} {tab cb fsd : Type} `{CbTable tab cb} `{FsData fsd} `{RedirectCb cb}.
Context `{ServerEnv} `{Stdio} `{EventLoop (ahttpd_server tab fsd)} `{Libdaemon}.
Context (fslist : list (ahttpd_fs tab fsd)).
Implicit Types w : world.

(** Process [q] started with [pr0] when [p] forked. *)
Definition fork_point w (p q : Z) (pr0 : prog) : Prop :=
  ∃ pr pre k post, starts w !! p = Some pr ∧ own p (history w) = pre ++ inr q :: post ∧
    replay pr pre = Some (Fork k) ∧ pr0 = k 0.

(** Every process has made calls of the program it started with, and knows
    where it comes from. *)
Record traced w : Prop := {
  tr_starts p : is_Some (procs w !! p) ↔ is_Some (starts w !! p);
  tr_fresh p : procs w !! p = None → own p (history w) = [];
  tr_local p pr0 pr : starts w !! p = Some pr0 → procs w !! p = Some pr →
    ∃ pr1, replay pr0 (own p (history w)) = Some pr1 ∧ (pr = pr1 ∨ pr = Exit 255);
  tr_origin q pr0 : starts w !! q = Some pr0 →
    (∃ argv, Started q argv ∈ history w ∧ pr0 = main fslist argv) ∨
    ∃ p, Forked p q ∈ history w ∧ fork_point w p q pr0;
  tr_forked p q : Forked p q ∈ history w → 0 < q →
    ∃ pr0, starts w !! q = Some pr0 ∧ fork_point w p q pr0
}.

(** What a step is for one process: nothing, its start, its end by a signal,
    or a call. *)
Lemma step_local w w' p :
  step fslist w w' →
  (own p (history w') = own p (history w) ∧ procs w' !! p = procs w !! p ∧
   starts w' !! p = starts w !! p) ∨
  (own p (history w') = own p (history w) ∧ procs w !! p = None ∧
   ∃ pr, procs w' !! p = Some pr ∧ starts w' !! p = Some pr) ∨
  (own p (history w') = own p (history w) ∧ is_Some (procs w !! p) ∧
   procs w' !! p = Some (Exit 255) ∧ starts w' !! p = starts w !! p) ∨
  ∃ l pr pr', own p (history w') = own p (history w) ++ [l] ∧ procs w !! p = Some pr ∧
    procs w' !! p = Some pr' ∧ replay pr [l] = Some pr' ∧ starts w' !! p = starts w !! p.
Proof.
  destruct 1 as [w q argv Hq Hn|w q c k a Hq Ha|w q r k Hq Hr Hn|w q k Hq|w q pr Hq]; cbn.
  - destruct (decide (q = p)) as [->|]; [right; left|left]; by simplify_map_eq; eauto.
  - destruct (decide (q = p)) as [->|].
    + do 3 right. eexists _, _, _. simplify_map_eq. split_and!; try done. cbn. by rewrite decide_True.
    + left. simplify_map_eq. by rewrite app_nil_r.
  - assert (q ≠ r) by congruence. destruct (decide (q = p)) as [->|].
    + do 3 right. eexists (inr r), _, _. simplify_map_eq. split_and!; try done. cbn.
      by rewrite decide_False by lia.
    + rewrite app_nil_r. destruct (decide (r = p)) as [->|]; [right; left|left];
        by simplify_map_eq; eauto.
  - destruct (decide (q = p)) as [->|].
    + do 3 right. eexists (inr (-1)), _, _. by simplify_map_eq.
    + left. simplify_map_eq. by rewrite app_nil_r.
  - destruct (decide (q = p)) as [->|]; [do 2 right; left|left]; by simplify_map_eq; eauto.
Qed.

Lemma step_extends w w' p pr :
  traced w → step fslist w w' → starts w !! p = Some pr →
  starts w' !! p = Some pr ∧ ∃ post, own p (history w') = own p (history w) ++ post.
Proof.
  intros Ht Hs Hp. assert (is_Some (procs w !! p)) as [x Hx] by (by apply (tr_starts _ Ht); rewrite Hp).
  destruct (step_local _ _ p Hs) as [(-> & _ & ->)|[(_ & Hn & _)|[(-> & _ & _ & ->)|
    (l & ? & ? & -> & _ & _ & _ & ->)]]]; [|congruence|..].
  - split; [done|]. exists []. by rewrite app_nil_r.
  - split; [done|]. exists []. by rewrite app_nil_r.
  - split; [done|]. by eexists.
Qed.

Lemma fork_point_step w w' p q pr0 :
  traced w → step fslist w w' → fork_point w p q pr0 → fork_point w' p q pr0.
Proof.
  intros Ht Hs (pr & pre & k & post & Hp & Ho & Hr & ->).
  destruct (step_extends _ _ _ _ Ht Hs Hp) as [Hp' [post' Ho']].
  exists pr, pre, k, (post ++ post'). split_and!; try done. by rewrite Ho', Ho, <-app_assoc.
Qed.

Lemma history_step w w' e : step fslist w w' → e ∈ history w → e ∈ history w'.
Proof. destruct 1; cbn; by right. Qed.

(** The process that is new after a step. *)
Lemma step_born w w' :
  step fslist w w' →
  (∃ p argv, history w' = Started p argv :: history w ∧ starts w' = <[p := main fslist argv]> (starts w)) ∨
  (∃ p q k, 0 < q ∧ history w' = Forked p q :: history w ∧ starts w' = <[q := k 0]> (starts w) ∧
     procs w !! p = Some (Fork k) ∧ procs w !! q = None) ∨
  (starts w' = starts w ∧ ∃ e, history w' = e :: history w ∧ ∀ p q, 0 < q → e ≠ Forked p q).
Proof.
  destruct 1; cbn; [left; eauto|right; right|right; left|right; right|right; right].
  - split; [done|]. by eexists.
  - by eauto 10.
  - split; [done|]. eexists. split; [done|]. intros ? ? ? [=]. lia.
  - split; [done|]. by eexists.
Qed.

Lemma new_fork_point w w' p q k :
  traced w → 0 < q → procs w !! p = Some (Fork k) → procs w !! q = None →
  history w' = Forked p q :: history w → starts w' = <[q := k 0]> (starts w) →
  fork_point w' p q (k 0).
Proof.
  intros Ht Hq Hp Hn Hh Hs. assert (is_Some (starts w !! p)) as [pr Hpr]
    by (apply (tr_starts _ Ht); by rewrite Hp).
  destruct (tr_local _ Ht _ _ _ Hpr Hp) as (pr1 & Hr & [<-|]); [|done].
  exists pr, (own p (history w)), k, []. split_and!; try done.
  - rewrite Hs, lookup_insert_ne; [done|congruence].
  - rewrite Hh. cbn. by rewrite decide_True.
Qed.

Lemma traced_local w w' p pr0 pr :
  traced w → step fslist w w' → starts w' !! p = Some pr0 → procs w' !! p = Some pr →
  ∃ pr1, replay pr0 (own p (history w')) = Some pr1 ∧ (pr = pr1 ∨ pr = Exit 255).
Proof.
  intros Ht Hs Hp0 Hp. destruct (step_local _ _ p Hs) as [(-> & E & E')|
    [(-> & Hn & pr' & E & E')|[(-> & [x Hx] & E & E')|(l & pr2 & pr' & -> & Hx & E & Hr & E')]]];
    rewrite E in Hp; rewrite E' in Hp0.
  + by apply (tr_local _ Ht).
  + injection Hp as <-. injection Hp0 as <-. exists pr'. rewrite (tr_fresh _ Ht) by done.
    by split; [|left].
  + injection Hp as <-. destruct (tr_local _ Ht _ _ _ Hp0 Hx) as (pr1 & Hr & _). exists pr1. by split; [|right].
  + injection Hp as <-. destruct (tr_local _ Ht _ _ _ Hp0 Hx) as (pr1 & Hr1 & [-> | ->]);
      [|by destruct l as [[]|]].
    exists pr'. split; [|by left]. by rewrite (replay_app _ _ _ _ Hr1).
Qed.

Lemma traced_origin w w' q pr0 :
  traced w → step fslist w w' → starts w' !! q = Some pr0 →
  (∃ argv, Started q argv ∈ history w' ∧ pr0 = main fslist argv) ∨
  ∃ p, Forked p q ∈ history w' ∧ fork_point w' p q pr0.
Proof.
  intros Ht Hs Hq.
  assert (starts w !! q = Some pr0 → (∃ argv, Started q argv ∈ history w' ∧ pr0 = main fslist argv) ∨
    ∃ p, Forked p q ∈ history w' ∧ fork_point w' p q pr0) as Hold.
  { intros [(argv & Hin & ->)|(p & Hin & Hf)]%(tr_origin _ Ht).
    - left. exists argv. split; [by eapply history_step|done].
    - right. exists p. split; [by eapply history_step|by eapply fork_point_step]. }
  destruct (step_born _ _ Hs) as [(p & argv & Hh & Hst)|[(p & r & k & Hr & Hh & Hst & Hp & Hn)|
    [Hst _]]]; [..|rewrite Hst in Hq; by apply Hold]; rewrite Hst in Hq;
    apply lookup_insert_Some in Hq as [[<- <-]|[_ Hq]]; try by apply Hold.
  + left. exists argv. rewrite Hh. split; [by left|done].
  + right. exists p. split; [rewrite Hh; by left|by eapply new_fork_point].
Qed.

Lemma traced_forked w w' p q :
  traced w → step fslist w w' → Forked p q ∈ history w' → 0 < q →
  ∃ pr0, starts w' !! q = Some pr0 ∧ fork_point w' p q pr0.
Proof.
  intros Ht Hs Hin Hq. assert (Forked p q ∈ history w →
    ∃ pr0, starts w' !! q = Some pr0 ∧ fork_point w' p q pr0) as Hold.
  { intros (pr0 & Hq0 & Hf)%(tr_forked _ Ht); [|done]. exists pr0.
    split; [by eapply step_extends|by eapply fork_point_step]. }
  destruct (step_born _ _ Hs) as [(p' & argv & Hh & Hst)|[(p' & r & k & Hr & Hh & Hst & Hp & Hn)|
    [Hst (e & Hh & He)]]]; rewrite Hh in Hin; apply elem_of_cons in Hin as [E|Hin];
    try by apply Hold.
  + injection E as -> ->. exists (k 0). split; [rewrite Hst; apply lookup_insert_eq|].
    by eapply new_fork_point.
  + by destruct (He p q Hq).
Qed.

Lemma reachable_traced w : reachable fslist w → traced w.
Proof.
  induction 1 as [|w w' _ Ht Hs].
  { split; cbn; try by intros; simplify_map_eq. all: by intros ? ? ?%elem_of_nil. }
  split.
  - intros p. destruct (step_local _ _ p Hs) as [(_ & -> & ->)|[(_ & _ & pr & -> & ->)|
      [(_ & Hp & -> & ->)|(l & pr & pr' & _ & Hp & -> & _ & ->)]]]; try apply (tr_starts _ Ht).
    + done.
    + rewrite <-(tr_starts _ Ht). split; by eauto.
    + rewrite <-(tr_starts _ Ht), Hp. split; by eauto.
  - intros p Hn. destruct (step_local _ _ p Hs) as [(-> & E & _)|[(_ & _ & pr & E & _)|
      [(_ & _ & E & _)|(l & pr & pr' & _ & _ & E & _)]]]; rewrite E in Hn; [|done..].
    by apply (tr_fresh _ Ht).
  - intros p pr0 pr. by eapply traced_local.
  - intros q pr0. by eapply traced_origin.
  - intros p q. by eapply traced_forked.
Qed.
End traces.

(** All calls are of a kind, and there is no fork. *)
Fixpoint only (P : call → Prop) (pr : prog) : Prop :=
  match pr with
  | Exit _ | Crash _ => True
  | Call c k => P c ∧ ∀ a, only P (k a)
  | Fork _ => False
  end.

Lemma only_replay P pr es pr' :
  only P pr → replay pr es = Some pr' →
  only P pr' ∧ ∀ l, l ∈ es → ∃ c a, l = inl (c, a) ∧ P c.
Proof.
  revert pr. induction es as [|[[c a]|q] es IH]; intros pr Hp E; cbn in E.
  - simplify_eq. split; [done|]. by intros l ?%elem_of_nil.
  - destruct pr as [| |c' k|]; try done. case_decide; [|done]. subst c'. destruct Hp as [Hc Hk].
    destruct (IH _ (Hk a) E) as [? Hl]. split; [done|].
    intros l [->|Hin]%elem_of_cons; [by eauto|by apply Hl].
  - by destruct pr.
Qed.

Lemma only_mono (P Q : call → Prop) pr : (∀ c, P c → Q c) → only P pr → only Q pr.
Proof. intros HPQ. induction pr as [| |c k IH|]; cbn; try done. intros [? ?]. eauto. Qed.

(** Look at the next event of a run. *)
Ltac next es E :=
  let c := fresh "c" in let a := fresh "a" in let q := fresh "q" in
  destruct es as [|[[c a]|q] es]; cbn [replay app] in E;
    [|first [discriminate E|case_decide as Hcall; [subst c|discriminate E]]|]; try discriminate E.

(** *** What a process may do, by its phase

    A start that is no other one's child begins by asking whether a daemon
    runs; then it is on its way to create the PID file, has failed to, or owns
    it; with any other answer there is nothing left for it to do about the PID
    file. *)
Inductive phase :=
  | Checking
  | Passing (id : bytes)
  | Failing (id : bytes)
  | Owning (id : bytes)
  | Idle.

(** The phase after a call, if the call is one for the phase. *)
Definition next_phase (ph : phase) (c : call) (a : Z) : option phase :=
  match ph, c with
  | Checking, PidFileIsRunning id => Some (if a <? 0 then Passing id else Idle)
  | Passing id, RetvalInit => Some (Passing id)
  | Passing id, CloseAll => Some (if a <? 0 then Failing id else Passing id)
  | Passing id, PidFileCreate i =>
      if decide (i = id) then Some (if a <? 0 then Failing id else Owning id) else None
  | Failing id, RetvalSend _ => Some (Failing id)
  | Failing id, PidFileRemove i => if decide (i = id) then Some Idle else None
  | Owning id, RetvalSend _ => Some (Owning id)
  | Owning id, Dispatch => Some (Owning id)
  | Owning id, PidFileRemove i => if decide (i = id) then Some Idle else None
  | Idle, PidFileKillWait _ _ _ => Some Idle
  | Idle, RetvalWait _ => Some Idle
  | Idle, RetvalDone => Some Idle
  | Idle, Slog _ => Some Idle
  | _, _ => None
  end.

(** A program that keeps to the phases.  It forks on its way to the PID file,
    which is then up to the child. *)
Fixpoint follows (ph : phase) (pr : prog) : Prop :=
  match pr with
  | Exit _ | Crash _ => True
  | Call c k => ∀ a, match next_phase ph c a with Some ph' => follows ph' (k a) | None => False end
  | Fork k =>
      match ph with
      | Passing id => follows (Passing id) (k 0) ∧ ∀ q, q ≠ 0 → follows Idle (k q)
      | _ => False
      end
  end.

Section calls.
Context `{JsonC} `{Malloc} {tab cb fsd : Type} `{CbTable tab cb} `{FsData fsd} `{RedirectCb cb}.
Context `{ServerEnv} `{Stdio} `{EventLoop (ahttpd_server tab fsd)}.
Context (fslist : list (ahttpd_fs tab fsd)).
Implicit Types (s : settings) (es : list local).

(** The configuration is there and a server can be made of it. *)
Definition configured (cf : option bytes) : Prop :=
  ∃ conf fl srv, json_load_from_file cf = Ok conf ∧ conf ≠ JNull ∧
    ahttpd_server_create fslist conf = Ok (fl, srv).

Lemma bailout_only s : only (λ c, ∃ i, c = PidFileRemove i) (bailout s).
Proof. split; [by eexists|done]. Qed.

Lemma run_server_only s fl srv :
  only (λ c, c = Dispatch ∨ ∃ i, c = PidFileRemove i) (run_server s fl srv).
Proof.
  split; [by left|]. intros a. destruct (ahttpd_server_destroy _ _); [|done].
  split; [by right; eexists|done].
Qed.

Lemma await_only : only (λ c, c = RetvalWait 5 ∨ ∃ l, c = Slog l) await_daemon.
Proof.
  split; [by left|]. intros a. repeat case_match; try done; (split; [by right; eexists|done]).
Qed.

Lemma kill_only s pid : only (λ c, ∃ i g n, c = PidFileKillWait i g n) (kill_daemon s pid).
Proof.
  unfold kill_daemon. case_match; [done|]. split; [by eauto|]. intros a.
  case_match; [|done]. split; [by eauto|]. intros b. by case_match.
Qed.

(** The program from the loading of the configuration on. *)
Lemma start_server_cases s cf :
  only (λ c, c = RetvalSend DAEMON_FAIL_CONF ∨ ∃ i, c = PidFileRemove i) (start_server fslist s cf) ∨
  ∃ conf fl srv, json_load_from_file cf = Ok conf ∧ conf ≠ JNull ∧
    ahttpd_server_create fslist conf = Ok (fl, srv) ∧ start_server fslist s cf =
    if negb (do_daemonize s =? 0) then Call (RetvalSend 0) (λ _, run_server s fl srv)
    else run_server s fl srv.
Proof.
  unfold start_server. destruct (json_load_from_file cf) as [conf|]; [|by left].
  assert (conf = JNull ∨ conf ≠ JNull) as [->|Hconf] by (destruct conf; auto).
  { left. split; [by left|]. intros _. split; [by right; eexists|done]. }
  destruct (ahttpd_server_create fslist conf) as [[fl srv]|] eqn:Ec; [|left; by destruct conf].
  right. exists conf, fl, srv. split_and!; [done..|]. by destruct conf.
Qed.

Lemma run_server_not s fl srv es pr c :
  replay (run_server s fl srv) es = Some pr → c ≠ Dispatch → (∀ i, c ≠ PidFileRemove i) →
  ∀ a, inl (c, a) ∉ es.
Proof.
  intros E Hc1 Hc2 a Hin. destruct (only_replay _ _ _ _ (run_server_only s fl srv) E) as [_ Hl].
  destruct (Hl _ Hin) as (? & ? & [= -> ->] & [->|[i ->]]); [done|by destruct (Hc2 i)].
Qed.

Lemma run_server_at s fl srv es k :
  replay (run_server s fl srv) es = Some (Call Dispatch k) → es = [].
Proof.
  intros E. unfold run_server in E. next es E; [done|].
  destruct (ahttpd_server_destroy _ _).
  - by destruct (only_replay _ _ _ _ (bailout_only s) E) as [[[i ?] _] _].
  - by destruct es as [|[[]|]].
Qed.

(** A server runs only after it was made, and reported if it is a daemon. *)
Lemma start_server_dispatch s cf es k :
  replay (start_server fslist s cf) es = Some (Call Dispatch k) →
  configured cf ∧
  if negb (do_daemonize s =? 0) then ∃ r, es = [inl (RetvalSend 0, r)] else es = [].
Proof.
  intros E. destruct (start_server_cases s cf) as [Ho|(conf & fl & srv & ? & ? & ? & Hs)].
  - by destruct (only_replay _ _ _ _ Ho E) as [[[?|[]] _] _].
  - split; [by exists conf, fl, srv|]. rewrite Hs in E. destruct (negb _); [|by eapply run_server_at].
    next es E. apply run_server_at in E as ->. by eexists.
Qed.

Lemma start_server_sends s cf es pr r :
  replay (start_server fslist s cf) es = Some pr → inl (RetvalSend 0, r) ∈ es → configured cf.
Proof.
  intros E Hin. destruct (start_server_cases s cf) as [Ho|(conf & fl & srv & ? & ? & ? & _)];
    [|by exists conf, fl, srv].
  destruct (only_replay _ _ _ _ Ho E) as [_ Hl].
  by destruct (Hl _ Hin) as (? & ? & [= <- <-] & [?|[]]).
Qed.

Lemma start_server_only s cf :
  only (λ c, (∃ v, c = RetvalSend v) ∨ c = Dispatch ∨ ∃ i, c = PidFileRemove i) (start_server fslist s cf).
Proof.
  destruct (start_server_cases s cf) as [Ho|(? & fl & srv & _ & _ & _ & ->)].
  - revert Ho. apply only_mono. intros c [->|[i ->]]; eauto.
  - assert (only (λ c, (∃ v, c = RetvalSend v) ∨ c = Dispatch ∨ ∃ i, c = PidFileRemove i)
      (run_server s fl srv)) as Hr
      by (eapply only_mono, run_server_only; eauto).
    destruct (negb _); [|done]. split; [by eauto|done].
Qed.

(** The daemon after the fork. *)
Lemma child_calls s cf es pr :
  do_daemonize s ≠ 0 → replay (forked fslist s cf 0) es = Some pr →
  (es = [] ∧ ∀ k, pr ≠ Call Dispatch k ∧ pr ≠ Fork k) ∨
  (∃ r es', es = inl (CloseAll, r) :: es' ∧ r < 0 ∧ ∀ k, pr ≠ Call Dispatch k ∧ pr ≠ Fork k) ∨
  (∃ r, es = [inl (CloseAll, r)] ∧ 0 <= r ∧ ∀ k, pr ≠ Call Dispatch k ∧ pr ≠ Fork k) ∨
  (∃ r r' es', es = inl (CloseAll, r) :: inl (PidFileCreate (serverid s), r') :: es' ∧ 0 <= r ∧
     ((r' < 0 ∧ (∀ k, pr ≠ Call Dispatch k ∧ pr ≠ Fork k) ∧ ∀ a, inl (RetvalSend 0, a) ∉ es') ∨
      (0 <= r' ∧ replay (start_server fslist s cf) es' = Some pr))).
Proof.
  intros Hd E. unfold forked in E. cbn [Z.ltb Z.compare Z.eqb negb] in E.
  rewrite (proj2 (Z.eqb_neq _ _) Hd) in E. cbn [negb] in E.
  assert (∀ v es' pr', replay (Call (RetvalSend v) (λ _, bailout s)) es' = Some pr' →
    (∀ k, pr' ≠ Call Dispatch k ∧ pr' ≠ Fork k) ∧ (v ≠ 0 → ∀ a, inl (RetvalSend 0, a) ∉ es')) as Hb.
  { intros v es' pr' Eb.
    assert (only (λ c, c = RetvalSend v ∨ ∃ i, c = PidFileRemove i)
      (Call (RetvalSend v) (λ _, bailout s))) as Ho by
      (split; [by left|]; intros _; split; [by right; eexists|done]).
    destruct (only_replay _ _ _ _ Ho Eb) as [Hpr Hl]. split.
    - intros k. split; intros ->; [by destruct Hpr as [[?|[]] _]|done].
    - intros Hv a Hin. destruct (Hl _ Hin) as (? & ? & [= <- <-] & [[=]|[]]); congruence. }
  next es E; [left; split; [done|]; intros k; by simplify_eq|].
  destruct (Z.ltb_spec a 0).
  { right; left. exists a, es. split_and!; [done..|]. by eapply Hb. }
  next es E; [do 2 right; left; exists a; split_and!; [done..|]; intros k; by simplify_eq|].
  do 3 right. exists a, a0, es. split; [done|]. split; [done|].
  destruct (Z.ltb_spec a0 0); [left|by right]. split; [done|]. destruct (Hb _ _ _ E) as [? Hv].
  split; [done|]. by apply Hv.
Qed.

Lemma child_only s cf :
  do_daemonize s ≠ 0 → only (λ c, ∀ l, c ≠ Slog l) (forked fslist s cf 0).
Proof.
  intros Hd. unfold forked. cbn [Z.ltb Z.compare Z.eqb negb].
  rewrite (proj2 (Z.eqb_neq _ _) Hd). cbn [negb]. split; [done|]. intros r. case_match; [done|].
  split; [done|]. intros r'. case_match; [done|].
  eapply only_mono, start_server_only. by intros c [[v ->]|[->|[i ->]]].
Qed.

(** The command line does not start a server in the foreground, which would
    not create a PID file. *)
Definition no_foreground (argv : list bytes) : bool :=
  match option_loop (getopt_long argv) initial with
  | Some s => negb (do_kill s =? 0) || negb (do_daemonize s =? 0)
  | None => true
  end.

Lemma bailout_follows s : follows (Owning (serverid s)) (bailout s) ∧ follows (Failing (serverid s)) (bailout s).
Proof. split; intros a; cbn; by rewrite decide_True. Qed.

Lemma start_server_follows s cf : do_daemonize s ≠ 0 → follows (Owning (serverid s)) (start_server fslist s cf).
Proof.
  intros Hd. unfold start_server. destruct (json_load_from_file cf) as [conf|]; [|done].
  assert (conf = JNull ∨ conf ≠ JNull) as [->|Hconf] by (destruct conf; auto).
  { intros a. apply bailout_follows. }
  assert (follows (Owning (serverid s))
    match ahttpd_server_create fslist conf with
    | Ok (fl, srv) => if negb (do_daemonize s =? 0)
                      then Call (RetvalSend 0) (λ _, run_server s fl srv) else run_server s fl srv
    | Fault f => Crash f
    end) as Hf; [|by destruct conf].
  destruct (ahttpd_server_create fslist conf) as [[fl srv]|]; [|done].
  rewrite (proj2 (Z.eqb_neq _ _) Hd). intros a. intros b. cbn.
  destruct (ahttpd_server_destroy _ _); [apply bailout_follows|done].
Qed.

Lemma forked_follows s cf :
  do_daemonize s ≠ 0 →
  follows (Passing (serverid s)) (forked fslist s cf 0) ∧
  ∀ q, q ≠ 0 → follows Idle (forked fslist s cf q).
Proof.
  intros Hd. split.
  - unfold forked. cbn [Z.ltb Z.compare Z.eqb negb]. rewrite (proj2 (Z.eqb_neq _ _) Hd).
    cbn [negb follows]. intros a. cbn [next_phase]. destruct (a <? 0); [intros b; apply bailout_follows|].
    intros b. cbn [next_phase]. rewrite decide_True by done.
    destruct (b <? 0); [intros ?; apply bailout_follows|]. by apply start_server_follows.
  - intros q Hq. unfold forked. rewrite (proj2 (Z.eqb_neq _ _) Hq). destruct (q <? 0); [done|].
    intros a. cbn. by repeat case_match.
Qed.

(** The program keeps to the phases. *)
Lemma main_follows argv : no_foreground argv = true → follows Checking (main fslist argv).
Proof.
  unfold no_foreground, main. destruct (option_loop _ _) as [s|]; [|done]. intros Hs a.
  cbn [next_phase]. destruct (Z.eqb_spec (do_kill s) 0) as [Hk|Hk]; cbn [negb orb] in Hs |- *.
  - destruct (Z.ltb_spec a 0); [rewrite (proj2 (Z.leb_gt _ _)) by lia|by rewrite (proj2 (Z.leb_le _ _)) by lia].
    rewrite Hs. apply negb_true_iff, Z.eqb_neq in Hs. intros b. cbn [next_phase].
    destruct (b <? 0); [done|]. by apply forked_follows.
  - unfold kill_daemon. destruct (Z.ltb_spec a 0); [by rewrite (proj2 (Z.ltb_ge _ _)) by lia|].
    case_match; [done|]. intros b. cbn. case_match; [|done]. intros x. cbn. by case_match.
Qed.

(** A process before the fork, or without one. *)
Lemma main_calls argv es pr :
  replay (main fslist argv) es = Some pr →
  (∀ k, pr ≠ Call Dispatch k ∧ pr ≠ Fork k) ∧ (∀ a, inl (Slog up_and_running, a) ∉ es) ∨
  ∃ s a es', option_loop (getopt_long argv) initial = Some s ∧ do_kill s = 0 ∧ a < 0 ∧
    es = inl (PidFileIsRunning (serverid s), a) :: es' ∧
    ((do_daemonize s = 0 ∧ replay (start_server fslist s (realpath (configfile s))) es' = Some pr) ∨
     (do_daemonize s ≠ 0 ∧ ∃ b es'', 0 <= b ∧ es' = inl (RetvalInit, b) :: es'' ∧
        replay (Fork (forked fslist s (realpath (configfile s)))) es'' = Some pr)).
Proof.
  intros E. unfold main in E. destruct (option_loop _ _) as [s|] eqn:Eo.
  2: { left. next es E. injection E as <-. split; [by intros k|]. by intros a ?%elem_of_nil. }
  next es E.
  { left. injection E as <-. split; [by intros k|]. by intros a ?%elem_of_nil. }
  destruct (Z.eqb_spec (do_kill s) 0) as [Hk|]; cbn [negb] in E.
  2: { left. destruct (only_replay _ _ _ _ (kill_only s a) E) as [Hpr Hl]. split.
       - intros k. split; intros ->; [by destruct Hpr as [(? & ? & ? & ?) _]|done].
       - intros x [[=]|Hin]%elem_of_cons. by destruct (Hl _ Hin) as (? & ? & [= <- <-] & ? & ? & ? & ?). }
  destruct (Z.leb_spec 0 a).
  { left. next es E. injection E as <-. split; [by intros k|].
    by intros x [[=]|?%elem_of_nil]%elem_of_cons. }
  destruct (Z.eqb_spec (do_daemonize s) 0) as [Hd|Hd]; cbn [negb] in E.
  - right. exists s, a, es. split_and!; [done..|]. left. split; [done|]. unfold forked in E.
    cbn [Z.ltb Z.compare Z.eqb negb] in E. by rewrite Hd in E.
  - next es E.
    { left. injection E as <-. split; [by intros k|]. by intros x [[=]|?%elem_of_nil]%elem_of_cons. }
    destruct (Z.ltb_spec a0 0).
    { left. next es E. injection E as <-. split; [by intros k|].
      by intros x [[=]|[[=]|?%elem_of_nil]%elem_of_cons]%elem_of_cons. }
    right. exists s, a, (inl (RetvalInit, a0) :: es). split_and!; [done..|]. right.
    split; [done|]. by exists a0, es.
Qed.

(** The process that has forked. *)
Lemma parent_calls s cf es pr :
  replay (Fork (forked fslist s cf)) es = Some pr →
  (es = [] ∧ pr = Fork (forked fslist s cf)) ∨
  ∃ q es', es = inr q :: es' ∧ q ≠ 0 ∧ (∀ k, pr ≠ Call Dispatch k ∧ pr ≠ Fork k) ∧
    ∀ a, inl (Slog up_and_running, a) ∈ es' → 0 < q ∧ inl (RetvalWait 5, 0) ∈ es'.
Proof.
  intros E. destruct es as [|[[c a]|q] es]; cbn [replay] in E; [left; by simplify_eq|done|].
  case_decide as Hq; [done|]. right. exists q, es. split; [done|]. split; [done|].
  unfold forked in E. destruct (Z.ltb_spec q 0).
  { next es E; [injection E as <-|next es E; injection E as <-]; (split; [by intros k|]);
      intros x Hin; by repeat (apply elem_of_cons in Hin as [[=]|Hin]); apply elem_of_nil in Hin. }
  rewrite (proj2 (Z.eqb_neq _ _) Hq) in E. cbn [negb] in E. split.
  - destruct (only_replay _ _ _ _ await_only E) as [Hpr _]. intros k.
    split; intros ->; [by destruct Hpr as [[?|[]] _]|done].
  - intros x Hin. split; [lia|]. unfold await_daemon in E. next es E; [by apply elem_of_nil in Hin|].
    destruct (Z.ltb_spec a 0); [next es E; by apply elem_of_cons in Hin as [[=]|?%elem_of_nil]|].
    destruct (Z.eqb_spec a 0) as [->|]; [by left|].
    apply elem_of_cons in Hin as [[=]|Hin]. exfalso.
    destruct (daemon_error_messages !! _) as [m|] eqn:Em; [|next es E; by apply elem_of_nil in Hin].
    next es E; [by apply elem_of_nil in Hin|]. apply elem_of_cons in Hin as [[=]|Hin].
    next es E. by apply elem_of_nil in Hin.
Qed.
End calls.

Section worlds.
Context `{JsonC} `{Malloc} {tab cb fsd : Type} `{CbTable tab cb} `{FsData fsd} `{RedirectCb cb}.
Context `{ServerEnv} `{Stdio} `{EventLoop (ahttpd_server tab fsd)} `{Libdaemon}.
Context (fslist : list (ahttpd_fs tab fsd)).
Implicit Types (w : world) (s : settings).

Lemma own_called p c a h : Called p c a ∈ h ↔ inl (c, a) ∈ own p h.
Proof.
  induction h as [|e h IH]; cbn [own]; [by rewrite !elem_of_nil|].
  rewrite elem_of_cons, IH. destruct e as [| |r d b|]; rewrite ?elem_of_app;
    try case_decide; rewrite ?elem_of_cons, ?elem_of_nil; naive_solver.
Qed.

(** The calls of a process are calls of the program it started with. *)
Lemma own_replay w p l :
  traced fslist w → l ∈ own p (history w) →
  ∃ pr0 pr1, starts w !! p = Some pr0 ∧ replay pr0 (own p (history w)) = Some pr1.
Proof.
  intros Ht Hl. destruct (procs w !! p) as [pr|] eqn:Ep;
    [|rewrite (tr_fresh _ _ Ht _ Ep) in Hl; by apply elem_of_nil in Hl].
  assert (is_Some (starts w !! p)) as [pr0 Hpr0] by (apply (tr_starts _ _ Ht); by rewrite Ep).
  destruct (tr_local _ _ Ht _ _ _ Hpr0 Ep) as (pr1 & Hr & _). by exists pr0, pr1.
Qed.

(** What a process starts with, in any world. *)
Lemma reachable_starts w p pr :
  reachable fslist w → starts w !! p = Some pr →
  (∃ argv, pr = main fslist argv) ∨
  ∃ s cf, do_daemonize s ≠ 0 ∧ pr = forked fslist s cf 0.
Proof.
  intros Hw. revert p pr. induction Hw as [|w w' Hw IH Hs]; intros p pr Hp; [by cbn in Hp|].
  apply reachable_traced in Hw.
  destruct (step_born _ _ _ Hs) as [(q & argv & _ & Hst)|[(q & r & k & _ & _ & Hst & Hq & _)|
    [Hst _]]]; rewrite Hst in Hp; [..|by eapply IH];
    apply lookup_insert_Some in Hp as [[<- <-]|[_ Hp]]; try by eapply IH.
  - left. by exists argv.
  - assert (is_Some (starts w !! q)) as [prq Hprq] by (apply (tr_starts _ _ Hw); by rewrite Hq).
    destruct (tr_local _ _ Hw _ _ _ Hprq Hq) as (pr1 & Hr & [<-|]); [|done].
    destruct (IH _ _ Hprq) as [[argv ->]|(s & cf & Hd & ->)].
    + destruct (main_calls _ _ _ _ Hr) as [[Hno _]|(s & a & es & _ & _ & _ & _ & [[_ Hf]|(Hd & b & es' & _ & _ & Hf)])].
      * by destruct (Hno k).
      * by destruct (only_replay _ _ _ _ (start_server_only fslist s _) Hf).
      * apply parent_calls in Hf as [[_ [= ->]]|(? & ? & _ & _ & Hno & _)]; [|by destruct (Hno k)].
        right. by exists s, (realpath (configfile s)).
    + by destruct (only_replay _ _ _ _ (child_only fslist s cf Hd) Hr).
Qed.

(** A process that was forked is the daemon of one that a user started. *)
Lemma fork_point_main w p q pr :
  reachable fslist w → fork_point w p q pr →
  ∃ argv s a b post, starts w !! p = Some (main fslist argv) ∧
    option_loop (getopt_long argv) initial = Some s ∧ do_kill s = 0 ∧ do_daemonize s ≠ 0 ∧
    a < 0 ∧ 0 <= b ∧
    own p (history w) = [inl (PidFileIsRunning (serverid s), a); inl (RetvalInit, b)] ++ inr q :: post ∧
    pr = forked fslist s (realpath (configfile s)) 0.
Proof.
  intros Hw (pr0 & pre & k & post & Hp & Ho & Hr & ->).
  destruct (reachable_starts _ _ _ Hw Hp) as [[argv ->]|(s & cf & Hd & ->)].
  - destruct (main_calls _ _ _ _ Hr) as [[Hno _]|(s & a & es & Hs & Hk & Ha & -> & [[_ Hf]|
      (Hd & b & es' & Hb & -> & Hf)])].
    + by destruct (Hno k).
    + by destruct (only_replay _ _ _ _ (start_server_only fslist s _) Hf).
    + apply parent_calls in Hf as [[-> [= ->]]|(? & ? & _ & _ & Hno & _)]; [|by destruct (Hno k)].
      exists argv, s, a, b, post. by split_and!.
  - by destruct (only_replay _ _ _ _ (child_only fslist s cf Hd) Hr).
Qed.

Lemma started_main w p argv :
  reachable fslist w → Started p argv ∈ history w → starts w !! p = Some (main fslist argv).
Proof.
  induction 1 as [|w w' Hw IH Hs]; [by intros ?%elem_of_nil|]. intros Hin.
  apply reachable_traced in Hw. assert (∀ pr, starts w !! p = Some pr → starts w' !! p = Some pr) as Hm
    by (intros pr Hpr; by eapply step_extends).
  destruct Hs; cbn in Hin, Hm |- *; apply elem_of_cons in Hin as [E|Hin]; try by apply Hm, IH.
  injection E as -> ->. apply lookup_insert_eq.
Qed.
End worlds.

(** ** Starting one daemon after the other *)

Section calm.
Context `{JsonC} `{Malloc} {tab cb fsd : Type} `{CbTable tab cb} `{FsData fsd} `{RedirectCb cb}.
Context `{ServerEnv} `{Stdio} `{EventLoop (ahttpd_server tab fsd)} `{Libdaemon} `{!LibdaemonLaws}.
Context (fslist : list (ahttpd_fs tab fsd)).
Implicit Types (w : world) (φ : Z → phase).

(** Every process that is alive waits in its event loop. *)
Definition quiet w : Prop :=
  ∀ p pr, procs w !! p = Some pr → alive w p → ∃ k, pr = Call Dispatch k.

(** A user starts a process only when all is quiet, and no server in the
    foreground. *)
Inductive calmly : world → Prop :=
  | calm_nobody : calmly nobody
  | calm_step w w' :
      calmly w → step fslist w w' →
      (∀ p argv, history w' = Started p argv :: history w → quiet w ∧ no_foreground argv = true) →
      calmly w'.

Lemma calmly_reachable w : calmly w → reachable fslist w.
Proof. induction 1; [apply reach_nobody|by eapply reach_step]. Qed.

(** On the way to the PID file, or back from it. *)
Definition active (ph : phase) : bool :=
  match ph with Checking | Passing _ | Failing _ => true | _ => false end.

Definition contends (ph : phase) (id : bytes) : Prop := ph = Passing id ∨ ph = Failing id.

(** One process at a time is on its way; it has found no owner; an owner has
    created the PID file, which names it. *)
Record exclusive w φ : Prop := {
  ex_follows p pr : procs w !! p = Some pr → follows (φ p) pr;
  ex_active p q : alive w p → alive w q → active (φ p) = true → active (φ q) = true → p = q;
  ex_owning p id : alive w p → φ p = Owning id →
    holder id (history w) = Some p ∧ ∃ a, 0 <= a ∧ Called p (PidFileCreate id) a ∈ history w;
  ex_blocked p q id : alive w p → alive w q → contends (φ p) id → φ q ≠ Owning id;
  ex_called p id a : alive w p → Called p (PidFileCreate id) a ∈ history w →
    φ p ∈ [Owning id; Failing id; Idle]
}.

Definition update (φ : Z → phase) (p : Z) (ph : phase) : Z → phase :=
  λ q, if decide (q = p) then ph else φ q.

Lemma update_eq φ p ph : update φ p ph p = ph.
Proof. unfold update. by rewrite decide_True. Qed.

Lemma update_ne φ p q ph : q ≠ p → update φ p ph q = φ q.
Proof. intros. unfold update. by rewrite decide_False. Qed.

Lemma alive_insert w w' p pr q :
  procs w' = <[p := pr]> (procs w) → q ≠ p → alive w' q ↔ alive w q.
Proof. unfold alive. intros -> Hne. by rewrite lookup_insert_ne. Qed.

Lemma unborn_silent w p c a :
  reachable fslist w → procs w !! p = None → Called p c a ∉ history w.
Proof.
  intros Hw Hp Hc%own_called. rewrite (tr_fresh _ _ (reachable_traced _ _ Hw) _ Hp) in Hc.
  by apply elem_of_nil in Hc.
Qed.

(** A process that waits in its event loop owns its PID file. *)
Lemma dispatch_owning ph k : follows ph (Call Dispatch k) → ∃ id, ph = Owning id.
Proof. intros Hf. specialize (Hf 0). destruct ph; cbn in Hf; try done. by eexists. Qed.

Lemma exclusive_start w φ p argv :
  reachable fslist w → exclusive w φ → procs w !! p = None → quiet w → no_foreground argv = true →
  exclusive {| procs := <[p := main fslist argv]> (procs w);
               starts := <[p := main fslist argv]> (starts w);
               history := Started p argv :: history w |} (update φ p Checking).
Proof.
  intros Hw [Hf Ha Ho Hb Hc] Hp Hq Hargv. set (w' := {| procs := _ |}).
  assert (∀ q, q ≠ p → alive w' q ↔ alive w q) as Hal by (intros q; by eapply alive_insert).
  assert (∀ q, q ≠ p → alive w' q → active (φ q) = false) as Hidle.
  { intros q Hne Hqa%Hal; [|done]. destruct (procs w !! q) as [pr|] eqn:Eq.
    - destruct (Hq _ _ Eq Hqa) as [k ->]. by destruct (dispatch_owning _ _ (Hf _ _ Eq)) as [id ->].
    - unfold alive in Hqa. by rewrite Eq in Hqa. }
  split.
  - intros q pr Hpr. unfold w' in Hpr. cbn [procs] in Hpr. apply lookup_insert_Some in Hpr as [[<- <-]|[Hne Hpr]];
      [rewrite update_eq; by apply main_follows|].
    rewrite update_ne by done. by apply Hf.
  - intros q r Hqa Hra. unfold update. repeat case_decide; subst; try done; intros H1' H2';
      [by rewrite Hidle in H2'|by rewrite Hidle in H1'|by rewrite Hidle in H2'].
  - intros q id Hqa. unfold update. case_decide; [done|]. intros Hid.
    destruct (Ho q id) as (Hh & a & Ha0 & Hin); [by apply Hal|done|]. split; [done|].
    exists a. split; [done|by right].
  - intros q r id Hqa Hra Hcon. unfold update in Hcon.
    destruct (decide (q = p)) as [->|Hne]; [by destruct Hcon|].
    specialize (Hidle q Hne Hqa). by destruct Hcon as [E|E]; rewrite E in Hidle.
  - intros q id a Hqa [[=]|Hin]%elem_of_cons. unfold update. case_decide as Hd.
    + subst q. by apply unborn_silent in Hin.
    + apply (Hc q id a); [by apply Hal|done].
Qed.
(** What the calls do to the phase. *)
Lemma next_owning ph c a id :
  next_phase ph c a = Some (Owning id) →
  (ph = Passing id ∧ c = PidFileCreate id ∧ 0 <= a) ∨
  (ph = Owning id ∧ ∀ i, c ≠ PidFileCreate i ∧ c ≠ PidFileRemove i).
Proof.
  destruct ph, c; cbn; try done; try case_decide; try (destruct (Z.ltb_spec a 0)); naive_solver.
Qed.

Lemma next_contends ph c a ph' id :
  next_phase ph c a = Some ph' → contends ph' id →
  (ph = Checking ∧ c = PidFileIsRunning id ∧ a < 0) ∨ contends ph id.
Proof.
  unfold contends.
  destruct ph, c; cbn; try done; try case_decide; try (destruct (Z.ltb_spec a 0)); naive_solver.
Qed.

Lemma next_create ph i a ph' :
  next_phase ph (PidFileCreate i) a = Some ph' →
  ph = Passing i ∧ (ph' = Owning i ∨ ph' = Failing i).
Proof. destruct ph; cbn; try done. case_decide; [|done]. destruct (a <? 0); naive_solver. Qed.

Lemma next_remove ph i a ph' :
  next_phase ph (PidFileRemove i) a = Some ph' → ph = Failing i ∨ ph = Owning i.
Proof. destruct ph; cbn; try done; case_decide; naive_solver. Qed.

Lemma next_keeps ph c a ph' id :
  next_phase ph c a = Some ph' → ph ∈ [Owning id; Failing id; Idle] →
  ph' ∈ [Owning id; Failing id; Idle].
Proof.
  rewrite !elem_of_cons, elem_of_nil.
  intros Hn [->|[->|[->|[]]]]; destruct c; cbn in Hn; try done; try case_decide; naive_solver.
Qed.

Lemma next_active ph c a ph' :
  next_phase ph c a = Some ph' → active ph' = true → active ph = true.
Proof. destruct ph, c; cbn; try done; try case_decide; try destruct (a <? 0); naive_solver. Qed.

Lemma contends_active ph id : contends ph id → active ph = true.
Proof. by intros [->| ->]. Qed.

(** A call on another PID file, or on none. *)
Lemma holder_other id p c a h :
  c ≠ PidFileCreate id → c ≠ PidFileRemove id → holder id (Called p c a :: h) = holder id h.
Proof. intros Hc Hr. destruct c; cbn; try done; by rewrite decide_False by naive_solver. Qed.

(** A call leaves the PID file of the owners there are. *)
Lemma holder_kept w φ p c k a ph q id :
  exclusive w φ → procs w !! p = Some (Call c k) → next_phase (φ p) c a = Some ph →
  alive w q → φ q = Owning id → (q = p → ph = Owning id) →
  holder id (Called p c a :: history w) = Some q.
Proof.
  intros [_ _ Ho Hb _] Hp Hnext Hq Eq Hpq.
  assert (alive w p) as Hpa by (unfold alive; by rewrite Hp).
  rewrite holder_other; [by apply (Ho q id)|..]; intros ->.
  - apply next_create in Hnext as [E _]. apply (Hb p q id); auto. by left.
  - pose proof (next_remove _ _ _ _ Hnext) as [E|E].
    + apply (Hb p q id); auto. by right.
    + destruct (Ho p id Hpa E) as [Hhp _], (Ho q id Hq Eq) as [Hhq _].
      assert (q = p) as Epq by congruence. rewrite (Hpq Epq) in Hnext.
      by apply next_owning in Hnext as [(_ & [=] & _)|[_ Hn]]; destruct (Hn id).
Qed.

(** A call of one process keeps the processes apart. *)
Lemma exclusive_call w φ p c k a ph :
  exclusive w φ → procs w !! p = Some (Call c k) → answers w p c a →
  next_phase (φ p) c a = Some ph → follows ph (k a) →
  exclusive {| procs := <[p := k a]> (procs w); starts := starts w;
               history := Called p c a :: history w |} (update φ p ph).
Proof.
  intros Hex Hp Hans Hnext Hfollows. pose proof Hex as [Hf Ha Ho Hb Hc]. set (w' := {| procs := _ |}).
  assert (alive w p) as Hpa by (unfold alive; by rewrite Hp).
  assert (∀ q, alive w' q → alive w q) as Hwas.
  { intros q Hq. destruct (decide (q = p)) as [->|]; [done|].
    by apply (alive_insert w w' p (k a)) in Hq. }
  split.
  - intros q pr Hpr. unfold w' in Hpr. cbn [procs] in Hpr.
    apply lookup_insert_Some in Hpr as [[<- <-]|[Hne Hpr]]; [by rewrite update_eq|].
    rewrite update_ne by done. by apply Hf.
  - intros q r Hqa%Hwas Hra%Hwas. unfold update. repeat case_decide; subst; try done;
      [intros Hn%(next_active _ _ _ _ Hnext) ?|intros ? Hn%(next_active _ _ _ _ Hnext)|]; auto.
  - intros q id Hqa%Hwas. unfold update. destruct (decide (q = p)) as [->|Hne].
    + intros ->. pose proof (next_owning _ _ _ _ Hnext) as [(E & -> & Hr)|[E _]].
      * split; [cbn; by rewrite decide_True|]. exists a. split; [done|by left].
      * split; [by eapply holder_kept|]. destruct (Ho p id Hpa E) as (_ & b & ? & ?).
        exists b. split; [done|by right].
    + intros Eq. split; [by eapply holder_kept|]. destruct (Ho q id Hqa Eq) as (_ & b & ? & ?).
      exists b. split; [done|by right].
  - intros q r id Hqa%Hwas Hra%Hwas. unfold update.
    destruct (decide (q = p)) as [->|Hq], (decide (r = p)) as [->|Hr].
    + by intros [->| ->].
    + intros Hcon Er. destruct (next_contends _ _ _ _ _ Hnext Hcon) as [(_ & -> & Hneg)|Hcon'].
      * by eapply (running_sound _ _ _ _ r Hans Hneg); [apply Ho|].
      * by apply (Hb p r id).
    + intros Hcon ->. destruct (next_owning _ _ _ _ Hnext) as [(E & _)|[E _]]; [|by apply (Hb q p id)].
      apply Hq, Ha; auto; [by eapply contends_active|by rewrite E].
    + by apply Hb.
  - intros q id b Hqa%Hwas Hin. unfold update. destruct (decide (q = p)) as [->|Hne].
    + apply elem_of_cons in Hin as [[= <- <-]|Hin]; [|by eapply next_keeps, Hc].
      apply next_create in Hnext as [_ [->| ->]]; set_solver.
    + apply elem_of_cons in Hin as [[= -> _ _]|Hin]; [done|by eapply Hc].
Qed.

(** A process forks on its way; the child goes on. *)
Lemma exclusive_fork w φ p q k :
  reachable fslist w → exclusive w φ → procs w !! p = Some (Fork k) → procs w !! q = None → q ≠ 0 →
  ∃ φ', exclusive {| procs := <[q := k 0]> (<[p := k q]> (procs w)); starts := <[q := k 0]> (starts w);
                     history := Forked p q :: history w |} φ'.
Proof.
  intros Hw [Hf Ha Ho Hb Hc] Hp Hq Hq0. assert (q ≠ p) as Hqp by congruence.
  pose proof (Hf _ _ Hp) as Hpf. destruct (φ p) as [|id|id|id|] eqn:Eph; try done.
  destruct Hpf as [Hchild Hparent]. exists (update (update φ p Idle) q (Passing id)).
  set (w' := {| procs := _ |}). assert (alive w p) as Hpa by (unfold alive; by rewrite Hp).
  assert (∀ r, alive w' r → r ≠ q → alive w r) as Hwas.
  { intros r Hr Hne. unfold alive, w' in Hr. cbn [procs] in Hr. rewrite lookup_insert_ne in Hr by done.
    destruct (decide (r = p)) as [->|]; [done|]. by rewrite lookup_insert_ne in Hr. }
  assert (∀ r, alive w r → active (φ r) = true → r = p) as Hone
    by (intros r Hr Hra; apply Ha; [done|done|done|by rewrite Eph]).
  split.
  - intros r pr Hpr. unfold w' in Hpr. cbn [procs] in Hpr.
    apply lookup_insert_Some in Hpr as [[<- <-]|[Hne Hpr]]; [by rewrite update_eq|].
    rewrite update_ne by done.
    apply lookup_insert_Some in Hpr as [[<- <-]|[Hnp Hpr]]; [rewrite update_eq; by apply Hparent|].
    rewrite update_ne by done. by apply Hf.
  - intros r s Hr Hs. unfold update.
    repeat case_decide; subst; try done; intros H1' H2'; exfalso;
      match goal with
      | H : ?x ≠ p |- _ => apply H, Hone; auto
      end.
  - intros r i Hr. unfold update. repeat case_decide; try done. intros E.
    destruct (Ho r i) as (Hh & b & ? & ?); [auto|done|]. split; [done|]. exists b. split; [done|by right].
  - intros r s i Hr Hs Hcon. unfold update in *.
    destruct (decide (s = q)); [done|]. destruct (decide (s = p)); [done|].
    destruct (decide (r = q)).
    + destruct Hcon as [[= <-]|[=]]. apply (Hb p s id); [done|auto|by left].
    + destruct (decide (r = p)); [by destruct Hcon|]. apply (Hb r s i); auto.
  - intros r i b Hr Hin. apply elem_of_cons in Hin as [[=]|Hin]. unfold update.
    destruct (decide (r = q)) as [->|]; [by apply unborn_silent in Hin|].
    destruct (decide (r = p)) as [->|]; [set_solver|]. eapply Hc; [auto|exact Hin].
Qed.

(** A process is done with the PID file, without a call. *)
Lemma exclusive_leave w φ p pr e :
  exclusive w φ → follows Idle pr → (∀ q c a, e ≠ Called q c a) →
  let w' := {| procs := <[p := pr]> (procs w); starts := starts w; history := e :: history w |} in
  (alive w' p → alive w p) → exclusive w' (update φ p Idle).
Proof.
  intros [Hf Ha Ho Hb Hc] Hfollows He w' Hp.
  assert (∀ q, alive w' q → alive w q) as Hwas.
  { intros q Hq. destruct (decide (q = p)) as [->|]; [by apply Hp|].
    by apply (alive_insert w w' p pr) in Hq. }
  assert (∀ id, holder id (history w') = holder id (history w)) as Hh.
  { intros id. unfold w'. cbn [history]. destruct e as [| |q c a|]; try done. by destruct (He q c a). }
  split.
  - intros q qr Hq. unfold w' in Hq. cbn [procs] in Hq.
    apply lookup_insert_Some in Hq as [[<- <-]|[Hne Hq]]; [by rewrite update_eq|].
    rewrite update_ne by done. by apply Hf.
  - intros q r Hq%Hwas Hr%Hwas. unfold update. repeat case_decide; subst; try done; auto.
  - intros q id Hq%Hwas. rewrite Hh. unfold update. case_decide; [done|]. intros E.
    destruct (Ho q id Hq E) as (? & b & ? & ?). split; [done|]. exists b. split; [done|by right].
  - intros q r id Hq%Hwas Hr%Hwas. unfold update.
    repeat case_decide; subst; try done; [by intros [?|?]|]. by apply Hb.
  - intros q id a Hq%Hwas Hin. apply elem_of_cons in Hin as [Hin|Hin]; [by destruct (He _ _ _ (eq_sym Hin))|].
    unfold update. case_decide; [set_solver|]. by eapply Hc.
Qed.

Lemma calmly_exclusive w : calmly w → ∃ φ, exclusive w φ.
Proof.
  induction 1 as [|w w' Hw [φ Hex] Hs Hcalm].
  { assert (∀ p, ¬ alive nobody p) as Hd.
    { intros p. unfold alive. cbn. rewrite lookup_empty. tauto. }
    exists (λ _, Idle). split.
    { intros p pr Hp. cbn in Hp. by rewrite lookup_empty in Hp. }
    all: intros; exfalso; eapply Hd; eassumption. }
  apply calmly_reachable in Hw.
  destruct Hs as [w p argv Hp0 Hp|w p c k a Hp Hans|w p q k Hp Hq0 Hq|w p k Hp|w p pr Hp].
  - destruct (Hcalm p argv eq_refl) as [Hquiet Hfg]. eexists. by apply exclusive_start.
  - pose proof (ex_follows _ _ Hex _ _ Hp a) as Hf.
    destruct (next_phase (φ p) c a) as [ph|] eqn:En; [|done]. eexists. by eapply exclusive_call.
  - eapply exclusive_fork; [done..|lia].
  - pose proof (ex_follows _ _ Hex _ _ Hp) as Hf. eexists. apply exclusive_leave; [done| |done|].
    + destruct (φ p); try done. by apply Hf.
    + intros _. unfold alive. by rewrite Hp.
  - eexists. apply exclusive_leave; [done..|]. unfold alive. cbn. by rewrite lookup_insert_eq.
Qed.
End calm.

(** ** Theorems *)

Section theorems.
Context `{JsonC} `{Malloc} {tab cb fsd : Type} `{CbTable tab cb} `{FsData fsd} `{RedirectCb cb}.
Context `{ServerEnv} `{Stdio} `{EventLoop (ahttpd_server tab fsd)} `{Libdaemon} `{!LibdaemonLaws}.
Context (fslist : list (ahttpd_fs tab fsd)).
Implicit Types (w : world) (s : settings).

(** C4: A process that runs a server was not asked to kill one, was told
    that none is running, and has a configuration file of which a server can
    be made.  Without the daemon option it is the process a user started, and
    it has made no other call.  With the option it is the child of that
    process; it has closed its descriptors, created the PID file and sent its
    parent the value 0, in this order. *)
Theorem server_runs_after_checks w p k :
  reachable fslist w → procs w !! p = Some (Call Dispatch k) →
  ∃ argv s a, option_loop (getopt_long argv) initial = Some s ∧ do_kill s = 0 ∧ a < 0 ∧
    configured fslist (realpath (configfile s)) ∧
    ((do_daemonize s = 0 ∧ starts w !! p = Some (main fslist argv) ∧
      own p (history w) = [inl (PidFileIsRunning (serverid s), a)]) ∨
     (do_daemonize s ≠ 0 ∧ ∃ q b post r r' x,
        starts w !! q = Some (main fslist argv) ∧ Forked q p ∈ history w ∧ 0 <= b ∧
        own q (history w) = [inl (PidFileIsRunning (serverid s), a); inl (RetvalInit, b)] ++ inr p :: post ∧
        own p (history w) = [inl (CloseAll, r); inl (PidFileCreate (serverid s), r');
                             inl (RetvalSend 0, x)] ∧ 0 <= r ∧ 0 <= r')).
Proof.
  intros Hw Hp. pose proof (reachable_traced _ _ Hw) as Ht.
  assert (is_Some (starts w !! p)) as [pr Hpr] by (apply (tr_starts _ _ Ht); by rewrite Hp).
  destruct (tr_local _ _ Ht _ _ _ Hpr Hp) as (pr1 & Hr & [<-|]); [|done].
  destruct (tr_origin _ _ Ht _ _ Hpr) as [(argv & Hin & ->)|(q & Hin & Hf)].
  - destruct (main_calls _ _ _ _ Hr) as [[Hno _]|(s & a & es & Hs & Hk & Ha & -> & [[Hd Hr']|
      (Hd & b & es' & Hb & -> & Hr')])].
    + by destruct (Hno k).
    + apply start_server_dispatch in Hr' as [Hc He]. rewrite Hd in He. cbn in He. subst es.
      exists argv, s, a. split_and!; try done. left. by split_and!.
    + apply parent_calls in Hr' as [[_ ?]|(? & ? & _ & _ & Hno & _)]; [done|by destruct (Hno k)].
  - destruct (fork_point_main _ _ _ _ _ Hw Hf) as (argv & s & a & b & post & Hq & Hs & Hk & Hd & Ha & Hb & Ho & ->).
    destruct (child_calls _ _ _ _ _ Hd Hr) as [[_ Hno]|[(? & ? & _ & _ & Hno)|[(? & _ & _ & Hno)|
      (r & r' & es & He & H0r & [(_ & Hno & _)|[H0r' Hr']])]]]; try by destruct (Hno k).
    apply start_server_dispatch in Hr' as [Hc Hsend].
    rewrite (proj2 (Z.eqb_neq _ _) Hd) in Hsend. cbn in Hsend. destruct Hsend as [x ->].
    exists argv, s, a. split_and!; try done. right. split; [done|].
    exists q, b, post, r, r', x. by split_and!.
Qed.

(** C10: Two daemons with one identifier do not run at once when they are
    started one after the other: a start by a user comes only when every process
    that is alive waits in its event loop, and no server is started in the
    foreground.  Then a process that runs its event loop has created the PID
    file of an identifier, the file names it, and no other process that runs
    its event loop has called for the creation of that file. *)
Theorem daemons_exclusive w p k :
  calmly fslist w → procs w !! p = Some (Call Dispatch k) →
  ∃ id a, 0 <= a ∧ Called p (PidFileCreate id) a ∈ history w ∧ holder id (history w) = Some p ∧
    ∀ q k' b, procs w !! q = Some (Call Dispatch k') →
      Called q (PidFileCreate id) b ∈ history w → q = p.
Proof.
  intros [φ Hex]%calmly_exclusive Hp.
  assert (∀ q k', procs w !! q = Some (Call Dispatch k') → alive w q) as Hal
    by (intros q k' Hq; unfold alive; by rewrite Hq).
  destruct (dispatch_owning _ _ (ex_follows _ _ Hex _ _ Hp)) as [id E].
  destruct (ex_owning _ _ Hex p id) as (Hh & a & Ha & Hin); [by eapply Hal|done|].
  exists id, a. split_and!; try done. intros q k' b Hq Hqin.
  destruct (dispatch_owning _ _ (ex_follows _ _ Hex _ _ Hq)) as [id' E'].
  pose proof (ex_called _ _ Hex q id b (Hal _ _ Hq) Hqin) as Hph. rewrite E' in Hph.
  assert (id' = id) as -> by (rewrite !elem_of_cons, elem_of_nil in Hph; naive_solver).
  destruct (ex_owning _ _ Hex q id (Hal _ _ Hq) E') as [Hh' _]. congruence.
Qed.

Lemma waited_sent w p n a :
  reachable fslist w → Called p (RetvalWait n) a ∈ history w → 0 <= a →
  ∃ q r, 0 < q ∧ Forked p q ∈ history w ∧ Called q (RetvalSend a) r ∈ history w.
Proof.
  intros Hw Hin Ha. induction Hw as [|w w' Hw IH Hs]; [by apply elem_of_nil in Hin|].
  assert (Called p (RetvalWait n) a ∈ history w →
    ∃ q r, 0 < q ∧ Forked p q ∈ history w' ∧ Called q (RetvalSend a) r ∈ history w') as Hold.
  { intros (q & r & ? & ? & ?)%IH. exists q, r. split_and!; [done|by eapply history_step..]. }
  inversion Hs as [? ? ? ? ? E|? ? c ? b Hq Hans E|? ? ? ? ? ? ? E|? ? ? ? E|? ? ? ? E]; subst;
    cbn in Hin; apply elem_of_cons in Hin as [E|Hin]; try by apply Hold.
  injection E as <- <- <-. destruct (wait_sent _ _ _ _ Hans Ha) as (q & r & ? & ? & ?).
  exists q, r. split_and!; [done|by right..].
Qed.

(** C17: When a process reports that the server is up and running, its
    daemon either has created the PID file and has a configuration of which a
    server can be made, or it has failed to close its descriptors: the code
    of that error is the 0 of success. *)
Theorem start_report_sound w p a :
  reachable fslist w → Called p (Slog up_and_running) a ∈ history w →
  ∃ argv s q, starts w !! p = Some (main fslist argv) ∧
    option_loop (getopt_long argv) initial = Some s ∧ do_daemonize s ≠ 0 ∧ Forked p q ∈ history w ∧
    ((∃ r, r < 0 ∧ Called q CloseAll r ∈ history w) ∨
     (∃ r, 0 <= r ∧ Called q (PidFileCreate (serverid s)) r ∈ history w ∧
        configured fslist (realpath (configfile s)))).
Proof.
  intros Hw Hsay. pose proof (reachable_traced _ _ Hw) as Ht. pose proof Hsay as Hown%own_called.
  destruct (own_replay _ _ _ _ Ht Hown) as (pr0 & pr1 & Hp & Hr).
  destruct (reachable_starts _ _ _ _ Hw Hp) as [[argv ->]|(s & cf & Hd & ->)].
  2: { destruct (only_replay _ _ _ _ (child_only fslist s cf Hd) Hr) as [_ Hl].
       destruct (Hl _ Hown) as (? & ? & [= <- <-] & Hc). by destruct (Hc up_and_running). }
  destruct (main_calls _ _ _ _ Hr) as [[_ Hno]|(s & b & es & Hs & Hk & Hb & He & [[Hd Hr']|
    (Hd & b' & es' & Hb' & -> & Hr')])].
  - by destruct (Hno _ Hown).
  - rewrite He in Hown. apply elem_of_cons in Hown as [[=]|Hown].
    destruct (only_replay _ _ _ _ (start_server_only fslist s _) Hr') as [_ Hl].
    by destruct (Hl _ Hown) as (? & ? & [= <- <-] & [[? [=]]|[[=]|[? [=]]]]).
  - assert (inl (RetvalWait 5, 0) ∈ own p (history w)) as Hwait%own_called.
    { rewrite He in Hown |- *. do 2 apply elem_of_cons in Hown as [[=]|Hown].
      apply parent_calls in Hr' as [[-> _]|(q & es'' & -> & Hq & _ & Hsend)];
        [by apply elem_of_nil in Hown|]. apply elem_of_cons in Hown as [[=]|Hown].
      do 3 right. by eapply Hsend. }
    destruct (waited_sent _ _ _ _ Hw Hwait ltac:(done)) as (q & r & Hq & Hin & Hsent%own_called).
    destruct (tr_forked _ _ Ht _ _ Hin Hq) as (prq & Hprq & Hf).
    destruct (fork_point_main _ _ _ _ _ Hw Hf)
      as (argv' & s' & ? & ? & ? & Hp' & Hs' & _ & Hd' & _ & _ & _ & ->).
    exists argv', s', q. split_and!; try done.
    destruct (own_replay _ _ _ _ Ht Hsent) as (? & prq & Hq0 & Hrq). rewrite Hprq in Hq0. injection Hq0 as <-.
    destruct (child_calls _ _ _ _ _ Hd' Hrq) as [[He' _]|[(r1 & es1 & He' & Hr1 & _)|[(r1 & He' & _)|
      (r1 & r2 & es1 & He' & _ & [(_ & _ & Hno)|[Hr2 Hst]])]]]; rewrite He' in Hsent.
    + by apply elem_of_nil in Hsent.
    + left. exists r1. split; [done|]. apply own_called. rewrite He'. by left.
    + by apply elem_of_cons in Hsent as [[=]|?%elem_of_nil].
    + do 2 apply elem_of_cons in Hsent as [[=]|Hsent]. by destruct (Hno r).
    + do 2 apply elem_of_cons in Hsent as [[=]|Hsent]. right. exists r2. split; [done|].
      split; [|by eapply start_server_sends]. apply own_called. rewrite He'. by right; left.
Qed.

End theorems.

Section stop.
Context `{JsonC} `{!JsonCLaws} `{Malloc} {tab cb fsd : Type} `{CbTable tab cb} `{!CbTableLaws tab cb}.
Context `{FsData fsd} `{RedirectCb cb} `{ServerEnv} `{Stdio} `{EventLoop (ahttpd_server tab fsd)}.
Context (fslist : list (ahttpd_fs tab fsd)).
Implicit Types (s : settings).

Lemma run_server_dispatched s fl srv es a pr :
  replay (run_server s fl srv) (es ++ [inl (Dispatch, a)]) = Some pr →
  pr = match ahttpd_server_destroy fl (dispatched srv) with
       | Ok _ => bailout s | Fault f => Crash f end.
Proof.
  intros E. unfold run_server in E. next es E; [by injection E as <-|].
  exfalso. destruct (ahttpd_server_destroy fl _).
  - destruct (only_replay _ _ _ _ (bailout_only s) E) as [_ Hcalls].
    destruct (Hcalls (inl (Dispatch, a))) as (? & ? & [= <- <-] & [? [=]]).
    apply elem_of_app. right. by left.
  - by destruct es as [|[[]|]].
Qed.

(** C22: When the event loop of a server ends and the configuration gives the
    host, the filesystems are unmounted, and if none of them faults the next
    thing the process does is to remove the PID file of its identifier, and
    then it exits with 0; a fault of a filesystem is a crash there, and the PID
    file is left behind.  Without a host the process always crashes there and
    leaves the PID file behind. *)
Theorem end_of_server s cf l es a pr :
  (∀ srv, host (dispatched srv) = host srv) → json_load_from_file cf = Ok (JObject l) → NoDup l.*1 →
  replay (start_server fslist s cf) (es ++ [inl (Dispatch, a)]) = Some pr →
  ∃ fl srv, ahttpd_server_create fslist (JObject l) = Ok (fl, srv) ∧
  match conf_string l "host" with
  | Some _ =>
      match unmount_all fl (length (mountpoints (dispatched srv))) (dispatched srv) with
      | Ok _ => ∃ k, pr = Call (PidFileRemove (serverid s)) k ∧ ∀ x, k x = Exit 0
      | Fault f => pr = Crash f
      end
  | None => ∃ f, pr = Crash f
  end.
Proof.
  intros Hkeep Hload Hnd E. destruct (start_server_cases fslist s cf) as [Ho|(conf & fl & srv & Hl & _ & Hc & Hs)].
  { destruct (only_replay _ _ _ _ Ho E) as [_ Hcalls].
    destruct (Hcalls (inl (Dispatch, a))) as (? & ? & [= <- <-] & [?|[]]); [|done..].
    apply elem_of_app. right. by left. }
  rewrite Hload in Hl. injection Hl as <-. exists fl, srv. split; [done|].
  assert (pr = match ahttpd_server_destroy fl (dispatched srv) with
               | Ok _ => bailout s | Fault f => Crash f end) as ->.
  { rewrite Hs in E. destruct (negb _); [|by eapply run_server_dispatched].
    next es E. by eapply run_server_dispatched. }
  unfold ahttpd_server_destroy. pose proof (create_host _ _ _ _ Hnd Hc) as Hh.
  rewrite <-(Hkeep srv) in Hh.
  destruct (unmount_all fl _ (dispatched srv)) as [srv'|f] eqn:Eu;
    [|rewrite bind_Fault; destruct (conf_string l "host"); [done|by eexists]].
  rewrite bind_Ok. apply unmount_all_host in Eu as [-> _]. rewrite Hh.
  destruct (conf_string l "host"); [by eexists|]. by eexists.
Qed.
End stop.

(** ** Runs *)

(** A schedule: which process has its turn. *)
Inductive turn :=
  | TStart (p : Z) (argv : list bytes)
  | TCall (p : Z)
  | TFork (p q : Z).

#[export] Instance event_eq_decision : EqDecision event.
Proof. solve_decision. Defined.

#[export] Instance alive_dec w p : Decision (alive w p).
Proof. unfold alive. destruct (procs w !! p) as [[]|]; apply _. Defined.

Module MainRun.
(** A libdaemon that does what its manual promises. *)
Definition sent (p : Z) (h : list event) : option Z :=
  head (omap (λ e,
    match e with
    | Called q (RetvalSend v) _ => if bool_decide (0 < q ∧ Forked p q ∈ h) then Some v else None
    | _ => None
    end) h).

Definition answer (w : world) (p : Z) (c : call) : Z :=
  match c with
  | PidFileIsRunning id =>
      match holder id (history w) with
      | Some q => if decide (alive w q) then Z.max 0 q else -1
      | None => -1
      end
  | PidFileCreate id =>
      match holder id (history w) with
      | Some q => if decide (alive w q) then -1 else 0
      | None => 0
      end
  | RetvalWait _ => default (-1) (sent p (history w))
  | _ => 0
  end.

#[export] Instance ref_libdaemon : Libdaemon := { answers w p c a := a = answer w p c }.

#[export] Instance ref_libdaemon_laws : LibdaemonLaws.
Proof.
  split.
  - intros w p id a q Hans Ha Hq Halive. cbn in Hans.
    rewrite Hq, decide_True in Hans by done. lia.
  - intros w p id a q Hans Ha Hq Halive. cbn in Hans.
    rewrite Hq, decide_True in Hans by done. lia.
  - intros w p n a Hans Ha. cbn in Hans.
    destruct (sent p (history w)) as [v|] eqn:E; cbn in Hans; subst a; [|lia].
    unfold sent in E. apply head_Some_elem_of, list_elem_of_omap in E as (e & He & E).
    destruct e as [| |q c r|]; try done. destruct c; try done.
    case_bool_decide as Hq; [|done]. injection E as ->. destruct Hq as [? ?]. by exists q, r.
Defined.

#[export] Instance ref_event_loop {server} : EventLoop server := { dispatched s := s }.

Definition run_main := @main ConfigRun.ref_json Recorder.ref_malloc ServerRun.tab bytes unit
  RefCb.ref_table ServerRun.ref_fsdata ServerRun.ref_redirect ServerRun.ref_env
  ConfigRun.ref_stdio ref_event_loop [].

Definition run_reachable := @reachable ConfigRun.ref_json Recorder.ref_malloc ServerRun.tab bytes unit
  RefCb.ref_table ServerRun.ref_fsdata ServerRun.ref_redirect ServerRun.ref_env
  ConfigRun.ref_stdio ref_event_loop ref_libdaemon [].

Definition take_turn (w : world) (t : turn) : option world :=
  match t with
  | TStart p argv =>
      if decide (0 < p ∧ procs w !! p = None)
      then Some {| procs := <[p := run_main argv]> (procs w); starts := <[p := run_main argv]> (starts w);
                   history := Started p argv :: history w |}
      else None
  | TCall p =>
      match procs w !! p with
      | Some (Call c k) =>
          let a := answer w p c in
          Some {| procs := <[p := k a]> (procs w); starts := starts w;
                  history := Called p c a :: history w |}
      | _ => None
      end
  | TFork p q =>
      match procs w !! p with
      | Some (Fork k) =>
          if decide (0 < q ∧ procs w !! q = None)
          then Some {| procs := <[q := k 0]> (<[p := k q]> (procs w));
                       starts := <[q := k 0]> (starts w); history := Forked p q :: history w |}
          else None
      | _ => None
      end
  end.

Fixpoint take_turns (w : world) (ts : list turn) : option world :=
  match ts with
  | [] => Some w
  | t :: ts => w ← take_turn w t; take_turns w ts
  end.

(** A start of a daemon up to the call in which it creates the PID file. *)
Definition start_daemon (p q : Z) : list turn :=
  [TStart p [str "-d"]; TCall p; TCall p; TFork p q; TCall q].

(** A daemon that runs, and its parent that has said so. *)
Definition one_daemon : list turn :=
  start_daemon 10 11 ++ [TCall 11; TCall 11; TCall 10; TCall 10].

(** Two starts at once; the one that comes second removes the PID file, and
    a third finds none. *)
Definition race : list turn :=
  start_daemon 10 11 ++ start_daemon 20 21 ++
  [TCall 11; TCall 11; TCall 21; TCall 21; TCall 21] ++ start_daemon 30 31 ++ [TCall 31; TCall 31].

(** Two daemons, each started when all is quiet, and one more start. *)
Definition one_by_one : list turn :=
  one_daemon ++
  [TStart 20 [str "-d"; str "--serverid=two"]; TCall 20; TCall 20; TFork 20 21; TCall 21;
   TCall 21; TCall 21; TCall 20; TCall 20] ++
  [TStart 30 [str "-d"]; TCall 30].

Definition quiet_now (w : world) : bool :=
  forallb (λ pp, match pp.2 with Exit _ | Crash _ | Call Dispatch _ => true | _ => false end)
    (map_to_list (procs w)).

(** The starts of a schedule come when all is quiet. *)
Fixpoint calm_turns (w : world) (ts : list turn) : bool :=
  match ts with
  | [] => true
  | t :: ts =>
      match t with TStart _ argv => quiet_now w && no_foreground argv | _ => true end &&
      match take_turn w t with Some w => calm_turns w ts | None => false end
  end.

Definition run_calmly := @calmly ConfigRun.ref_json Recorder.ref_malloc ServerRun.tab bytes unit
  RefCb.ref_table ServerRun.ref_fsdata ServerRun.ref_redirect ServerRun.ref_env
  ConfigRun.ref_stdio ref_event_loop ref_libdaemon [].

Lemma quiet_now_quiet w : quiet_now w = true → quiet w.
Proof.
  unfold quiet_now. rewrite forallb_forall. intros Hq p pr Hp Ha.
  specialize (Hq (p, pr)). cbn in Hq. rewrite <-list_elem_of_In, elem_of_map_to_list in Hq.
  specialize (Hq Hp). unfold alive in Ha. rewrite Hp in Ha.
  destruct pr as [| |c k|]; try done. destruct c; try done. by exists k.
Qed.

Lemma take_turn_step w t w' :
  take_turn w t = Some w' →
  @step ConfigRun.ref_json Recorder.ref_malloc ServerRun.tab bytes unit
    RefCb.ref_table ServerRun.ref_fsdata ServerRun.ref_redirect ServerRun.ref_env
    ConfigRun.ref_stdio ref_event_loop ref_libdaemon [] w w' ∧
  ∀ p argv, history w' = Started p argv :: history w → t = TStart p argv.
Proof.
  destruct t as [p argv|p|p q]; cbn; intros E.
  - case_decide as Hd; [|done]. destruct Hd. simplify_eq. split; [by apply step_start|]. cbn. congruence.
  - destruct (procs w !! p) as [[]|] eqn:Ep; try done. simplify_eq. split; [by apply step_call|]. done.
  - destruct (procs w !! p) as [[]|] eqn:Ep; try done. case_decide as Hd; [|done].
    destruct Hd. simplify_eq. split; [by apply step_fork|]. done.
Qed.

Lemma take_turns_reachable w ts w' :
  run_reachable w → take_turns w ts = Some w' → run_reachable w'.
Proof.
  revert w. induction ts as [|t ts IH]; intros w Hw E; cbn in E; [by simplify_eq|].
  apply bind_Some in E as (w1 & E1 & E). apply (IH w1); [|done].
  eapply reach_step; [done|]. by apply (take_turn_step w t).
Qed.

Lemma calm_turns_calmly w ts w' :
  run_calmly w → calm_turns w ts = true → take_turns w ts = Some w' → run_calmly w'.
Proof.
  revert w. induction ts as [|t ts IH]; intros w Hw Hc E; cbn in Hc, E; [by simplify_eq|].
  apply bind_Some in E as (w1 & E1 & E). rewrite E1 in Hc. apply andb_true_iff in Hc as [Ht Hc].
  apply (IH w1); [|done..]. destruct (take_turn_step _ _ _ E1) as [Hs Hstart].
  eapply calm_step; [done..|]. intros p argv ->%Hstart. apply andb_true_iff in Ht as [Hq Hf].
  split; [by apply quiet_now_quiet|done].
Qed.

Definition after_turns (ts : list turn) : world := default nobody (take_turns nobody ts).

Definition dispatching (w : world) (p : Z) : bool :=
  match procs w !! p with Some (Call Dispatch _) => true | _ => false end.

Lemma after_turns_reachable ts :
  is_Some (take_turns nobody ts) → run_reachable (after_turns ts).
Proof.
  intros [w E]. unfold after_turns. rewrite E. by eapply take_turns_reachable; [apply reach_nobody|].
Qed.

Lemma dispatching_Some w p :
  dispatching w p = true → ∃ k, procs w !! p = Some (Call Dispatch k).
Proof.
  unfold dispatching. destruct (procs w !! p) as [[| |c k|]|]; try done. destruct c; try done. by exists k.
Qed.

Definition ident : bytes := str "aurahttpd".

#[export] Instance ref_json_laws : @JsonCLaws ConfigRun.ref_json.
Proof. destruct RefJson.ref_json_laws. by split. Defined.
End MainRun.

Import MainRun.

(** C19: Under a libdaemon that keeps its promises two daemons with one
    identifier can run at once.  A daemon whose PID file cannot be created,
    because another one was faster, removes the file of that other one; the
    next start then finds none. *)
Theorem lost_race_unlocks :
  ∃ w k k', run_reachable w ∧
    procs w !! 11 = Some (Call Dispatch k) ∧ Called 11 (PidFileCreate ident) 0 ∈ history w ∧
    procs w !! 31 = Some (Call Dispatch k') ∧ Called 31 (PidFileCreate ident) 0 ∈ history w ∧
    Called 21 (PidFileCreate ident) (-1) ∈ history w ∧ Called 21 (PidFileRemove ident) 0 ∈ history w.
Proof.
  assert (is_Some (take_turns nobody race)) as Hr by (apply is_Some_alt; vm_compute; done).
  destruct (dispatching_Some (after_turns race) 11) as [k Hk]; [by vm_compute|].
  destruct (dispatching_Some (after_turns race) 31) as [k' Hk']; [by vm_compute|].
  exists (after_turns race), k, k'. split; [exact (after_turns_reachable _ Hr)|].
  split; [exact Hk|]. split; [decide_vm|]. split; [exact Hk'|]. split; [decide_vm|].
  split; decide_vm.
Qed.

(** ** Witnesses *)

Definition ran : world := after_turns one_daemon.

Lemma ran_reachable : run_reachable ran.
Proof. apply after_turns_reachable, is_Some_alt. vm_compute. done. Qed.

Definition calm : world := after_turns one_by_one.

Lemma calm_calmly : run_calmly calm.
Proof.
  assert (is_Some (take_turns nobody one_by_one)) as [w E] by (apply is_Some_alt; vm_compute; done).
  unfold calm, after_turns. rewrite E. eapply (calm_turns_calmly nobody one_by_one);
    [apply calm_nobody|vm_compute; reflexivity|exact E].
Qed.

Lemma server_runs_after_checks_witness :
  ∃ argv s a, option_loop (getopt_long argv) initial = Some s ∧ do_kill s = 0 ∧ a < 0 ∧
    @configured ConfigRun.ref_json Recorder.ref_malloc ServerRun.tab bytes unit RefCb.ref_table
      ServerRun.ref_fsdata ServerRun.ref_redirect ServerRun.ref_env ConfigRun.ref_stdio []
      (@realpath ConfigRun.ref_stdio (configfile s)) ∧
    ((do_daemonize s = 0 ∧ starts ran !! 11 = Some (run_main argv) ∧
      own 11 (history ran) = [inl (PidFileIsRunning (serverid s), a)]) ∨
     (do_daemonize s ≠ 0 ∧ ∃ q b post r r' x,
        starts ran !! q = Some (run_main argv) ∧ Forked q 11 ∈ history ran ∧ 0 <= b ∧
        own q (history ran) =
          [inl (PidFileIsRunning (serverid s), a); inl (RetvalInit, b)] ++ inr 11 :: post ∧
        own 11 (history ran) = [inl (CloseAll, r); inl (PidFileCreate (serverid s), r');
                                inl (RetvalSend 0, x)] ∧ 0 <= r ∧ 0 <= r')).
Proof.
  destruct (dispatching_Some ran 11) as [k Hk]; [vm_compute; reflexivity|].
  exact (@server_runs_after_checks ConfigRun.ref_json Recorder.ref_malloc ServerRun.tab bytes unit
    RefCb.ref_table ServerRun.ref_fsdata ServerRun.ref_redirect ServerRun.ref_env
    ConfigRun.ref_stdio ref_event_loop ref_libdaemon [] ran 11 k ran_reachable Hk).
Defined.

Lemma start_report_sound_witness :
  ∃ argv s q, starts ran !! 10 = Some (run_main argv) ∧
    option_loop (getopt_long argv) initial = Some s ∧ do_daemonize s ≠ 0 ∧ Forked 10 q ∈ history ran ∧
    ((∃ r, r < 0 ∧ Called q CloseAll r ∈ history ran) ∨
     (∃ r, 0 <= r ∧ Called q (PidFileCreate (serverid s)) r ∈ history ran ∧
        @configured ConfigRun.ref_json Recorder.ref_malloc ServerRun.tab bytes unit RefCb.ref_table
          ServerRun.ref_fsdata ServerRun.ref_redirect ServerRun.ref_env ConfigRun.ref_stdio []
          (@realpath ConfigRun.ref_stdio (configfile s)))).
Proof.
  apply (@start_report_sound ConfigRun.ref_json Recorder.ref_malloc ServerRun.tab bytes unit
    RefCb.ref_table ServerRun.ref_fsdata ServerRun.ref_redirect ServerRun.ref_env
    ConfigRun.ref_stdio ref_event_loop ref_libdaemon ref_libdaemon_laws [] ran 10 0).
  - exact ran_reachable.
  - decide_vm.
Defined.

(** Two daemons of different identifiers that run, and a refused start of a
    third with the identifier of the first. *)
Lemma daemons_exclusive_witness :
  dispatching calm 11 = true ∧ dispatching calm 21 = true ∧ procs calm !! 30 = Some (Exit 1) ∧
  (∃ id a, 0 <= a ∧ Called 11 (PidFileCreate id) a ∈ history calm ∧
    holder id (history calm) = Some 11 ∧
    ∀ q k' b, procs calm !! q = Some (Call Dispatch k') →
      Called q (PidFileCreate id) b ∈ history calm → q = 11).
Proof.
  split; [vm_compute; reflexivity|]. split; [vm_compute; reflexivity|].
  split; [vm_compute; reflexivity|].
  destruct (dispatching_Some calm 11) as [k Hk]; [vm_compute; reflexivity|].
  exact (@daemons_exclusive ConfigRun.ref_json Recorder.ref_malloc ServerRun.tab bytes unit
    RefCb.ref_table ServerRun.ref_fsdata ServerRun.ref_redirect ServerRun.ref_env
    ConfigRun.ref_stdio ref_event_loop ref_libdaemon ref_libdaemon_laws [] calm 11 k calm_calmly Hk).
Defined.

(** A configuration with a host and one without. *)
Lemma end_of_server_witness :
  (∃ fl srv, @ahttpd_server_create ConfigRun.ref_json Recorder.ref_malloc ServerRun.tab bytes unit
    RefCb.ref_table ServerRun.ref_fsdata ServerRun.ref_redirect ServerRun.ref_env []
      (JObject [(str "host", JString (str "0.0.0.0"))]) = Ok (fl, srv) ∧
   ∃ k, replay (@start_server ConfigRun.ref_json Recorder.ref_malloc ServerRun.tab bytes unit
    RefCb.ref_table ServerRun.ref_fsdata ServerRun.ref_redirect ServerRun.ref_env
    ConfigRun.ref_stdio ref_event_loop [] initial (Some (str "/etc/hosted"))) ([] ++ [inl (Dispatch, 0)]) =
      Some (Call (PidFileRemove ident) k) ∧ ∀ x, k x = Exit 0) ∧
  (∃ fl srv, @ahttpd_server_create ConfigRun.ref_json Recorder.ref_malloc ServerRun.tab bytes unit
    RefCb.ref_table ServerRun.ref_fsdata ServerRun.ref_redirect ServerRun.ref_env [] (JObject []) =
      Ok (fl, srv) ∧
   ∃ f, replay (@start_server ConfigRun.ref_json Recorder.ref_malloc ServerRun.tab bytes unit
    RefCb.ref_table ServerRun.ref_fsdata ServerRun.ref_redirect ServerRun.ref_env
    ConfigRun.ref_stdio ref_event_loop [] initial (Some (str "/etc/a"))) ([] ++ [inl (Dispatch, 0)]) =
      Some (Crash f)).
Proof.
  split.
  - destruct (replay (@start_server ConfigRun.ref_json Recorder.ref_malloc ServerRun.tab bytes unit
      RefCb.ref_table ServerRun.ref_fsdata ServerRun.ref_redirect ServerRun.ref_env
      ConfigRun.ref_stdio ref_event_loop [] initial (Some (str "/etc/hosted"))) ([] ++ [inl (Dispatch, 0)]))
      as [pr|] eqn:E; [|vm_compute in E; discriminate E].
    destruct (@end_of_server ConfigRun.ref_json ref_json_laws Recorder.ref_malloc ServerRun.tab bytes unit
      RefCb.ref_table RefCb.ref_table_laws ServerRun.ref_fsdata ServerRun.ref_redirect ServerRun.ref_env
      ConfigRun.ref_stdio ref_event_loop [] initial (Some (str "/etc/hosted"))
      [(str "host", JString (str "0.0.0.0"))] [] 0 pr)
      as (fl & srv & Hc & Hend).
    + reflexivity.
    + vm_compute. reflexivity.
    + decide_vm.
    + exact E.
    + exists fl, srv. split; [exact Hc|].
      assert (match @ahttpd_server_create ConfigRun.ref_json Recorder.ref_malloc ServerRun.tab bytes
          unit RefCb.ref_table ServerRun.ref_fsdata ServerRun.ref_redirect ServerRun.ref_env []
          (JObject [(str "host", JString (str "0.0.0.0"))]) with
        | Ok (fl, srv) => is_ok (unmount_all fl (length (mountpoints (dispatched srv))) (dispatched srv))
        | Fault _ => false end = true) as Hok by (vm_compute; reflexivity).
      rewrite Hc in Hok. apply is_ok_inv in Hok as [x Hx].
      cbn [conf_string] in Hend. rewrite Hx in Hend.
      destruct Hend as (k & -> & Hk). exists k. split; [reflexivity|exact Hk].
  - destruct (replay (@start_server ConfigRun.ref_json Recorder.ref_malloc ServerRun.tab bytes unit
      RefCb.ref_table ServerRun.ref_fsdata ServerRun.ref_redirect ServerRun.ref_env
      ConfigRun.ref_stdio ref_event_loop [] initial (Some (str "/etc/a"))) ([] ++ [inl (Dispatch, 0)]))
      as [pr|] eqn:E; [|vm_compute in E; discriminate E].
    destruct (@end_of_server ConfigRun.ref_json ref_json_laws Recorder.ref_malloc ServerRun.tab bytes unit
      RefCb.ref_table RefCb.ref_table_laws ServerRun.ref_fsdata ServerRun.ref_redirect ServerRun.ref_env
      ConfigRun.ref_stdio ref_event_loop [] initial (Some (str "/etc/a")) [] [] 0 pr)
      as (fl & srv & Hc & f & ->).
    + reflexivity.
    + vm_compute. reflexivity.
    + constructor.
    + exact E.
    + exists fl, srv. split; [exact Hc|]. exists f. reflexivity.
Defined.
